(* ===== verification/_CoqProject ===== *)
-Q . S2P
Prelude.v
Numbers.v
Floats.v
Intervals.v
Times.v
Types.v
CompactPath.v
Schema.v
Db.v
Sample.v
EventDb.v
CompactEvent.v
Figures.v
SetState.v
RoomDb.v
EditionDb.v
AgentDb.v
Integrity.v
Errors.v
Effects.v
Concurrency.v
AdjustRoom.v
CommitEdition.v
Service.v
NatsConsumer.v
EventEndpoint.v
AgentEndpoint.v
EditionEndpoint.v
RoomEndpoint.v
Http.v
Scenarios.v
Router.v
Metrics.v
Transport.v
Startup.v
Payloads.v
Answers.v
Storage.v
Broker.v
Sessions.v
TestHelpers.v
EventTests.v
RoomTests.v
StateTests.v
AgentTests.v
MaintenanceTests.v
EditionTests.v
AdjustTests.v
CommitTests.v
DbTests.v
PayloadTests.v
Tests.v
