(* ===== verification/Prelude.v ===== *)
(** * The event service: a verification library

    The service ([src/src], Rust) keeps the events of on-line classrooms.  A room
    is a stretch of time in a classroom; events happen in it (messages, drawings,
    cuts of the video stream, ...), agents enter and leave it and may be banned;
    the state of a room is reconstructed from the last versions of its labelled
    events.  After a class the recording's segments are applied to the events
    ([room.adjust]), and an editor's changes make a new room ([edition.commit]).
    Requests come over MQTT and HTTP; everything is stored in PostgreSQL.

    ** How the program is modelled

    A query of [src/src/db] is a function from what the server supplies
    ([Db.qctx]: [NOW()], generated identifiers) and the database ([Types.database]:
    one list of rows per table) to a result and a database; the SQL is written
    with the operators of [Db], the constraints and the trigger of
    [src/migrations] included.  Operations and handlers are computations of the
    monad [Effects.M]: the finite tree of the uses they make of the outside, each
    a statement or a transaction, a look at the clock, a call of another service.
    Run alone ([Effects.exec]) a computation threads a world ([Effects.world]: the
    database, the number of the next use, the requests sent to other services, what
    has been reported to Sentry)
    and reads an environment ([Effects.env]); in a pool ([Concurrency]) the uses
    of several computations interleave in any order.  The environment answers each
    use of the outside as a function of its number: the clock, what a statement
    takes from the server, a failure of the connection, the authorization
    service, the read replica, the broker, the storage.  A theorem for all
    environments therefore covers every clock, every pattern of faults and every
    answer of the other services.  Errors are values: [sqlx_error] of a query,
    [op_error] of an operation (panics included), [ErrorKind] of a handler.

    ** Files

    - [Prelude]: machine integers, sorting, lists, tactics.
    - [Numbers]: numbers in text, as [FromStr] of the integers reads them.
    - [Floats]: [f32] and [f64] on the Standard Library's [SpecFloat], with the
      rounding lemmas the drawings need.
    - [Intervals]: ranges of the timeline ([adjust_room/intersect.rs], and
      [invert_segments] of [adjust_room.rs]).
    - [Times]: [db/room_time.rs], and the wire formats of ranges in [serde.rs].
    - [Types], [Db]: the rows and objects of [db], SQL, the trigger and the
      constraints of [event].
    - [EventDb], [SetState], [RoomDb], [EditionDb], [AgentDb]: the queries of
      [db/event/mod.rs], [db/event/set_state.rs], [db/room.rs], [db/edition.rs] and
      [db/change.rs], [db/agent.rs], [db/room_ban.rs] and [db/adjustment.rs], one
      Module per query (or per table), one Definition per setter and [execute].
    - [Integrity]: keys, references and checks as one invariant of the database.
    - [Effects]: the monad, the reports to Sentry, what a computation does to the database, transactions.
    - [Errors]: [app/error.rs].
    - [Concurrency]: pools of computations, and what can be shown of a session
      whatever the others do.
    - [AdjustRoom], [CommitEdition]: [app/operations/adjust_room.rs] and
      [app/operations/commit_edition.rs], the SQL statements included.
    - [Service]: [app/service_utils.rs],
      [app/endpoint/helpers.rs], [app/endpoint/authz/mod.rs], [app/context.rs],
      [app/broker_client.rs].
    - [EventEndpoint], [AgentEndpoint], [EditionEndpoint], [RoomEndpoint]: the
      handlers of [app/endpoint], one Module per handler, with [dump_events_to_s3]
      and [vacuum] of [app/operations].
    - [CompactPath], [Schema], [CompactEvent]: [db/event/schema.rs] (the paths and
      their arithmetic, the JSON schema of figures, the two compact forms) and
      [db/event/binary_encoding.rs]; [CompactEvent.schema_codec] is an instance of
      the interface [Types.EventCodec] the event queries are written against.
    - [NatsConsumer]: [app/nats_consumer.rs], the task and its loops as functions
      of what they are offered.
    - [Scenarios]: what a request does to a later one.
    - [Http]: the functions of [app/endpoint] the HTTP routes lead to, which put the
      parts of a request together for the handlers.
    - [Router]: [app/endpoint/mod.rs], [app/message_handler.rs], the routes of
      [app/http.rs]; the theorems about every request.
    - [Transport]: the publishing of messages on both interfaces, the middleware
      of [app/http.rs], the message loop and the subscriptions of [app/mod.rs].
    - [Startup]: [main.rs], [db/mod.rs], the context and its builder, [run] of
      [app/mod.rs], the credentials of [s3_client.rs].
    - [Payloads]: what serde derives for the payload of every request, as documents
      of the MQTT interface and as bodies and query strings of the HTTP one.
    - [Answers]: what serde derives for the payloads the service sends, and how the
      objects of [db] are read from them.
    - [Storage], [Broker]: the task of [s3_client.rs], its callers and its uploads;
      the HTTP client of [broker_client.rs].
    - [Metrics]: [metrics.rs], and what the message loop counts.
    - [Sessions]: any requests of the service at the same time.
    - [Sample]: concrete instances and rows the witnesses are evaluated with.
    - [TestHelpers], [Figures]: [test_helpers] and the test figures of
      [db/event/schema.rs].
    - [EventTests], [StateTests], [RoomTests], [AgentTests], [EditionTests],
      [MaintenanceTests], [AdjustTests], [CommitTests], [DbTests], [PayloadTests],
      [Tests]: the tests of the repository as computations the definitions run.

    ** What the theorems show

    - Every request: the integrity of the database is kept whatever is asked, by
      requests, events of the broker and NATS messages, at the same time, in any
      order and with any faults; nothing is done before it is authorized
      ([Sessions]); every request is answered once ([Router]).  Its basis is that
      every statement keeps the integrity ([Integrity]).  A request that is taken on
      the HTTP interface is taken on the other one, with the same effect, the same
      notifications and the same answer, when it is one of those that send a document
      and that have an MQTT method ([Payloads]).
    - Objects on the wire: what is kept of a room, an event, a change and an edition
      when they are read from a notification or an answer ([Answers]).
    - Concurrent requests: of any number of adjustments of a room one succeeds; an
      acknowledged message stays recorded; two locks at the same time may lose one,
      as a sample shows ([Sessions]).
    - Transport: what becomes of each message on the MQTT interface, publications
      that fail and unreadable messages included; one answer per request through
      the whole loop; HTTP answers independent of publications ([Transport]); the
      counters agree with the tasks, however they interleave ([Metrics]).
    - Start and end: which variables make which pools and when the start panics;
      [run] does its steps in order, stops at the first failure, announces the stop
      before it waits and waits for what it has started ([Startup]).
    - NATS: what handling a message does, and that the consumer refines an abstract
      recorder of entities: acknowledged means recorded, once, whatever is
      delivered again; every message is answered, the loops end at the shutdown
      and at nothing else, the suspensions double up to their maximum and wrap
      around; without a connection to the database every message is returned, and
      the failures of the subscription are reported once in an interval
      ([NatsConsumer]).
    - Storage: a call is answered once, with the result of its own upload, and
      nothing waits in vain ([Storage]).
    - Drawings: every stored figure can be served and what is served reads as the
      figure it is restored as; a figure without a path is restored exactly; when
      a figure with a path is refused and what of it is exact; the coordinates of
      a path are ten-thousandths of its box, rounded down; what storing a
      coordinate twice loses ([CompactEvent], [CompactPath]).
    - Handlers: what a successful [event.create], [state.read], [room.enter],
      [change.create], end of a subscription and dump have checked and done; a
      locked type and a ban are enforced on later requests.
    - State: [state.read]'s query returns exactly the last unremoved versions, the
      filter by attribute and the total count agree with it ([SetState]).
    - Events: insertion and the trigger's originals, listing and its pagination,
      what the vacuum may delete ([EventDb]).
    - Adjustment: the shifted time of an event is its position in the recording,
      shifting counts the kept time, events moved to one instant are set apart in the order of their
      creation, which may move one past a later instant, cut events give
      the gaps of the reference definition; what the operation produces, on
      success and without segments, where it never succeeds ([AdjustRoom], [Intervals]).
    - Commit: merged gaps are the instants where a cut is open, the rows copied,
      what a commit produces; it is all or nothing ([CommitEdition]).
    - Conformance: the definitions pass the 152 tests the repository has for the code
      they model ([Tests.tests_pass]).
    - Rooms: decoding inverts encoding, what an update sets, when a room is open;
      the policy of changing its time; round trips of the wire formats ([RoomDb],
      [Times]).

    Behaviour that differs from what a comment or a document says, or that loses
    something, is stated as a theorem or an [Example] next to the definition
    ([adjust_without_segments], [commit_forgets_removed], [shutdown_unnoticed],
    [skew_wraps], [negative_angle_lost], [dash_offset_grows], [hundredth_lost],
    [commit_addition_not_shifted], [list_pagination_ties],
    [total_count_unlabelled], [vacuum_splits_label], [ban_of_closing_room],
    [ts_seconds_included_right_shrinks], [concurrent_lock_lost],
    [monotonize_reorders], [lagging_replica_creates],
    [message_slips_past_lock], [unsubscribing_fails], [kind_in_small_letters],
    [open_segment], [changeset_by_number], [inclusive_end_shrinks]).

    ** Integers, fuel

    Times are integers: nanoseconds since 1970 for [DateTime], nanoseconds since
    the opening of the room for [occurred_at].  The release build wraps around,
    PostgreSQL's [bigint] fails: both are written out where they can happen, and
    theorems carry the bounds they need.  The range of chrono's dates is not
    modelled.  [Intervals.intersect] runs with as much fuel as both lists have
    elements, plus one; [intersect_correct] shows that this is enough.  Every
    other function is structurally recursive; the endless loops (the consumer, the
    message loop) are functions of the finite list of what they have been offered,
    and run on when it ends before them.  Floating-point numbers are IEEE 754
    values with every operation rounded to nearest, ties to even.

    ** Parameters

    [Types.Externals] has the operations of the crates the service calls ([uuid],
    [svc_agent], [serde_json]) and of PostgreSQL (the size and the collation of
    values); [Types.EventCodec] is the interface of the compact form of drawings;
    [Router.PayloadCodec] the decoding of payloads and query strings, with the
    instance [Payloads.serde_payloads], which is made of [Payloads.WireCrates]
    (identifiers and dates in text) and of the query string of [state.read]
    ([serde_qs]); [Answers.AnswerCrates] the text of agents and dates and the
    document of an error, [Broker.UrlCrates] the URLs and headers of [reqwest];
    [Schema.JsonParser] is [serde_json::from_str], [CompactEvent.Postcard] the
    crate [postcard], [NatsConsumer.NatsCrates] the parsers of [svc_nats_client]
    and [svc_conference_events], [Transport.transport] what of the sent messages
    goes through.  Their laws, where a theorem needs one, are classes
    ([EventCodecLaws], [CollationLaws], [UuidLaws], [PostcardLaws], [DrawRefused],
    [ChronoLaws]) with instances in [Sample], [Scenarios], [CompactEvent],
    [NatsConsumer] and [Answers].

    ** What is not modelled

    A transaction is one step of a pool, as if transactions were serializable, and
    a spawned task runs where it is spawned, in the session of its request.  When a
    connection is lost at a statement, or at the end of a transaction, neither has
    taken effect: that the server has done its part and only its answer is lost is
    left out.  The rows of a statement that clones events are inserted in the order
    in which its window function numbers them, as PostgreSQL's plan has it, which the
    text of the statement does not fix; only the trigger's original columns depend on
    it.  The reports to Sentry of the NATS consumer are in the log of what it does,
    and not in the world.  Timing
    properties of messages, lengths of durations, spans and the texts of most
    errors are left out, and so are the protocols themselves (MQTT, HTTP, S3,
    NATS), the layers of axum and tower (CORS, the health check, the log), the
    postcard bytes two tests carry, the building of the clients and servers the
    start asks its crates for and the parsing of the configuration file.  The load
    generator of [benchmarks], a crate of its own, is no part of the service. *)

From Stdlib Require Export ZArith Lia.
From stdpp Require Export sorting.
From stdpp Require Export base option gmap strings numbers list.

#[export] Set Default Goal Selector "!".

Create HintDb event.

Declare Scope i64_scope.
Delimit Scope i64_scope with i64.

#[global] Open Scope Z_scope.

(** ** Machine integers

    The service is built in release mode ([docker/Dockerfile]), where [i64] and
    [u64] arithmetic wraps around.  PostgreSQL's [bigint] arithmetic raises an
    error instead ([bigint]). *)

Definition i64_min : Z := - 2 ^ 63.
Definition i64_max : Z := 2 ^ 63 - 1.
Definition in_i64 (z : Z) : Prop := i64_min <= z <= i64_max.
Definition in_i64b (z : Z) : bool := (i64_min <=? z) && (z <=? i64_max).
Definition wrap64 (z : Z) : Z := (z + 2 ^ 63) mod 2 ^ 64 - 2 ^ 63.
Definition as_u64 (z : Z) : Z := z mod 2 ^ 64.
Definition bigint (z : Z) : option Z := if in_i64b z then Some z else None.

Notation "a + b" := (wrap64 (a + b)%Z) : i64_scope.
Notation "a - b" := (wrap64 (a - b)%Z) : i64_scope.
Notation "a * b" := (wrap64 (a * b)%Z) : i64_scope.

(** ** Results

    A Rust function that returns [Result] or may panic.  [Bail] is an
    [anyhow::Error]; [Panic] is an [unwrap]/[expect] on a missing value. *)

Inductive result (E A : Type) : Type :=
  | Ok (a : A)
  | Err (e : E).
Arguments Ok {E A} a.
Arguments Err {E A} e.

#[global] Instance result_eq_dec `{EqDecision E, EqDecision A} : EqDecision (result E A).
Proof. solve_decision. Defined.

Inductive failure : Type :=
  | Bail (msg : string)
  | Panic (msg : string).

#[global] Instance failure_eq_dec : EqDecision failure.
Proof. solve_decision. Defined.

Definition result_bind {E A B} (m : result E A) (f : A -> result E B) : result E B :=
  match m with
  | Ok a => f a
  | Err e => Err e
  end.

Definition ok_or {E A} (o : option A) (e : E) : result E A :=
  match o with
  | Some a => Ok a
  | None => Err e
  end.

Definition is_ok {E A} (m : result E A) : bool :=
  match m with
  | Ok _ => true
  | Err _ => false
  end.

(** ** Sorting

    [sort_by leb] is the stable insertion sort.  It models [slice::sort_by_key]
    (stable) and SQL's [ORDER BY]: the rows of a table are listed in an
    arbitrary physical order, so fixing the order of ties to the physical one
    loses no behaviour once a statement quantifies over the table. *)

Fixpoint insert_by {A} (leb : A -> A -> bool) (x : A) (l : list A) : list A :=
  match l with
  | [] => [x]
  | y :: l' => if leb x y then x :: y :: l' else y :: insert_by leb x l'
  end.

Definition sort_by {A} (leb : A -> A -> bool) (l : list A) : list A :=
  foldr (insert_by leb) [] l.

(** A test usable as a sort order; the orders of the queries are instances. *)
Class TotalPreorder {A} (leb : A -> A -> bool) : Prop := {
  leb_total : forall x y, leb x y = true \/ leb y x = true;
  leb_trans : forall x y z, leb x y = true -> leb y z = true -> leb x z = true
}.

(** Lexicographic [ORDER BY a, b], a key, and a key in descending order. *)
Definition then_by {A} (leb1 leb2 : A -> A -> bool) (x y : A) : bool :=
  if leb1 x y then (if leb1 y x then leb2 x y else true) else false.
Definition by_key {A} (key : A -> Z) (x y : A) : bool := key x <=? key y.
Definition desc {A} (leb : A -> A -> bool) (x y : A) : bool := leb y x.

Definition zsum (l : list Z) : Z := foldr Z.add 0 l.

(** The first element satisfying [f], as [Iterator::find] and [LIMIT 1] do. *)
Fixpoint list_first {A} (f : A -> bool) (l : list A) : option A :=
  match l with
  | [] => None
  | x :: l' => if f x then Some x else list_first f l'
  end.

(** ** Tactics *)

Ltac split_and_all := repeat match goal with H : _ /\ _ |- _ => destruct H end.

(** Turn boolean tests of the code into propositions [lia] and [congruence] use. *)
Ltac bool_prop :=
  repeat match goal with
  | H : (_ && _) = true |- _ => apply andb_true_iff in H; destruct H
  | H : (_ && _) = false |- _ => apply andb_false_iff in H
  | H : (_ || _) = true |- _ => apply orb_true_iff in H
  | H : (_ || _) = false |- _ => apply orb_false_iff in H; destruct H
  | H : negb _ = true |- _ => apply negb_true_iff in H
  | H : negb _ = false |- _ => apply negb_false_iff in H
  | H : bool_decide _ = true |- _ => apply bool_decide_eq_true in H
  | H : bool_decide _ = false |- _ => apply bool_decide_eq_false in H
  end.

(** Case analysis on every test of the goal and of the hypotheses. *)
Ltac cases := repeat first [progress simplify_eq/= | case_match]; bool_prop.

(** Decide a closed decidable proposition by evaluation. *)
Ltac by_evaluation :=
  match goal with |- ?P => apply (bool_decide_eq_true_1 P); vm_compute; reflexivity end.

(** ** Lemmas *)

Lemma in_i64b_spec z : in_i64b z = true <-> in_i64 z.
Proof. unfold in_i64b, in_i64. rewrite andb_true_iff, !Z.leb_le. done. Qed.

Lemma wrap64_id z : in_i64 z -> wrap64 z = z.
Proof.
  unfold in_i64, i64_min, i64_max, wrap64. intros H.
  rewrite Z.mod_small; lia.
Qed.

Lemma wrap64_range z : in_i64 (wrap64 z).
Proof.
  unfold in_i64, i64_min, i64_max, wrap64.
  pose proof (Z.mod_pos_bound (z + 2 ^ 63) (2 ^ 64)). lia.
Qed.

Lemma as_u64_wrap64 z : 0 <= z < 2 ^ 64 -> as_u64 (wrap64 z) = z.
Proof.
  intros H. unfold as_u64, wrap64.
  rewrite Zminus_mod_idemp_l. replace (z + 2 ^ 63 - 2 ^ 63) with z by lia.
  by apply Z.mod_small.
Qed.

Lemma bigint_Some_inv z z' : bigint z = Some z' -> z' = z.
Proof. unfold bigint. destruct (in_i64b z); [|done]. by intros [= <-]. Qed.

Lemma bigint_Some z : in_i64 z -> bigint z = Some z.
Proof. intros H%in_i64b_spec. unfold bigint. by rewrite H. Qed.

Lemma result_bind_Ok {E A B} (m : result E A) (f : A -> result E B) b :
  result_bind m f = Ok b -> exists a, m = Ok a /\ f a = Ok b.
Proof. destruct m; naive_solver. Qed.

Lemma zsum_app l1 l2 : zsum (l1 ++ l2) = zsum l1 + zsum l2.
Proof. induction l1; simpl; lia. Qed.

Lemma zsum_nonneg l : Forall (fun z => 0 <= z) l -> 0 <= zsum l.
Proof. induction 1; simpl; lia. Qed.

#[export] Instance by_key_order {A} (key : A -> Z) : TotalPreorder (by_key key).
Proof. split; unfold by_key; intros; lia. Qed.

#[export] Instance desc_order {A} (leb : A -> A -> bool) `{!TotalPreorder leb} :
  TotalPreorder (desc leb).
Proof. split; unfold desc; [intros; apply leb_total|]. intros x y z ? ?. by apply (leb_trans z y x). Qed.

#[export] Instance then_by_order {A} (leb1 leb2 : A -> A -> bool)
    `{!TotalPreorder leb1, !TotalPreorder leb2} : TotalPreorder (then_by leb1 leb2).
Proof.
  split; unfold then_by.
  - intros x y. pose proof (leb_total (leb := leb1) x y). pose proof (leb_total (leb := leb2) x y).
    destruct (leb1 x y), (leb1 y x); naive_solver.
  - intros x y z.
    pose proof (leb_trans (leb := leb1) x y z) as H1. pose proof (leb_trans (leb := leb1) z x y) as H2.
    pose proof (leb_trans (leb := leb1) y z x) as H3. pose proof (leb_trans (leb := leb2) x y z) as H4.
    destruct (leb1 x y), (leb1 y x), (leb1 y z), (leb1 z y), (leb1 x z), (leb1 z x);
      try done; intros; first [by apply H4|by exfalso; discriminate H1|by exfalso; discriminate H2
        |by exfalso; discriminate H3|naive_solver].
Qed.

#[export] Typeclasses Opaque by_key desc then_by.

Section Sort.
Context {A : Type} (leb : A -> A -> bool).

Lemma insert_by_Permutation x l : insert_by leb x l ≡ₚ x :: l.
Proof.
  induction l as [|y l IH]; simpl; [done|].
  case_match; [done|]. rewrite IH. apply Permutation_swap.
Qed.

Lemma sort_by_Permutation l : sort_by leb l ≡ₚ l.
Proof.
  induction l as [|x l IH]; simpl; [done|].
  rewrite insert_by_Permutation. by apply Permutation_skip.
Qed.

Lemma elem_of_sort_by x l : x ∈ sort_by leb l <-> x ∈ l.
Proof. by rewrite sort_by_Permutation. Qed.

Lemma length_sort_by l : length (sort_by leb l) = length l.
Proof. by rewrite sort_by_Permutation. Qed.

Context `{!TotalPreorder leb}.

Lemma insert_by_sorted x l :
  StronglySorted (fun a b => leb a b = true) l ->
  StronglySorted (fun a b => leb a b = true) (insert_by leb x l).
Proof.
  induction 1 as [|y l Hl IH Hy]; simpl; [repeat constructor|].
  case_match eqn:E.
  - constructor; [by constructor|]. constructor; [done|].
    eapply Forall_impl; [exact Hy|]. intros z ?. by apply (leb_trans x y z).
  - constructor; [done|]. rewrite insert_by_Permutation. constructor; [|done].
    destruct (leb_total (leb := leb) x y); congruence.
Qed.

Lemma sort_by_sorted l : StronglySorted (fun a b => leb a b = true) (sort_by leb l).
Proof. induction l; simpl; [constructor|by apply insert_by_sorted]. Qed.
End Sort.

Lemma sort_by_id {A} (leb : A -> A -> bool) l :
  StronglySorted (fun a b => leb a b = true) l -> sort_by leb l = l.
Proof.
  induction 1 as [|x l Hl IH Hx]; simpl; [done|]. rewrite IH.
  destruct l as [|y l]; simpl; [done|].
  inversion Hx as [|? ? Hxy]. by rewrite Hxy.
Qed.

Lemma list_first_Some {A} (f : A -> bool) l x :
  list_first f l = Some x -> x ∈ l /\ f x = true.
Proof. induction l as [|y l IH]; simpl; [done|]. destruct (f y) eqn:E; [|intros [? ?]%IH; split; [by right|done]]. intros [= ->]. split; [by left|done]. Qed.

Lemma list_first_None {A} (f : A -> bool) l :
  list_first f l = None -> Forall (fun x => f x = false) l.
Proof. induction l as [|y l IH]; simpl; [by constructor|]. destruct (f y) eqn:E; [done|]. auto. Qed.

#[export] Hint Resolve wrap64_range : event.

Lemma elem_of_lfilter {A} (f : A -> bool) l x : x ∈ List.filter f l <-> x ∈ l /\ f x = true.
Proof. by rewrite !list_elem_of_In, filter_In. Qed.

Lemma lfilter_app {A} (f : A -> bool) l1 l2 :
  List.filter f (l1 ++ l2) = List.filter f l1 ++ List.filter f l2.
Proof. induction l1 as [|x l1 IH]; simpl; [done|]. by destruct (f x); rewrite IH. Qed.

Lemma lfilter_ext {A} (f g : A -> bool) l :
  (forall x, x ∈ l -> f x = g x) -> List.filter f l = List.filter g l.
Proof.
  intros H. induction l as [|x l IH]; simpl; [done|].
  rewrite H by left. rewrite IH; [done|]. intros y Hy. apply H. by right.
Qed.

(** A key without duplicates identifies the elements of a list. *)
Lemma NoDup_key {A B} (key : A -> B) l x y :
  NoDup (key <$> l) -> x ∈ l -> y ∈ l -> key x = key y -> x = y.
Proof.
  intros Hnd [i Hi]%list_elem_of_lookup [j Hj]%list_elem_of_lookup Hk.
  assert (i = j) as ->; [|congruence].
  apply (NoDup_lookup _ i j (key x) Hnd); rewrite list_lookup_fmap; [by rewrite Hi|rewrite Hj; simpl; by rewrite Hk].
Qed.

(** The only element of a key. *)
Lemma lfilter_key {A B} (key : A -> B) (p : A -> bool) (l : list A) x :
  NoDup (key <$> l) -> (forall y z, p y = true -> p z = true -> key y = key z) ->
  x ∈ l -> p x = true -> List.filter p l = [x].
Proof.
  intros Hn Hp. induction l as [|y l IH]; simpl; [intros Hx; by apply elem_of_nil in Hx|].
  simpl in Hn. apply NoDup_cons in Hn as [Hy Hn]. intros [->|Hx]%elem_of_cons Hpx.
  - rewrite Hpx. f_equal. destruct (List.filter p l) as [|z l'] eqn:E; [done|]. exfalso.
    assert (z ∈ List.filter p l) as [Hz Hpz]%elem_of_lfilter by (rewrite E; left).
    apply Hy. rewrite (Hp y z) by done. by apply list_elem_of_fmap_2.
  - destruct (p y) eqn:E; [|by apply IH]. exfalso. apply Hy. rewrite (Hp y x) by done. by apply list_elem_of_fmap_2.
Qed.

Lemma lfilter_nil {A} (f : A -> bool) l : (forall x, x ∈ l -> f x = false) -> List.filter f l = [].
Proof.
  intros Hf. induction l as [|x l IH]; simpl; [done|]. rewrite Hf by left. apply IH. intros y ?. apply Hf. by right.
Qed.


Lemma lfilter_all {A} (f : A -> bool) l : (forall x, x ∈ l -> f x = true) -> List.filter f l = l.
Proof.
  intros Hf. induction l as [|x l IH]; simpl; [done|]. rewrite Hf by left. f_equal. apply IH. intros y ?. apply Hf. by right.
Qed.

Lemma lfilter_lfilter {A} (f g : A -> bool) l :
  List.filter f (List.filter g l) = List.filter (fun x => g x && f x) l.
Proof. induction l as [|x l IH]; simpl; [done|]. destruct (g x); simpl; by rewrite IH. Qed.

Lemma lfilter_sorted {A} (R : A -> A -> Prop) (f : A -> bool) l :
  StronglySorted R l -> StronglySorted R (List.filter f l).
Proof.
  induction 1 as [|x l Hl IH Hx]; simpl; [constructor|]. destruct (f x); [|done].
  constructor; [done|]. apply Forall_forall. intros y [Hy _]%elem_of_lfilter.
  rewrite Forall_forall in Hx. auto.
Qed.

Lemma StronglySorted_weaken {A} (R S : A -> A -> Prop) l :
  (forall x y, R x y -> S x y) -> StronglySorted R l -> StronglySorted S l.
Proof.
  intros HRS. induction 1 as [|x l Hl IH Hx]; constructor; [done|].
  eapply Forall_impl; [exact Hx|]. auto.
Qed.

(** Sorting commutes with filtering, ties included: the sort is stable. *)
Lemma insert_by_lfilter {A} (leb : A -> A -> bool) `{!TotalPreorder leb} (f : A -> bool) x l :
  StronglySorted (fun a b => leb a b = true) l ->
  List.filter f (insert_by leb x l) =
  if f x then insert_by leb x (List.filter f l) else List.filter f l.
Proof.
  induction 1 as [|y l Hl IH Hy]; simpl; [by destruct (f x)|].
  destruct (leb x y) eqn:E; simpl.
  - destruct (f x) eqn:Ex; [|done]. destruct (f y) eqn:Ey; simpl; [by rewrite E|].
    destruct (List.filter f l) as [|z l'] eqn:El; [done|]. simpl.
    assert (z ∈ List.filter f l) as [Hz _]%elem_of_lfilter by (rewrite El; left).
    rewrite Forall_forall in Hy. by rewrite (leb_trans x y z E (Hy _ Hz)).
  - rewrite IH. destruct (f x), (f y); simpl; rewrite ?E; done.
Qed.

Lemma sort_by_lfilter {A} (leb : A -> A -> bool) `{!TotalPreorder leb} (f : A -> bool) l :
  List.filter f (sort_by leb l) = sort_by leb (List.filter f l).
Proof.
  induction l as [|x l IH]; simpl; [done|].
  rewrite insert_by_lfilter by (done || by apply sort_by_sorted).
  rewrite IH. by destruct (f x).
Qed.

Lemma head_insert_by {A} (leb : A -> A -> bool) x l :
  head (insert_by leb x l) =
  match head l with Some y => Some (if leb x y then x else y) | None => Some x end.
Proof. destruct l as [|y l]; simpl; [done|]. by destruct (leb x y). Qed.

(** The least element is unchanged by appending one that is not below it. *)
Lemma head_sort_snoc {A} (leb : A -> A -> bool) `{!TotalPreorder leb} l x o :
  head (sort_by leb l) = Some o -> leb o x = true ->
  head (sort_by leb (l ++ [x])) = Some o.
Proof.
  revert o. induction l as [|y l IH]; intros o; simpl; [done|].
  rewrite !head_insert_by. destruct (head (sort_by leb l)) as [z|] eqn:E.
  - intros [= <-] Hle. destruct (leb y z) eqn:Eyz; [|by rewrite (IH z), Eyz].
    destruct (head (sort_by leb (l ++ [x]))) as [w|] eqn:Ew; [|done].
    assert (Hw : w ∈ l ++ [x]).
    { rewrite <-(elem_of_sort_by leb). destruct (sort_by leb (l ++ [x])); simplify_eq/=. left. }
    assert (leb y w = true) as ->; [|done].
    apply elem_of_app in Hw as [Hw|Hw%list_elem_of_singleton]; [|by subst].
    apply (leb_trans y z w Eyz). destruct (sort_by leb l) as [|z' s] eqn:Es; simplify_eq/=.
    rewrite <-(elem_of_sort_by leb), Es in Hw. apply elem_of_cons in Hw as [->|Hw].
    + by destruct (leb_total (leb := leb) z z).
    + pose proof (sort_by_sorted leb l) as Hs. rewrite Es in Hs.
      inversion Hs as [|? ? _ Hall]. rewrite Forall_forall in Hall. auto.
  - intros [= <-] Hle. destruct l as [|a l']; [simpl; by rewrite Hle|].
    exfalso. assert (length (sort_by leb (a :: l')) = 0%nat) as Hlen.
    { by destruct (sort_by leb (a :: l')). }
    by rewrite length_sort_by in Hlen.
Qed.
