(* ===== verification/Numbers.v ===== *)
(** * Numbers in text

    [str::parse] of the standard library for the integers the service reads from
    text: the variables of the process ([src/src/main.rs]) and the query strings of
    the HTTP interface. *)

From Stdlib Require Import Ascii.
From stdpp Require Import pretty.
From S2P Require Import Prelude.

Definition digit (c : ascii) : option Z :=
  let n := Z.of_N (N_of_ascii c) in if (48 <=? n) && (n <=? 57) then Some (n - 48) else None.

(** The digits after those of [acc]; a number that reaches [limit] is an error. *)
Fixpoint digits (limit acc : Z) (s : string) : option Z :=
  match s with
  | EmptyString => Some acc
  | String c s =>
    match digit c with
    | Some d => let v := acc * 10 + d in if v <? limit then digits limit v s else None
    | None => None
    end
  end.

(** [str::parse] of [u32], [u64] and [usize]: one plus is skipped, an empty number is an error. *)
Definition parse_unsigned (bits : Z) (s : string) : option Z :=
  match s with
  | EmptyString | String "+" EmptyString => None
  | String "+" s => digits (2 ^ bits) 0 s
  | s => digits (2 ^ bits) 0 s
  end.

(** [str::parse] of [i64]: the digits after a minus may go one further down. *)
Definition parse_signed (bits : Z) (s : string) : option Z :=
  match s with
  | String "-" EmptyString => None
  | String "-" s => Z.opp <$> digits (2 ^ (bits - 1) + 1) 0 s
  | s => parse_unsigned (bits - 1) s
  end.

(** ** Lemmas *)

Lemma digits_between limit acc s n : 0 <= acc < limit -> digits limit acc s = Some n -> acc <= n < limit.
Proof.
  revert acc. induction s as [|c s IH]; intros acc Hacc; simpl; [intros [= <-]; lia|].
  unfold digit. destruct (_ && _) eqn:Hd; [|done]. apply andb_prop in Hd as [H1 H2].
  apply Z.leb_le in H1. apply Z.leb_le in H2. destruct (_ <? _) eqn:Hv; [|done]. apply Z.ltb_lt in Hv.
  intros Hs. apply IH in Hs; lia.
Qed.

(** A number that is read fits its type. *)
Lemma parse_unsigned_bounds bits s n : 0 < bits -> parse_unsigned bits s = Some n -> 0 <= n < 2 ^ bits.
Proof.
  intros Hb Hs. assert (0 < 2 ^ bits) by (apply Z.pow_pos_nonneg; lia).
  assert (exists s', digits (2 ^ bits) 0 s' = Some n) as [s' Hs'].
  { unfold parse_unsigned in Hs. repeat case_match; subst; eauto; done. }
  apply digits_between in Hs'; lia.
Qed.

Lemma parse_signed_bounds bits s n :
  0 < bits - 1 -> parse_signed bits s = Some n -> - 2 ^ (bits - 1) <= n < 2 ^ (bits - 1).
Proof.
  intros Hb Hs. assert (0 < 2 ^ (bits - 1)) by (apply Z.pow_pos_nonneg; lia).
  assert (parse_unsigned (bits - 1) s = Some n \/
    exists s' m, digits (2 ^ (bits - 1) + 1) 0 s' = Some m /\ n = - m) as [Hn|(s' & m & Hm & ->)].
  { unfold parse_signed in Hs. repeat case_match; subst; try done; try (by left); right;
      apply fmap_Some in Hs as (m & ? & ->); eauto. }
  - apply parse_unsigned_bounds in Hn; lia.
  - apply digits_between in Hm; lia.
Qed.

Lemma digit_pretty x : (x < 10)%N -> digit (pretty_N_char x) = Some (Z.of_N x).
Proof.
  intros Hx. assert (x = 0 \/ x = 1 \/ x = 2 \/ x = 3 \/ x = 4 \/ x = 5 \/ x = 6 \/ x = 7 \/ x = 8 \/ x = 9)%N as H by lia.
  repeat destruct H as [->|H]; [done..|]. by subst.
Qed.

Lemma digits_pretty limit x s :
  Z.of_N x < limit -> digits limit 0 (pretty_N_go x s) = digits limit (Z.of_N x) s.
Proof.
  revert s. induction (N.lt_wf_0 x) as [x _ IH]; intros s Hx.
  destruct (decide (x = 0)%N) as [->|Hne]; [by rewrite pretty_N_go_0|].
  rewrite pretty_N_go_step by lia. pose proof (N.div_mod x 10 ltac:(done)) as Hdm.
  pose proof (N.mod_lt x 10 ltac:(done)) as Hm. pose proof (N.div_lt x 10 ltac:(lia) ltac:(done)).
  rewrite IH by lia. cbn [digits].
  rewrite digit_pretty by done.
  replace (Z.of_N (x `div` 10) * 10 + Z.of_N (x `mod` 10)) with (Z.of_N x) by lia.
  by apply Z.ltb_lt in Hx as ->.
Qed.

(** Digits only: no sign. *)
Lemma parse_unsigned_digits bits s n :
  digits (2 ^ bits) 0 s = Some n -> s <> EmptyString -> parse_unsigned bits s = Some n.
Proof.
  destruct s as [|c s]; [done|]. intros Hs _. rewrite <-Hs.
  destruct c as [[] [] [] [] [] [] [] []]; try reflexivity; done.
Qed.

(** A number is read as it is written in decimal. *)
Lemma parse_unsigned_pretty bits (n : N) :
  Z.of_N n < 2 ^ bits -> parse_unsigned bits (pretty n) = Some (Z.of_N n).
Proof.
  intros Hn. assert (Hd : digits (2 ^ bits) 0 (pretty n) = Some (Z.of_N n)).
  { unfold pretty, pretty_N. destruct (decide (n = 0)%N) as [->|Hne]; [|by rewrite digits_pretty].
    apply Z.ltb_lt in Hn. change ((if Z.of_N 0 <? 2 ^ bits then Some 0 else None) = Some 0). by rewrite Hn. }
  apply parse_unsigned_digits; [done|]. intros He. rewrite He in Hd. injection Hd as Hz.
  by replace n with 0%N in He by lia.
Qed.

