(* ===== verification/Floats.v ===== *)
(** * Floating point numbers

    [f32] and [f64] of Rust's core library: IEEE 754 numbers as the [spec_float]
    of the Standard Library, with 24 and 53 bits of precision.  Arithmetic rounds
    to nearest, ties to even; [trunc], [round] and the casts [as] are those of
    [std].  The lemmas say that rounding is monotone and exact on what the format
    represents, which is what [Schema] and [CompactPath] rely on. *)

From Stdlib Require Export Floats.SpecFloat.
From S2P Require Import Prelude.

(** ** Formats *)

Class FloatFormat (prec emax : Z) : Prop := {
  prec_gt_1 : 1 < prec;
  prec_lt_emax : prec < emax
}.

#[export] Instance f32_format : FloatFormat 24 128.
Proof. done. Qed.
#[export] Instance f64_format : FloatFormat 53 1024.
Proof. done. Qed.

Abbreviation f32 := spec_float.
Abbreviation f64 := spec_float.

#[global] Instance spec_float_eq_dec : EqDecision spec_float.
Proof. solve_decision. Defined.

(** ** Operations *)

Definition is_finite (x : spec_float) : bool :=
  match x with S754_zero _ | S754_finite _ _ _ => true | _ => false end.

(** The value without its fraction; [0] for what is not a number. *)
Definition trunc_Z (x : spec_float) : Z :=
  match x with
  | S754_finite s m e => cond_Zopp s (Z.shiftl (Zpos m) e)
  | _ => 0
  end.

(** [x as iN], [x as uN]: saturating, [NaN] gives [0]. *)
Definition cast_int (lo hi : Z) (x : spec_float) : Z :=
  match x with
  | S754_nan => 0
  | S754_infinity s => if s then lo else hi
  | _ => Z.max lo (Z.min hi (trunc_Z x))
  end.

(** [n as fN]. *)
Definition of_Z (prec emax n : Z) : spec_float := binary_normalize prec emax n 0 false.

(** [x as f32], [x as f64]. *)
Definition convert (prec emax : Z) (x : spec_float) : spec_float :=
  match x with
  | S754_finite s m e => binary_round prec emax s m e
  | _ => x
  end.

(** An integer with the sign of what it comes from. *)
Definition integral (prec emax : Z) (s : bool) (n : Z) : spec_float :=
  match n with
  | Zpos q => binary_round prec emax s q 0
  | _ => S754_zero s
  end.

Definition trunc (prec emax : Z) (x : spec_float) : spec_float :=
  match x with
  | S754_finite s m e => if 0 <=? e then x else integral prec emax s (Z.shiftl (Zpos m) e)
  | _ => x
  end.

(** [round]: half-way cases away from zero. *)
Definition round (prec emax : Z) (x : spec_float) : spec_float :=
  match x with
  | S754_finite s m e =>
    if 0 <=? e then x else integral prec emax s (Z.shiftl (Zpos m + 2 ^ (- e - 1)) e)
  | _ => x
  end.

Abbreviation f32_mul := (SFmul 24 128).
Abbreviation f32_trunc := (trunc 24 128).
Abbreviation f32_of_Z := (of_Z 24 128).
Abbreviation f32_of_f64 := (convert 24 128).

Abbreviation f64_sub := (SFsub 53 1024).
Abbreviation f64_add := (SFadd 53 1024).
Abbreviation f64_mul := (SFmul 53 1024).
Abbreviation f64_div := (SFdiv 53 1024).
Abbreviation f64_trunc := (trunc 53 1024).
Abbreviation f64_round := (round 53 1024).
Abbreviation f64_of_Z := (of_Z 53 1024).
Abbreviation f64_of_f32 := (convert 53 1024).
Abbreviation f64_ltb := SFltb.

(** [f64::MAX], [f64::MIN]. *)
Definition f64_MAX : f64 := S754_finite false (2 ^ 53 - 1) 971.
Definition f64_MIN : f64 := S754_finite true (2 ^ 53 - 1) 971.

(** The decimal literal [n / d] with [d] a power of ten, in both types. *)
Definition f64_lit (n d : Z) : f64 := f64_div (f64_of_Z n) (f64_of_Z d).
Definition f32_lit (n d : Z) : f32 := SFdiv 24 128 (f32_of_Z n) (f32_of_Z d).

(** ** Rounding an integer quotient *)

(** The integer nearest to [v / D], ties to even. *)
Definition rne (v D : Z) : Z :=
  let q := v / D in
  let r := v mod D in
  if 2 * r <? D then q
  else if 2 * r =? D then (if Z.even q then q else q + 1)
  else q + 1.

Lemma rne_bounds v D : 0 < D -> v / D <= rne v D <= v / D + 1.
Proof. intros HD. unfold rne. repeat case_match; lia. Qed.

Lemma rne_le v D T : 0 < D -> v <= T * D -> rne v D <= T.
Proof.
  intros HD Hv. pose proof (Z.div_mod v D ltac:(lia)). pose proof (Z.mod_pos_bound v D HD).
  destruct (Z.lt_total (v / D) T) as [|[Hq|]]; [pose proof (rne_bounds v D HD); lia| |nia].
  assert (v mod D = 0) as Hr by nia. unfold rne. rewrite Hr. destruct (Z.ltb_spec (2 * 0) D); lia.
Qed.

Lemma rne_ge v D T : 0 < D -> T * D <= v -> T <= rne v D.
Proof.
  intros HD Hv. pose proof (rne_bounds v D HD). pose proof (Z.div_le_lower_bound v D T HD). lia.
Qed.

Lemma rne_mono v1 D1 v2 D2 : 0 < D1 -> 0 < D2 -> v1 * D2 <= v2 * D1 -> rne v1 D1 <= rne v2 D2.
Proof.
  intros H1 H2 Hle.
  pose proof (Z.div_mod v1 D1 ltac:(lia)). pose proof (Z.mod_pos_bound v1 D1 H1).
  pose proof (Z.div_mod v2 D2 ltac:(lia)). pose proof (Z.mod_pos_bound v2 D2 H2).
  pose proof (rne_bounds v1 D1 H1). pose proof (rne_bounds v2 D2 H2).
  set (q1 := v1 / D1) in *. set (q2 := v2 / D2) in *. set (r1 := v1 mod D1) in *. set (r2 := v2 mod D2) in *.
  assert (q1 <= q2) as Hq.
  { destruct (Z.le_gt_cases q1 q2) as [|Hgt]; [done|]. exfalso.
    assert (D1 * D2 * (q2 + 1) <= v1 * D2) by nia. assert (v2 * D1 < D1 * D2 * (q2 + 1)) by nia. lia. }
  destruct (Z.eq_dec q1 q2) as [Heq|]; [|lia]. assert (r1 * D2 <= r2 * D1) as Hr by nia.
  unfold rne. fold q1 q2 r1 r2. rewrite <-Heq.
  destruct (Z.ltb_spec (2 * r1) D1), (Z.ltb_spec (2 * r2) D2); [repeat case_match; lia..|exfalso; nia|].
  destruct (Z.eqb_spec (2 * r1) D1), (Z.eqb_spec (2 * r2) D2); [repeat case_match; lia..|exfalso; nia|lia].
Qed.

(** ** Digits *)

Lemma digits_bounds p : 2 ^ (Zpos (digits2_pos p) - 1) <= Zpos p < 2 ^ Zpos (digits2_pos p).
Proof.
  induction p as [p IH|p IH|]; simpl digits2_pos; [| |done];
    rewrite Pos2Z.inj_succ; rewrite Z.pow_succ_r by lia;
    replace (Z.succ (Zpos (digits2_pos p)) - 1) with (Z.succ (Zpos (digits2_pos p) - 1)) by lia;
    rewrite Z.pow_succ_r by lia; lia.
Qed.

Lemma Zdigits2_bounds m : 0 < m -> 2 ^ (Zdigits2 m - 1) <= m < 2 ^ Zdigits2 m /\ 0 < Zdigits2 m.
Proof. destruct m; [lia| |lia]. intros _. simpl. split; [apply digits_bounds|lia]. Qed.

Lemma Zdigits2_nonneg m : 0 <= Zdigits2 m.
Proof. by destruct m. Qed.

Lemma Zdigits2_le m k : 0 <= m -> 0 <= k -> m < 2 ^ k -> Zdigits2 m <= k.
Proof.
  intros Hm Hk Hlt. destruct (Z.eq_dec m 0) as [->|]; [done|].
  destruct (Zdigits2_bounds m) as [[H1 _] _]; [lia|].
  assert (2 ^ (Zdigits2 m - 1) < 2 ^ k) as Hp by lia. apply Z.pow_lt_mono_r_iff in Hp; lia.
Qed.

Lemma Zdigits2_ge m k : 0 <= k -> 2 ^ k <= m -> k < Zdigits2 m.
Proof.
  intros Hk Hle. assert (0 < 2 ^ k) by lia. destruct (Zdigits2_bounds m) as [[_ H2] ?]; [lia|].
  assert (2 ^ k < 2 ^ Zdigits2 m) as Hp by lia. apply Z.pow_lt_mono_r_iff in Hp; lia.
Qed.

Lemma Zdigits2_shift m k : 0 < m -> 0 <= k -> Zdigits2 (m * 2 ^ k) = Zdigits2 m + k.
Proof.
  intros Hm Hk. destruct (Zdigits2_bounds m Hm) as [[H1 H2] H3].
  apply Z.le_antisymm.
  - apply Zdigits2_le; [nia|lia|]. rewrite Z.pow_add_r by lia. nia.
  - enough (Zdigits2 m + k - 1 < Zdigits2 (m * 2 ^ k)) by lia. apply Zdigits2_ge; [lia|].
    replace (Zdigits2 m + k - 1) with (Zdigits2 m - 1 + k) by lia. rewrite Z.pow_add_r by lia. nia.
Qed.

(** ** Shifting with a sticky bit *)

(** The record stands for [v / D]: its quotient and where its remainder lies. *)
Definition rep (mrs : shr_record) (v D : Z) : Prop :=
  shr_m mrs = v / D /\ shr_r mrs = (D <=? 2 * (v mod D)) /\
  shr_s mrs = negb ((v mod D =? 0) || (2 * (v mod D) =? D)).

Lemma shr_1_rep mrs v D : 0 <= v -> 0 < D -> rep mrs v D -> rep (shr_1 mrs) v (2 * D).
Proof.
  intros Hv HD (Hm & Hr & Hs). destruct mrs as [m r s]. simpl in Hm, Hr, Hs.
  pose proof (Z.div_pos v D Hv HD) as Hq. rewrite <-Hm in Hq.
  pose proof (Z.mod_pos_bound v D HD) as Hb. set (t := v mod D) in *.
  assert (v / (2 * D) = m / 2) as Hdiv by (rewrite Z.mul_comm, <-Z.div_div by lia; by rewrite Hm).
  assert (v mod (2 * D) = t + D * (m mod 2)) as Hmod by (rewrite Z.mul_comm, Z.rem_mul_r by lia; by rewrite Hm).
  unfold rep. rewrite Hdiv, Hmod.
  assert (shr_1 {| shr_m := m; shr_r := r; shr_s := s |} =
    {| shr_m := m / 2; shr_r := Z.odd m; shr_s := r || s |}) as ->.
  { rewrite <-Z.div2_div. by destruct m as [|[p|p|]|p]. }
  simpl. rewrite Zmod_odd. subst r s. destruct (Z.odd m); split_and!; try done.
  - symmetry. apply Z.leb_le. lia.
  - destruct (Z.leb_spec D (2 * t)), (Z.eqb_spec t 0), (Z.eqb_spec (2 * t) D), (Z.eqb_spec (t + D * 1) 0),
      (Z.eqb_spec (2 * (t + D * 1)) (2 * D)); simpl; done || lia.
  - symmetry. apply Z.leb_gt. lia.
  - destruct (Z.leb_spec D (2 * t)), (Z.eqb_spec t 0), (Z.eqb_spec (2 * t) D), (Z.eqb_spec (t + D * 0) 0),
      (Z.eqb_spec (2 * (t + D * 0)) (2 * D)); simpl; done || lia.
Qed.

Lemma iter_shr_rep n mrs v D :
  0 <= v -> 0 < D -> rep mrs v D -> rep (SpecFloat.iter_pos shr_1 n mrs) v (D * 2 ^ Zpos n).
Proof.
  intros Hv. revert mrs D. induction n as [n IH|n IH|]; intros mrs D HD Hrep; simpl SpecFloat.iter_pos.
  - replace (D * 2 ^ Zpos n~1) with ((2 * D) * 2 ^ Zpos n * 2 ^ Zpos n).
    { apply IH; [nia|]. apply IH; [lia|]. by apply shr_1_rep. }
    rewrite (Pos2Z.inj_xI n), Z.pow_add_r, Z.pow_1_r, Z.mul_comm, Z.pow_twice_r by lia. nia.
  - replace (D * 2 ^ Zpos n~0) with (D * 2 ^ Zpos n * 2 ^ Zpos n).
    { apply IH; [nia|]. by apply IH. }
    rewrite (Pos2Z.inj_xO n), Z.pow_twice_r. nia.
  - rewrite Z.pow_1_r, Z.mul_comm. by apply shr_1_rep.
Qed.

(** ** Rounding *)

Section Format.
Context (prec emax : Z) `{!FloatFormat prec emax}.

#[local] Abbreviation fexp := (SpecFloat.fexp prec emax).
#[local] Abbreviation emin := (SpecFloat.emin prec emax).

Lemma fexp_mono a b : a <= b -> fexp a <= fexp b.
Proof. unfold SpecFloat.fexp. lia. Qed.

Lemma fexp_spec a : fexp a = Z.max (a - prec) emin.
Proof. done. Qed.

Lemma emin_neg : emin < 0.
Proof. unfold SpecFloat.emin. pose proof prec_gt_1. pose proof prec_lt_emax. lia. Qed.

Lemma rep_exact m : 0 <= m -> rep (shr_record_of_loc m loc_Exact) m 1.
Proof.
  intros Hm. unfold rep. simpl. rewrite Z.div_1_r, Z.mod_1_r. done.
Qed.

Lemma rep_m m l v D : rep (shr_record_of_loc m l) v D -> m = v / D.
Proof. intros [Hm _]. by destruct l as [|[]]. Qed.

Lemma shr_fexp_spec m e l v D :
  0 <= v -> 0 < D -> rep (shr_record_of_loc m l) v D ->
  exists mrs, shr_fexp prec emax m e l = (mrs, Z.max e (fexp (Zdigits2 m + e))) /\
    rep mrs v (D * 2 ^ (Z.max e (fexp (Zdigits2 m + e)) - e)).
Proof.
  intros Hv HD Hrep. unfold shr_fexp, shr. set (E := fexp (Zdigits2 m + e)).
  destruct (E - e) as [|n|n] eqn:En.
  - eexists. replace (Z.max e E) with e by lia. by rewrite Z.sub_diag, Z.mul_1_r.
  - eexists. replace (Z.max e E) with (e + Zpos n) by lia. replace (e + Zpos n - e) with (Zpos n) by lia.
    split; [done|]. by apply iter_shr_rep.
  - eexists. replace (Z.max e E) with e by lia. by rewrite Z.sub_diag, Z.mul_1_r.
Qed.

Lemma round_nearest_rep mrs v D :
  0 < D -> rep mrs v D -> round_nearest_even (shr_m mrs) (loc_of_shr_record mrs) = rne v D.
Proof.
  intros HD (Hm & Hr & Hs). destruct mrs as [m r s]. simpl in Hm, Hr, Hs. subst m.
  pose proof (Z.mod_pos_bound v D HD). unfold rne.
  destruct (Z.leb_spec D (2 * (v mod D))), (Z.eqb_spec (v mod D) 0), (Z.eqb_spec (2 * (v mod D)) D),
    (Z.ltb_spec (2 * (v mod D)) D); try lia; subst r s; simpl; done || lia.
Qed.

(** [R] is the rounding of [v / D * 2 ^ e], with the sign [s]. *)
Definition rounds (s : bool) (R : spec_float) (v D e : Z) : Prop :=
  0 <= v /\ 0 < D /\ e <= fexp (Zdigits2 (v / D) + e) /\
  exists l, rep (shr_record_of_loc (v / D) l) v D /\ R = binary_round_aux prec emax s (v / D) e l.

(** The mantissa and the exponent of a rounded value, before normalization. *)
Definition rexp (v D e : Z) : Z := fexp (Zdigits2 (v / D) + e).
Definition rman (v D e : Z) : Z := rne v (D * 2 ^ (rexp v D e - e)).

Lemma rman_upper v D e :
  0 <= v -> 0 < D -> e <= rexp v D e ->
  rman v D e <= 2 ^ Z.max 0 (Zdigits2 (v / D) + e - rexp v D e).
Proof.
  intros Hv HD He. unfold rman. set (n := rexp v D e - e). set (d := Zdigits2 (v / D)).
  assert (0 < 2 ^ n) by (apply Z.pow_pos_nonneg; lia). pose proof (Zdigits2_nonneg (v / D)).
  assert (v < 2 ^ d * D) as Hlt.
  { destruct (Z.eq_dec (v / D) 0) as [Hz|Hz].
    - apply Z.div_small_iff in Hz; [|lia]. destruct Hz; [|lia].
      assert (0 < 2 ^ d) by (apply Z.pow_pos_nonneg; lia).
      assert (1 * D <= 2 ^ d * D) by (apply Z.mul_le_mono_nonneg_r; lia). lia.
    - pose proof (Z.div_pos v D Hv HD). destruct (Zdigits2_bounds (v / D)) as [[_ Hb] _]; [lia|].
      fold d in Hb. apply Z.lt_le_trans with ((v / D + 1) * D); [|apply Z.mul_le_mono_nonneg_r; lia].
      pose proof (Z.div_mod v D ltac:(lia)). pose proof (Z.mod_pos_bound v D HD). lia. }
  apply rne_le; [nia|]. destruct (Z.le_gt_cases n d).
  - replace (Z.max 0 (d + e - rexp v D e)) with (d - n) by lia.
    transitivity (2 ^ d * D); [lia|]. rewrite <-(Z.sub_add n d) at 1. rewrite Z.pow_add_r by lia. nia.
  - replace (Z.max 0 (d + e - rexp v D e)) with 0 by lia.
    assert (2 ^ d <= 2 ^ n) by (apply Z.pow_le_mono_r; lia). nia.
Qed.

Lemma rman_lower v D e :
  0 <= v -> 0 < D -> e <= rexp v D e -> 0 < v / D -> rexp v D e < Zdigits2 (v / D) + e ->
  2 ^ (Zdigits2 (v / D) + e - 1 - rexp v D e) <= rman v D e.
Proof.
  intros Hv HD He Hq Hlt. unfold rman. set (n := rexp v D e - e). set (d := Zdigits2 (v / D)) in *.
  assert (0 < 2 ^ n) by (apply Z.pow_pos_nonneg; lia).
  destruct (Zdigits2_bounds (v / D) Hq) as [[Hb _] _]. fold d in Hb.
  apply rne_ge; [nia|]. pose proof (Z.mul_div_le v D HD).
  replace (d + e - 1 - rexp v D e) with (d - 1 - n) by lia.
  assert (2 ^ (d - 1 - n) * 2 ^ n = 2 ^ (d - 1)) as Hp by (rewrite <-Z.pow_add_r by lia; f_equal; lia).
  nia.
Qed.

(** The result of rounding is the rounded value in canonical form. *)
Lemma rounds_spec s R v D e :
  rounds s R v D e ->
  (rman v D e = 0 /\ R = S754_zero s) \/
  exists m e', rexp v D e <= e' /\ Zpos m * 2 ^ (e' - rexp v D e) = rman v D e /\
    fexp (Zdigits2 (Zpos m) + e') = e' /\
    R = if e' <=? emax - prec then S754_finite s m e' else S754_infinity s.
Proof.
  intros (Hv & HD & He & l & Hrep & ->). fold (rexp v D e) in He.
  assert (0 < D * 2 ^ (rexp v D e - e)) as HDn.
  { apply Z.mul_pos_pos; [lia|]. apply Z.pow_pos_nonneg; lia. }
  pose proof (rne_ge v (D * 2 ^ (rexp v D e - e)) 0 HDn ltac:(lia)) as Hr0.
  pose proof (rman_upper v D e Hv HD He) as Hup. fold (rman v D e) in Hr0.
  destruct (shr_fexp_spec _ e _ _ _ Hv HD Hrep) as (mrs & Hs & Hmrs).
  fold (rexp v D e) in Hs, Hmrs. rewrite Z.max_r in Hs, Hmrs by lia.
  unfold binary_round_aux. rewrite Hs, (round_nearest_rep _ _ _ HDn Hmrs). fold (rman v D e).
  set (r := rman v D e) in *. set (E := rexp v D e) in *.
  destruct (shr_fexp_spec r E loc_Exact r 1 Hr0 ltac:(lia) (rep_exact r Hr0)) as (mrs2 & Hs2 & Hm2 & _).
  rewrite Hs2. set (e' := Z.max E (fexp (Zdigits2 r + E))) in *. rewrite Z.mul_1_l in Hm2.
  pose proof prec_gt_1 as Hp. pose proof (Zdigits2_nonneg (v / D)) as Hd0.
  assert (E = Z.max (Zdigits2 (v / D) + e - prec) emin) as HE by done.
  (* the second shift is by one bit at most, and that bit is zero *)
  assert (e' = E \/ e' = E + 1 /\ r mod 2 = 0) as Hcarry.
  { destruct (Z.eq_dec r 0) as [Hz|]; [left; subst e'; rewrite Hz, fexp_spec; simpl; lia|].
    set (k := Z.max 0 (Zdigits2 (v / D) + e - E)) in *.
    destruct (Z.eq_dec r (2 ^ k)) as [Hk|Hk].
    - assert (Zdigits2 r = k + 1) as Hd.
      { apply Z.le_antisymm; [apply Zdigits2_le; [lia|lia|]; rewrite Hk; apply Z.pow_lt_mono_r; lia|].
        enough (k < Zdigits2 r) by lia. apply Zdigits2_ge; [lia|]. by rewrite Hk. }
      subst e'. rewrite Hd, fexp_spec.
      destruct (Z.le_gt_cases (Z.max (k + 1 + E - prec) emin) E) as [|Hgt]; [left; lia|]. right.
      assert (k = prec) as Hkp by lia. split; [lia|]. rewrite Hk, Hkp.
      replace prec with (Z.succ (prec - 1)) by lia. rewrite Z.pow_succ_r, Z.mul_comm by lia. by apply Z.mod_mul.
    - left. assert (Zdigits2 r <= k) as Hd by (apply Zdigits2_le; lia). subst e'. rewrite fexp_spec. lia. }
  assert (r = r / 2 ^ (e' - E) * 2 ^ (e' - E)) as Hval.
  { destruct Hcarry as [->|[-> Hmod]]; [rewrite Z.sub_diag, Z.div_1_r; lia|].
    replace (E + 1 - E) with 1 by lia. change (2 ^ 1) with 2. pose proof (Z.div_mod r 2 ltac:(lia)). lia. }
  rewrite Hm2. destruct (r / 2 ^ (e' - E)) as [|m|m] eqn:Em.
  - left. split; [lia|done].
  - right. exists m, e'. split_and!; [lia|lia| |done].
    assert (Zdigits2 r = Zdigits2 (Zpos m) + (e' - E)) as Hd by (rewrite Hval; apply Zdigits2_shift; lia).
    replace (Zdigits2 (Zpos m) + e') with (Zdigits2 r + E) by lia. subst e'.
    assert (fexp (Zdigits2 r + E) >= E \/ fexp (Zdigits2 r + E) < E) as [Hge|Hlt] by lia; [lia|]. exfalso.
    (* the mantissa has full precision, or the exponent is the least one *)
    rewrite fexp_spec in Hlt.
    assert (E <> emin) by lia. assert (E = Zdigits2 (v / D) + e - prec) as HE' by lia.
    destruct (Z.eq_dec (v / D) 0) as [Hz|Hz].
    { rewrite Hz in HE'. simpl in HE'. lia. }
    pose proof (Z.div_pos v D Hv HD) as Hq.
    pose proof (rman_lower v D e Hv HD He ltac:(lia) ltac:(fold E; lia)) as Hlow. fold E r in Hlow.
    apply Zdigits2_ge in Hlow; lia.
  - exfalso. pose proof (Z.div_pos r (2 ^ (e' - E)) Hr0 ltac:(apply Z.pow_pos_nonneg; lia)). lia.
Qed.

(** ** The order of non-negative floats *)

Definition dle (m1 e1 m2 e2 : Z) : Prop :=
  m1 * 2 ^ (e1 - Z.min e1 e2) <= m2 * 2 ^ (e2 - Z.min e1 e2).

Lemma pow_cancel a b k : 0 <= k -> a * 2 ^ k <= b * 2 ^ k <-> a <= b.
Proof. intros Hk. symmetry. apply Z.mul_le_mono_pos_r. by apply Z.pow_pos_nonneg. Qed.

(** The comparison at any common exponent. *)
Lemma dle_at K m1 e1 m2 e2 :
  K <= e1 -> K <= e2 -> dle m1 e1 m2 e2 <-> m1 * 2 ^ (e1 - K) <= m2 * 2 ^ (e2 - K).
Proof.
  intros H1 H2. unfold dle. rewrite <-(pow_cancel _ _ (Z.min e1 e2 - K)) by lia.
  rewrite <-!Z.mul_assoc, <-!Z.pow_add_r by lia.
  by replace (e1 - Z.min e1 e2 + (Z.min e1 e2 - K)) with (e1 - K) by lia;
     replace (e2 - Z.min e1 e2 + (Z.min e1 e2 - K)) with (e2 - K) by lia.
Qed.

Lemma dle_refl m e : dle m e m e.
Proof. unfold dle. lia. Qed.

Lemma dle_trans m1 e1 m2 e2 m3 e3 : dle m1 e1 m2 e2 -> dle m2 e2 m3 e3 -> dle m1 e1 m3 e3.
Proof.
  set (K := Z.min e1 (Z.min e2 e3)). rewrite !(dle_at K) by lia. lia.
Qed.

Lemma dle_mag m1 e1 m2 e2 :
  0 < m1 -> 0 < m2 -> dle m1 e1 m2 e2 -> Zdigits2 m1 + e1 <= Zdigits2 m2 + e2.
Proof.
  intros H1 H2. set (K := Z.min e1 e2). rewrite (dle_at K) by lia. intros Hle.
  destruct (Zdigits2_bounds m1 H1) as [[Hb1 _] ?]. destruct (Zdigits2_bounds m2 H2) as [[_ Hb2] ?].
  assert (2 ^ (Zdigits2 m1 - 1 + (e1 - K)) < 2 ^ (Zdigits2 m2 + (e2 - K))) as Hp.
  { rewrite !Z.pow_add_r by lia. assert (0 < 2 ^ (e1 - K)) by (apply Z.pow_pos_nonneg; lia).
    assert (0 < 2 ^ (e2 - K)) by (apply Z.pow_pos_nonneg; lia). nia. }
  apply Z.pow_lt_mono_r_iff in Hp; lia.
Qed.

Definition canonical (m e : Z) : Prop := fexp (Zdigits2 m + e) = e.

Lemma canonical_dle m1 e1 m2 e2 :
  0 < m1 -> 0 < m2 -> canonical m1 e1 -> canonical m2 e2 -> dle m1 e1 m2 e2 -> e1 <= e2.
Proof.
  intros H1 H2 Hc1 Hc2 Hle. apply dle_mag in Hle; [|done..]. unfold canonical in *.
  rewrite <-Hc1, <-Hc2. by apply fexp_mono.
Qed.

(** [x <= y], for non-negative numbers and infinities. *)
Definition fle (x y : spec_float) : Prop :=
  match x, y with
  | S754_zero _, (S754_zero _ | S754_finite false _ _ | S754_infinity false) => True
  | S754_finite false m1 e1, S754_finite false m2 e2 => dle (Zpos m1) e1 (Zpos m2) e2
  | (S754_finite false _ _ | S754_infinity false), S754_infinity false => True
  | _, _ => False
  end.

Lemma rexp_mono v1 D1 e1 v2 D2 e2 K :
  0 <= v1 -> 0 < D1 -> e1 <= rexp v1 D1 e1 -> 0 <= v2 -> 0 < D2 -> e2 <= rexp v2 D2 e2 -> K <= e1 -> K <= e2 ->
  v1 * D2 * 2 ^ (e1 - K) <= v2 * D1 * 2 ^ (e2 - K) -> rexp v1 D1 e1 <= rexp v2 D2 e2.
Proof.
  intros Hv1 HD1 He1 Hv2 HD2 He2 HK1 HK2 Hle. pose proof prec_gt_1.
  destruct (Z.eq_dec (v1 / D1) 0) as [Hz|Hz].
  { unfold rexp in *. rewrite Hz, !fexp_spec in *. simpl in *. lia. }
  pose proof (Z.div_pos v1 D1 Hv1 HD1). destruct (Zdigits2_bounds (v1 / D1)) as [[Hb1 _] ?]; [lia|].
  pose proof (Z.mul_div_le v1 D1 HD1).
  assert (v2 < 2 ^ Zdigits2 (v2 / D2) * D2) as Hb2.
  { apply Z.lt_le_trans with ((v2 / D2 + 1) * D2).
    - pose proof (Z.div_mod v2 D2 ltac:(lia)). pose proof (Z.mod_pos_bound v2 D2 HD2). lia.
    - apply Z.mul_le_mono_nonneg_r; [lia|]. pose proof (Z.div_pos v2 D2 Hv2 HD2).
      destruct (Z.eq_dec (v2 / D2) 0) as [->|]; [done|]. destruct (Zdigits2_bounds (v2 / D2)) as [[_ ?] _]; lia. }
  apply fexp_mono. pose proof (Zdigits2_nonneg (v2 / D2)).
  set (d1 := Zdigits2 (v1 / D1)) in *. set (d2 := Zdigits2 (v2 / D2)) in *.
  assert (0 < 2 ^ (e1 - K)) as Hp1 by (apply Z.pow_pos_nonneg; lia).
  assert (0 < 2 ^ (e2 - K)) as Hp2 by (apply Z.pow_pos_nonneg; lia).
  assert (2 ^ (d1 - 1) * D1 <= v1) as Hv1' by nia.
  assert (2 ^ (d1 - 1 + (e1 - K)) < 2 ^ (d2 + (e2 - K))) as Hp.
  { rewrite !Z.pow_add_r by lia.
    apply (Z.mul_lt_mono_pos_r (D1 * D2)); [nia|].
    apply Z.le_lt_trans with (v1 * D2 * 2 ^ (e1 - K)).
    - transitivity (2 ^ (d1 - 1) * D1 * (D2 * 2 ^ (e1 - K))); [lia|].
      transitivity (v1 * (D2 * 2 ^ (e1 - K))); [|lia]. apply Z.mul_le_mono_nonneg_r; [nia|done].
    - apply Z.le_lt_trans with (v2 * (D1 * 2 ^ (e2 - K))); [lia|].
      apply Z.lt_le_trans with (2 ^ d2 * D2 * (D1 * 2 ^ (e2 - K))); [|lia].
      apply Z.mul_lt_mono_pos_r; [nia|done]. }
  apply Z.pow_lt_mono_r_iff in Hp; lia.
Qed.

(** Rounding is monotone, before normalization. *)
Lemma rman_mono v1 D1 e1 v2 D2 e2 K :
  0 <= v1 -> 0 < D1 -> e1 <= rexp v1 D1 e1 -> 0 <= v2 -> 0 < D2 -> e2 <= rexp v2 D2 e2 -> K <= e1 -> K <= e2 ->
  v1 * D2 * 2 ^ (e1 - K) <= v2 * D1 * 2 ^ (e2 - K) ->
  dle (rman v1 D1 e1) (rexp v1 D1 e1) (rman v2 D2 e2) (rexp v2 D2 e2).
Proof.
  intros Hv1 HD1 He1 Hv2 HD2 He2 HK1 HK2 Hle. pose proof prec_gt_1 as Hp.
  pose proof (rexp_mono _ _ _ _ _ _ _ Hv1 HD1 He1 Hv2 HD2 He2 HK1 HK2 Hle) as HE.
  set (E1 := rexp v1 D1 e1) in *. set (E2 := rexp v2 D2 e2) in *.
  destruct (Z.eq_dec E1 E2) as [Heq|Hne].
  - unfold dle. rewrite Heq, Z.min_id. apply Z.mul_le_mono_nonneg_r; [by apply Z.pow_nonneg|].
    unfold rman. fold E1 E2. rewrite Heq in *.
    assert (0 < 2 ^ (E2 - e1)) by (apply Z.pow_pos_nonneg; lia).
    assert (0 < 2 ^ (E2 - e2)) by (apply Z.pow_pos_nonneg; lia).
    apply rne_mono; [nia..|]. apply (pow_cancel _ _ ((e1 - K) + (e2 - K))); [lia|].
    replace (v1 * (D2 * 2 ^ (E2 - e2)) * 2 ^ (e1 - K + (e2 - K)))
      with (v1 * D2 * 2 ^ (e1 - K) * 2 ^ (E2 - K)).
    2:{ rewrite <-!Z.mul_assoc, <-!Z.pow_add_r by lia. do 3 f_equal. lia. }
    replace (v2 * (D1 * 2 ^ (E2 - e1)) * 2 ^ (e1 - K + (e2 - K)))
      with (v2 * D1 * 2 ^ (e2 - K) * 2 ^ (E2 - K)).
    2:{ rewrite <-!Z.mul_assoc, <-!Z.pow_add_r by lia. do 3 f_equal. lia. }
    by apply pow_cancel; [lia|].
  - pose proof (rman_upper v1 D1 e1 Hv1 HD1 He1) as Hup. fold E1 in Hup.
    assert (E1 = Z.max (Zdigits2 (v1 / D1) + e1 - prec) emin) as HE1 by done.
    assert (E2 = Z.max (Zdigits2 (v2 / D2) + e2 - prec) emin) as HE2 by done.
    pose proof (Z.div_pos v2 D2 Hv2 HD2). assert (v2 / D2 <> 0) as Hq2.
    { intros Hz. rewrite Hz in HE2. simpl in HE2. lia. }
    pose proof (rman_lower v2 D2 e2 Hv2 HD2 He2 ltac:(lia) ltac:(fold E2; lia)) as Hlow. fold E2 in Hlow.
    unfold dle. rewrite Z.min_l by lia. rewrite Z.sub_diag, Z.pow_0_r, Z.mul_1_r.
    etrans; [exact Hup|]. transitivity (2 ^ (Zdigits2 (v2 / D2) + e2 - 1 - E2) * 2 ^ (E2 - E1)).
    + rewrite <-Z.pow_add_r by lia. apply Z.pow_le_mono_r; lia.
    + apply Z.mul_le_mono_nonneg_r; [by apply Z.pow_nonneg|done].
Qed.

(** Rounding is monotone. *)
Lemma rounds_mono R1 R2 v1 D1 e1 v2 D2 e2 K :
  rounds false R1 v1 D1 e1 -> rounds false R2 v2 D2 e2 -> K <= e1 -> K <= e2 ->
  v1 * D2 * 2 ^ (e1 - K) <= v2 * D1 * 2 ^ (e2 - K) -> fle R1 R2.
Proof.
  intros HR1 HR2 HK1 HK2 Hle.
  assert (dle (rman v1 D1 e1) (rexp v1 D1 e1) (rman v2 D2 e2) (rexp v2 D2 e2)) as Hd.
  { destruct HR1 as (?&?&?&_). destruct HR2 as (?&?&?&_). eapply rman_mono; eauto. }
  destruct (rounds_spec _ _ _ _ _ HR2) as [[Hz2 ->]|(m2 & e2' & HE2 & Hm2 & Hc2 & ->)].
  - destruct (rounds_spec _ _ _ _ _ HR1) as [[Hz1 ->]|(m1 & e1' & HE1 & Hm1 & Hc1 & ->)]; [done|]. exfalso.
    rewrite Hz2 in Hd. unfold dle in Hd. assert (0 < rman v1 D1 e1).
    { rewrite <-Hm1. apply Z.mul_pos_pos; [lia|]. apply Z.pow_pos_nonneg; lia. }
    assert (0 < 2 ^ (rexp v1 D1 e1 - Z.min (rexp v1 D1 e1) (rexp v2 D2 e2))) by (apply Z.pow_pos_nonneg; lia). nia.
  - destruct (rounds_spec _ _ _ _ _ HR1) as [[Hz1 ->]|(m1 & e1' & HE1 & Hm1 & Hc1 & ->)]; [by destruct (_ <=? _)|].
    assert (dle (Zpos m1) e1' (Zpos m2) e2') as Hd'.
    { set (K' := Z.min (rexp v1 D1 e1) (rexp v2 D2 e2)) in *.
      rewrite (dle_at K') by lia. rewrite (dle_at K') in Hd by lia. rewrite <-Hm1, <-Hm2 in Hd.
      rewrite <-!Z.mul_assoc, <-!Z.pow_add_r in Hd by lia.
      by replace (e1' - rexp v1 D1 e1 + (rexp v1 D1 e1 - K')) with (e1' - K') in Hd by lia;
         replace (e2' - rexp v2 D2 e2 + (rexp v2 D2 e2 - K')) with (e2' - K') in Hd by lia. }
    pose proof (canonical_dle (Zpos m1) e1' (Zpos m2) e2' eq_refl eq_refl Hc1 Hc2 Hd').
    destruct (Z.leb_spec e1' (emax - prec)), (Z.leb_spec e2' (emax - prec)); simpl; done || lia.
Qed.

(** ** Values *)

Lemma dle_antisym_mag m1 e1 m2 e2 :
  0 < m1 -> 0 < m2 -> dle m1 e1 m2 e2 -> dle m2 e2 m1 e1 -> Zdigits2 m1 + e1 = Zdigits2 m2 + e2.
Proof. intros ? ? ?%dle_mag ?%dle_mag; lia. Qed.

(** A value has one canonical form. *)
Lemma canonical_unique m1 e1 m2 e2 :
  0 < m1 -> 0 < m2 -> canonical m1 e1 -> canonical m2 e2 -> dle m1 e1 m2 e2 -> dle m2 e2 m1 e1 ->
  m1 = m2 /\ e1 = e2.
Proof.
  intros ? ? Hc1 Hc2 H12 H21. assert (e1 = e2) as <-.
  { unfold canonical in *. by rewrite <-Hc1, <-Hc2, (dle_antisym_mag m1 e1 m2 e2). }
  unfold dle in *. rewrite Z.min_id, Z.sub_diag, Z.pow_0_r, !Z.mul_1_r in *. lia.
Qed.

Lemma rne_exact v D : 0 < D -> rne (v * D) D = v.
Proof. intros HD. apply Z.le_antisymm; [by apply rne_le|by apply rne_ge]. Qed.

(** What is representable is not changed by rounding. *)
Lemma rounds_exact s R v e m E :
  rounds s R v 1 e -> 0 < v -> canonical (Zpos m) E -> E <= emax - prec ->
  dle v e (Zpos m) E -> dle (Zpos m) E v e -> R = S754_finite s m E.
Proof.
  intros HR Hv Hc HE H1 H2. pose proof HR as (_ & _ & He & _).
  assert (rexp v 1 e = E) as HrE.
  { unfold rexp. rewrite Z.div_1_r, (dle_antisym_mag v e (Zpos m) E) by done. exact Hc. }
  rewrite Z.div_1_r in He. unfold rexp in HrE. rewrite Z.div_1_r in HrE.
  assert (v = Zpos m * 2 ^ (E - e)) as Hval.
  { rewrite (dle_at e), Z.sub_diag, Z.pow_0_r in H1, H2 by lia. lia. }
  assert (rman v 1 e = Zpos m) as Hm.
  { unfold rman, rexp. rewrite Z.div_1_r, HrE, Z.mul_1_l, Hval at 1. apply rne_exact. apply Z.pow_pos_nonneg; lia. }
  destruct (rounds_spec _ _ _ _ _ HR) as [[Hz _]|(m' & e' & HE' & Hm' & Hc' & ->)]; [lia|].
  assert (rexp v 1 e = E) as HrE' by (unfold rexp; by rewrite Z.div_1_r). rewrite HrE', Hm in *.
  destruct (canonical_unique (Zpos m') e' (Zpos m) E) as [[= ->] ->]; try done.
  - rewrite (dle_at E), Z.sub_diag by lia. lia.
  - rewrite (dle_at E), Z.sub_diag by lia. lia.
  - by rewrite (proj2 (Z.leb_le _ _)) by lia.
Qed.

Lemma rounds_self s m e : canonical (Zpos m) e -> e <= emax - prec -> rounds s (S754_finite s m e) (Zpos m) 1 e.
Proof.
  intros Hc He. assert (rounds s (binary_round_aux prec emax s (Zpos m) e loc_Exact) (Zpos m) 1 e) as HR.
  { split_and!; [done|done| |].
    - rewrite Z.div_1_r. unfold canonical in Hc. by rewrite Hc.
    - exists loc_Exact. rewrite Z.div_1_r. split; [by apply rep_exact|done]. }
  pose proof (rounds_exact _ _ _ _ m e HR eq_refl Hc He (dle_refl _ _) (dle_refl _ _)) as Heq.
  by rewrite Heq in HR.
Qed.

Lemma pos_iter_xO m d : Zpos (Pos.iter xO m d) = Zpos m * 2 ^ Zpos d.
Proof.
  induction d as [|d IH] using Pos.peano_ind; [simpl; lia|].
  rewrite Pos.iter_succ, (Pos2Z.inj_xO (Pos.iter _ _ _)), IH, Pos2Z.inj_succ, Z.pow_succ_r by lia. lia.
Qed.

Lemma shl_align_spec m e e' :
  Zpos (shl_align m e e').1 = Zpos m * 2 ^ (e - Z.min e e') /\ (shl_align m e e').2 = Z.min e e'.
Proof.
  unfold shl_align. destruct (e' - e) as [|d|d] eqn:Ed; simpl.
  - replace (Z.min e e') with e by lia. rewrite Z.sub_diag. lia.
  - replace (Z.min e e') with e by lia. rewrite Z.sub_diag. lia.
  - replace (Z.min e e') with e' by lia. replace (e - e') with (Zpos d) by lia. by rewrite pos_iter_xO.
Qed.

Lemma binary_round_rounds s m e :
  exists v e', rounds s (binary_round prec emax s m e) v 1 e' /\ e' <= e /\ v = Zpos m * 2 ^ (e - e') /\
    (emin <= e -> emin <= e').
Proof.
  unfold binary_round. pose proof (shl_align_spec m e (fexp (Zdigits2 (Zpos m) + e))) as [Hm He].
  simpl Zdigits2 in Hm, He. destruct (shl_align _ _ _) as [mz ez]. simpl in Hm, He.
  exists (Zpos mz), ez. split_and!; [| |by rewrite He|].
  - split_and!; [done|done| |].
    + rewrite Z.div_1_r, Hm, Zdigits2_shift, He by lia. simpl Zdigits2.
      replace (Zpos (digits2_pos m) + (e - Z.min e (fexp (Zpos (digits2_pos m) + e)))
        + Z.min e (fexp (Zpos (digits2_pos m) + e))) with (Zpos (digits2_pos m) + e) by lia. lia.
    + exists loc_Exact. rewrite Z.div_1_r. split; [by apply rep_exact|done].
  - lia.
  - rewrite He, fexp_spec. lia.
Qed.

(** Rounding a value of the format. *)
Lemma binary_round_exact s m e M E :
  canonical (Zpos M) E -> E <= emax - prec -> dle (Zpos m) e (Zpos M) E -> dle (Zpos M) E (Zpos m) e ->
  binary_round prec emax s m e = S754_finite s M E.
Proof.
  intros Hc HE H1 H2. destruct (binary_round_rounds s m e) as (v & e' & HR & He' & Hv & _).
  assert (0 < v) as Hv0 by (rewrite Hv; apply Z.mul_pos_pos; [lia|apply Z.pow_pos_nonneg; lia]).
  assert (dle v e' (Zpos m) e /\ dle (Zpos m) e v e') as [H3 H4].
  { rewrite !(dle_at e'), !Z.sub_diag by lia. lia. }
  apply (rounds_exact s _ v e' M E HR); [done..| |]; eapply dle_trans; eauto.
Qed.

(** An integer multiple of the unit of the last place is representable. *)
Lemma binary_round_representable s m e :
  fexp (Zdigits2 (Zpos m) + e) <= e -> fexp (Zdigits2 (Zpos m) + e) <= emax - prec ->
  exists M E, binary_round prec emax s m e = S754_finite s M E /\ E <= e /\ Zpos M = Zpos m * 2 ^ (e - E) /\
    canonical (Zpos M) E.
Proof.
  intros He Hmax. set (E := fexp (Zdigits2 (Zpos m) + e)) in *.
  assert (0 < Zpos m * 2 ^ (e - E)) as Hpos by (apply Z.mul_pos_pos; [lia|apply Z.pow_pos_nonneg; lia]).
  destruct (Zpos m * 2 ^ (e - E)) as [|M|M] eqn:HM; [lia| |lia]. exists M, E.
  assert (canonical (Zpos M) E) as Hc.
  { unfold canonical. rewrite <-HM, Zdigits2_shift by lia.
    replace (Zdigits2 (Zpos m) + (e - E) + E) with (Zdigits2 (Zpos m) + e) by lia. done. }
  split; [|done]. apply binary_round_exact; [done|done|..]; rewrite (dle_at E), Z.sub_diag by lia; lia.
Qed.

Definition valid (x : spec_float) : Prop := valid_binary prec emax x = true.

Lemma valid_finite s m e : valid (S754_finite s m e) <-> canonical (Zpos m) e /\ e <= emax - prec.
Proof.
  unfold valid, valid_binary, bounded, canonical_mantissa, canonical. simpl Zdigits2.
  rewrite andb_true_iff, Z.eqb_eq, Z.leb_le. done.
Qed.

Lemma rounds_valid s R v D e : rounds s R v D e -> valid R.
Proof.
  intros [[_ ->]|(m & e' & _ & _ & Hc & ->)]%rounds_spec; [done|].
  destruct (Z.leb_spec e' (emax - prec)); [|done]. by apply valid_finite.
Qed.

Lemma binary_round_valid s m e : valid (binary_round prec emax s m e).
Proof. destruct (binary_round_rounds s m e) as (v & e' & HR & _). by eapply rounds_valid. Qed.

Lemma convert_valid x : valid (convert prec emax x).
Proof. destruct x; [done..|]. apply binary_round_valid. Qed.

Lemma rounds_nonneg R v D e : rounds false R v D e -> fle (S754_zero false) R.
Proof. intros [[_ ->]|(m & e' & _ & _ & _ & ->)]%rounds_spec; [done|]. by destruct (_ <=? _). Qed.

(** *** Signed values

    The finite floats of the format are integer multiples of the least one. *)
Definition fval (x : spec_float) : Z :=
  match x with
  | S754_finite s m e => cond_Zopp s (Zpos m * 2 ^ (e - emin))
  | _ => 0
  end.

Lemma canonical_emin m e : canonical m e -> emin <= e.
Proof. unfold canonical. rewrite fexp_spec. lia. Qed.

Lemma fval_dle m1 e1 m2 e2 :
  emin <= e1 -> emin <= e2 -> m1 * 2 ^ (e1 - emin) <= m2 * 2 ^ (e2 - emin) <-> dle m1 e1 m2 e2.
Proof. intros. symmetry. by apply dle_at. Qed.

Lemma SFcompare_fval x y :
  valid x -> valid y -> is_finite x = true -> is_finite y = true -> SFcompare x y = Some (fval x ?= fval y).
Proof.
  assert (forall m e, canonical (Zpos m) e -> 0 < Zpos m * 2 ^ (e - emin)) as Hpos.
  { intros m e Hc%canonical_emin. apply Z.mul_pos_pos; [lia|apply Z.pow_pos_nonneg; lia]. }
  assert (forall m1 e1 m2 e2, canonical (Zpos m1) e1 -> canonical (Zpos m2) e2 ->
    match e1 ?= e2 with Lt => Lt | Gt => Gt | Eq => Pos.compare_cont Eq m1 m2 end =
    (Zpos m1 * 2 ^ (e1 - emin) ?= Zpos m2 * 2 ^ (e2 - emin))) as Hcmp.
  { intros m1 e1 m2 e2 Hc1 Hc2. pose proof (canonical_emin _ _ Hc1). pose proof (canonical_emin _ _ Hc2).
    destruct (Z.compare_spec e1 e2) as [->|Hlt|Hlt]; symmetry.
    - change (Pos.compare_cont Eq m1 m2) with (Zpos m1 ?= Zpos m2).
      assert (0 < 2 ^ (e2 - emin)) by (apply Z.pow_pos_nonneg; lia).
      destruct (Z.compare_spec (Zpos m1) (Zpos m2)) as [Heq|?|?].
      + injection Heq as ->. apply Z.compare_refl.
      + apply Z.compare_lt_iff. nia.
      + apply Z.compare_gt_iff. nia.
    - apply Z.compare_lt_iff, Z.nle_gt. rewrite fval_dle by done. intros Hd.
      apply (canonical_dle (Zpos m2) e2 (Zpos m1) e1) in Hd; [lia|done..].
    - apply Z.compare_gt_iff, Z.nle_gt. rewrite fval_dle by done. intros Hd.
      apply (canonical_dle (Zpos m1) e1 (Zpos m2) e2) in Hd; [lia|done..]. }
  destruct x as [s1|?| |s1 m1 e1], y as [s2|?| |s2 m2 e2]; try done; intros Hx Hy _ _;
    cbn [SFcompare fval]; f_equal.
  - apply valid_finite in Hy as [Hy%Hpos _]. destruct s2; cbn [cond_Zopp]; symmetry;
      [apply Z.compare_gt_iff; lia|apply Z.compare_lt_iff; lia].
  - apply valid_finite in Hx as [Hx%Hpos _]. destruct s1; cbn [cond_Zopp]; symmetry;
      [apply Z.compare_lt_iff; lia|apply Z.compare_gt_iff; lia].
  - apply valid_finite in Hx as [Hx _]. apply valid_finite in Hy as [Hy _].
    pose proof (Hcmp m1 e1 m2 e2 Hx Hy) as Hc. pose proof (Hpos _ _ Hx). pose proof (Hpos _ _ Hy).
    destruct s1, s2; cbn [cond_Zopp].
    + rewrite Z.compare_opp, (Z.compare_antisym (Zpos m1 * _)), <-Hc. by destruct (e1 ?= e2).
    + symmetry. apply Z.compare_lt_iff. lia.
    + symmetry. apply Z.compare_gt_iff. lia.
    + exact Hc.
Qed.

Lemma SFltb_fval x y :
  valid x -> valid y -> is_finite x = true -> is_finite y = true -> SFltb x y = (fval x <? fval y).
Proof. intros. unfold SFltb. rewrite SFcompare_fval by done. by destruct (_ ?= _) eqn:E; unfold Z.ltb; rewrite E. Qed.

(** ** Subtraction, division, multiplication *)

(** What [x - z] rounds, for [z <= x]. *)
Lemma sub_rounds x z :
  valid x -> valid z -> is_finite x = true -> is_finite z = true -> fval z <= fval x ->
  (fval x = fval z /\ exists s, SFsub prec emax x z = S754_zero s) \/
  exists v e, 0 < v /\ emin <= e /\ v * 2 ^ (e - emin) = fval x - fval z /\
    rounds false (SFsub prec emax x z) v 1 e.
Proof.
  assert (forall m e, canonical (Zpos m) e -> 0 < Zpos m * 2 ^ (e - emin)) as Hpos.
  { intros m e Hc%canonical_emin. apply Z.mul_pos_pos; [lia|apply Z.pow_pos_nonneg; lia]. }
  destruct x as [s1|?| |s1 m1 e1], z as [s2|?| |s2 m2 e2]; try done; intros Hx Hz _ _ Hle.
  - left. split; [done|]. destruct s1, s2; simpl; eauto.
  - apply valid_finite in Hz as [Hc He]. pose proof (Hpos _ _ Hc). destruct s2; simpl in Hle; [|lia]. right.
    exists (Zpos m2), e2. split_and!; [done|by eapply canonical_emin|simpl; lia|by apply rounds_self].
  - apply valid_finite in Hx as [Hc He]. pose proof (Hpos _ _ Hc). destruct s1; simpl in Hle; [lia|]. right.
    exists (Zpos m1), e1. split_and!; [done|by eapply canonical_emin|simpl; lia|by apply rounds_self].
  - apply valid_finite in Hx as [Hc1 He1]. apply valid_finite in Hz as [Hc2 He2].
    pose proof (canonical_emin _ _ Hc1). pose proof (canonical_emin _ _ Hc2).
    cbn [SFsub]. set (ez := Z.min e1 e2).
    destruct (shl_align_spec m1 e1 ez) as [-> _]. destruct (shl_align_spec m2 e2 ez) as [-> _].
    replace (Z.min e1 ez) with ez by lia. replace (Z.min e2 ez) with ez by lia.
    set (N := _ - _). assert (N * 2 ^ (ez - emin) = fval (S754_finite s1 m1 e1) - fval (S754_finite s2 m2 e2)) as HN.
    { assert (forall s m e, ez <= e -> cond_Zopp s (Zpos m * 2 ^ (e - ez)) * 2 ^ (ez - emin) =
        cond_Zopp s (Zpos m * 2 ^ (e - emin))) as Hs.
      { intros s m e ?. replace (e - emin) with ((e - ez) + (ez - emin)) by lia.
        rewrite Z.pow_add_r by lia. destruct s; simpl; lia. }
      subst N. rewrite Z.mul_sub_distr_r, !Hs by lia. done. }
    assert (0 < 2 ^ (ez - emin)) by (apply Z.pow_pos_nonneg; lia).
    destruct N as [|p|p] eqn:EN; [| |nia].
    + left. split; [lia|]. by exists false.
    + right. cbn [binary_normalize]. destruct (binary_round_rounds false p ez) as (v & e' & HR & He' & Hv & Hm).
      exists v, e'. split_and!; [|lia| |done].
      * rewrite Hv. apply Z.mul_pos_pos; [lia|apply Z.pow_pos_nonneg; lia].
      * rewrite <-HN, Hv, <-Z.mul_assoc, <-Z.pow_add_r by lia. do 2 f_equal. lia.
Qed.

Lemma sub_valid x z : valid x -> valid z -> is_finite x = true -> is_finite z = true -> fval z <= fval x ->
  valid (SFsub prec emax x z).
Proof. intros Hx Hz Hfx Hfz Hle. destruct (sub_rounds x z Hx Hz Hfx Hfz Hle) as [[_ [s ->]]|(v & e & _ & _ & _ & HR)]; [done|by eapply rounds_valid]. Qed.

(** Subtraction is monotone. *)
Lemma sub_mono x1 x2 z :
  valid x1 -> valid x2 -> valid z -> is_finite x1 = true -> is_finite x2 = true -> is_finite z = true ->
  fval z <= fval x1 -> fval x1 <= fval x2 ->
  fle (SFsub prec emax x1 z) (SFsub prec emax x2 z).
Proof.
  intros Hx1 Hx2 Hz Hf1 Hf2 Hfz H1 H2.
  destruct (sub_rounds x2 z) as [[Heq [s2 ->]]|(v2 & e2 & Hv2 & He2 & Heq2 & HR2)]; try done; [lia|..].
  - destruct (sub_rounds x1 z) as [[_ [s1 ->]]|(v1 & e1 & Hv1 & He1 & Heq1 & HR1)]; try done.
    exfalso. assert (0 < 2 ^ (e1 - emin)) by (apply Z.pow_pos_nonneg; lia). nia.
  - destruct (sub_rounds x1 z) as [[_ [s1 ->]]|(v1 & e1 & Hv1 & He1 & Heq1 & HR1)]; try done.
    + by apply (rounds_nonneg _ _ _ _ HR2).
    + apply (rounds_mono _ _ _ _ _ _ _ _ emin HR1 HR2); [done..|]. lia.
Qed.

Lemma new_location_rep v D :
  0 <= v -> 0 < D -> rep (shr_record_of_loc (v / D) (new_location D (v mod D))) v D.
Proof.
  intros Hv HD. pose proof (Z.mod_pos_bound v D HD) as Hb. unfold rep.
  assert (Z.even D = true \/ Z.even D = false /\ 2 * (v mod D) <> D) as Hpar.
  { destruct (Z.even D) eqn:He; [by left|right]. split; [done|]. intros Heq. rewrite <-Heq, Z.even_mul in He. done. }
  unfold new_location, new_location_even, new_location_odd.
  destruct Hpar as [->|[-> Hne]].
  - destruct (Z.eqb_spec (v mod D) 0) as [Hz|Hz].
    + rewrite Hz. simpl. split_and!; [done| |done]. symmetry. apply Z.leb_gt. lia.
    + destruct (Z.compare_spec (2 * (v mod D)) D), (Z.eqb_spec (2 * (v mod D)) D),
        (Z.leb_spec D (2 * (v mod D))); simpl; done || lia.
  - destruct (Z.eqb_spec (v mod D) 0) as [Hz|Hz].
    + rewrite Hz. simpl. split_and!; [done| |done]. symmetry. apply Z.leb_gt. lia.
    + destruct (Z.compare_spec (2 * (v mod D) + 1) D), (Z.eqb_spec (2 * (v mod D)) D),
        (Z.leb_spec D (2 * (v mod D))); simpl; done || lia.
Qed.

(** What a quotient of positive numbers rounds. *)
Lemma div_rounds m1 e1 m2 e2 :
  exists e', e' <= e1 - e2 /\
    rounds false (SFdiv prec emax (S754_finite false m1 e1) (S754_finite false m2 e2))
      (Zpos m1 * 2 ^ (e1 - e2 - e')) (Zpos m2) e'.
Proof.
  cbn [SFdiv]. unfold SFdiv_core_binary. set (X := Zdigits2 (Zpos m1) + e1 - (Zdigits2 (Zpos m2) + e2)).
  set (e' := Z.min (fexp X) (e1 - e2)). exists e'. split; [lia|].
  assert ((match e1 - e2 - e' with Zpos _ => Z.shiftl (Zpos m1) (e1 - e2 - e') | Z0 => Zpos m1 | Zneg _ => 0 end)
    = Zpos m1 * 2 ^ (e1 - e2 - e')) as ->.
  { destruct (e1 - e2 - e') eqn:E; [simpl; lia|by rewrite Z.shiftl_mul_pow2|lia]. }
  set (v := Zpos m1 * 2 ^ (e1 - e2 - e')).
  assert (0 < v) as Hv by (apply Z.mul_pos_pos; [lia|apply Z.pow_pos_nonneg; lia]).
  destruct (Z.div_eucl v (Zpos m2)) as [q r] eqn:Eq.
  assert (q = v / Zpos m2) as -> by (unfold Z.div; by rewrite Eq).
  assert (r = v mod Zpos m2) as -> by (unfold Z.modulo; by rewrite Eq).
  split_and!; [lia|done| |].
  - etrans; [apply Z.le_min_l|]. apply fexp_mono.
    assert (Zdigits2 v = Zdigits2 (Zpos m1) + (e1 - e2 - e')) as Hd by (apply Zdigits2_shift; lia).
    enough (Zdigits2 v - Zdigits2 (Zpos m2) <= Zdigits2 (v / Zpos m2)) by lia.
    destruct (Z.le_gt_cases (Zdigits2 v - Zdigits2 (Zpos m2)) 0) as [|Hgt].
    { pose proof (Zdigits2_nonneg (v / Zpos m2)). lia. }
    enough (Zdigits2 v - Zdigits2 (Zpos m2) - 1 < Zdigits2 (v / Zpos m2)) by lia.
    apply Zdigits2_ge; [lia|]. apply Z.div_le_lower_bound; [lia|].
    destruct (Zdigits2_bounds v Hv) as [[Hb1 _] ?]. destruct (Zdigits2_bounds (Zpos m2)) as [[_ Hb2] ?]; [done|].
    transitivity (2 ^ (Zdigits2 v - 1)); [|done].
    replace (Zdigits2 v - 1) with (Zdigits2 (Zpos m2) + (Zdigits2 v - Zdigits2 (Zpos m2) - 1)) by lia.
    rewrite Z.pow_add_r by lia. apply Z.mul_le_mono_nonneg_r; [by apply Z.pow_nonneg|lia].
  - eexists. split; [by apply new_location_rep; [lia|]|done].
Qed.

Lemma canonical_digits m e : canonical (Zpos m) e -> emin < e -> Zdigits2 (Zpos m) = prec.
Proof. unfold canonical. rewrite fexp_spec. lia. Qed.

(** What a product of positive numbers rounds. *)
Lemma mul_rounds m1 e1 m2 e2 :
  canonical (Zpos m1) e1 -> canonical (Zpos m2) e2 ->
  rounds false (SFmul prec emax (S754_finite false m1 e1) (S754_finite false m2 e2))
    (Zpos m1 * Zpos m2) 1 (e1 + e2).
Proof.
  intros Hc1 Hc2. split_and!; [lia|done| |].
  - rewrite Z.div_1_r, fexp_spec. pose proof prec_gt_1. pose proof emin_neg.
    pose proof (canonical_emin _ _ Hc1). pose proof (canonical_emin _ _ Hc2).
    destruct (Zdigits2_bounds (Zpos m1)) as [[Hb1 _] ?]; [done|].
    destruct (Zdigits2_bounds (Zpos m2)) as [[Hb2 _] ?]; [done|].
    assert (Zdigits2 (Zpos m1) + Zdigits2 (Zpos m2) - 2 < Zdigits2 (Zpos m1 * Zpos m2)) as Hd.
    { apply Zdigits2_ge; [lia|].
      replace (Zdigits2 (Zpos m1) + Zdigits2 (Zpos m2) - 2) with
        (Zdigits2 (Zpos m1) - 1 + (Zdigits2 (Zpos m2) - 1)) by lia.
      rewrite Z.pow_add_r by lia. apply Z.mul_le_mono_nonneg; lia. }
    destruct (Z.eq_dec e1 emin), (Z.eq_dec e2 emin); [lia|..].
    + rewrite (canonical_digits m2 e2) in Hd by (done || lia). lia.
    + rewrite (canonical_digits m1 e1) in Hd by (done || lia). lia.
    + rewrite (canonical_digits m1 e1), (canonical_digits m2 e2) in Hd by (done || lia). lia.
  - exists loc_Exact. rewrite Z.div_1_r. split; [apply rep_exact; lia|done].
Qed.

(** ** Truncation *)

Lemma shiftl_floor m e K : 0 <= m -> K <= e -> K <= 0 -> Z.shiftl m e = m * 2 ^ (e - K) / 2 ^ (- K).
Proof.
  intros Hm He HK. destruct (Z.le_gt_cases 0 e).
  - rewrite Z.shiftl_mul_pow2 by done. replace (e - K) with (e + - K) by lia.
    rewrite Z.pow_add_r, Z.mul_assoc, Z.div_mul by (try (apply Z.pow_nonzero); lia). done.
  - replace e with (- - e) at 1 by lia. rewrite Z.shiftl_opp_r, Z.shiftr_div_pow2 by lia.
    replace (- K) with (- e + (e - K)) by lia. rewrite Z.pow_add_r by lia.
    rewrite Z.div_mul_cancel_r; [done|apply Z.pow_nonzero; lia..].
Qed.

Lemma trunc_Z_mono x y : is_finite y = true -> fle x y -> trunc_Z x <= trunc_Z y.
Proof.
  destruct x as [[]|[]| |[] m1 e1], y as [[]|[]| |[] m2 e2]; intros Hf Hle;
    simpl in Hf, Hle; try done; cbn [trunc_Z cond_Zopp]; try done.
  1,2: by apply Z.shiftl_nonneg.
  set (K := Z.min 0 (Z.min e1 e2)). rewrite (shiftl_floor _ e1 K), (shiftl_floor _ e2 K) by lia.
  apply Z.div_le_mono; [apply Z.pow_pos_nonneg; lia|]. by apply dle_at; [lia..|].
Qed.

Lemma cast_int_mono lo hi x y : lo <= 0 <= hi -> fle x y -> cast_int lo hi x <= cast_int lo hi y.
Proof.
  intros Hlo Hle. destruct (is_finite y) eqn:Ey.
  - pose proof (trunc_Z_mono x y Ey Hle).
    destruct x as [[]|[]| |[] m1 e1], y as [[]|[]| |[] m2 e2]; simpl in Hle, Ey; try done; unfold cast_int in *; lia.
  - destruct x as [[]|[]| |[] m1 e1], y as [[]|[]| |[] m2 e2]; simpl in Hle, Ey; try done; unfold cast_int; lia.
Qed.

Lemma cast_int_nonneg lo hi x : lo <= 0 <= hi -> fle (S754_zero false) x -> 0 <= cast_int lo hi x.
Proof. intros Hlo Hle. pose proof (cast_int_mono lo hi _ _ Hlo Hle) as H. simpl in H. lia. Qed.

(** [trunc] has the integer part as its value. *)
Lemma trunc_Z_trunc x : valid x -> trunc_Z (trunc prec emax x) = trunc_Z x.
Proof.
  destruct x as [|[]| |s m e]; try done. intros [Hc He]%valid_finite. cbn [trunc].
  destruct (Z.leb_spec 0 e) as [|Hneg]; [done|]. cbn [trunc_Z].
  pose proof (Z.shiftl_nonneg (Zpos m) e) as Hnn.
  assert (Z.shiftl (Zpos m) e < 2 ^ prec) as Hlt.
  { replace e with (- - e) by lia. rewrite Z.shiftl_opp_r, Z.shiftr_div_pow2 by lia.
    apply Z.le_lt_trans with (Zpos m); [apply Z.div_le_upper_bound; [apply Z.pow_pos_nonneg; lia|];
      assert (0 < 2 ^ (- e)) by (apply Z.pow_pos_nonneg; lia); nia|].
    destruct (Zdigits2_bounds (Zpos m)) as [[_ Hb] _]; [done|].
    apply Z.lt_le_trans with (2 ^ Zdigits2 (Zpos m)); [done|]. apply Z.pow_le_mono_r; [lia|].
    unfold canonical in Hc. rewrite fexp_spec in Hc. lia. }
  destruct (Z.shiftl (Zpos m) e) as [|q|q] eqn:Eq; [by destruct s| |lia]. cbn [integral].
  pose proof prec_gt_1. pose proof prec_lt_emax. pose proof emin_neg.
  assert (Zdigits2 (Zpos q) <= prec) as Hd by (apply Zdigits2_le; lia).
  destruct (binary_round_representable s q 0) as (M & E & -> & HE & HM & _); [rewrite fexp_spec; lia..|].
  cbn [trunc_Z]. replace E with (- (0 - E)) by lia. rewrite Z.shiftl_opp_r, HM, Z.shiftr_div_pow2 by lia.
  rewrite Z.div_mul; [done|apply Z.pow_nonzero; lia].
Qed.

Lemma cast_int_finite lo hi x : is_finite x = true -> cast_int lo hi x = Z.max lo (Z.min hi (trunc_Z x)).
Proof. by destruct x. Qed.

Lemma trunc_valid x : valid x -> valid (trunc prec emax x).
Proof.
  destruct x as [|[]| |s m e]; try done. intros Hv. simpl. destruct (0 <=? e); [done|].
  unfold integral. destruct (Z.shiftl _ _); [done| |done]. apply binary_round_valid.
Qed.

Lemma cast_int_trunc lo hi x : valid x -> cast_int lo hi (trunc prec emax x) = cast_int lo hi x.
Proof.
  intros Hv. destruct x as [|[]| |s m e]; try done. pose proof (trunc_Z_trunc _ Hv) as Ht.
  assert (is_finite (trunc prec emax (S754_finite s m e)) = true) as Hf.
  { cbn [trunc]. destruct (Z.leb_spec 0 e) as [|Hneg]; [done|]. unfold integral.
    destruct (Z.shiftl _ _) as [|q|q] eqn:Eq; [done| |done].
    pose proof prec_gt_1. pose proof prec_lt_emax. pose proof emin_neg.
    apply valid_finite in Hv as [Hc _].
    assert (Zdigits2 (Zpos q) <= prec) as Hd.
    { apply Zdigits2_le; [lia..|]. rewrite <-Eq. replace e with (- - e) by lia.
      rewrite Z.shiftl_opp_r, Z.shiftr_div_pow2 by lia. apply Z.div_lt_upper_bound; [apply Z.pow_pos_nonneg; lia|].
      destruct (Zdigits2_bounds (Zpos m)) as [[_ Hb] _]; [done|].
      assert (2 ^ Zdigits2 (Zpos m) <= 2 ^ prec) as Hle.
      { apply Z.pow_le_mono_r; [lia|]. unfold canonical in Hc. rewrite fexp_spec in Hc. lia. }
      assert (0 < 2 ^ (- e)) by (apply Z.pow_pos_nonneg; lia). nia. }
    by destruct (binary_round_representable s q 0) as (M & E & -> & _); [rewrite fexp_spec; lia..|]. }
  by rewrite !cast_int_finite, Ht.
Qed.

(** ** Integers *)

(** Rounding overflows only at the last power of two. *)
Lemma rounds_finite s R v e : rounds s R v 1 e -> 0 < v -> Zdigits2 v + e < emax -> is_finite R = true.
Proof.
  intros HR Hv Hlt. pose proof HR as (_ & _ & He & _). fold (rexp v 1 e) in He.
  pose proof (rman_upper v 1 e ltac:(lia) ltac:(lia) He) as Hup. rewrite Z.div_1_r in Hup.
  destruct (rounds_spec _ _ _ _ _ HR) as [[_ ->]|(m & e' & HE & Hm & Hc & ->)]; [done|].
  pose proof prec_gt_1. pose proof prec_lt_emax. set (E := rexp v 1 e) in *.
  assert (E = Z.max (Zdigits2 v + e - prec) emin) as HEq by (subst E; unfold rexp; by rewrite Z.div_1_r).
  assert (emin <= emax - prec) as Hemin by (unfold SpecFloat.emin; lia).
  set (k := Z.max 0 (Zdigits2 v + e - E)) in *.
  assert (Zdigits2 (Zpos m) + (e' - E) <= k + 1) as Hd.
  { rewrite <-Zdigits2_shift, Hm by lia. apply Zdigits2_le; [rewrite <-Hm|lia|].
    - apply Z.mul_nonneg_nonneg; [lia|by apply Z.pow_nonneg].
    - apply Z.le_lt_trans with (2 ^ k); [done|]. apply Z.pow_lt_mono_r; lia. }
  rewrite fexp_spec in Hc. destruct (Z.leb_spec e' (emax - prec)); [done|]. lia.
Qed.

Lemma of_Z_finite n : Zdigits2 n < emax -> is_finite (of_Z prec emax n) = true.
Proof.
  intros Hd. unfold of_Z, binary_normalize. destruct n as [|p|p]; [done|..].
  all: destruct (binary_round_rounds false p 0) as (v & e & HR & He & Hv & _).
  2: destruct (binary_round_rounds true p 0) as (v' & e' & HR' & He' & Hv' & _).
  - eapply rounds_finite; [done|rewrite Hv; apply Z.mul_pos_pos; [lia|apply Z.pow_pos_nonneg; lia]|].
    rewrite Hv, Zdigits2_shift by lia. lia.
  - eapply rounds_finite; [done|rewrite Hv'; apply Z.mul_pos_pos; [lia|apply Z.pow_pos_nonneg; lia]|].
    rewrite Hv', Zdigits2_shift by lia. simpl Zdigits2 in *. lia.
Qed.

Lemma of_Z_valid n : valid (of_Z prec emax n).
Proof. destruct n; [done|apply binary_round_valid..]. Qed.

(** ** Monotonicity of products and quotients *)

Lemma rounds_below_infinity R v D e : rounds false R v D e -> fle R (S754_infinity false).
Proof. intros [[_ ->]|(m & e' & _ & _ & _ & ->)]%rounds_spec; [done|]. by destruct (_ <=? _). Qed.

Lemma fle_antisym m e y :
  canonical (Zpos m) e -> valid y -> fle (S754_finite false m e) y -> fle y (S754_finite false m e) ->
  y = S754_finite false m e.
Proof.
  intros Hc Hy H1 H2. destruct y as [[]|[]| |[] m2 e2]; simpl in H1, H2; try done.
  apply valid_finite in Hy as [Hc2 _]. by destruct (canonical_unique (Zpos m) e (Zpos m2) e2) as [[= ->] ->].
Qed.

Lemma mul_mono x y m e :
  valid x -> valid y -> canonical (Zpos m) e -> fle x y ->
  fle (SFmul prec emax x (S754_finite false m e)) (SFmul prec emax y (S754_finite false m e)).
Proof.
  intros Hx Hy Hc Hle. pose proof (canonical_emin _ _ Hc).
  destruct x as [[]|[]| |[] m1 e1], y as [[]|[]| |[] m2 e2]; simpl in Hle; try done;
    try apply valid_finite in Hx as [Hx _]; try apply valid_finite in Hy as [Hy _];
    try (pose proof (mul_rounds _ _ _ _ Hx Hc)); try (pose proof (mul_rounds _ _ _ _ Hy Hc)).
  1,2: by eapply rounds_nonneg.
  - by eapply rounds_below_infinity.
  - pose proof (canonical_emin _ _ Hx). pose proof (canonical_emin _ _ Hy). set (K := Z.min e1 e2).
    eapply (rounds_mono _ _ _ _ _ _ _ _ (K + e)); [done..|lia|lia|]. rewrite !Z.mul_1_r.
    rewrite (dle_at K) in Hle by lia.
    replace (e1 + e - (K + e)) with (e1 - K) by lia. replace (e2 + e - (K + e)) with (e2 - K) by lia. nia.
Qed.

Lemma div_mono m1 e1 m2 e2 m e :
  dle (Zpos m1) e1 (Zpos m2) e2 ->
  fle (SFdiv prec emax (S754_finite false m1 e1) (S754_finite false m e))
      (SFdiv prec emax (S754_finite false m2 e2) (S754_finite false m e)).
Proof.
  intros Hle. destruct (div_rounds m1 e1 m e) as (f1 & Hf1 & HR1). destruct (div_rounds m2 e2 m e) as (f2 & Hf2 & HR2).
  set (K := Z.min (Z.min e1 e2 - e) (Z.min f1 f2)).
  apply (rounds_mono _ _ _ _ _ _ _ _ K HR1 HR2); [lia..|].
  rewrite (dle_at (K + e)) in Hle by lia.
  replace (Zpos m1 * 2 ^ (e1 - e - f1) * Zpos m * 2 ^ (f1 - K)) with (Zpos m1 * 2 ^ (e1 - (K + e)) * Zpos m).
  2:{ replace (e1 - (K + e)) with (e1 - e - f1 + (f1 - K)) by lia. rewrite Z.pow_add_r by lia. lia. }
  replace (Zpos m2 * 2 ^ (e2 - e - f2) * Zpos m * 2 ^ (f2 - K)) with (Zpos m2 * 2 ^ (e2 - (K + e)) * Zpos m).
  2:{ replace (e2 - (K + e)) with (e2 - e - f2 + (f2 - K)) by lia. rewrite Z.pow_add_r by lia. lia. }
  nia.
Qed.

(** A number divided by itself. *)
Lemma div_self m e M E :
  canonical (Zpos M) E -> E <= emax - prec -> E <= 0 -> Zpos M = 2 ^ (- E) ->
  SFdiv prec emax (S754_finite false m e) (S754_finite false m e) = S754_finite false M E.
Proof.
  intros Hc HE Hneg HM. destruct (div_rounds m e m e) as (f & Hf & HR). pose proof (rounds_self false M E Hc HE) as HR1.
  rewrite Z.sub_diag in *. set (K := Z.min f E).
  assert (Zpos m * 2 ^ (0 - f) * 1 * 2 ^ (f - K) = Zpos M * Zpos m * 2 ^ (E - K)) as Heq.
  { rewrite HM. replace (Zpos m * 2 ^ (0 - f) * 1 * 2 ^ (f - K)) with (Zpos m * (2 ^ (0 - f) * 2 ^ (f - K))) by lia.
    replace (2 ^ (- E) * Zpos m * 2 ^ (E - K)) with (Zpos m * (2 ^ (- E) * 2 ^ (E - K))) by lia.
    rewrite <-!Z.pow_add_r by lia. do 2 f_equal. lia. }
  apply fle_antisym; [done|by eapply rounds_valid| |].
  - apply (rounds_mono _ _ _ _ _ _ _ _ K HR1 HR); lia.
  - apply (rounds_mono _ _ _ _ _ _ _ _ K HR HR1); lia.
Qed.

(** ** Brackets

    [x] is a positive number between [lo * 2 ^ g] and [hi * 2 ^ g]. *)
Definition between (x : spec_float) (lo hi g : Z) : Prop :=
  exists m e, x = S754_finite false m e /\ valid x /\ canonical (Zpos m) e /\
    dle lo g (Zpos m) e /\ dle (Zpos m) e hi g.

Lemma representable_rounds k g :
  0 < k -> Zdigits2 k <= prec -> emin <= g -> g <= emax - prec ->
  exists M E, E <= g /\ Zpos M = k * 2 ^ (g - E) /\ rounds false (S754_finite false M E) (Zpos M) 1 E.
Proof.
  intros Hk Hd Hg1 Hg2. destruct k as [|k|k]; [lia| |lia].
  destruct (binary_round_representable false k g) as (M & E & _ & HE & HM & Hc); [rewrite fexp_spec; lia..|].
  exists M, E. split_and!; [done..|]. apply rounds_self; [done|lia].
Qed.

(** A rounded value stays between representable bounds. *)
Lemma round_between B R v D e lo hi g :
  rounds false R v D e -> 0 < lo -> Zdigits2 hi <= prec -> Zdigits2 lo <= prec -> emin <= g -> g <= emax - prec ->
  (forall K, K <= e -> K <= g -> K <= B -> lo * D * 2 ^ (g - K) <= v * 2 ^ (e - K) /\ v * 2 ^ (e - K) <= hi * D * 2 ^ (g - K)) ->
  between R lo hi g.
Proof.
  intros HR Hlo Hdh Hdl Hg1 Hg2 Hv. pose proof HR as (_ & HD & _).
  assert (0 < hi) as Hhi.
  { destruct (Hv (Z.min B (Z.min e g))) as [H1 H2]; [lia..|].
    assert (0 < 2 ^ (g - Z.min B (Z.min e g))) by (apply Z.pow_pos_nonneg; lia).
    assert (lo * D <= hi * D) by nia. nia. }
  destruct (representable_rounds lo g) as (M1 & E1 & HE1 & HM1 & HR1); [done..|].
  destruct (representable_rounds hi g) as (M2 & E2 & HE2 & HM2 & HR2); [done..|].
  set (K := Z.min B (Z.min e (Z.min E1 E2))). destruct (Hv K) as [HK1 HK2]; [lia..|].
  assert (fle (S754_finite false M1 E1) R) as H1.
  { apply (rounds_mono _ _ _ _ _ _ _ _ K HR1 HR); [lia..|]. rewrite HM1, Z.mul_1_r.
    replace (lo * 2 ^ (g - E1) * D * 2 ^ (E1 - K)) with (lo * D * (2 ^ (g - E1) * 2 ^ (E1 - K))) by lia.
    rewrite <-Z.pow_add_r by lia. by replace (g - E1 + (E1 - K)) with (g - K) by lia. }
  assert (fle R (S754_finite false M2 E2)) as H2.
  { apply (rounds_mono _ _ _ _ _ _ _ _ K HR HR2); [lia..|]. rewrite HM2, Z.mul_1_r.
    replace (hi * 2 ^ (g - E2) * D * 2 ^ (E2 - K)) with (hi * D * (2 ^ (g - E2) * 2 ^ (E2 - K))) by lia.
    rewrite <-Z.pow_add_r by lia. by replace (g - E2 + (E2 - K)) with (g - K) by lia. }
  pose proof (rounds_valid _ _ _ _ _ HR) as Hval.
  destruct R as [[]|[]| |[] m e']; simpl in H1, H2; try done. pose proof Hval as [Hc _]%valid_finite.
  exists m, e'. split_and!; [done..| |].
  - apply (dle_trans _ _ (Zpos M1) E1); [|done]. rewrite (dle_at E1), Z.sub_diag by lia. lia.
  - apply (dle_trans _ _ (Zpos M2) E2); [done|]. rewrite (dle_at E2), Z.sub_diag by lia. lia.
Qed.

(** The integer part of a bracketed number. *)
Lemma between_trunc x lo hi g a b :
  between x lo hi g -> g <= 0 -> a * 2 ^ (- g) <= lo -> hi < (b + 1) * 2 ^ (- g) -> a <= trunc_Z x <= b.
Proof.
  intros (m & e & -> & _ & _ & Hl & Hh) Hg Ha Hb. cbn [trunc_Z cond_Zopp]. set (K := Z.min g e).
  rewrite (shiftl_floor _ e K) by lia. rewrite (dle_at K) in Hl, Hh by lia.
  assert (0 < 2 ^ (g - K)) by (apply Z.pow_pos_nonneg; lia).
  assert (2 ^ (- K) = 2 ^ (- g) * 2 ^ (g - K)) as Hp by (rewrite <-Z.pow_add_r by lia; f_equal; lia).
  assert (0 < 2 ^ (- K)) by (apply Z.pow_pos_nonneg; lia). split.
  - apply Z.div_le_lower_bound; [done|]. rewrite Hp. nia.
  - enough (Zpos m * 2 ^ (e - K) / 2 ^ (- K) < b + 1) by lia. apply Z.div_lt_upper_bound; [done|]. rewrite Hp. nia.
Qed.

End Format.

(** ** Signs *)

Section Signs.
Context (prec emax : Z).

Lemma binary_round_aux_opp s m e l :
  binary_round_aux prec emax (negb s) m e l = SFopp (binary_round_aux prec emax s m e l).
Proof.
  unfold binary_round_aux. destruct (shr_fexp prec emax m e l) as [mrs e'].
  destruct (shr_fexp _ _ _ _ _) as [mrs' e'']. destruct (shr_m mrs'); [done| |done]. by destruct (_ <=? _).
Qed.

Lemma binary_round_opp s m e : binary_round prec emax (negb s) m e = SFopp (binary_round prec emax s m e).
Proof. unfold binary_round. destruct (shl_align _ _ _). apply binary_round_aux_opp. Qed.

Lemma SFmul_opp x y : SFmul prec emax (SFopp x) y = SFopp (SFmul prec emax x y).
Proof.
  destruct x as [sx|sx| |sx mx ex], y as [sy|sy| |sy my ey]; try done; simpl; rewrite <-?negb_xorb_l; try done.
  apply binary_round_aux_opp.
Qed.

Lemma SFdiv_opp x y : SFdiv prec emax (SFopp x) y = SFopp (SFdiv prec emax x y).
Proof.
  destruct x as [sx|sx| |sx mx ex], y as [sy|sy| |sy my ey]; try done; cbn [SFopp SFdiv]; rewrite <-?negb_xorb_l; try done.
  destruct (SFdiv_core_binary _ _ _ _ _ _) as [[mz ez] lz]. apply binary_round_aux_opp.
Qed.

Lemma round_opp x : round prec emax (SFopp x) = SFopp (round prec emax x).
Proof.
  destruct x as [s|s| |s m e]; try done. cbn [SFopp round]. destruct (0 <=? e); [done|]. unfold integral.
  destruct (Z.shiftl _ _); [done| |done]. apply binary_round_opp.
Qed.

Lemma convert_opp x : convert prec emax (SFopp x) = SFopp (convert prec emax x).
Proof. destruct x; try done. apply binary_round_opp. Qed.

Lemma of_Z_opp n : n <> 0 -> of_Z prec emax (- n) = SFopp (of_Z prec emax n).
Proof. destruct n as [|p|p]; [done|..]; intros _; [exact (binary_round_opp false p 0)|exact (binary_round_opp true p 0)]. Qed.

Lemma trunc_Z_opp x : trunc_Z (SFopp x) = - trunc_Z x.
Proof. destruct x as [s|s| |[] m e]; try done. cbn [SFopp trunc_Z negb cond_Zopp]. lia. Qed.

Lemma valid_opp x : valid prec emax (SFopp x) <-> valid prec emax x.
Proof. by destruct x. Qed.

Lemma is_finite_opp x : is_finite (SFopp x) = is_finite x.
Proof. by destruct x. Qed.
End Signs.

(** Every [f32] is an [f64]. *)
Lemma f32_f64_roundtrip (x : f32) :
  valid 24 128 x -> f32_of_f64 (f64_of_f32 x) = x /\ is_finite (f64_of_f32 x) = is_finite x.
Proof.
  destruct x as [| | |s m e]; try done. intros [Hc He]%valid_finite. cbn [convert].
  assert (Zdigits2 (Zpos m) <= 24 /\ - 149 <= e) as [Hd Hm].
  { unfold canonical in Hc. rewrite fexp_spec in Hc. unfold SpecFloat.emin in Hc. lia. }
  destruct (binary_round_representable 53 1024 s m e) as (M & E & -> & HE & HM & _);
    [unfold SpecFloat.fexp, SpecFloat.emin; lia..|]. cbn [convert]. split; [|done].
  apply binary_round_exact; [apply _|done|done|..]; rewrite (dle_at E), HM, Z.sub_diag by lia; lia.
Qed.
