(* ===== verification/Intervals.v ===== *)
(** * Ranges of the timeline

    [src/src/app/operations/adjust_room/intersect.rs] and [invert_segments] of
    [adjust_room.rs]: lists of half-open ranges of nanoseconds (or
    milliseconds), their intersection and their complement, and the amount of
    time that a list of gaps removes before an instant. *)

From S2P Require Import Prelude.

Abbreviation range := (Z * Z)%type.

(** An instant is covered by a list of ranges when one of them contains it. *)
Definition covers (l : list range) (t : Z) : Prop := exists s e, (s, e) ∈ l /\ s <= t < e.

Definition coversb (l : list range) (t : Z) : bool :=
  existsb (fun r => (r.1 <=? t) && (t <? r.2)) l.

(** Ranges in increasing order that do not overlap, none before [lo]. *)
Fixpoint ranges_from (lo : Z) (l : list range) : Prop :=
  match l with
  | [] => True
  | (s, e) :: l' => lo <= s <= e /\ ranges_from e l'
  end.

(** ** [intersect] *)

(** One run of the [loop]; [a_state] and [b_state] are the ranges being
    compared, [a] and [b] the rest of the two iterators. *)
Fixpoint intersect_loop (fuel : nat) (a_state : option range) (a : list range)
    (b_state : option range) (b : list range) (result : list range) : option (list range) :=
  match fuel with
  | O => None
  | S fuel =>
    let '(a_state, a) := match a_state, a with None, x :: a' => (Some x, a') | _, _ => (a_state, a) end in
    let '(b_state, b) := match b_state, b with None, x :: b' => (Some x, b') | _, _ => (b_state, b) end in
    match a_state, b_state with
    | Some (a1, a2), Some (b1, b2) =>
      let s := Z.max a1 b1 in
      let e := Z.min a2 b2 in
      let result := if s <? e then result ++ [(s, e)] else result in
      if a2 <? b2
      then intersect_loop fuel None a b_state b result
      else intersect_loop fuel a_state a None b result
    | _, _ => Some result
    end
  end.

Definition intersect (a b : list range) : option (list range) :=
  intersect_loop (S (length a + length b)) None a None b [].

(** ** [invert_segments] *)

(** [chrono::Duration::num_nanoseconds]: [None] when it does not fit an [i64]. *)
Definition num_nanoseconds (d : Z) : option Z := bigint d.

(** [segments.iter().zip(&segments[1..])]. *)
Definition gaps_between (segments : list range) : list range :=
  zip_with (fun seg next => (seg.2, next.1)) segments (tail segments).

Definition invert_segments (segments : list range) (room_duration : Z) (min_segment_length : Z)
    : result failure (list range) :=
  match segments with
  | [] =>
    let total_nanos := default i64_max (num_nanoseconds room_duration) in
    Ok [(0, total_nanos)]
  | (first_segment_start, _) :: _ =>
    let gaps := if 0 <? first_segment_start then [(0, first_segment_start)] else [] in
    let gaps := gaps ++ gaps_between segments in
    let gaps :=
      match last segments with
      | Some (_, last_segment_stop) =>
        let room_duration_nanos := default i64_max (num_nanoseconds room_duration) in
        if (last_segment_stop <? room_duration_nanos)
           && (min_segment_length <? as_u64 (room_duration_nanos - last_segment_stop)%i64)
        then gaps ++ [(last_segment_stop, room_duration_nanos)]
        else gaps
      | None => gaps
      end in
    Ok gaps
  end.

(** ** Time removed by gaps *)

(** The part of a range before [t]. *)
Definition clip (t : Z) (r : range) : Z := if r.1 <? t then Z.min r.2 t - r.1 else 0.

Definition removed_before (gaps : list range) (t : Z) : Z := zsum (clip t <$> gaps).

(** ** Specification: counting instants *)

(** The number of instants of [[0, t)] outside every gap. *)
Definition kept_before (gaps : list range) (t : Z) : Z :=
  Z.of_nat (length (filter (fun z => coversb gaps z = false) (seqZ 0 t))).

(** The structural definition [intersect_loop] is compared with. *)
Definition meet (a b : range) : list range :=
  let s := Z.max a.1 b.1 in let e := Z.min a.2 b.2 in if s <? e then [(s, e)] else [].

(** The last instant ending a list of ranges. *)
Definition last_stop (d : Z) (l : list range) : Z := default d (snd <$> last l).

(** Where the inverted timeline ends: the trailing gap is dropped when it is not
    longer than [min_segment_length]. *)
Definition timeline_end (segments : list range) (d min : Z) : Z :=
  let stop := last_stop 0 segments in
  if (stop <? d) && (min <? d - stop) then d else stop.

(** ** Coverage lemmas *)

Lemma coversb_spec l t : coversb l t = true <-> covers l t.
Proof.
  unfold coversb, covers. rewrite existsb_exists. split.
  - intros ([s e] & Hin & Ht). exists s, e.
    rewrite list_elem_of_In. split; [done|]. simpl in Ht. lia.
  - intros (s & e & Hin%list_elem_of_In & Ht). exists (s, e). split; [done|]. simpl. lia.
Qed.

Lemma coversb_false l t : coversb l t = false <-> ~ covers l t.
Proof. rewrite <-coversb_spec. destruct (coversb l t); naive_solver. Qed.

Lemma covers_nil t : ~ covers [] t.
Proof. intros (s & e & H & _). by apply elem_of_nil in H. Qed.

Lemma covers_cons s e l t : covers ((s, e) :: l) t <-> s <= t < e \/ covers l t.
Proof.
  unfold covers. split.
  - intros (s' & e' & [[= -> ->]|H]%elem_of_cons & Ht); [by left|right; eauto].
  - intros [H|(s' & e' & H & Ht)].
    + exists s, e. split; [left|done].
    + exists s', e'. split; [by right|done].
Qed.

Lemma covers_app l1 l2 t : covers (l1 ++ l2) t <-> covers l1 t \/ covers l2 t.
Proof.
  induction l1 as [|[s e] l1 IH]; simpl.
  - split; [by right|]. intros [H|H]; [by apply covers_nil in H|done].
  - rewrite !covers_cons, IH. tauto.
Qed.

Lemma covers_one s e t : covers [(s, e)] t <-> s <= t < e.
Proof. rewrite covers_cons. pose proof (covers_nil t). tauto. Qed.

Lemma covers_meet a b t : covers (meet a b) t <-> covers [a] t /\ covers [b] t.
Proof.
  destruct a as [a1 a2], b as [b1 b2]. unfold meet. simpl. rewrite !covers_one.
  destruct (Z.ltb_spec (Z.max a1 b1) (Z.min a2 b2)).
  - rewrite covers_one. lia.
  - split; [intros H'; by apply covers_nil in H'|lia].
Qed.

Lemma ranges_from_weaken lo lo' l : lo' <= lo -> ranges_from lo l -> ranges_from lo' l.
Proof. destruct l as [|[s e] l]; simpl; [done|]. intros ? [? ?]. split; [lia|done]. Qed.

Lemma ranges_from_covers lo l t : ranges_from lo l -> covers l t -> lo <= t.
Proof.
  revert lo. induction l as [|[s e] l IH]; intros lo; simpl.
  - intros _ Hc. by apply covers_nil in Hc.
  - intros [Hb Hl] Hc. apply covers_cons in Hc as [?|Hc]; [lia|].
    pose proof (IH _ Hl Hc). lia.
Qed.

Lemma ranges_from_elem lo l s e : ranges_from lo l -> (s, e) ∈ l -> lo <= s <= e.
Proof.
  revert lo. induction l as [|[s' e'] l IH]; intros lo; [intros _ H; by apply elem_of_nil in H|].
  simpl. intros [? Hl] [[= -> ->]|Hin]%elem_of_cons; [done|]. specialize (IH _ Hl Hin). lia.
Qed.

Lemma ranges_from_app lo l1 l2 :
  ranges_from lo (l1 ++ l2) <-> ranges_from lo l1 /\ ranges_from (last_stop lo l1) l2.
Proof.
  revert lo. induction l1 as [|[s e] l1 IH]; intros lo; simpl; [unfold last_stop; simpl; tauto|].
  rewrite IH. replace (last_stop lo ((s, e) :: l1)) with (last_stop e l1); [tauto|].
  unfold last_stop. rewrite last_cons. by destruct (last l1).
Qed.

(** ** Intersection *)

(** What one run of the loop does once both states are filled. *)
Lemma intersect_loop_step fuel x y a b res :
  intersect_loop (S fuel) None (x :: a) None (y :: b) res =
  if x.2 <? y.2
  then intersect_loop fuel None a (Some y) b (res ++ meet x y)
  else intersect_loop fuel (Some x) a None b (res ++ meet x y).
Proof.
  destruct x as [a1 a2], y as [b1 b2]. unfold meet. simpl.
  destruct (Z.max a1 b1 <? Z.min a2 b2), (a2 <? b2); by rewrite ?app_nil_r.
Qed.

(** A state that is already filled is the head of its iterator. *)
Lemma intersect_loop_refill_a fuel x a b res :
  intersect_loop fuel (Some x) a None b res = intersect_loop fuel None (x :: a) None b res.
Proof. by destruct fuel. Qed.

Lemma intersect_loop_refill_b fuel y a b res :
  intersect_loop fuel None a (Some y) b res = intersect_loop fuel None a None (y :: b) res.
Proof. by destruct fuel. Qed.

Lemma intersect_loop_end fuel a b res :
  a = [] \/ b = [] -> intersect_loop (S fuel) None a None b res = Some res.
Proof. intros [-> | ->]; [by destruct b|by destruct a as [|[? ?] ?]]. Qed.

(** Dropping the range that ends first loses nothing of the intersection. *)
Lemma meet_drop a1 a2 b1 b2 a b t :
  ranges_from b2 b -> a2 <= b2 ->
  covers (meet (a1, a2) (b1, b2)) t \/ (covers a t /\ covers ((b1, b2) :: b) t)
  <-> covers ((a1, a2) :: a) t /\ covers ((b1, b2) :: b) t.
Proof.
  intros Hb Hle. rewrite covers_meet, !covers_one, !covers_cons.
  pose proof (ranges_from_covers _ _ t Hb) as Hlo. split; [tauto|].
  intros [[?|?] [?|Hc]]; try tauto. specialize (Hlo Hc). lia.
Qed.

Lemma meet_comm a b : meet a b = meet b a.
Proof. unfold meet. by rewrite Z.max_comm, Z.min_comm. Qed.

(** The output of [meet] fits between the two lower bounds and what follows. *)
Lemma ranges_from_meet lo a1 a2 b1 b2 out :
  lo <= Z.max a1 b1 -> ranges_from (Z.max lo (Z.min a2 b2)) out ->
  ranges_from lo (meet (a1, a2) (b1, b2) ++ out).
Proof.
  intros ? Hout. unfold meet. simpl. case_match; simpl; [split; [lia|]|].
  all: eapply ranges_from_weaken; [|done]; lia.
Qed.

Lemma intersect_loop_spec fuel a b la lb res :
  ranges_from la a -> ranges_from lb b -> (length a + length b < fuel)%nat ->
  exists out, intersect_loop fuel None a None b res = Some (res ++ out)
    /\ ranges_from (Z.max la lb) out /\ forall t, covers out t <-> covers a t /\ covers b t.
Proof.
  revert a b la lb res. induction fuel as [|fuel IH]; intros a b la lb res Ha Hb Hf; [lia|].
  destruct a as [|[a1 a2] a]; [|destruct b as [|[b1 b2] b]].
  1,2: exists []; rewrite intersect_loop_end, app_nil_r by auto; split_and!; [done..|];
    intros t; pose proof (covers_nil t); tauto.
  rewrite intersect_loop_step, intersect_loop_refill_a, intersect_loop_refill_b.
  destruct Ha as [? Ha], Hb as [? Hb]. simpl in Hf. simpl.
  destruct (Z.ltb_spec a2 b2) as [Hlt|Hge].
  - destruct (IH a ((b1, b2) :: b) a2 lb (res ++ meet (a1, a2) (b1, b2)))
      as (out & -> & Hout & Hcov); [done|by split|simpl; lia|].
    exists (meet (a1, a2) (b1, b2) ++ out). rewrite app_assoc. split_and!; [done| |].
    + apply ranges_from_meet; [lia|]. eapply ranges_from_weaken; [|done]. lia.
    + intros t. rewrite covers_app, Hcov. apply meet_drop; [done|lia].
  - destruct (IH ((a1, a2) :: a) b la b2 (res ++ meet (a1, a2) (b1, b2)))
      as (out & -> & Hout & Hcov); [by split|done|simpl; lia|].
    exists (meet (a1, a2) (b1, b2) ++ out). rewrite app_assoc. split_and!; [done| |].
    + apply ranges_from_meet; [lia|]. eapply ranges_from_weaken; [|done]. lia.
    + intros t. rewrite covers_app, Hcov, meet_comm, (and_comm (covers ((a1, a2) :: a) t)).
      rewrite (and_comm (covers ((a1, a2) :: a) t)). apply meet_drop; [done|lia].
Qed.

(** ** Inversion *)

Lemma gaps_between_cons x y l :
  gaps_between (x :: y :: l) = (x.2, y.1) :: gaps_between (y :: l).
Proof. done. Qed.

Lemma last_stop_cons d s e l : last_stop d ((s, e) :: l) = last_stop e l.
Proof. unfold last_stop. rewrite last_cons. by destruct (last l). Qed.

Lemma last_stop_ge lo l : ranges_from lo l -> lo <= last_stop lo l.
Proof.
  revert lo. induction l as [|[s e] l IH]; intros lo; [unfold last_stop; simpl; lia|].
  rewrite last_stop_cons. intros [? Hl]. pose proof (IH _ Hl). lia.
Qed.

Lemma ranges_from_stop lo l s e : ranges_from lo l -> (s, e) ∈ l -> e <= last_stop lo l.
Proof.
  revert lo. induction l as [|[s' e'] l IH]; intros lo; [intros _ H; by apply elem_of_nil in H|].
  intros [? Hl]. rewrite last_stop_cons. intros [[= -> ->]|Hin]%elem_of_cons; [by apply last_stop_ge|auto].
Qed.

Lemma timeline_end_ge segments d min : last_stop 0 segments <= timeline_end segments d min.
Proof. unfold timeline_end. destruct (_ && _) eqn:E; bool_prop; lia. Qed.

Lemma covers_lt_last_stop lo l t : ranges_from lo l -> covers l t -> t < last_stop lo l.
Proof.
  revert lo. induction l as [|[s e] l IH]; intros lo.
  - intros _ Hc. by apply covers_nil in Hc.
  - rewrite last_stop_cons. intros [? Hl] Hc. pose proof (last_stop_ge _ _ Hl).
    apply covers_cons in Hc as [?|Hc]; [lia|]. eauto.
Qed.

Lemma gaps_between_covers s e l t :
  ranges_from e l ->
  covers (gaps_between ((s, e) :: l)) t <-> (e <= t < last_stop e l /\ ~ covers l t).
Proof.
  revert s e. induction l as [|[s1 e1] l IH]; intros s e.
  - intros _. unfold last_stop. simpl. pose proof (covers_nil t). split; [done|lia].
  - intros [? Hl]. rewrite gaps_between_cons, last_stop_cons, !covers_cons, (IH _ _ Hl). simpl.
    pose proof (last_stop_ge _ _ Hl). pose proof (ranges_from_covers _ _ t Hl).
    split; [intros [?|[? ?]]; (split; [lia|intros [?|?]; [lia|]]); [|done]|].
    + assert (e1 <= t) by auto. lia.
    + intros [? ?]. destruct (Z.lt_ge_cases t s1); [left; lia|right].
      split; [|tauto]. assert (~ s1 <= t < e1) by tauto. lia.
Qed.

Lemma gaps_between_ranges s e l :
  ranges_from e l -> ranges_from e (gaps_between ((s, e) :: l)) /\
  last_stop e (gaps_between ((s, e) :: l)) <= last_stop e l.
Proof.
  revert s e. induction l as [|[s1 e1] l IH]; intros s e; [done|].
  intros [? Hl]. rewrite gaps_between_cons, !last_stop_cons. simpl.
  destruct (IH s1 e1 Hl) as [H1 H2]. split.
  - split; [lia|]. eapply ranges_from_weaken; [|done]. lia.
  - destruct (gaps_between ((s1, e1) :: l)) as [|[s2 e2] l2].
    + unfold last_stop at 1. simpl. pose proof (last_stop_ge _ _ Hl). lia.
    + by rewrite last_stop_cons in *.
Qed.

Lemma trailing_gap_test stop d min :
  0 <= stop -> in_i64 d ->
  (stop <? default i64_max (num_nanoseconds d))
    && (min <? as_u64 (wrap64 (default i64_max (num_nanoseconds d) - stop)))
  = (stop <? d) && (min <? d - stop).
Proof.
  intros ? Hd. unfold num_nanoseconds. rewrite (bigint_Some d) by done. simpl.
  destruct (Z.ltb_spec stop d); [|done].
  rewrite as_u64_wrap64; [done|]. unfold in_i64, i64_max in Hd. lia.
Qed.

Lemma invert_segments_spec segments d min :
  segments <> [] -> ranges_from 0 segments -> in_i64 d ->
  exists gaps, invert_segments segments d min = Ok gaps /\ ranges_from 0 gaps /\
    forall t, covers gaps t <-> 0 <= t < timeline_end segments d min /\ ~ covers segments t.
Proof.
  destruct segments as [|[s e] l]; [done|]. intros _ Hs Hd. pose proof Hs as [Hse Hl].
  pose proof (last_stop_ge _ _ Hl) as Hge. pose proof (gaps_between_ranges s e l Hl) as [Hr Hr'].
  assert (Hlast : exists s0, last ((s, e) :: l) = Some (s0, last_stop e l)).
  { unfold last_stop. rewrite last_cons. destruct (last l) as [[? ?]|]; simpl; eauto. }
  destruct Hlast as [s0 Hlast].
  unfold invert_segments. rewrite Hlast. unfold timeline_end. rewrite last_stop_cons.
  rewrite trailing_gap_test by (done || lia).
  set (lead := if 0 <? s then [(0, s)] else []).
  assert (Hlead : ranges_from 0 lead /\ last_stop 0 lead = s).
  { subst lead. destruct (Z.ltb_spec 0 s); unfold last_stop; simpl; lia. }
  assert (Hcov : forall t, covers (lead ++ gaps_between ((s, e) :: l)) t
      <-> 0 <= t < last_stop e l /\ ~ covers ((s, e) :: l) t).
  { intros t. rewrite covers_app, gaps_between_covers, covers_cons by done.
    assert (covers lead t <-> 0 <= t < s) as ->.
    { subst lead. destruct (Z.ltb_spec 0 s); [apply covers_one|]. pose proof (covers_nil t). intuition lia. }
    pose proof (ranges_from_covers _ _ t Hl).
    destruct (Z.lt_ge_cases t s), (Z.lt_ge_cases t e); intuition lia. }
  assert (Hbody : ranges_from 0 (lead ++ gaps_between ((s, e) :: l))).
  { apply ranges_from_app. split; [tauto|]. destruct Hlead as [_ ->].
    eapply ranges_from_weaken; [|done]. lia. }
  assert (Hbstop : last_stop 0 (lead ++ gaps_between ((s, e) :: l)) <= last_stop e l).
  { destruct Hlead as [_ Hlead]. unfold last_stop in *. rewrite last_app.
    destruct (last (gaps_between _)) as [[? ?]|]; simpl in *; lia. }
  destruct ((last_stop e l <? d) && (min <? d - last_stop e l)) eqn:E; bool_prop.
  2: { eexists. split; [done|]. split; [done|]. intros t. rewrite Hcov. done. }
  unfold num_nanoseconds. rewrite bigint_Some by done. simpl.
  eexists. split; [done|]. split.
  - apply ranges_from_app. split; [done|]. simpl. lia.
  - intros t. rewrite covers_app, Hcov, covers_one.
    pose proof (covers_lt_last_stop 0 ((s, e) :: l) t Hs) as Hlt. rewrite last_stop_cons in Hlt.
    destruct (Z.lt_ge_cases t (last_stop e l)); intuition lia.
Qed.

(** ** Time removed before an instant *)

Lemma removed_before_cons t s e l :
  removed_before ((s, e) :: l) t = clip t (s, e) + removed_before l t.
Proof. done. Qed.

Lemma clip_succ s e t :
  s <= e -> clip (t + 1) (s, e) = clip t (s, e) + (if (s <=? t) && (t <? e) then 1 else 0).
Proof.
  intros. unfold clip. simpl.
  destruct (Z.ltb_spec s t), (Z.ltb_spec s (t + 1)), (Z.leb_spec s t), (Z.ltb_spec t e); simpl; lia.
Qed.

(** Each instant adds one to the time removed exactly when a gap contains it. *)
Lemma removed_before_succ lo l t :
  ranges_from lo l ->
  removed_before l (t + 1) = removed_before l t + (if coversb l t then 1 else 0).
Proof.
  revert lo. induction l as [|[s e] l IH]; intros lo; [done|]. intros [? Hl].
  rewrite !removed_before_cons, clip_succ, (IH _ Hl) by lia.
  unfold coversb. simpl. fold (coversb l t).
  destruct ((s <=? t) && (t <? e)) eqn:E; simpl; [|lia].
  destruct (coversb l t) eqn:E'; [|lia].
  apply coversb_spec, (ranges_from_covers _ _ _ Hl) in E'. lia.
Qed.

Lemma removed_before_start lo l t : ranges_from lo l -> t <= lo -> removed_before l t = 0.
Proof.
  revert lo. induction l as [|[s e] l IH]; intros lo; [done|]. intros [? Hl] ?.
  rewrite removed_before_cons, (IH _ Hl) by lia. unfold clip. simpl.
  destruct (Z.ltb_spec s t); lia.
Qed.

Lemma seqZ_snoc t : 0 <= t -> seqZ 0 (t + 1) = seqZ 0 t ++ [t].
Proof.
  intros. rewrite <-(Z2Nat.id t) at 1 by done. replace (Z.of_nat (Z.to_nat t) + 1) with
    (Z.of_nat (S (Z.to_nat t))) by lia. rewrite seqZ_S, Z2Nat.id by done. done.
Qed.

(** The time removed before [t] is the number of instants of [[0, t)] in a gap. *)
Lemma removed_before_count l t :
  ranges_from 0 l -> 0 <= t ->
  removed_before l t = Z.of_nat (length (filter (fun z => coversb l z = true) (seqZ 0 t))).
Proof.
  intros Hl. revert t. apply natlike_ind; [by rewrite (removed_before_start 0)|].
  intros t Ht IH. replace (Z.succ t) with (t + 1) by lia.
  rewrite (removed_before_succ 0), IH, seqZ_snoc, filter_app, length_app by done.
  rewrite filter_cons, filter_nil.
  destruct (decide (coversb l t = true)) as [->|Hn]; simpl; [lia|].
  apply not_true_is_false in Hn as ->. lia.
Qed.

Lemma removed_before_kept l t :
  ranges_from 0 l -> 0 <= t -> t - removed_before l t = kept_before l t.
Proof.
  intros Hl Ht. rewrite removed_before_count by done. unfold kept_before.
  enough (forall zs, length (filter (fun z => coversb l z = true) zs)
    + length (filter (fun z => coversb l z = false) zs) = length zs)%nat as Hsplit.
  { specialize (Hsplit (seqZ 0 t)). rewrite length_seqZ in Hsplit. lia. }
  induction zs as [|z zs IH]; [done|]. rewrite !filter_cons.
  destruct (coversb l z) eqn:E; repeat case_decide; simpl; congruence || lia.
Qed.

Lemma removed_before_mono l t u :
  ranges_from 0 l -> t <= u -> 0 <= removed_before l u - removed_before l t <= u - t.
Proof.
  intros Hl ?. replace u with (t + (u - t)) by lia. assert (Hd : 0 <= u - t) by lia.
  revert Hd. generalize (u - t). apply natlike_ind; [rewrite Z.add_0_r; lia|].
  intros d ? IH. replace (t + Z.succ d) with (t + d + 1) by lia.
  rewrite (removed_before_succ 0) by done. destruct (coversb l (t + d)); lia.
Qed.

(** Two lists of ranges that split [[0, stop)] split the time of its instants. *)
Lemma removed_before_complement l l' stop t :
  ranges_from 0 l -> ranges_from 0 l' ->
  (forall z, covers l' z <-> 0 <= z < stop /\ ~ covers l z) ->
  0 <= t <= stop -> t - removed_before l' t = removed_before l t.
Proof.
  intros Hl Hl' Hc [Ht Hstop]. revert t Ht Hstop.
  apply (natlike_ind (fun t => t <= stop -> t - removed_before l' t = removed_before l t)).
  - intros _. by rewrite !(removed_before_start 0).
  - intros t Ht IH Hlt. replace (Z.succ t) with (t + 1) in * by lia.
    rewrite !(removed_before_succ 0) by done. specialize (Hc t).
    destruct (coversb l t) eqn:E, (coversb l' t) eqn:E'; rewrite ?coversb_spec, ?coversb_false in *;
      (lia || tauto || idtac).
    all: exfalso; apply E'; apply Hc; split; [lia|done].
Qed.

(** Inside the [i]-th range, the time covered so far is the length of the
    earlier ranges plus the time since its start. *)
Lemma removed_before_position l1 s e l2 t lo :
  ranges_from lo (l1 ++ (s, e) :: l2) -> s <= t <= e ->
  removed_before (l1 ++ (s, e) :: l2) t = zsum ((fun r => r.2 - r.1) <$> l1) + (t - s).
Proof.
  revert lo. induction l1 as [|[s1 e1] l1 IH]; intros lo; simpl.
  - intros [? Hl] ?. rewrite removed_before_cons, (removed_before_start e) by (done || lia).
    unfold clip. simpl. destruct (Z.ltb_spec s t); lia.
  - intros [? Hl] ?. rewrite removed_before_cons, (IH _ Hl) by lia.
    set (earlier := zsum _).
    assert (e1 <= s) as ?.
    { apply (ranges_from_app e1 l1) in Hl as [Hl1 [? _]].
      pose proof (last_stop_ge _ _ Hl1). lia. }
    unfold clip, earlier. simpl. destruct (Z.ltb_spec s1 t); lia.
Qed.

(** ** Properties *)

(** C35: [intersect] terminates on every pair of lists and computes their
    intersection: for ordered lists of ranges the result is ordered and contains
    exactly the instants both lists contain. *)
Theorem intersect_correct (lo : Z) (a b : list range) :
  ranges_from lo a -> ranges_from lo b ->
  exists r, intersect a b = Some r /\ ranges_from lo r /\
    forall t, covers r t <-> covers a t /\ covers b t.
Proof.
  intros Ha Hb. destruct (intersect_loop_spec (S (length a + length b)) a b lo lo [])
    as (out & Hr & Hout & Hc); [done|done|lia|].
  exists out. rewrite Z.max_id in Hout. done.
Qed.

Lemma intersect_correct_witness :
  intersect [(0, 10); (20, 30)] [(5, 25)] = Some [(5, 10); (20, 25)] /\
  exists r, intersect [(0, 10); (20, 30)] [(5, 25)] = Some r /\ ranges_from 0 r /\
    forall t, covers r t <-> covers [(0, 10); (20, 30)] t /\ covers [(5, 25)] t.
Proof. split; [reflexivity|]. apply (intersect_correct 0); simpl; lia. Defined.

(** C39: [invert_segments] computes the complement of an ordered list of segments
    of instants that are not negative, for a duration of the room that fits 64 bits:
    it does not fail, and the gaps are ordered and contain exactly the instants
    outside every segment up to the end of the timeline, which is the duration of
    the room when the rest after the last segment is longer than
    [min_segment_length], and the end of the last segment otherwise; with no
    segment, the whole room is one gap. *)
Theorem invert_segments_correct (segments : list range) (d min : Z) :
  ranges_from 0 segments -> in_i64 d ->
  exists gaps, invert_segments segments d min = Ok gaps /\
    match segments with
    | [] => gaps = [(0, d)]
    | _ => ranges_from 0 gaps /\
           forall t, covers gaps t <-> 0 <= t < timeline_end segments d min /\ ~ covers segments t
    end.
Proof.
  intros Hs Hd. destruct segments as [|x l].
  - simpl. unfold num_nanoseconds. rewrite bigint_Some by done. by eexists.
  - by apply invert_segments_spec.
Qed.

Lemma invert_segments_correct_witness :
  invert_segments [(10, 20); (25, 30)] 40 5 = Ok [(0, 10); (20, 25); (30, 40)] /\
  exists gaps, invert_segments [(10, 20); (25, 30)] 40 5 = Ok gaps /\ ranges_from 0 gaps /\
    forall t, covers gaps t <->
      0 <= t < timeline_end [(10, 20); (25, 30)] 40 5 /\ ~ covers [(10, 20); (25, 30)] t.
Proof.
  split; [reflexivity|]. apply (invert_segments_correct [(10, 20); (25, 30)] 40 5).
  - simpl. lia.
  - unfold in_i64, i64_min, i64_max. lia.
Defined.
