(* ===== verification/Times.v ===== *)
(** * Room time and the wire format of time ranges

    [src/src/db/room_time.rs] (the validity range of a room and its update
    policy) and [src/src/serde.rs] (the serde visitors for ranges of unix
    seconds and of milliseconds).  A [DateTime<Utc>] is the number of
    nanoseconds since the epoch, at the resolution of the database. *)

From S2P Require Import Prelude.

(** [std::ops::Bound]. *)
Inductive Bound (A : Type) : Type :=
  | Included (a : A)
  | Excluded (a : A)
  | Unbounded.
Arguments Included {A} a.
Arguments Excluded {A} a.
Arguments Unbounded {A}.

#[global] Instance Bound_eq_dec `{EqDecision A} : EqDecision (Bound A).
Proof. solve_decision. Defined.

Abbreviation BoundedDateTimeTuple := (Bound Z * Bound Z)%type.

Inductive RoomTimeBound : Type :=
  | RtExcluded (dt : Z)
  | RtUnbounded.

#[global] Instance RoomTimeBound_eq_dec : EqDecision RoomTimeBound.
Proof. solve_decision. Defined.

Definition RoomTimeBound_into (bound : RoomTimeBound) : Bound Z :=
  match bound with
  | RtExcluded dt => Excluded dt
  | RtUnbounded => Unbounded
  end.

(** ** [RoomTime] *)

Record RoomTime : Type := MkRoomTime { rt_start : Z; rt_end : RoomTimeBound }.

#[global] Instance RoomTime_eq_dec : EqDecision RoomTime.
Proof. solve_decision. Defined.

Module RoomTimeImpl.

Definition new (tuple : BoundedDateTimeTuple) : option RoomTime :=
  match tuple with
  | (Included start, Excluded end_) =>
    if start <? end_ then Some (MkRoomTime start (RtExcluded end_)) else None
  | (Included start, Unbounded) => Some (MkRoomTime start RtUnbounded)
  | _ => None
  end.

(** [now] is the one reading of [Utc::now()] the function takes. *)
Definition update (now : Z) (self : RoomTime) (tuple : BoundedDateTimeTuple) : option RoomTime :=
  match new tuple with
  | None => None
  | Some (MkRoomTime new_start new_end) =>
    if now <? rt_start self then Some (MkRoomTime new_start new_end)
    else
      match rt_end self with
      | RtExcluded e =>
        if e <? now then None
        else match new_end with
             | RtExcluded e' =>
               if now <? e' then Some (MkRoomTime (rt_start self) new_end)
               else Some (MkRoomTime (rt_start self) (RtExcluded now))
             | RtUnbounded => Some (MkRoomTime (rt_start self) new_end)
             end
      | RtUnbounded =>
        match new_end with
        | RtExcluded e' =>
          if now <? e' then Some (MkRoomTime (rt_start self) new_end)
          else Some (MkRoomTime (rt_start self) (RtExcluded now))
        | RtUnbounded => Some (MkRoomTime (rt_start self) new_end)
        end
      end
  end.

Definition into_tuple (time : RoomTime) : BoundedDateTimeTuple :=
  match rt_end time with
  | RtUnbounded => (Included (rt_start time), Unbounded)
  | RtExcluded end_ => (Included (rt_start time), Excluded end_)
  end.

Definition try_from (t : BoundedDateTimeTuple) : result failure RoomTime :=
  match new (t.1, t.2) with
  | Some rt => Ok rt
  | None => Err (Bail "Invalid room time")
  end.

End RoomTimeImpl.

(** A range whose opening precedes its closing. *)
Definition room_time_wf (t : RoomTime) : Prop :=
  match rt_end t with
  | RtExcluded e => rt_start t < e
  | RtUnbounded => True
  end.

(** The room was over before [now]. *)
Definition room_over (now : Z) (t : RoomTime) : Prop :=
  exists e, rt_end t = RtExcluded e /\ e < now.

(** The instants a bounded tuple contains. *)
Definition in_bounds (b : BoundedDateTimeTuple) (t : Z) : Prop :=
  match b.1 with Included l => l <= t | Excluded l => l < t | Unbounded => True end /\
  match b.2 with Included r => t <= r | Excluded r => t < r | Unbounded => True end.

(** ** [serde.rs]: ranges of unix seconds *)

Definition nanos_per_sec : Z := 1000000000.

(** [DateTime::timestamp]: whole seconds, rounded down. *)
Definition timestamp (dt : Z) : Z := dt / nanos_per_sec.

Inductive serde_error : Type :=
  | CannotConvert (val : Z)
  | InvalidLength (n : nat)
  | InvalidValue (lt rt : Z).

#[global] Instance serde_error_eq_dec : EqDecision serde_error.
Proof. solve_decision. Defined.

Module TsSecondsBoundTuple.

Definition serialize (value : BoundedDateTimeTuple) : list (option Z) :=
  let '(lt, rt) := value in
  let fst_elem :=
    match lt with
    | Included lt => Some (timestamp lt)
    | Excluded lt => Some (timestamp lt + 1)%i64
    | Unbounded => None
    end in
  let snd_elem :=
    match rt with
    | Included rt => Some (timestamp rt - 1)%i64
    | Excluded rt => Some (timestamp rt)
    | Unbounded => None
    end in
  [fst_elem; snd_elem].

Section Deserialize.
(** [NaiveDateTime::from_timestamp_opt(val, 0)] of chrono. *)
Variable from_timestamp_opt : Z -> option Z.

Definition deserialize (seq : list (option Z)) : result serde_error BoundedDateTimeTuple :=
  let bound (mk : Z -> Bound Z) (o : option Z) : result serde_error (Bound Z) :=
    match o with
    | Some val =>
      match from_timestamp_opt val with
      | Some dt => Ok (mk dt)
      | None => Err (CannotConvert val)
      end
    | None => Ok Unbounded
    end in
  match seq with
  | [] => Err (InvalidLength 1)
  | fst_elem :: seq =>
    result_bind (bound Included fst_elem) (fun lt =>
    match seq with
    | [] => Err (InvalidLength 2)
    | snd_elem :: _ => result_bind (bound Excluded snd_elem) (fun rt => Ok (lt, rt))
    end)
  end.
End Deserialize.

End TsSecondsBoundTuple.

(** ** [serde.rs]: lists of millisecond ranges *)

Module MillisecondsBoundTuples.

Definition serialize (value : list (Bound Z * Bound Z)) : list (option Z * option Z) :=
  let bound (b : Bound Z) := match b with Included v | Excluded v => Some v | Unbounded => None end in
  (fun '(lt, rt) => (bound lt, bound rt)) <$> value.

(** The elements read and the part of the sequence left unread: the loop stops
    silently at the first pair that has a [null]. *)
Fixpoint visit_seq (elements : list (Bound Z * Bound Z)) (seq : list (option Z * option Z))
    : result serde_error (list (Bound Z * Bound Z) * list (option Z * option Z)) :=
  match seq with
  | (Some lt, Some rt) :: seq =>
    if lt <=? rt then visit_seq (elements ++ [(Included lt, Excluded rt)]) seq
    else Err (InvalidValue lt rt)
  | _ :: seq => Ok (elements, seq)
  | [] => Ok (elements, [])
  end.

End MillisecondsBoundTuples.

(** ** [serde.rs]: optional ranges and durations *)

(** What [deserialize_option] offers its visitor. *)
Inductive optional (A : Type) : Type :=
  | VisitNone
  | VisitUnit
  | VisitSome (a : A).
Arguments VisitNone {A}.
Arguments VisitUnit {A}.
Arguments VisitSome {A} a.

Module TsSecondsOptionBoundTuple.

(** A [null] is no range, also where it is seen as a unit. *)
Definition deserialize (from_timestamp_opt : Z -> option Z) (d : optional (list (option Z)))
    : result serde_error (option BoundedDateTimeTuple) :=
  match d with
  | VisitNone | VisitUnit => Ok None
  | VisitSome seq =>
    result_bind (TsSecondsBoundTuple.deserialize from_timestamp_opt seq) (fun interval => Ok (Some interval))
  end.

End TsSecondsOptionBoundTuple.

Module DurationSeconds.

(** [Duration::seconds] panics when the milliseconds do not fit an [i64]. *)
Definition duration_seconds (seconds : Z) : result failure Z :=
  if (- (i64_max / 1000) <=? seconds) && (seconds <=? i64_max / 1000)
  then Ok (seconds * nanos_per_sec) else Err (Panic "Duration::seconds out of bounds").

(** [seconds as i64] of a [u64] wraps around. *)
Definition visit_u64 (seconds : Z) : result failure Z := duration_seconds (wrap64 seconds).

End DurationSeconds.

(** The chrono conversion of the witnesses: no year is out of range. *)
Definition from_timestamp_total (val : Z) : option Z := Some (val * nanos_per_sec).

(** ** Lemmas *)

Lemma new_wf tuple t : RoomTimeImpl.new tuple = Some t -> room_time_wf t.
Proof.
  unfold RoomTimeImpl.new, room_time_wf. destruct tuple as [[] []]; intros; cases; done || lia.
Qed.

Lemma new_into_tuple t : room_time_wf t -> RoomTimeImpl.new (RoomTimeImpl.into_tuple t) = Some t.
Proof.
  unfold room_time_wf, RoomTimeImpl.into_tuple. destruct t as [s [e|]]; simpl; [|done].
  intros ?%Z.ltb_lt. by case_match.
Qed.

Lemma into_tuple_new tuple t : RoomTimeImpl.new tuple = Some t -> RoomTimeImpl.into_tuple t = tuple.
Proof. unfold RoomTimeImpl.new. destruct tuple as [[] []]; intros; cases; done. Qed.

Lemma timestamp_whole s : timestamp (s * nanos_per_sec) = s.
Proof. unfold timestamp. by rewrite Z.div_mul. Qed.

Lemma visit_seq_spec l acc :
  let value := (fun '(s, e) => (Included s, Excluded e)) <$> l in
  MillisecondsBoundTuples.visit_seq acc (MillisecondsBoundTuples.serialize value)
  = match list_first (fun '(s, e) => e <? s) l with
    | None => Ok (acc ++ value, [])
    | Some (s, e) => Err (InvalidValue s e)
    end.
Proof.
  simpl. revert acc. induction l as [|[s e] l IH]; intros acc; simpl.
  - by rewrite app_nil_r.
  - destruct (Z.leb_spec s e), (Z.ltb_spec e s); [lia| |done|lia].
    unfold MillisecondsBoundTuples.serialize in IH. rewrite IH.
    by rewrite <-app_assoc.
Qed.

(** ** Properties *)

(** [RoomTime::new] accepts exactly the ranges closed on the left and open
    (or unbounded) on the right whose opening precedes their closing, and
    reading a room time back from the tuple it is converted to gives it again. *)
Theorem room_time_roundtrip (t : RoomTime) :
  room_time_wf t <-> RoomTimeImpl.new (RoomTimeImpl.into_tuple t) = Some t.
Proof. split; [apply new_into_tuple|apply new_wf]. Qed.

Lemma update_None now self req :
  RoomTimeImpl.update now self req = None <->
  RoomTimeImpl.new req = None \/ (rt_start self <= now /\ room_over now self).
Proof.
  unfold RoomTimeImpl.update, room_over. destruct (RoomTimeImpl.new req) as [[s e]|]; [|by intuition].
  split.
  - destruct self as [s0 [e0|]], e as [e|]; simpl; intros H; cases; right; (split; [lia|exists e0; split; [done|lia]]).
  - intros [?|[? (e0 & He0 & ?)]]; [done|]. destruct (Z.ltb_spec now (rt_start self)); [lia|].
    rewrite He0. destruct (Z.ltb_spec e0 now); [done|lia].
Qed.

Lemma update_Some now self req t :
  RoomTimeImpl.update now self req = Some t ->
  exists r, RoomTimeImpl.new req = Some r /\
    ((now < rt_start self /\ t = r) \/
     (rt_start self <= now /\ ~ room_over now self /\
      t = MkRoomTime (rt_start self)
            (match rt_end r with RtExcluded e => RtExcluded (Z.max e now) | RtUnbounded => RtUnbounded end))).
Proof.
  unfold RoomTimeImpl.update, room_over. destruct (RoomTimeImpl.new req) as [[s e]|]; [|done].
  intros H. exists (MkRoomTime s e). split; [done|].
  destruct self as [s0 [e0|]], e as [e|]; simpl in *; cases;
    try (left; split; [lia|done]); right; (split; [lia|split; [intros (? & [= <-] & ?); lia|]]);
    rewrite ?Z.max_l, ?Z.max_r by lia; done.
Qed.

(** What [RoomTime::update] guarantees, whatever the request.  It refuses
    exactly an invalid range and a room that is over; a room that has not opened
    takes the requested range as it is; an open room keeps its opening time and
    never closes before the present moment; and the new range is again one whose
    opening precedes its closing, unless the room opens at this very moment. *)
Theorem room_time_update_policy (now : Z) (self : RoomTime) (req : BoundedDateTimeTuple) :
  (RoomTimeImpl.update now self req = None <->
    RoomTimeImpl.new req = None \/ (rt_start self <= now /\ room_over now self)) /\
  forall t, RoomTimeImpl.update now self req = Some t ->
    (now < rt_start self -> RoomTimeImpl.into_tuple t = req) /\
    (rt_start self <= now ->
       rt_start t = rt_start self /\ forall e, rt_end t = RtExcluded e -> now <= e) /\
    (rt_start self <> now -> room_time_wf t).
Proof.
  split; [apply update_None|].
  intros t (r & Hr & [[? ->]|(? & Hover & ->)])%update_Some; pose proof (new_wf _ _ Hr) as Hwf.
  - split_and!; [intros _; by apply into_tuple_new|lia|done].
  - split_and!; [lia| |].
    + intros _. split; [done|]. destruct (rt_end r); naive_solver lia.
    + intros ?. unfold room_time_wf. simpl. destruct (rt_end r); [lia|done].
Qed.

(** A room opening at the moment of the request, asked to close in the past,
    gets the empty range [[now, now)]. *)
Example update_opening_now_empty :
  RoomTimeImpl.update 100 (MkRoomTime 100 RtUnbounded) (Included 10, Excluded 50)
  = Some (MkRoomTime 100 (RtExcluded 100)).
Proof. done. Qed.

(** A range of whole seconds in the form [RoomTime] uses survives the wire:
    it is decoded to the range that was encoded. *)
Theorem ts_seconds_roundtrip (from_timestamp_opt : Z -> option Z) (s : Z) (e : option Z) :
  (forall v, from_timestamp_opt v = Some (v * nanos_per_sec)) ->
  let value := (Included (s * nanos_per_sec),
                match e with Some e => Excluded (e * nanos_per_sec) | None => Unbounded end) in
  TsSecondsBoundTuple.deserialize from_timestamp_opt (TsSecondsBoundTuple.serialize value) = Ok value.
Proof.
  intros Hf. destruct e as [e|]; simpl; by rewrite !timestamp_whole, !Hf.
Qed.

Lemma ts_seconds_roundtrip_witness :
  TsSecondsBoundTuple.deserialize from_timestamp_total
    (TsSecondsBoundTuple.serialize (Included (5 * nanos_per_sec), Excluded (9 * nanos_per_sec)))
  = Ok (Included (5 * nanos_per_sec), Excluded (9 * nanos_per_sec)).
Proof. exact (ts_seconds_roundtrip from_timestamp_total 5 (Some 9) (fun _ => eq_refl)). Defined.

(** An inclusive right bound is encoded one second too short on both sides
    of the conversion to a half-open range: the decoded range misses the last
    two seconds of the encoded one, its right end included. *)
Theorem ts_seconds_included_right_shrinks (from_timestamp_opt : Z -> option Z) (s e : Z) :
  (forall v, from_timestamp_opt v = Some (v * nanos_per_sec)) ->
  i64_min + 1 <= e <= i64_max ->
  let value := (Included (s * nanos_per_sec), Included (e * nanos_per_sec)) in
  exists value', TsSecondsBoundTuple.deserialize from_timestamp_opt (TsSecondsBoundTuple.serialize value)
      = Ok value' /\
    forall t, in_bounds value' t <-> in_bounds value t /\ t < (e - 1) * nanos_per_sec.
Proof.
  intros Hf He. simpl. rewrite !timestamp_whole, !Hf. simpl. rewrite wrap64_id
    by (unfold in_i64; lia). eexists. split; [done|].
  intros t. unfold in_bounds, nanos_per_sec in *. simpl. lia.
Qed.

Lemma ts_seconds_included_right_shrinks_witness :
  exists value', TsSecondsBoundTuple.deserialize from_timestamp_total
      (TsSecondsBoundTuple.serialize (Included (1 * nanos_per_sec), Included (7 * nanos_per_sec)))
    = Ok value' /\
    forall t, in_bounds value' t <->
      in_bounds (Included (1 * nanos_per_sec), Included (7 * nanos_per_sec)) t
      /\ t < (7 - 1) * nanos_per_sec.
Proof.
  apply (ts_seconds_included_right_shrinks from_timestamp_total 1 7); [done|].
  unfold i64_min, i64_max. lia.
Defined.

(** The segment list of a [room.adjust] request.  Reading back an encoded
    list gives that list, nothing left over, when every range starts no later
    than it stops; otherwise it is refused with the first range that does not. *)
Theorem milliseconds_roundtrip (l : list (Z * Z)) :
  let value := (fun '(s, e) => (Included s, Excluded e)) <$> l in
  MillisecondsBoundTuples.visit_seq [] (MillisecondsBoundTuples.serialize value)
  = match list_first (fun '(s, e) => e <? s) l with
    | None => Ok (value, [])
    | Some (s, e) => Err (InvalidValue s e)
    end.
Proof. exact (visit_seq_spec l []). Qed.
