(* ===== verification/Types.v ===== *)
(** * Data model

    Identifiers, JSON values, the rows of the database tables
    ([src/migrations]) and the objects the [db] modules return
    ([src/src/db/*.rs]); the crates the service calls are operations of the
    class [Externals]. *)

From S2P Require Import Prelude Floats Times.

Abbreviation uuid := N.

(** The composite types [account_id] and [agent_id] of the first migration. *)
Record account_id : Type := AccountId { acc_label : string; acc_audience : string }.
Record agent_id : Type := AgentId { agent_account : account_id; agent_label : string }.

#[global] Instance account_id_eq_dec : EqDecision account_id.
Proof. solve_decision. Defined.
#[global] Instance agent_id_eq_dec : EqDecision agent_id.
Proof. solve_decision. Defined.

#[global] Instance account_id_countable : Countable account_id.
Proof.
  refine (inj_countable' (fun a => (acc_label a, acc_audience a))
                         (fun p => AccountId p.1 p.2) _).
  by intros [].
Defined.

(** ** [serde_json::Value]

    A number is a [u64], a negative [i64] or a finite [f64]. *)
Inductive number : Type :=
  | PosInt (n : Z)
  | NegInt (n : Z)
  | Float (x : f64).

#[warnings="-register-all"]
Inductive json : Type :=
  | JNull
  | JBool (b : bool)
  | JNumber (n : number)
  | JString (s : string)
  | JArray (l : list json)
  | JObject (m : list (string * json)).

#[global] Instance number_eq_dec : EqDecision number.
Proof. solve_decision. Defined.

#[global] Instance json_eq_dec : EqDecision json.
Proof.
  refine (fix go (x y : json) {struct x} : Decision (x = y) :=
    match x, y with
    | JNull, JNull => left eq_refl
    | JBool a, JBool b => cast_if (decide (a = b))
    | JNumber a, JNumber b => cast_if (decide (a = b))
    | JString a, JString b => cast_if (decide (a = b))
    | JArray a, JArray b => cast_if (list_eq_dec (dec := go) a b)
    | JObject a, JObject b => cast_if (list_eq_dec (dec := @prod_eq_dec _ _ _ go) a b)
    | _, _ => right _
    end); clear go; abstract congruence.
Defined.

(** [Value::get] with a string key. *)
Definition json_get (key : string) (v : json) : option json :=
  match v with
  | JObject m => snd <$> list_first (fun p => bool_decide (p.1 = key)) m
  | _ => None
  end.

Definition as_bool (v : json) : option bool := match v with JBool b => Some b | _ => None end.
Definition as_str (v : json) : option string := match v with JString s => Some s | _ => None end.
Definition as_object (v : json) : option (list (string * json)) :=
  match v with JObject m => Some m | _ => None end.

Definition as_array (v : json) : option (list json) := match v with JArray l => Some l | _ => None end.
(** [Value::as_f64]. *)
Definition as_f64 (v : json) : option f64 :=
  match v with
  | JNumber (PosInt n) | JNumber (NegInt n) => Some (f64_of_Z n)
  | JNumber (Float x) => Some x
  | _ => None
  end.
(** [Value::from(f64)]: what is not finite is written as [null]. *)
Definition json_of_f64 (x : f64) : json := if is_finite x then JNumber (Float x) else JNull.

(** What a parsed document holds: every number in the range of its type. *)
Definition number_wf (n : number) : bool :=
  match n with
  | PosInt n => (0 <=? n) && (n <? 2 ^ 64)
  | NegInt n => (- 2 ^ 63 <=? n) && (n <? 0)
  | Float x => valid_binary 53 1024 x && is_finite x
  end.
Fixpoint json_wf (v : json) : bool :=
  match v with
  | JNumber n => number_wf n
  | JArray l => forallb json_wf l
  | JObject m => forallb (fun p => json_wf p.2) m
  | _ => true
  end.

(** ** Rooms *)

Inductive ClassType : Type := Webinar | P2P | Minigroup.

#[global] Instance ClassType_eq_dec : EqDecision ClassType.
Proof. solve_decision. Defined.

(** [ClassType]'s [Display]. *)
Definition ClassType_to_string (k : ClassType) : string :=
  match k with Webinar => "webinar" | P2P => "p2p" | Minigroup => "minigroup" end.

(** A row of [room] as the queries decode it ([DbObject]). *)
Record room_row : Type := RoomRow {
  rr_id : uuid;
  rr_audience : string;
  rr_source_room_id : option uuid;
  rr_time : BoundedDateTimeTuple;
  rr_tags : option json;
  rr_created_at : Z;
  rr_preserve_history : bool;
  rr_classroom_id : uuid;
  rr_locked_types : json;
  rr_whiteboard_access : json;
  rr_kind : ClassType
}.

(** [db::room::Object]. *)
Record Room : Type := MkRoom {
  room_id : uuid;
  room_audience : string;
  room_source_room_id : option uuid;
  room_time : BoundedDateTimeTuple;
  room_tags : option json;
  room_created_at : Z;
  room_preserve_history : bool;
  room_classroom_id : uuid;
  room_locked_types : gmap string bool;
  room_whiteboard_access : gmap account_id bool;
  room_kind : ClassType
}.

(** ** Events *)

(** The bytes of the [binary_data] column. *)
Abbreviation bytes := (list Byte.byte).

(** A row of [event] ([RawObject] and the outbox columns). *)
Record event_row : Type := EventRow {
  er_id : uuid;
  er_room_id : uuid;
  er_kind : string;
  er_set : string;
  er_label : option string;
  er_attribute : option string;
  er_data : option json;
  er_binary_data : option bytes;
  er_occurred_at : Z;
  er_created_by : agent_id;
  er_created_at : Z;
  er_deleted_at : option Z;
  er_original_occurred_at : Z;
  er_original_created_by : agent_id;
  er_removed : bool;
  er_entity_type : option string;
  er_entity_event_id : option Z
}.

(** [db::event::Object]. *)
Record Event : Type := MkEvent {
  event_id : uuid;
  event_room_id : uuid;
  event_kind : string;
  event_set : string;
  event_label : option string;
  event_attribute : option string;
  event_data : json;
  event_occurred_at : Z;
  event_created_by : agent_id;
  event_created_at : Z;
  event_deleted_at : option Z;
  event_original_occurred_at : Z;
  event_original_created_by : agent_id;
  event_removed : bool
}.

(** ** Editions and changes *)

Inductive ChangeType : Type := Addition | Modification | Removal | BulkRemoval.

#[global] Instance ChangeType_eq_dec : EqDecision ChangeType.
Proof. solve_decision. Defined.

(** [db::change::Object]; the columns of [change] are the same. *)
Record Change : Type := MkChange {
  change_id : uuid;
  change_edition_id : uuid;
  change_kind : ChangeType;
  change_event_id : option uuid;
  change_event_kind : option string;
  change_event_set : option string;
  change_event_label : option string;
  change_event_data : option json;
  change_event_occurred_at : option Z;
  change_event_created_by : option agent_id;
  change_created_at : Z
}.

(** [db::edition::Object]. *)
Record Edition : Type := MkEdition {
  edition_id : uuid;
  edition_source_room_id : uuid;
  edition_created_by : agent_id;
  edition_created_at : Z
}.

(** ** Agents, bans, adjustments *)

Inductive Status : Type := InProgress | Ready.

#[global] Instance Status_eq_dec : EqDecision Status.
Proof. solve_decision. Defined.

(** [db::agent::Object]. *)
Record Agent : Type := MkAgent {
  ag_id : uuid;
  ag_agent_id : agent_id;
  ag_room_id : uuid;
  ag_status : Status;
  ag_created_at : Z
}.

(** [db::agent::AgentWithBan]. *)
Record AgentWithBan : Type := MkAgentWithBan {
  awb_agent : Agent;
  awb_banned : option bool;
  awb_reason : option string
}.

(** [db::room_ban::Object]. *)
Record RoomBan : Type := MkRoomBan {
  ban_id : uuid;
  ban_account_id : account_id;
  ban_room_id : uuid;
  ban_created_at : Z;
  ban_reason : option string
}.

(** [db::adjustment::Segments]: [PgRange<i64>]. *)
Abbreviation Segments := (list (Bound Z * Bound Z)).

(** [db::adjustment::Object]. *)
Record Adjustment : Type := MkAdjustment {
  adj_room_id : uuid;
  adj_started_at : Z;
  adj_segments : Segments;
  adj_offset : Z;
  adj_created_at : Z
}.

(** ** The database *)

Record database : Type := Database {
  db_rooms : list room_row;
  db_events : list event_row;
  db_editions : list Edition;
  db_changes : list Change;
  db_agents : list Agent;
  db_bans : list RoomBan;
  db_adjustments : list Adjustment
}.

Definition empty_database : database := Database [] [] [] [] [] [] [].

Definition with_rooms (f : list room_row -> list room_row) (db : database) : database :=
  Database (f (db_rooms db)) (db_events db) (db_editions db) (db_changes db) (db_agents db)
           (db_bans db) (db_adjustments db).
Definition with_events (f : list event_row -> list event_row) (db : database) : database :=
  Database (db_rooms db) (f (db_events db)) (db_editions db) (db_changes db) (db_agents db)
           (db_bans db) (db_adjustments db).
Definition with_editions (f : list Edition -> list Edition) (db : database) : database :=
  Database (db_rooms db) (db_events db) (f (db_editions db)) (db_changes db) (db_agents db)
           (db_bans db) (db_adjustments db).
Definition with_changes (f : list Change -> list Change) (db : database) : database :=
  Database (db_rooms db) (db_events db) (db_editions db) (f (db_changes db)) (db_agents db)
           (db_bans db) (db_adjustments db).
Definition with_agents (f : list Agent -> list Agent) (db : database) : database :=
  Database (db_rooms db) (db_events db) (db_editions db) (db_changes db) (f (db_agents db))
           (db_bans db) (db_adjustments db).
Definition with_bans (f : list RoomBan -> list RoomBan) (db : database) : database :=
  Database (db_rooms db) (db_events db) (db_editions db) (db_changes db) (db_agents db)
           (f (db_bans db)) (db_adjustments db).
Definition with_adjustments (f : list Adjustment -> list Adjustment) (db : database) : database :=
  Database (db_rooms db) (db_events db) (db_editions db) (db_changes db) (db_agents db)
           (db_bans db) (f (db_adjustments db)).

(** ** The crates the service calls *)

Class Externals : Type := {
  (** [uuid]: [Uuid::to_string], [Uuid::parse_str]. *)
  uuid_to_string : uuid -> string;
  uuid_parse : string -> option uuid;
  (** [svc_agent]: [AccountId]'s [Display], [FromStr] and [Serialize]. *)
  account_to_string : account_id -> string;
  account_from_str : string -> option account_id;
  (** [serde_json]: [Value::to_string]. *)
  json_to_string : json -> string;
  (** PostgreSQL: [octet_length(data::text)] of a [jsonb] value. *)
  jsonb_octets : json -> Z;
  (** PostgreSQL: the collation of [text] columns. *)
  text_leb : string -> string -> bool
}.

(** [draw] events are stored in a compact binary form: what [event::mod] asks of
    [CompactEvent] ([schema.rs]) and [PostcardBin] ([binary_encoding.rs]). *)
Class EventCodec : Type := {
  CompactEvent : Type;
  from_json : json -> option CompactEvent;
  into_json : CompactEvent -> option json;
  encode : CompactEvent -> bytes;
  decode : bytes -> option CompactEvent
}.

(** What the [db] module relies on: stored bytes are read back. *)
Class EventCodecLaws `{EventCodec} : Prop :=
  decode_encode : forall c, decode (encode c) = Some c.

(** What PostgreSQL documents of a deterministic collation: a total order. *)
Class CollationLaws `{Externals} : Prop :=
  text_leb_order :: TotalPreorder text_leb.
