(* ===== verification/CompactPath.v ===== *)
(** * Compact paths

    The drawn paths of [src/src/db/event/schema.rs]: an SVG path in JSON, its
    decoding with the box that bounds it, the compact form whose coordinates are
    ten-thousandths of the box, and the way back.  [f64] is the arithmetic of
    [Floats], so every rounding of the code is in the model. *)

From S2P Require Import Prelude Floats Times Types.

Inductive PathPart : Type :=
  | PathM (x y : f64)
  | PathQ (x1 y1 x2 y2 : f64)
  | PathL (x y : f64)
  | PathZ.

Record Path : Type := MkPath {
  parts : list PathPart;
  min_x : f64;
  width : f64;
  min_y : f64;
  height : f64
}.

(** The coordinates are [u16]. *)
Inductive CompactPathPart : Type :=
  | CompactM (x y : Z)
  | CompactQ (x1 y1 x2 y2 : Z)
  | CompactL (x y : Z)
  | CompactZ.

(** The box is in [f32]. *)
Record CompactPath : Type := MkCompactPath {
  c_parts : list CompactPathPart;
  c_min_x : f32;
  c_width : f32;
  c_min_y : f32;
  c_height : f32
}.

#[global] Instance PathPart_eq_dec : EqDecision PathPart.
Proof. solve_decision. Defined.
#[global] Instance Path_eq_dec : EqDecision Path.
Proof. solve_decision. Defined.
#[global] Instance CompactPathPart_eq_dec : EqDecision CompactPathPart.
Proof. solve_decision. Defined.
#[global] Instance CompactPath_eq_dec : EqDecision CompactPath.
Proof. solve_decision. Defined.

(** ** [decode_path] *)

(** [as_f64(arr, idx)]. *)
Definition arr_f64 (arr : list json) (idx : nat) : option f64 := arr !! idx ≫= as_f64.

(** The local variables [min_x], [max_x], [min_y], [max_y]. *)
Record Box : Type := MkBox { b_min_x : f64; b_max_x : f64; b_min_y : f64; b_max_y : f64 }.

Definition box_x (x : f64) (b : Box) : Box :=
  MkBox (if f64_ltb x (b_min_x b) then x else b_min_x b)
        (if f64_ltb (b_max_x b) x then x else b_max_x b) (b_min_y b) (b_max_y b).
Definition box_y (y : f64) (b : Box) : Box :=
  MkBox (b_min_x b) (b_max_x b)
        (if f64_ltb y (b_min_y b) then y else b_min_y b)
        (if f64_ltb (b_max_y b) y then y else b_max_y b).
Definition box_point (x y : f64) (b : Box) : Box := box_y y (box_x x b).

Definition decode_part (part : json) (b : Box) : option (PathPart * Box) :=
  arr ← as_array part;
  label ← arr !! 0%nat ≫= as_str;
  if bool_decide (label = "M"%string) then
    x ← arr_f64 arr 1; y ← arr_f64 arr 2;
    Some (PathM x y, box_point x y b)
  else if bool_decide (label = "L"%string) then
    x ← arr_f64 arr 1; y ← arr_f64 arr 2;
    Some (PathL x y, box_point x y b)
  else if bool_decide (label = "Q"%string) then
    x1 ← arr_f64 arr 1; y1 ← arr_f64 arr 2;
    x2 ← arr_f64 arr 3; y2 ← arr_f64 arr 4;
    Some (PathQ x1 y1 x2 y2, box_point x2 y2 (box_point x1 y1 b))
  else if bool_decide (label = "z"%string) then Some (PathZ, b)
  else None.

Fixpoint decode_parts (path : list json) (b : Box) : option (list PathPart * Box) :=
  match path with
  | [] => Some ([], b)
  | part :: path =>
    '(p, b) ← decode_part part b;
    '(ps, b) ← decode_parts path b;
    Some (p :: ps, b)
  end.

Definition empty_box : Box := MkBox f64_MAX f64_MIN f64_MAX f64_MIN.

Definition decode_path (path : list json) : option Path :=
  '(ps, b) ← decode_parts path empty_box;
  Some (MkPath ps (b_min_x b) (f64_sub (b_max_x b) (b_min_x b))
          (b_min_y b) (f64_sub (b_max_y b) (b_min_y b))).

(** ** [compress_path] *)

Definition u16_MAX : Z := 2 ^ 16 - 1.
Definition u64_MAX : Z := 2 ^ 64 - 1.

Definition ten_thousand : f64 := f64_of_Z 10000.
Definition hundred : f64 := f64_of_Z 100.

Definition to_u16 (x : f64) : option Z :=
  let r := cast_int 0 u64_MAX (f64_trunc (f64_mul x ten_thousand)) in
  if r <? u16_MAX then Some r else None.

Definition norm (x min length : f64) : option Z := to_u16 (f64_div (f64_sub x min) length).

Definition compress_part (decoded : Path) (part : PathPart) : option CompactPathPart :=
  let norm_x x := norm x (min_x decoded) (width decoded) in
  let norm_y y := norm y (min_y decoded) (height decoded) in
  match part with
  | PathM x y => x ← norm_x x; y ← norm_y y; Some (CompactM x y)
  | PathQ x1 y1 x2 y2 =>
    x1 ← norm_x x1; y1 ← norm_y y1; x2 ← norm_x x2; y2 ← norm_y y2; Some (CompactQ x1 y1 x2 y2)
  | PathL x y => x ← norm_x x; y ← norm_y y; Some (CompactL x y)
  | PathZ => Some CompactZ
  end.

Definition compress_path (path : list json) : option CompactPath :=
  decoded ← decode_path path;
  comp_path ← mapM (compress_part decoded) (parts decoded);
  Some (MkCompactPath comp_path (f32_of_f64 (min_x decoded)) (f32_of_f64 (width decoded))
          (f32_of_f64 (min_y decoded)) (f32_of_f64 (height decoded))).

(** ** [decompress_path], [path_to_json] *)

Definition denorm (x : Z) (min length : f64) : f64 :=
  f64_add min (f64_mul (f64_div (f64_of_Z x) ten_thousand) length).

Definition decompress_part (min_x width min_y height : f64) (part : CompactPathPart) : PathPart :=
  match part with
  | CompactM x y => PathM (denorm x min_x width) (denorm y min_y height)
  | CompactQ x1 y1 x2 y2 =>
    PathQ (denorm x1 min_x width) (denorm y1 min_y height) (denorm x2 min_x width) (denorm y2 min_y height)
  | CompactL x y => PathL (denorm x min_x width) (denorm y min_y height)
  | CompactZ => PathZ
  end.

Definition decompress_path (path : CompactPath) : Path :=
  let min_x := f64_of_f32 (c_min_x path) in
  let min_y := f64_of_f32 (c_min_y path) in
  let width := f64_of_f32 (c_width path) in
  let height := f64_of_f32 (c_height path) in
  MkPath (decompress_part min_x width min_y height <$> c_parts path) min_x width min_y height.

Definition two_decimal_places (v : f64) : f64 := f64_div (f64_round (f64_mul v hundred)) hundred.

Definition part_to_json (part : PathPart) : json :=
  let num v := json_of_f64 (two_decimal_places v) in
  match part with
  | PathM x y => JArray [JString "M"; num x; num y]
  | PathQ x1 y1 x2 y2 => JArray [JString "Q"; num x1; num y1; num x2; num y2]
  | PathL x y => JArray [JString "L"; num x; num y]
  | PathZ => JArray [JString "z"]
  end.

Definition path_to_json (path : Path) : list json := part_to_json <$> parts path.

(** ** Samples *)

(** A number of the source with two decimals, as the parser of JSON reads it. *)
Definition hundredths (n : Z) : json := JNumber (Float (f64_lit n 100)).

Definition sample_M (x y : Z) : json := JArray [JString "M"; hundredths x; hundredths y].
Definition sample_L (x y : Z) : json := JArray [JString "L"; hundredths x; hundredths y].
Definition sample_Q (x1 y1 x2 y2 : Z) : json :=
  JArray [JString "Q"; hundredths x1; hundredths y1; hundredths x2; hundredths y2].

(** The path of the test [test_path_encode_decode]. *)
Definition sample_path : list json :=
  [sample_M (-654) 561420; sample_Q (-654) 561419 (-654) 561308; sample_Q (-654) 561198 (-654) 561087;
   sample_Q (-654) 560976 (-654) 560865; sample_Q (-654) 560754 (-543) 560587;
   sample_Q (-432) 560421 (-377) 560310; sample_Q (-321) 560199 (-210) 560032;
   sample_Q (-99) 559866 (-43) 559755; sample_Q 12 559644 123 559533; sample_Q 234 559422 345 559311;
   sample_Q 457 559200 623 559089; sample_Q 790 558978 901 558923; sample_Q 1012 558867 1123 558812;
   sample_Q 1234 558756 1345 558756; sample_Q 1456 558756 1623 558645; sample_L 1790 558534].

Example sample_path_roundtrip :
  path_to_json ∘ decompress_path <$> compress_path sample_path = Some sample_path.
Proof. vm_compute. reflexivity. Qed.

(** A horizontal line has a box without height. *)
Example horizontal_path_roundtrip :
  path_to_json ∘ decompress_path <$> compress_path [sample_M 0 100; sample_L 500 100] =
  Some [sample_M 0 100; sample_L 500 100].
Proof. vm_compute. reflexivity. Qed.

(** ** Specification *)

(** A number of the format. *)
Definition fin64 (x : f64) : Prop := valid 53 1024 x /\ is_finite x = true.

(** Its value, in units of the least positive number. *)
Abbreviation val := (fval 53 1024).

(** The points of a path, in order. *)
Definition part_points (p : PathPart) : list (f64 * f64) :=
  match p with
  | PathM x y | PathL x y => [(x, y)]
  | PathQ x1 y1 x2 y2 => [(x1, y1); (x2, y2)]
  | PathZ => []
  end.
Definition compact_part_points (p : CompactPathPart) : list (Z * Z) :=
  match p with
  | CompactM x y | CompactL x y => [(x, y)]
  | CompactQ x1 y1 x2 y2 => [(x1, y1); (x2, y2)]
  | CompactZ => []
  end.

(** The commands of a path. *)
Definition part_label (p : PathPart) : string :=
  match p with PathM _ _ => "M" | PathQ _ _ _ _ => "Q" | PathL _ _ => "L" | PathZ => "z" end.
Definition compact_part_label (p : CompactPathPart) : string :=
  match p with CompactM _ _ => "M" | CompactQ _ _ _ _ => "Q" | CompactL _ _ => "L" | CompactZ => "z" end.

Definition box_ok (b : Box) : Prop :=
  fin64 (b_min_x b) /\ fin64 (b_max_x b) /\ fin64 (b_min_y b) /\ fin64 (b_max_y b).

(** [b'] contains [b]. *)
Definition box_grows (b b' : Box) : Prop :=
  val (b_min_x b') <= val (b_min_x b) /\ val (b_max_x b) <= val (b_max_x b') /\
  val (b_min_y b') <= val (b_min_y b) /\ val (b_max_y b) <= val (b_max_y b').

Definition in_box (b : Box) (p : f64 * f64) : Prop :=
  fin64 p.1 /\ fin64 p.2 /\
  val (b_min_x b) <= val p.1 <= val (b_max_x b) /\ val (b_min_y b) <= val p.2 <= val (b_max_y b).

(** ** Lemmas *)

#[export] Instance box_grows_preorder : PreOrder box_grows.
Proof. split; unfold box_grows; [intros ?; lia|intros ? ? ?; lia]. Qed.

Lemma as_f64_fin v x : json_wf v = true -> as_f64 v = Some x -> fin64 x.
Proof.
  assert (forall n, Zdigits2 n <= 64 -> fin64 (f64_of_Z n)) as Hint.
  { intros n Hn. split; [apply of_Z_valid, _|apply of_Z_finite; [apply _|lia]]. }
  destruct v as [| |[n|n|y]| | |]; try done; simpl; intros Hwf [= <-]; bool_prop; [..|done]; apply Hint.
  - apply (Zdigits2_le n 64); lia.
  - apply Z.leb_le in H. apply Z.ltb_lt in H0. destruct n as [|p|p]; [done|lia|].
    apply (Zdigits2_le (Zpos p) 64); lia.
Qed.

Lemma arr_f64_fin arr i x : forallb json_wf arr = true -> arr_f64 arr i = Some x -> fin64 x.
Proof.
  intros Hwf. unfold arr_f64. destruct (arr !! i) as [v|] eqn:Ev; simpl; [|done].
  apply as_f64_fin. rewrite forallb_forall in Hwf. apply Hwf, list_elem_of_In. by eapply list_elem_of_lookup_2.
Qed.

Lemma box_point_spec x y b :
  fin64 x -> fin64 y -> box_ok b ->
  box_ok (box_point x y b) /\ box_grows b (box_point x y b) /\ in_box (box_point x y b) (x, y).
Proof.
  intros [Hx Hfx] [Hy Hfy] ([H1 F1] & [H2 F2] & [H3 F3] & [H4 F4]).
  unfold box_ok, box_grows, in_box, box_point, box_y, box_x, fin64. simpl.
  rewrite !(SFltb_fval 53 1024) by done. repeat case_match; bool_prop; split_and!; done || lia.
Qed.

Lemma in_box_grows b b' p : box_grows b b' -> in_box b p -> in_box b' p.
Proof. unfold box_grows, in_box. intros ? (? & ? & ? & ?). split_and!; done || lia. Qed.

Ltac option_cases :=
  repeat match goal with
  | H : (_ ≫= _) = Some _ |- _ => apply bind_Some in H as (? & ? & ?)
  | H : context [if ?b then _ else _] |- _ => destruct b eqn:?
  end; simplify_eq/=.

Lemma decode_part_spec part b p b' :
  json_wf part = true -> box_ok b -> decode_part part b = Some (p, b') ->
  box_ok b' /\ box_grows b b' /\ Forall (in_box b') (part_points p).
Proof.
  intros Hwf Hb Hd. unfold decode_part in Hd. destruct part as [| | | |arr|]; try done. simpl in Hd, Hwf.
  option_cases.
  all: repeat match goal with H : arr_f64 _ _ = Some _ |- _ => apply arr_f64_fin in H; [|done] end.
  1,2: match goal with |- context [box_point ?x ?y ?bb] =>
    destruct (box_point_spec x y bb) as (? & ? & ?); [done..|] end; split_and!; [done..|];
    by apply Forall_singleton.
  - match goal with |- context [box_point ?x2 ?y2 (box_point ?x1 ?y1 ?bb)] =>
      destruct (box_point_spec x1 y1 bb) as (Hb1 & Hg1 & Hi1); [done..|];
      destruct (box_point_spec x2 y2 (box_point x1 y1 bb)) as (Hb2 & Hg2 & Hi2); [done..|] end.
    split_and!; [done|by etrans|]. simpl. rewrite Forall_cons, Forall_singleton.
    split; [by eapply in_box_grows|done].
  - split_and!; [done..|constructor].
Qed.

Lemma decode_parts_spec path b ps b' :
  forallb json_wf path = true -> box_ok b -> decode_parts path b = Some (ps, b') ->
  box_ok b' /\ box_grows b b' /\ Forall (fun p => Forall (in_box b') (part_points p)) ps.
Proof.
  revert b ps. induction path as [|part path IH]; intros b ps Hwf Hb Hd; simpl in Hd, Hwf.
  - simplify_eq. split_and!; [done..|constructor].
  - bool_prop. apply bind_Some in Hd as ([p b1] & Hp & Hd). apply bind_Some in Hd as ([ps1 b2] & Hps & [= <- <-]).
    destruct (decode_part_spec _ _ _ _ ltac:(done) Hb Hp) as (Hb1 & Hg1 & Hi1).
    destruct (IH b1 ps1 ltac:(done) Hb1 Hps) as (Hb2 & Hg2 & Hi2).
    split_and!; [done|by etrans|]. constructor; [|done]. eapply Forall_impl; [exact Hi1|].
    intros q Hq. by eapply in_box_grows.
Qed.

Lemma empty_box_ok : box_ok empty_box.
Proof. by split_and!. Qed.

Lemma SFleb_val x y : fin64 x -> fin64 y -> SFleb x y = true -> val x <= val y.
Proof.
  intros [Hx Fx] [Hy Fy]. unfold SFleb. rewrite (SFcompare_fval 53 1024) by done.
  destruct (Z.compare_spec (val x) (val y)); done || lia.
Qed.

(** *** The coordinates *)

(** The coordinate before the test of its range. *)
Definition scaled (d length : f64) : Z := cast_int 0 u64_MAX (f64_mul (f64_div d length) ten_thousand).

Lemma ten_thousand_canonical : canonical 53 1024 (10000 * 2 ^ 39) (-39).
Proof. done. Qed.

Lemma div_valid d length :
  valid 53 1024 d -> valid 53 1024 length -> fle (S754_zero false) d -> fle (S754_zero false) length ->
  valid 53 1024 (f64_div d length).
Proof.
  intros Hd Hl H1 H2. destruct d as [[]|[]| |[] m1 e1], length as [[]|[]| |[] m2 e2]; simpl in H1, H2; try done.
  destruct (div_rounds 53 1024 m1 e1 m2 e2) as (e & _ & HR). by eapply rounds_valid.
Qed.

Lemma scaled_valid d length :
  valid 53 1024 d -> valid 53 1024 length -> fle (S754_zero false) d -> fle (S754_zero false) length ->
  valid 53 1024 (f64_mul (f64_div d length) ten_thousand).
Proof.
  intros Hd Hl H1 H2. pose proof (div_valid _ _ Hd Hl H1 H2) as Hq.
  destruct d as [[]|[]| |[] m1 e1], length as [[]|[]| |[] m2 e2]; simpl in H1, H2; try done.
  destruct (div_rounds 53 1024 m1 e1 m2 e2) as (e & _ & HR). apply (rounds_nonneg 53 1024) in HR.
  destruct (f64_div _ _) as [[]|[]| |[] m e']; simpl in HR; try done.
  apply (valid_finite 53 1024) in Hq as [Hc _].
  eapply (rounds_valid 53 1024), (mul_rounds 53 1024); [exact Hc|exact ten_thousand_canonical].
Qed.

Lemma norm_scaled x min length :
  valid 53 1024 (f64_sub x min) -> valid 53 1024 length ->
  fle (S754_zero false) (f64_sub x min) -> fle (S754_zero false) length ->
  norm x min length = (let r := scaled (f64_sub x min) length in if r <? u16_MAX then Some r else None).
Proof.
  intros Hd Hl H1 H2. unfold norm, to_u16, scaled. by rewrite (cast_int_trunc 53 1024) by by apply scaled_valid.
Qed.

Lemma scaled_nonneg d length : fle (S754_zero false) d -> fle (S754_zero false) length -> valid 53 1024 d ->
  0 <= scaled d length.
Proof. intros _ _ _. unfold scaled, cast_int, u64_MAX. destruct (f64_mul _ _) as [|[]| |]; lia. Qed.

Lemma scaled_zero s length : scaled (S754_zero s) length = 0.
Proof. unfold scaled. by destruct length as [|[]| |]. Qed.

Lemma scaled_mono d1 d2 length :
  valid 53 1024 d1 -> valid 53 1024 d2 -> valid 53 1024 length ->
  fle (S754_zero false) d1 -> fle d1 d2 -> fle d2 length -> scaled d1 length <= scaled d2 length.
Proof.
  intros Hd1 Hd2 Hl H0 H1 H2. assert (0 <= scaled d2 length) as Hnn.
  { unfold scaled, cast_int, u64_MAX. destruct (f64_mul _ _) as [|[]| |]; lia. }
  destruct d1 as [s|[]| |[] m1 e1]; simpl in H0; try done; [by rewrite scaled_zero| |].
  { destruct d2 as [[]|[]| |[] m2 e2]; simpl in H1; try done. }
  destruct d2 as [[]|[]| |[] m2 e2], length as [[]|[]| |[] m e]; simpl in H1, H2; try done.
  unfold scaled. apply (cast_int_mono); [unfold u64_MAX; lia|].
  pose proof (div_mono 53 1024 m1 e1 m2 e2 m e H1) as Hdiv.
  apply (mul_mono 53 1024); [..|exact ten_thousand_canonical|exact Hdiv]; by apply div_valid.
Qed.

Lemma scaled_self length :
  fle (S754_zero false) length -> scaled length length = 10000 \/ scaled length length = 0.
Proof.
  intros H0. destruct length as [s|[]| |[] m e]; simpl in H0; try done; [right; apply scaled_zero|by right|left].
  unfold scaled. by rewrite (div_self 53 1024 m e (2 ^ 52) (-52)).
Qed.

(** A coordinate of the box is compacted to at most 10000, in order. *)
Lemma norm_spec x min max :
  fin64 x -> fin64 min -> fin64 max -> val min <= val x <= val max ->
  norm x min (f64_sub max min) = Some (scaled (f64_sub x min) (f64_sub max min)) /\
  0 <= scaled (f64_sub x min) (f64_sub max min) <= 10000.
Proof.
  intros [Hx Fx] [Hn Fn] [Hm Fm] Hle.
  assert (fle (f64_sub min min) (f64_sub x min)) as H0 by (apply (sub_mono 53 1024); done || lia).
  assert (fle (f64_sub x min) (f64_sub max min)) as H1 by (apply (sub_mono 53 1024); done || lia).
  assert (valid 53 1024 (f64_sub x min)) as Hv1 by (apply (sub_valid 53 1024); done || lia).
  assert (valid 53 1024 (f64_sub max min)) as Hv2 by (apply (sub_valid 53 1024); done || lia).
  assert (fle (S754_zero false) (f64_sub x min)) as H0'.
  { destruct (sub_rounds 53 1024 min min Hn Hn Fn Fn) as [[_ [s Hs]]|(v & e & ? & ? & Heq & _)]; [lia| |].
    - rewrite Hs in H0. by destruct s.
    - exfalso. assert (0 < 2 ^ (e - SpecFloat.emin 53 1024)) by (apply Z.pow_pos_nonneg; lia). nia. }
  assert (fle (S754_zero false) (f64_sub max min)) as H2.
  { destruct (f64_sub x min) as [[]|[]| |[] ? ?], (f64_sub max min) as [[]|[]| |[] ? ?]; done. }
  assert (0 <= scaled (f64_sub x min) (f64_sub max min) <= 10000) as Hb.
  { split; [by apply scaled_nonneg|]. etrans.
    - apply (scaled_mono _ (f64_sub max min)); [done..|]. destruct (f64_sub max min) as [[]|[]| |[] ? ?]; try done.
      apply dle_refl.
    - destruct (scaled_self _ H2) as [->| ->]; lia. }
  split; [|done]. rewrite norm_scaled by done. cbv zeta. unfold u16_MAX.
  by rewrite (proj2 (Z.ltb_lt _ _)) by lia.
Qed.

(** A coordinate of the box, its compact form and the box along the axis. *)
Definition coordinate (min max x : f64) (q : Z) : Prop :=
  norm x min (f64_sub max min) = Some q /\ 0 <= q <= 10000 /\
  q = scaled (f64_sub x min) (f64_sub max min) /\ fin64 x /\ val min <= val x <= val max.

Lemma coordinate_mono min max x1 x2 q1 q2 :
  fin64 min -> fin64 max -> coordinate min max x1 q1 -> coordinate min max x2 q2 -> SFleb x1 x2 = true ->
  q1 <= q2.
Proof.
  intros [Hn Fn] [Hm Fm] (_ & _ & -> & [Hx1 Fx1] & ?) (_ & _ & -> & [Hx2 Fx2] & ?) Hle%SFleb_val; [|done..].
  apply scaled_mono; try (apply (sub_valid 53 1024); done || lia); try (apply (sub_mono 53 1024); done || lia).
  assert (fle (f64_sub min min) (f64_sub x1 min)) as H1 by (apply (sub_mono 53 1024); done || lia).
  destruct (sub_rounds 53 1024 min min Hn Hn Fn Fn) as [[_ [s Hs]]|(v & e & ? & ? & Heq & _)]; [lia| |].
  - rewrite Hs in H1. by destruct s.
  - exfalso. assert (0 < 2 ^ (e - SpecFloat.emin 53 1024)) by (apply Z.pow_pos_nonneg; lia). nia.
Qed.

Lemma in_box_coordinates b p :
  box_ok b -> in_box b p ->
  exists q r, coordinate (b_min_x b) (b_max_x b) p.1 q /\ coordinate (b_min_y b) (b_max_y b) p.2 r.
Proof.
  intros (? & ? & ? & ?) (? & ? & ? & ?).
  destruct (norm_spec p.1 (b_min_x b) (b_max_x b)) as [? ?]; [done..|].
  destruct (norm_spec p.2 (b_min_y b) (b_max_y b)) as [? ?]; [done..|].
  by do 2 eexists.
Qed.

Definition point_coordinates (b : Box) (p : f64 * f64) (c : Z * Z) : Prop :=
  coordinate (b_min_x b) (b_max_x b) p.1 c.1 /\ coordinate (b_min_y b) (b_max_y b) p.2 c.2.

(** The path a box and decoded parts make. *)
Definition path_of (ps : list PathPart) (b : Box) : Path :=
  MkPath ps (b_min_x b) (f64_sub (b_max_x b) (b_min_x b)) (b_min_y b) (f64_sub (b_max_y b) (b_min_y b)).

Lemma compress_part_spec ps b p :
  box_ok b -> Forall (in_box b) (part_points p) ->
  exists c, compress_part (path_of ps b) p = Some c /\ part_label p = compact_part_label c /\
    Forall2 (point_coordinates b) (part_points p) (compact_part_points c).
Proof.
  intros Hb Hp. destruct p as [x y|x1 y1 x2 y2|x y|]; simpl in Hp |- *.
  - apply Forall_singleton, in_box_coordinates in Hp as (q & r & Hq & Hr); [|done].
    simpl in Hq, Hr. pose proof Hq as (-> & _). pose proof Hr as (-> & _). eexists. split_and!; [done|done|]. repeat first [apply Forall2_nil_2|apply Forall2_cons_2]; done.
  - rewrite Forall_cons, Forall_singleton in Hp. destruct Hp as [Hp1 Hp2].
    apply in_box_coordinates in Hp1 as (q1 & r1 & Hq1 & Hr1); [|done].
    apply in_box_coordinates in Hp2 as (q2 & r2 & Hq2 & Hr2); [|done].
    simpl in Hq1, Hr1, Hq2, Hr2.
    pose proof Hq1 as (-> & _). pose proof Hr1 as (-> & _). pose proof Hq2 as (-> & _). pose proof Hr2 as (-> & _).
    eexists. split_and!; [done|done|]. repeat first [apply Forall2_nil_2|apply Forall2_cons_2]; done.
  - apply Forall_singleton, in_box_coordinates in Hp as (q & r & Hq & Hr); [|done].
    simpl in Hq, Hr. pose proof Hq as (-> & _). pose proof Hr as (-> & _). eexists. split_and!; [done|done|]. repeat first [apply Forall2_nil_2|apply Forall2_cons_2]; done.
  - by exists CompactZ.
Qed.

Definition points (p : Path) : list (f64 * f64) := parts p ≫= part_points.
Definition compact_points (c : CompactPath) : list (Z * Z) := c_parts c ≫= compact_part_points.

Lemma compress_parts_spec ps0 b ps :
  box_ok b -> Forall (fun p => Forall (in_box b) (part_points p)) ps ->
  exists cs, mapM (compress_part (path_of ps0 b)) ps = Some cs /\
    part_label <$> ps = compact_part_label <$> cs /\
    Forall2 (point_coordinates b) (ps ≫= part_points) (cs ≫= compact_part_points).
Proof.
  intros Hb. induction 1 as [|p ps Hp _ IH]; [by exists []|].
  destruct (compress_part_spec ps0 b p Hb Hp) as (c & Hc & Hl & Hpts).
  destruct IH as (cs & Hcs & Hls & Hptss). exists (c :: cs). simpl. rewrite Hc, Hcs. simpl. split_and!; [done| |].
  - change (part_label p :: (part_label <$> ps) = compact_part_label c :: (compact_part_label <$> cs)).
    by rewrite Hl, Hls.
  - by apply Forall2_app.
Qed.

(** What [compress_path] makes of a decoded path. *)
Lemma compress_path_spec path d :
  forallb json_wf path = true -> decode_path path = Some d ->
  exists b c, box_ok b /\ compress_path path = Some c /\
    part_label <$> parts d = compact_part_label <$> c_parts c /\
    Forall2 (point_coordinates b) (points d) (compact_points c).
Proof.
  intros Hwf Hd. unfold compress_path. rewrite Hd. simpl. unfold decode_path in Hd.
  apply bind_Some in Hd as ([ps b] & Hps & [= <-]).
  destruct (decode_parts_spec _ _ _ _ Hwf empty_box_ok Hps) as (Hb & _ & Hin).
  destruct (compress_parts_spec ps b ps Hb Hin) as (cs & Hcs & Hl & Hpts).
  fold (path_of ps b). simpl. rewrite Hcs. simpl. by eexists b, _.
Qed.

(** ** Properties *)

(** C14: compaction never loses a path: a path whose parts can be read is always
    compacted ([LosingPrecision] means that some part is malformed), the commands
    are kept, every coordinate becomes an integer from 0 to 10000 (so that it
    fits in [u16] and [denorm]'s ten-thousandths), and the order of the
    coordinates along each axis is kept, however the arithmetic rounds. *)
Theorem compress_path_correct (path : list json) :
  forallb json_wf path = true ->
  (compress_path path = None <-> decode_path path = None) /\
  forall d c, decode_path path = Some d -> compress_path path = Some c ->
    part_label <$> parts d = compact_part_label <$> c_parts c /\
    length (points d) = length (compact_points c) /\
    forall i j x1 y1 x2 y2 q1 r1 q2 r2,
      points d !! i = Some (x1, y1) -> compact_points c !! i = Some (q1, r1) ->
      points d !! j = Some (x2, y2) -> compact_points c !! j = Some (q2, r2) ->
      (0 <= q1 <= 10000 /\ 0 <= r1 <= 10000) /\
      (SFleb x1 x2 = true -> q1 <= q2) /\ (SFleb y1 y2 = true -> r1 <= r2).
Proof.
  intros Hwf. split.
  - split.
    + intros Hn. destruct (decode_path path) as [d|] eqn:Hd; [|done].
      destruct (compress_path_spec path d Hwf Hd) as (b & c & _ & Hc & _). congruence.
    + intros Hd. unfold compress_path. by rewrite Hd.
  - intros d c Hd Hc. destruct (compress_path_spec path d Hwf Hd) as (b & c' & Hb & Hc' & Hl & Hpts).
    assert (c' = c) as -> by congruence. split_and!; [done|by eapply Forall2_length|].
    intros i j x1 y1 x2 y2 q1 r1 q2 r2 H1 H2 H3 H4.
    pose proof (Forall2_lookup_lr _ _ _ _ _ _ Hpts H1 H2) as [Hx1 Hy1].
    pose proof (Forall2_lookup_lr _ _ _ _ _ _ Hpts H3 H4) as [Hx2 Hy2].
    destruct Hb as (B1 & B2 & B3 & B4). simpl in *. split_and!.
    + pose proof Hx1 as (_ & ? & _). lia.
    + pose proof Hx1 as (_ & ? & _). lia.
    + pose proof Hy1 as (_ & ? & _). lia.
    + pose proof Hy1 as (_ & ? & _). lia.
    + by apply (coordinate_mono (b_min_x b) (b_max_x b)).
    + by apply (coordinate_mono (b_min_y b) (b_max_y b)).
Qed.

Lemma compress_path_correct_witness :
  is_Some (compress_path sample_path) /\
  (compress_path sample_path = None <-> decode_path sample_path = None).
Proof.
  split; [by_evaluation|]. refine (proj1 (compress_path_correct sample_path _)). vm_compute. reflexivity.
Defined.
