(* ===== verification/Schema.v ===== *)
(** * Schema of drawings

    The JSON form of a drawn figure, [EventSchema] of
    [src/src/db/event/schema.rs]: the enumerations with their wire names, the
    record with the attributes of its fields, and the serializer and the
    deserializer [serde] derives from them.  A field is described by a [codec]:
    how a value of its type is written, read, and what its absence means. *)

From S2P Require Import Prelude Floats Times Types CompactPath.

(** ** Codecs *)

(** [serde_json::from_str]. *)
Class JsonParser : Type := json_from_str : string -> option json.

(** [fits] holds of the values the format can represent. *)
Record codec (A : Type) : Type := Codec {
  ser : A -> option json;
  de : json -> option A;
  missing : option A;
  fits : A -> Prop
}.
Arguments Codec {A} _ _ _ _.
Arguments ser {A} _ _.
Arguments de {A} _ _.
Arguments missing {A} _.
Arguments fits {A} _ _.

(** A value that fits is written, not as [null], and read back. *)
Class CodecLaw {A} (c : codec A) : Prop :=
  codec_law : forall a, fits c a -> exists j, ser c a = Some j /\ de c j = Some a /\ j <> JNull.

(** The same, when it may be written as [null]. *)
Class FieldLaw {A} (c : codec A) : Prop :=
  field_law : forall a, fits c a -> exists j, ser c a = Some j /\ de c j = Some a.

#[export] Instance codec_field {A} (c : codec A) `{!CodecLaw c} : FieldLaw c.
Proof. intros a Ha. destruct (codec_law a Ha) as (j & ? & ? & _). eauto. Qed.

(** An enumeration of unit variants. *)
Class UnitEnum (A : Type) : Type := {
  rename : A -> string;
  variants : list A;
  variants_complete a : list_first (fun v => bool_decide (rename v = rename a)) variants = Some a
}.

Definition c_bool : codec bool := Codec (fun b => Some (JBool b)) as_bool None (fun _ => True).
Definition c_string : codec string := Codec (fun s => Some (JString s)) as_str None (fun _ => True).
Definition c_value : codec json := Codec Some Some None (fun _ => True).

Definition de_f32 (v : json) : option f32 :=
  match v with
  | JNumber (PosInt n) | JNumber (NegInt n) => Some (f32_of_Z n)
  | JNumber (Float x) => Some (f32_of_f64 x)
  | _ => None
  end.
Definition c_f32 : codec f32 :=
  Codec (fun x => Some (json_of_f64 (f64_of_f32 x))) de_f32 None
    (fun x => valid 24 128 x /\ is_finite x = true).
Definition c_f64 : codec f64 :=
  Codec (fun x => Some (json_of_f64 x)) as_f64 None (fun x => is_finite x = true).

Definition c_u8 : codec Z :=
  Codec (fun n => Some (JNumber (PosInt n)))
    (fun v => match v with JNumber (PosInt n) => if n <? 256 then Some n else None | _ => None end) None
    (fun n => 0 <= n < 256).
Definition c_i64 : codec Z :=
  Codec (fun n => Some (JNumber (if 0 <=? n then PosInt n else NegInt n)))
    (fun v => match v with
              | JNumber (PosInt n) => if n <=? i64_max then Some n else None
              | JNumber (NegInt n) => Some n
              | _ => None
              end) None
    in_i64.

Definition variant_of {A} `{UnitEnum A} (s : string) : option A :=
  list_first (fun v => bool_decide (rename v = s)) variants.

(** A unit variant is its name, or an object with the name and [null]. *)
Definition c_enum {A} `{UnitEnum A} : codec A :=
  Codec (fun a => Some (JString (rename a)))
    (fun v => match v with
              | JString s => variant_of s
              | JObject [(s, JNull)] => variant_of s
              | _ => None
              end) None
    (fun _ => True).

Definition c_option {A} (c : codec A) : codec (option A) :=
  Codec (fun o => match o with Some a => ser c a | None => Some JNull end)
    (fun v => match v with JNull => Some None | _ => Some <$> de c v end) (Some None)
    (fun o => match o with Some a => fits c a | None => True end).

Definition c_vec {A} (c : codec A) : codec (list A) :=
  Codec (fun l => JArray <$> mapM (ser c) l)
    (fun v => match v with JArray l => mapM (de c) l | _ => None end) None
    (Forall (fits c)).

Section Codecs.
Context `{Externals, JsonParser}.

Definition c_uuid : codec uuid :=
  Codec (fun u => Some (JString (uuid_to_string u))) (fun v => as_str v ≫= uuid_parse) None
    (fun u => uuid_parse (uuid_to_string u) = Some u).

(** [json_as_str], with [default]. *)
Definition c_json_as_str : codec (option string) :=
  Codec (fun o => match o with Some s => json_from_str s | None => Some JNull end)
    (fun v => match v with JNull => Some None | _ => Some (Some (json_to_string v)) end) (Some None)
    (fun o => match o with
              | Some s => exists v, json_from_str s = Some v /\ json_to_string v = s /\ v <> JNull
              | None => True
              end).

End Codecs.

(** ** Objects *)

(** A field of an object, or a field that is skipped. *)
Definition entry : Type := string * option json.

Definition field {A} (name : string) (c : codec A) (v : A) : option entry :=
  j ← ser c v; Some (name, Some j).

(** [skip_serializing_if = "Option::is_none"]. *)
Definition field_opt {A} (name : string) (c : codec A) (v : option A) : option entry :=
  match v with
  | Some a => j ← ser c a; Some (name, Some j)
  | None => Some (name, None)
  end.

Definition present (e : entry) : option (string * json) := j ← e.2; Some (e.1, j).

Definition to_object (fields : list (option entry)) : option json :=
  es ← mapM id fields; Some (JObject (omap present es)).

Definition de_field {A} (fields : json) (name : string) (c : codec A) : option A :=
  match json_get name fields with
  | Some v => de c v
  | None => missing c
  end.

(** A derived [Deserialize] reads an object, or an array of all the fields in
    their order. *)
Definition struct_fields (names : list string) (v : json) : option json :=
  match v with
  | JObject _ => Some v
  | JArray l => if bool_decide (length l = length names) then Some (JObject (zip names l)) else None
  | _ => None
  end.

(** ** Enumerations *)

Module FillRule.

Inductive t : Type := NonZero | EvenOdd.

Definition wire_name (v : t) : string :=
  match v with
  | NonZero => "nonzero"
  | EvenOdd => "evenodd"
  end.

#[global] Instance serde : UnitEnum t := {
  rename := wire_name;
  variants := [NonZero; EvenOdd];
  variants_complete := ltac:(by intros [])
}.

End FillRule.

Module GlobalCompositeOperation.

Inductive t : Type :=
  | SourceOver | SourceIn | SourceOut | SourceAtop | DestinationOver | DestinationIn
  | DestinationOut | DestinationAtop | Lighter | Copy | Xor | Multiply
  | Screen | Overlay | Darken | Lighten | ColorDodge | ColorBurn
  | HardLight | SoftLight | Difference | Exclusion | Hue | Saturation
  | Color | Luminosity.

Definition wire_name (v : t) : string :=
  match v with
  | SourceOver => "source-over"
  | SourceIn => "source-in"
  | SourceOut => "source-out"
  | SourceAtop => "source-atop"
  | DestinationOver => "destination-over"
  | DestinationIn => "destination-in"
  | DestinationOut => "destination-out"
  | DestinationAtop => "destination-atop"
  | Lighter => "lighter"
  | Copy => "copy"
  | Xor => "xor"
  | Multiply => "multiply"
  | Screen => "screen"
  | Overlay => "overlay"
  | Darken => "darken"
  | Lighten => "lighten"
  | ColorDodge => "color-dodge"
  | ColorBurn => "color-burn"
  | HardLight => "hard-light"
  | SoftLight => "soft-light"
  | Difference => "difference"
  | Exclusion => "exclusion"
  | Hue => "hue"
  | Saturation => "saturation"
  | Color => "color"
  | Luminosity => "luminosity"
  end.

#[global] Instance serde : UnitEnum t := {
  rename := wire_name;
  variants := [SourceOver; SourceIn; SourceOut; SourceAtop; DestinationOver; DestinationIn; DestinationOut;
     DestinationAtop; Lighter; Copy; Xor; Multiply; Screen; Overlay; Darken; Lighten;
     ColorDodge; ColorBurn; HardLight; SoftLight; Difference; Exclusion; Hue; Saturation; Color;
     Luminosity];
  variants_complete := ltac:(by intros [])
}.

End GlobalCompositeOperation.

Module Origin.

Inductive t : Type := Left | Right | Top | Center | Bottom.

Definition wire_name (v : t) : string :=
  match v with
  | Left => "left"
  | Right => "right"
  | Top => "top"
  | Center => "center"
  | Bottom => "bottom"
  end.

#[global] Instance serde : UnitEnum t := {
  rename := wire_name;
  variants := [Left; Right; Top; Center; Bottom];
  variants_complete := ltac:(by intros [])
}.

End Origin.

Module PaintFirst.

Inductive t : Type := Fill | Stroke.

Definition wire_name (v : t) : string :=
  match v with
  | Fill => "fill"
  | Stroke => "stroke"
  end.

#[global] Instance serde : UnitEnum t := {
  rename := wire_name;
  variants := [Fill; Stroke];
  variants_complete := ltac:(by intros [])
}.

End PaintFirst.

Module StrokeLineCap.

Inductive t : Type := Round | Butt | Square.

Definition wire_name (v : t) : string :=
  match v with
  | Round => "round"
  | Butt => "butt"
  | Square => "square"
  end.

#[global] Instance serde : UnitEnum t := {
  rename := wire_name;
  variants := [Round; Butt; Square];
  variants_complete := ltac:(by intros [])
}.

End StrokeLineCap.

Module StrokeLineJoin.

Inductive t : Type := Round | Miter | Bevel.

Definition wire_name (v : t) : string :=
  match v with
  | Round => "round"
  | Miter => "miter"
  | Bevel => "bevel"
  end.

#[global] Instance serde : UnitEnum t := {
  rename := wire_name;
  variants := [Round; Miter; Bevel];
  variants_complete := ltac:(by intros [])
}.

End StrokeLineJoin.

Module CrossOrigin.

Inductive t : Type := Anonymous | UseCredentials.

Definition wire_name (v : t) : string :=
  match v with
  | Anonymous => "anonymous"
  | UseCredentials => "use-credentials"
  end.

#[global] Instance serde : UnitEnum t := {
  rename := wire_name;
  variants := [Anonymous; UseCredentials];
  variants_complete := ltac:(by intros [])
}.

End CrossOrigin.

Module Direction.

Inductive t : Type := Ltr | Rtl.

Definition wire_name (v : t) : string :=
  match v with
  | Ltr => "ltr"
  | Rtl => "rtl"
  end.

#[global] Instance serde : UnitEnum t := {
  rename := wire_name;
  variants := [Ltr; Rtl];
  variants_complete := ltac:(by intros [])
}.

End Direction.

Module FontStyle.

Inductive t : Type := Normal | Italic | Oblique.

Definition wire_name (v : t) : string :=
  match v with
  | Normal => "normal"
  | Italic => "italic"
  | Oblique => "oblique"
  end.

#[global] Instance serde : UnitEnum t := {
  rename := wire_name;
  variants := [Normal; Italic; Oblique];
  variants_complete := ltac:(by intros [])
}.

End FontStyle.

Module TextAlign.

Inductive t : Type := Left | Center | Right | Justify | JustifyLeft | JustifyCenter | JustifyRight.

Definition wire_name (v : t) : string :=
  match v with
  | Left => "left"
  | Center => "center"
  | Right => "right"
  | Justify => "justify"
  | JustifyLeft => "justify-left"
  | JustifyCenter => "justify-center"
  | JustifyRight => "justify-right"
  end.

#[global] Instance serde : UnitEnum t := {
  rename := wire_name;
  variants := [Left; Center; Right; Justify; JustifyLeft; JustifyCenter; JustifyRight];
  variants_complete := ltac:(by intros [])
}.

End TextAlign.

Module Kind.

Inductive t : Type := Path | Image | Rect | Circle | Textbox | WhiteboardLine | Triangle | WhiteboardArrowLine | WhiteboardCircle | ActiveSelection | Line.

Definition wire_name (v : t) : string :=
  match v with
  | Path => "path"
  | Image => "image"
  | Rect => "rect"
  | Circle => "circle"
  | Textbox => "textbox"
  | WhiteboardLine => "WhiteboardLine"
  | Triangle => "triangle"
  | WhiteboardArrowLine => "WhiteboardArrowLine"
  | WhiteboardCircle => "WhiteboardCircle"
  | ActiveSelection => "activeSelection"
  | Line => "line"
  end.

#[global] Instance serde : UnitEnum t := {
  rename := wire_name;
  variants := [Path; Image; Rect; Circle; Textbox; WhiteboardLine; Triangle; WhiteboardArrowLine;
     WhiteboardCircle; ActiveSelection; Line];
  variants_complete := ltac:(by intros [])
}.

End Kind.

(** ** [EventSchema] *)

Module EventSchema.

Record t : Type := Mk {
  _id : uuid;
  origin_x : Origin.t;
  origin_y : Origin.t;
  top : f32;
  left : f32;
  height : f32;
  width : f32;
  angle : f32;
  flip_x : bool;
  flip_y : bool;
  skew_x : f32;
  skew_y : f32;
  scale_x : f64;
  scale_y : f64;
  fill : option string;
  fill_rule : FillRule.t;
  shadow : option string;
  stroke : option string;
  opacity : Z;
  visible : bool;
  paint_first : PaintFirst.t;
  global_composite_operation : GlobalCompositeOperation.t;
  background_color : option string;
  stroke_dash_array : option (list f32);
  stroke_dash_offset : f32;
  stroke_line_cap : StrokeLineCap.t;
  stroke_line_join : StrokeLineJoin.t;
  stroke_miter_limit : Z;
  stroke_uniform : option bool;
  stroke_width : Z;
  cross_origin : option CrossOrigin.t;
  version : string;
  kind : Kind.t;
  no_scale_cache : option bool;
  _removed : option bool;
  _rev : option uuid;
  _restored : option bool;
  _locked_by_user : option bool;
  _only_state : option bool;
  _invalidate : option bool;
  _order : option Z;
  _no_history : option bool;
  _draw_by_stretch : option bool;
  path : option (list json);
  src : option string;
  crop_x : option f32;
  crop_y : option f32;
  filters : option string;
  rx : option f32;
  ry : option f32;
  radius : option f32;
  start_angle : option f32;
  end_angle : option f32;
  text : option string;
  styles : option string;
  font_size : option Z;
  min_width : option f32;
  overline : option bool;
  path_side : option string;
  direction : option Direction.t;
  font_style : option FontStyle.t;
  text_align : option TextAlign.t;
  underline : option bool;
  font_family : option string;
  font_weight : option string;
  line_height : option f32;
  char_spacing : option f32;
  linethrough : option bool;
  path_start_offset : option f32;
  split_by_grapheme : option bool;
  text_background_color : option string;
  x1 : option f32;
  x2 : option f32;
  y1 : option f32;
  y2 : option f32
}.

(** The wire names, in the order of the declaration. *)
Definition names : list string :=
  ["_id"; "originX"; "originY"; "top"; "left"; "height"; "width"; "angle"; "flipX"; "flipY";
   "skewX"; "skewY"; "scaleX"; "scaleY"; "fill"; "fillRule"; "shadow"; "stroke"; "opacity";
   "visible"; "paintFirst"; "globalCompositeOperation"; "backgroundColor"; "strokeDashArray";
   "strokeDashOffset"; "strokeLineCap"; "strokeLineJoin"; "strokeMiterLimit"; "strokeUniform";
   "strokeWidth"; "crossOrigin"; "version"; "type"; "noScaleCache"; "_removed"; "_rev";
   "_restored"; "_lockedbyuser"; "_onlyState"; "_invalidate"; "_order"; "_noHistory";
   "_drawByStretch"; "path"; "src"; "cropX"; "cropY"; "filters"; "rx"; "ry"; "radius";
   "startAngle"; "endAngle"; "text"; "styles"; "fontSize"; "minWidth"; "overline"; "pathSide";
   "direction"; "fontStyle"; "textAlign"; "underline"; "fontFamily"; "fontWeight"; "lineHeight";
   "charSpacing"; "linethrough"; "pathStartOffset"; "splitByGrapheme"; "textBackgroundColor"; "x1";
   "x2"; "y1"; "y2"]%string.

Section Serde.
Context `{Externals, JsonParser}.

Definition serialize (e : t) : option json := to_object [
  field "_id" c_uuid (_id e);
  field "originX" c_enum (origin_x e);
  field "originY" c_enum (origin_y e);
  field "top" c_f32 (top e);
  field "left" c_f32 (left e);
  field "height" c_f32 (height e);
  field "width" c_f32 (width e);
  field "angle" c_f32 (angle e);
  field "flipX" c_bool (flip_x e);
  field "flipY" c_bool (flip_y e);
  field "skewX" c_f32 (skew_x e);
  field "skewY" c_f32 (skew_y e);
  field "scaleX" c_f64 (scale_x e);
  field "scaleY" c_f64 (scale_y e);
  field "fill" (c_option c_string) (fill e);
  field "fillRule" c_enum (fill_rule e);
  field "shadow" c_json_as_str (shadow e);
  field "stroke" (c_option c_string) (stroke e);
  field "opacity" c_u8 (opacity e);
  field "visible" c_bool (visible e);
  field "paintFirst" c_enum (paint_first e);
  field "globalCompositeOperation" c_enum (global_composite_operation e);
  field "backgroundColor" (c_option c_string) (background_color e);
  field "strokeDashArray" (c_option (c_vec c_f32)) (stroke_dash_array e);
  field "strokeDashOffset" c_f32 (stroke_dash_offset e);
  field "strokeLineCap" c_enum (stroke_line_cap e);
  field "strokeLineJoin" c_enum (stroke_line_join e);
  field "strokeMiterLimit" c_u8 (stroke_miter_limit e);
  field "strokeUniform" (c_option c_bool) (stroke_uniform e);
  field "strokeWidth" c_u8 (stroke_width e);
  field "crossOrigin" (c_option c_enum) (cross_origin e);
  field "version" c_string (version e);
  field "type" c_enum (kind e);
  field "noScaleCache" (c_option c_bool) (no_scale_cache e);
  field_opt "_removed" c_bool (_removed e);
  field_opt "_rev" c_uuid (_rev e);
  field_opt "_restored" c_bool (_restored e);
  field_opt "_lockedbyuser" c_bool (_locked_by_user e);
  field_opt "_onlyState" c_bool (_only_state e);
  field_opt "_invalidate" c_bool (_invalidate e);
  field_opt "_order" c_i64 (_order e);
  field_opt "_noHistory" c_bool (_no_history e);
  field_opt "_drawByStretch" c_bool (_draw_by_stretch e);
  field_opt "path" (c_vec c_value) (path e);
  field_opt "src" c_string (src e);
  field_opt "cropX" c_f32 (crop_x e);
  field_opt "cropY" c_f32 (crop_y e);
  field "filters" c_json_as_str (filters e);
  field_opt "rx" c_f32 (rx e);
  field_opt "ry" c_f32 (ry e);
  field_opt "radius" c_f32 (radius e);
  field_opt "startAngle" c_f32 (start_angle e);
  field_opt "endAngle" c_f32 (end_angle e);
  field_opt "text" c_string (text e);
  field "styles" c_json_as_str (styles e);
  field_opt "fontSize" c_u8 (font_size e);
  field_opt "minWidth" c_f32 (min_width e);
  field_opt "overline" c_bool (overline e);
  field_opt "pathSide" c_string (path_side e);
  field_opt "direction" c_enum (direction e);
  field_opt "fontStyle" c_enum (font_style e);
  field_opt "textAlign" c_enum (text_align e);
  field_opt "underline" c_bool (underline e);
  field_opt "fontFamily" c_string (font_family e);
  field "fontWeight" c_json_as_str (font_weight e);
  field_opt "lineHeight" c_f32 (line_height e);
  field_opt "charSpacing" c_f32 (char_spacing e);
  field_opt "linethrough" c_bool (linethrough e);
  field_opt "pathStartOffset" c_f32 (path_start_offset e);
  field_opt "splitByGrapheme" c_bool (split_by_grapheme e);
  field_opt "textBackgroundColor" c_string (text_background_color e);
  field_opt "x1" c_f32 (x1 e);
  field_opt "x2" c_f32 (x2 e);
  field_opt "y1" c_f32 (y1 e);
  field_opt "y2" c_f32 (y2 e)
].

Definition deserialize (v : json) : option t :=
  m ← struct_fields names v;
  _id ← de_field m "_id" c_uuid;
  origin_x ← de_field m "originX" c_enum;
  origin_y ← de_field m "originY" c_enum;
  top ← de_field m "top" c_f32;
  left ← de_field m "left" c_f32;
  height ← de_field m "height" c_f32;
  width ← de_field m "width" c_f32;
  angle ← de_field m "angle" c_f32;
  flip_x ← de_field m "flipX" c_bool;
  flip_y ← de_field m "flipY" c_bool;
  skew_x ← de_field m "skewX" c_f32;
  skew_y ← de_field m "skewY" c_f32;
  scale_x ← de_field m "scaleX" c_f64;
  scale_y ← de_field m "scaleY" c_f64;
  fill ← de_field m "fill" (c_option c_string);
  fill_rule ← de_field m "fillRule" c_enum;
  shadow ← de_field m "shadow" c_json_as_str;
  stroke ← de_field m "stroke" (c_option c_string);
  opacity ← de_field m "opacity" c_u8;
  visible ← de_field m "visible" c_bool;
  paint_first ← de_field m "paintFirst" c_enum;
  global_composite_operation ← de_field m "globalCompositeOperation" c_enum;
  background_color ← de_field m "backgroundColor" (c_option c_string);
  stroke_dash_array ← de_field m "strokeDashArray" (c_option (c_vec c_f32));
  stroke_dash_offset ← de_field m "strokeDashOffset" c_f32;
  stroke_line_cap ← de_field m "strokeLineCap" c_enum;
  stroke_line_join ← de_field m "strokeLineJoin" c_enum;
  stroke_miter_limit ← de_field m "strokeMiterLimit" c_u8;
  stroke_uniform ← de_field m "strokeUniform" (c_option c_bool);
  stroke_width ← de_field m "strokeWidth" c_u8;
  cross_origin ← de_field m "crossOrigin" (c_option c_enum);
  version ← de_field m "version" c_string;
  kind ← de_field m "type" c_enum;
  no_scale_cache ← de_field m "noScaleCache" (c_option c_bool);
  _removed ← de_field m "_removed" (c_option c_bool);
  _rev ← de_field m "_rev" (c_option c_uuid);
  _restored ← de_field m "_restored" (c_option c_bool);
  _locked_by_user ← de_field m "_lockedbyuser" (c_option c_bool);
  _only_state ← de_field m "_onlyState" (c_option c_bool);
  _invalidate ← de_field m "_invalidate" (c_option c_bool);
  _order ← de_field m "_order" (c_option c_i64);
  _no_history ← de_field m "_noHistory" (c_option c_bool);
  _draw_by_stretch ← de_field m "_drawByStretch" (c_option c_bool);
  path ← de_field m "path" (c_option (c_vec c_value));
  src ← de_field m "src" (c_option c_string);
  crop_x ← de_field m "cropX" (c_option c_f32);
  crop_y ← de_field m "cropY" (c_option c_f32);
  filters ← de_field m "filters" c_json_as_str;
  rx ← de_field m "rx" (c_option c_f32);
  ry ← de_field m "ry" (c_option c_f32);
  radius ← de_field m "radius" (c_option c_f32);
  start_angle ← de_field m "startAngle" (c_option c_f32);
  end_angle ← de_field m "endAngle" (c_option c_f32);
  text ← de_field m "text" (c_option c_string);
  styles ← de_field m "styles" c_json_as_str;
  font_size ← de_field m "fontSize" (c_option c_u8);
  min_width ← de_field m "minWidth" (c_option c_f32);
  overline ← de_field m "overline" (c_option c_bool);
  path_side ← de_field m "pathSide" (c_option c_string);
  direction ← de_field m "direction" (c_option c_enum);
  font_style ← de_field m "fontStyle" (c_option c_enum);
  text_align ← de_field m "textAlign" (c_option c_enum);
  underline ← de_field m "underline" (c_option c_bool);
  font_family ← de_field m "fontFamily" (c_option c_string);
  font_weight ← de_field m "fontWeight" c_json_as_str;
  line_height ← de_field m "lineHeight" (c_option c_f32);
  char_spacing ← de_field m "charSpacing" (c_option c_f32);
  linethrough ← de_field m "linethrough" (c_option c_bool);
  path_start_offset ← de_field m "pathStartOffset" (c_option c_f32);
  split_by_grapheme ← de_field m "splitByGrapheme" (c_option c_bool);
  text_background_color ← de_field m "textBackgroundColor" (c_option c_string);
  x1 ← de_field m "x1" (c_option c_f32);
  x2 ← de_field m "x2" (c_option c_f32);
  y1 ← de_field m "y1" (c_option c_f32);
  y2 ← de_field m "y2" (c_option c_f32);
Some (Mk _id origin_x origin_y top left height width angle flip_x flip_y skew_x skew_y scale_x scale_y
    fill fill_rule shadow stroke opacity visible paint_first global_composite_operation background_color
    stroke_dash_array stroke_dash_offset stroke_line_cap stroke_line_join stroke_miter_limit
    stroke_uniform stroke_width cross_origin version kind no_scale_cache _removed _rev _restored
    _locked_by_user _only_state _invalidate _order _no_history _draw_by_stretch path src crop_x crop_y
    filters rx ry radius start_angle end_angle text styles font_size min_width overline path_side
    direction font_style text_align underline font_family font_weight line_height char_spacing
    linethrough path_start_offset split_by_grapheme text_background_color x1 x2 y1 y2).

(** Every field can be written and read back. *)
Definition wf (e : t) : Prop :=
  fits c_uuid (_id e) /\
  fits c_enum (origin_x e) /\
  fits c_enum (origin_y e) /\
  fits c_f32 (top e) /\
  fits c_f32 (left e) /\
  fits c_f32 (height e) /\
  fits c_f32 (width e) /\
  fits c_f32 (angle e) /\
  fits c_bool (flip_x e) /\
  fits c_bool (flip_y e) /\
  fits c_f32 (skew_x e) /\
  fits c_f32 (skew_y e) /\
  fits c_f64 (scale_x e) /\
  fits c_f64 (scale_y e) /\
  fits (c_option c_string) (fill e) /\
  fits c_enum (fill_rule e) /\
  fits c_json_as_str (shadow e) /\
  fits (c_option c_string) (stroke e) /\
  fits c_u8 (opacity e) /\
  fits c_bool (visible e) /\
  fits c_enum (paint_first e) /\
  fits c_enum (global_composite_operation e) /\
  fits (c_option c_string) (background_color e) /\
  fits (c_option (c_vec c_f32)) (stroke_dash_array e) /\
  fits c_f32 (stroke_dash_offset e) /\
  fits c_enum (stroke_line_cap e) /\
  fits c_enum (stroke_line_join e) /\
  fits c_u8 (stroke_miter_limit e) /\
  fits (c_option c_bool) (stroke_uniform e) /\
  fits c_u8 (stroke_width e) /\
  fits (c_option c_enum) (cross_origin e) /\
  fits c_string (version e) /\
  fits c_enum (kind e) /\
  fits (c_option c_bool) (no_scale_cache e) /\
  fits (c_option c_bool) (_removed e) /\
  fits (c_option c_uuid) (_rev e) /\
  fits (c_option c_bool) (_restored e) /\
  fits (c_option c_bool) (_locked_by_user e) /\
  fits (c_option c_bool) (_only_state e) /\
  fits (c_option c_bool) (_invalidate e) /\
  fits (c_option c_i64) (_order e) /\
  fits (c_option c_bool) (_no_history e) /\
  fits (c_option c_bool) (_draw_by_stretch e) /\
  fits (c_option (c_vec c_value)) (path e) /\
  fits (c_option c_string) (src e) /\
  fits (c_option c_f32) (crop_x e) /\
  fits (c_option c_f32) (crop_y e) /\
  fits c_json_as_str (filters e) /\
  fits (c_option c_f32) (rx e) /\
  fits (c_option c_f32) (ry e) /\
  fits (c_option c_f32) (radius e) /\
  fits (c_option c_f32) (start_angle e) /\
  fits (c_option c_f32) (end_angle e) /\
  fits (c_option c_string) (text e) /\
  fits c_json_as_str (styles e) /\
  fits (c_option c_u8) (font_size e) /\
  fits (c_option c_f32) (min_width e) /\
  fits (c_option c_bool) (overline e) /\
  fits (c_option c_string) (path_side e) /\
  fits (c_option c_enum) (direction e) /\
  fits (c_option c_enum) (font_style e) /\
  fits (c_option c_enum) (text_align e) /\
  fits (c_option c_bool) (underline e) /\
  fits (c_option c_string) (font_family e) /\
  fits c_json_as_str (font_weight e) /\
  fits (c_option c_f32) (line_height e) /\
  fits (c_option c_f32) (char_spacing e) /\
  fits (c_option c_bool) (linethrough e) /\
  fits (c_option c_f32) (path_start_offset e) /\
  fits (c_option c_bool) (split_by_grapheme e) /\
  fits (c_option c_string) (text_background_color e) /\
  fits (c_option c_f32) (x1 e) /\
  fits (c_option c_f32) (x2 e) /\
  fits (c_option c_f32) (y1 e) /\
  fits (c_option c_f32) (y2 e).

End Serde.

End EventSchema.
(** ** Lemmas *)

#[export] Instance c_bool_law : CodecLaw c_bool.
Proof. intros b _. by eexists. Qed.

#[export] Instance c_string_law : CodecLaw c_string.
Proof. intros s _. by eexists. Qed.

#[export] Instance c_value_law : FieldLaw c_value.
Proof. intros v _. by eexists. Qed.

#[export] Instance c_f32_law : CodecLaw c_f32.
Proof.
  intros x [Hv Hf]. destruct (f32_f64_roundtrip x Hv) as [Hr Hfin]. eexists. split; [done|].
  unfold json_of_f64. rewrite Hfin, Hf. simpl. by rewrite Hr.
Qed.

#[export] Instance c_f64_law : CodecLaw c_f64.
Proof. intros x Hf. eexists. split; [done|]. simpl in Hf. unfold json_of_f64. by rewrite Hf. Qed.

#[export] Instance c_u8_law : CodecLaw c_u8.
Proof. intros n Hn. simpl in Hn. eexists. split; [done|]. simpl. by rewrite (proj2 (Z.ltb_lt _ _)) by lia. Qed.

#[export] Instance c_i64_law : CodecLaw c_i64.
Proof.
  intros n [H1 H2]. eexists. split; [done|]. simpl. destruct (Z.leb_spec 0 n); [|done].
  by rewrite (proj2 (Z.leb_le _ _)) by lia.
Qed.

#[export] Instance c_enum_law {A} `{UnitEnum A} : CodecLaw c_enum.
Proof. intros a _. eexists. split; [done|]. split; [|done]. apply variants_complete. Qed.

#[export] Instance c_option_law {A} (c : codec A) `{!CodecLaw c} : FieldLaw (c_option c).
Proof.
  intros [a|] Ha; [|by eexists]. destruct (codec_law (c := c) a Ha) as (j & Hs & Hd & Hn).
  exists j. split; [done|]. simpl. rewrite Hd. by destruct j.
Qed.

#[export] Instance c_vec_law {A} (c : codec A) `{!FieldLaw c} : CodecLaw (c_vec c).
Proof.
  intros l Hl. simpl in Hl.
  assert (exists js, mapM (ser c) l = Some js /\ mapM (de c) js = Some l) as (js & Hs & Hd).
  { induction Hl as [|a l Ha _ (js & Hs & Hd)]; [by exists []|].
    destruct (field_law (c := c) a Ha) as (j & Hj & Hdj). exists (j :: js). simpl. by rewrite Hj, Hs, Hdj, Hd. }
  exists (JArray js). simpl. by rewrite Hs.
Qed.

#[export] Instance c_uuid_law `{Externals} : CodecLaw c_uuid.
Proof. intros u Hu. by eexists. Qed.

#[export] Instance c_json_as_str_law `{Externals, JsonParser} : FieldLaw c_json_as_str.
Proof.
  intros [s|] Hs; [|by eexists]. destruct Hs as (v & Hp & <- & Hn). exists v. split; [done|]. by destruct v.
Qed.

(** What is written of a field is read back. *)
Definition decodes {A} (c : codec A) (o : option json) (v : A) : Prop :=
  match o with Some j => de c j = Some v | None => missing c = Some v end.

Lemma field_writes {A} (name : string) (c : codec A) `{!FieldLaw c} (v : A) :
  fits c v -> exists o, field name c v = Some (name, o) /\ decodes c o v.
Proof. intros (j & Hs & Hd)%field_law. exists (Some j). unfold field. by rewrite Hs. Qed.

Lemma field_opt_writes {A} (name : string) (c : codec A) `{!CodecLaw c} (v : option A) :
  fits (c_option c) v -> exists o, field_opt name c v = Some (name, o) /\ decodes (c_option c) o v.
Proof.
  destruct v as [a|]; [|by exists None]. intros Ha.
  destruct (codec_law (c := c) a Ha) as (j & Hs & Hd & Hn). exists (Some j).
  unfold field_opt. rewrite Hs. split; [done|]. simpl. rewrite Hd. by destruct j.
Qed.

Lemma json_get_present name o (es : list entry) :
  NoDup es.*1 -> (name, o) ∈ es -> json_get name (JObject (omap present es)) = o.
Proof.
  simpl. induction es as [|[n o'] es IH]; simpl; [intros _ H; by apply elem_of_nil in H|].
  intros [Hn Hnd]%NoDup_cons [[= <- <-]|Hin]%elem_of_cons.
  - unfold present at 1. simpl. destruct o as [j|]; simpl; [by rewrite bool_decide_eq_true_2|].
    clear IH Hnd. induction es as [|[n' [j'|]] es IH]; simpl in *; [done| |].
    + rewrite bool_decide_eq_false_2 by (intros ->; apply Hn; left). apply IH. intros ?. apply Hn. by right.
    + apply IH. intros ?. apply Hn. by right.
  - assert (n <> name) as Hne by (intros ->; apply Hn; by apply (list_elem_of_fmap_2 fst _ _ Hin)).
    unfold present at 1. simpl. destruct o' as [j|]; simpl; [|by apply IH].
    rewrite bool_decide_eq_false_2 by done. by apply IH.
Qed.

Lemma de_field_present {A} (c : codec A) name o (es : list entry) (v : A) :
  NoDup es.*1 -> (name, o) ∈ es -> decodes c o v -> de_field (JObject (omap present es)) name c = Some v.
Proof. intros Hnd Hin Hd. unfold de_field. rewrite (json_get_present name o) by done. by destruct o. Qed.

Lemma to_object_Some (es : list entry) : to_object (Some <$> es) = Some (JObject (omap present es)).
Proof.
  assert (mapM (M := option) id (Some <$> es) = Some es) as Hm.
  { apply mapM_Some_2, Forall2_fmap_l, Forall_Forall2_diag, Forall_true. done. }
  unfold to_object. by rewrite Hm.
Qed.

(** ** The derived serializer and deserializer *)

Section Schema.
Context `{Externals, JsonParser}.

Lemma bind_Some_eq {A B} (o : option A) (f : A -> option B) a r : o = Some a -> f a = r -> (o ≫= f) = r.
Proof. by intros ->. Qed.

(** The entries of a list of written fields. *)
Ltac somes l :=
  match l with
  | Some ?x :: ?l => let r := somes l in constr:(x :: r)
  | [] => constr:(@nil entry)
  end.

(** An event that can be written is read back from what is written. *)
Lemma schema_roundtrip (e : EventSchema.t) :
  EventSchema.wf e -> exists v, EventSchema.serialize e = Some v /\ EventSchema.deserialize v = Some e.
Proof.
  intros Hwf. unfold EventSchema.wf in Hwf. split_and_all. unfold EventSchema.serialize.
  repeat match goal with
  | Hf : fits ?c ?v |- context [field ?n ?c ?v] =>
    let o := fresh "o" in let Hw := fresh "Hw" in let Hd := fresh "Hd" in
    destruct (field_writes n c v Hf) as (o & Hw & Hd); rewrite Hw; clear Hw Hf
  | Hf : fits (c_option ?c) ?v |- context [field_opt ?n ?c ?v] =>
    let o := fresh "o" in let Hw := fresh "Hw" in let Hd := fresh "Hd" in
    destruct (field_opt_writes n c v Hf) as (o & Hw & Hd); rewrite Hw; clear Hw Hf
  end.
  match goal with |- context [to_object ?l] => let es := somes l in change l with (Some <$> es); set (es' := es) end.
  rewrite to_object_Some. eexists. split; [reflexivity|].
  assert (NoDup es'.*1) as Hnd.
  { assert (es'.*1 = EventSchema.names) as -> by reflexivity. by_evaluation. }
  repeat match goal with
  | Hd : decodes ?c ?o ?v |- _ =>
    let Hin := fresh "Hin" in
    eassert ((_, o) ∈ es') as Hin
      by (unfold es'; repeat first [apply list_elem_of_here|apply list_elem_of_further]);
    apply (de_field_present c _ o es' v Hnd Hin) in Hd; clear Hin
  end.
  clearbody es'. unfold EventSchema.deserialize. cbn [struct_fields].
  generalize dependent (JObject (omap present es')). intros m. intros.
  eapply bind_Some_eq; [reflexivity|].
  repeat (eapply bind_Some_eq; [eassumption|]). by destruct e.
Qed.
End Schema.
