(* ===== verification/Db.v ===== *)
(** * Queries

    The fragment of SQL the queries of [src/src/db] are written in: three-valued
    comparison, [COALESCE], [ORDER BY], [LIMIT], [ROW_NUMBER] and [DISTINCT ON];
    a query is a state transformer on the database that may fail; and the
    constraints and triggers of [src/migrations]. *)

From S2P Require Import Prelude Times Types.

(** ** SQL *)

(** [a = b] on nullable columns, in a [WHERE] clause: [NULL] is not [TRUE]. *)
Definition sql_eq {A} `{EqDecision A} (a b : option A) : bool :=
  match a, b with
  | Some a, Some b => bool_decide (a = b)
  | _, _ => false
  end.

(** [$p IS NULL OR column = $p]. *)
Definition sql_opt {A} (f : A -> bool) (p : option A) : bool :=
  match p with
  | Some a => f a
  | None => true
  end.

Definition coalesce {A} (a b : option A) : option A :=
  match a with
  | Some _ => a
  | None => b
  end.

Definition limit {A} (n : Z) (l : list A) : list A := take (Z.to_nat n) l.

(** The ordinal of the first element satisfying [f], counting from 1. *)
Fixpoint position {A} (f : A -> bool) (l : list A) : Z :=
  match l with
  | [] => 1
  | x :: l' => if f x then 1 else 1 + position f l'
  end.

(** [ROW_NUMBER() OVER (PARTITION BY ... ORDER BY ...)] of the row [x]; [ideq] is
    the identity of rows. *)
Definition row_number {A} (ideq same leb : A -> A -> bool) (rows : list A) (x : A) : Z :=
  position (ideq x) (sort_by leb (List.filter (same x) rows)).

(** [DISTINCT ON (...)]: the first row of each group of a sorted list. *)
Fixpoint distinct_on {A} (same : A -> A -> bool) (l : list A) : list A :=
  match l with
  | [] => []
  | x :: l' => x :: List.filter (fun y => negb (same x y)) (distinct_on same l')
  end.

(** ** Queries *)

Inductive sqlx_error : Type :=
  | RowNotFound
  | DatabaseError (constraint : string)
  | DecodeError (msg : string)
  | ConnectionError.

#[global] Instance sqlx_error_eq_dec : EqDecision sqlx_error.
Proof. solve_decision. Defined.

(** What a statement takes from the server: [NOW()] and [gen_random_uuid()]. *)
Record qctx : Type := QCtx { q_now : Z; q_uuid : nat -> uuid }.

(** A statement that fails leaves the database as it was; one whose result
    cannot be decoded has been executed. *)
Definition query (A : Type) : Type := qctx -> database -> result sqlx_error A * database.

Definition select {A} (f : database -> result sqlx_error A) : query A := fun _ db => (f db, db).

(** [fetch_one]. *)
Definition fetch_one {A} (l : list A) : result sqlx_error A := ok_or (head l) RowNotFound.

(** PostgreSQL refuses a negative [LIMIT]. *)
Definition limit_rows {A} (n : Z) (l : list A) : result sqlx_error (list A) :=
  if n <? 0 then Err (DatabaseError "negative limit") else Ok (limit n l).

(** Decode the rows a statement returned. *)
Fixpoint map_rows {A B} (f : A -> result sqlx_error B) (l : list A) : result sqlx_error (list B) :=
  match l with
  | [] => Ok []
  | x :: l' => result_bind (f x) (fun y => result_bind (map_rows f l') (fun ys => Ok (y :: ys)))
  end.

(** ** Ranges of timestamps

    PostgreSQL refuses a range whose lower bound is above its upper bound, and
    the check [room_time_presence] refuses the empty range. *)
Definition tstzrange_error (t : BoundedDateTimeTuple) : option string :=
  let bounds (lo hi : Z) (inclusive : bool) :=
    if hi <? lo then Some "range_lower_bound"%string
    else if (lo =? hi) && negb inclusive then Some "room_time_presence"%string
    else None in
  match t with
  | (Included lo, Included hi) => bounds lo hi true
  | (Included lo, Excluded hi) | (Excluded lo, Included hi) | (Excluded lo, Excluded hi) =>
    bounds lo hi false
  | _ => None
  end.

(** ** The [event] table: trigger and constraints *)

(** [NEW] in [on_event_insert]: the columns an [INSERT] gives. *)
Record new_event : Type := NewEvent {
  ne_id : uuid;
  ne_room_id : uuid;
  ne_kind : string;
  ne_set : string;
  ne_label : option string;
  ne_attribute : option string;
  ne_data : option json;
  ne_binary_data : option bytes;
  ne_occurred_at : Z;
  ne_created_by : agent_id;
  ne_created_at : option Z;
  ne_removed : bool;
  ne_entity_type : option string;
  ne_entity_event_id : option Z
}.

(** [WHERE deleted_at IS NULL AND room_id = .. AND set = .. AND label = ..]. *)
Definition same_live_label (room : uuid) (set : string) (label : option string) (e : event_row) : bool :=
  bool_decide (er_deleted_at e = None) && bool_decide (er_room_id e = room)
  && bool_decide (er_set e = set) && sql_eq (er_label e) label.

(** The original event of a label: [ORDER BY created_at LIMIT 1]. *)
Definition original_row (events : list event_row) (room : uuid) (set : string) (label : option string)
    : option event_row :=
  head (sort_by (by_key er_created_at) (List.filter (same_live_label room set label) events)).

(** The trigger [on_event_insert]: [BEFORE INSERT ON event FOR EACH ROW].  The
    session setting that disables it is never set by the service. *)
Definition on_event_insert (now : Z) (events : list event_row) (new : new_event) : event_row :=
  let original := original_row events (ne_room_id new) (ne_set new) (ne_label new) in
  let created_at :=
    match ne_created_at new with
    | Some c => c
    | None => match original with Some o => Z.max now (er_created_at o + 1000) | None => now end
    end in
  EventRow (ne_id new) (ne_room_id new) (ne_kind new) (ne_set new) (ne_label new) (ne_attribute new)
    (ne_data new) (ne_binary_data new) (ne_occurred_at new) (ne_created_by new) created_at None
    (default (ne_occurred_at new) (er_occurred_at <$> original))
    (default (ne_created_by new) (er_created_by <$> original))
    (ne_removed new) (ne_entity_type new) (ne_entity_event_id new).

Section Constraints.
Context `{Externals}.

(** The first constraint of [event] a new row violates: checks, then unique
    indices, then the foreign key. *)
Definition event_violation (db : database) (row : event_row) : option string :=
  if bool_decide (er_data row = None) && bool_decide (er_binary_data row = None)
  then Some "data_or_binary_data_not_null"%string
  else if 102400 <=? default 0 (jsonb_octets <$> er_data row)
                     + default 0 ((fun b => Z.of_nat (length b)) <$> er_binary_data row)
  then Some "data_size"%string
  else if existsb (fun e => bool_decide (er_id e = er_id row)) (db_events db)
  then Some "event_pkey"%string
  else if existsb (fun e => sql_eq (er_entity_type e) (er_entity_type row)
                            && sql_eq (er_entity_event_id e) (er_entity_event_id row)) (db_events db)
  then Some "uniq_entity_type_entity_event_id"%string
  else if negb (existsb (fun r => bool_decide (rr_id r = er_room_id row)) (db_rooms db))
  then Some "event_room_id_fkey"%string
  else None.

(** Insert one row, trigger first. *)
Definition insert_event (now : Z) (new : new_event) (db : database)
    : result sqlx_error (event_row * database) :=
  let row := on_event_insert now (db_events db) new in
  match event_violation db row with
  | Some c => Err (DatabaseError c)
  | None => Ok (row, with_events (fun l => l ++ [row]) db)
  end.

(** [INSERT INTO event ... SELECT ...]: row by row, the trigger of a row seeing
    the rows inserted before it; all or nothing. *)
Fixpoint insert_events (now : Z) (news : list new_event) (db : database)
    : result sqlx_error database :=
  match news with
  | [] => Ok db
  | new :: news =>
    match insert_event now new db with
    | Ok (_, db') => insert_events now news db'
    | Err e => Err e
    end
  end.

(** Deleting events deletes the changes that refer to them
    ([FOREIGN KEY (event_id) ... ON DELETE CASCADE]). *)
Definition delete_events (p : event_row -> bool) (db : database) : database :=
  let gone := er_id <$> List.filter p (db_events db) in
  with_changes (List.filter (fun c =>
      match change_event_id c with Some i => negb (bool_decide (i ∈ gone)) | None => true end))
    (with_events (List.filter (fun e => negb (p e))) db).

End Constraints.

(** ** Lemmas *)

Lemma position_pos {A} (f : A -> bool) l : 1 <= position f l.
Proof. induction l as [|x l IH]; simpl; [lia|]. destruct (f x); lia. Qed.

Lemma position_le {A} (f : A -> bool) l x : x ∈ l -> f x = true -> position f l <= Z.of_nat (length l).
Proof.
  induction l as [|y l IH]; [by intros ?%elem_of_nil|]. intros [->|Hx]%elem_of_cons Hf; cbn [position length].
  - rewrite Hf. lia.
  - specialize (IH Hx Hf). destruct (f y); lia.
Qed.

(** A row of ordinal at most [n] is among the first [n]. *)
Lemma position_take {A} (f : A -> bool) l n :
  (exists x, x ∈ l /\ f x = true) -> position f l <= n ->
  exists y, y ∈ take (Z.to_nat n) l /\ f y = true.
Proof.
  revert n. induction l as [|x l IH]; intros n [y [Hy Hf]]; [by apply elem_of_nil in Hy|].
  simpl. pose proof (position_pos f l). intros Hn.
  assert (Z.to_nat n = S (Z.to_nat (n - 1))) as ->.
  { destruct (f x); lia. }
  destruct (f x) eqn:E.
  - exists x. split; [left|done].
  - apply elem_of_cons in Hy as [->|Hy]; [congruence|].
    destruct (IH (n - 1)) as (z & ? & ?); [by eauto|lia|]. exists z. split; [by right|done].
Qed.

Lemma position_head {A} (f : A -> bool) l x :
  head l = Some x -> f x = true -> position f l = 1.
Proof. destruct l; simpl; [done|]. intros [= ->] ->. done. Qed.

Lemma position_1 {A} (f : A -> bool) l :
  (exists x, x ∈ l /\ f x = true) -> position f l = 1 -> exists y, head l = Some y /\ f y = true.
Proof.
  destruct l as [|x l]; [intros [? [H _]]; by apply elem_of_nil in H|]. simpl. intros _ H.
  exists x. split; [done|]. destruct (f x); [done|]. pose proof (position_pos f l). lia.
Qed.

(** A row that no other row precedes comes first. *)
Lemma head_sort_least {A} (leb : A -> A -> bool) `{!TotalPreorder leb} l x :
  x ∈ l -> (forall y, y ∈ l -> y = x \/ leb y x = false) ->
  head (sort_by leb l) = Some x.
Proof.
  intros Hx Hleast. pose proof (sort_by_sorted leb l) as Hs.
  rewrite <-(elem_of_sort_by leb) in Hx.
  assert (forall y, y ∈ sort_by leb l -> y ∈ l) as Hin by (intros y; by rewrite elem_of_sort_by).
  destruct (sort_by leb l) as [|z l']; [by apply elem_of_nil in Hx|]. simpl. f_equal.
  apply elem_of_cons in Hx as [->|Hx]; [done|].
  inversion Hs as [|? ? _ Hall]. rewrite Forall_forall in Hall.
  destruct (Hleast z) as [->|Hzx]; [apply Hin; left|done|]. rewrite Hall in Hzx; done.
Qed.

Lemma delete_events_elem p db e :
  e ∈ db_events (delete_events p db) <-> e ∈ db_events db /\ p e = false.
Proof. unfold delete_events. simpl. rewrite elem_of_lfilter, negb_true_iff. done. Qed.

(** [DISTINCT ON] keeps the rows no earlier row of their group precedes. *)
Lemma distinct_on_elem {A} (same : A -> A -> bool) l x :
  x ∈ distinct_on same l <->
  exists l1 l2, l = l1 ++ x :: l2 /\ forall y, y ∈ l1 -> same y x = false.
Proof.
  induction l as [|a l IH]; simpl.
  - split; [intros H; by apply elem_of_nil in H|]. by intros ([|? ?] & l2 & ? & _).
  - rewrite elem_of_cons, elem_of_lfilter, IH. split.
    + intros [->|[(l1 & l2 & -> & Hl1) Ha%negb_true_iff]].
      * exists [], l. split; [done|]. intros y Hy. by apply elem_of_nil in Hy.
      * exists (a :: l1), l2. split; [done|]. intros y [->|Hy]%elem_of_cons; auto.
    + intros ([|b l1] & l2 & [= -> ->] & Hl1); [by left|]. right. split.
      * exists l1, l2. split; [done|]. intros y Hy. apply Hl1. by right.
      * apply negb_true_iff, Hl1. left.
Qed.

(** Of each group [DISTINCT ON] keeps one row. *)
Lemma distinct_on_groups {A} (same : A -> A -> bool) l :
  ForallOrdPairs (fun x y => same x y = false) (distinct_on same l).
Proof.
  induction l as [|a l IH]; simpl; [constructor|]. constructor.
  - apply Forall_forall. intros y [_ Hy%negb_true_iff]%elem_of_lfilter. done.
  - induction IH as [|b l' Hb Hl IH]; simpl; [constructor|]. destruct (negb (same a b)); [|done].
    constructor; [|done]. apply Forall_forall. intros y [Hy _]%elem_of_lfilter.
    rewrite Forall_forall in Hb. auto.
Qed.

(** The first element of a group. *)
Lemma first_of_group {A} (same : A -> A -> bool) l x :
  x ∈ l -> same x x = true ->
  exists l1 y l2, l = l1 ++ y :: l2 /\ same y x = true /\ forall z, z ∈ l1 -> same z x = false.
Proof.
  induction l as [|a l IH]; [intros H; by apply elem_of_nil in H|]. intros Hx Hr.
  destruct (same a x) eqn:E.
  - exists [], a, l. split_and!; [done|done|]. intros z Hz. by apply elem_of_nil in Hz.
  - apply elem_of_cons in Hx as [->|Hx]; [congruence|].
    destruct (IH Hx Hr) as (l1 & y & l2 & -> & Hy & Hl1). exists (a :: l1), y, l2.
    split_and!; [done|done|]. intros z [->|Hz]%elem_of_cons; auto.
Qed.

Lemma distinct_on_sorted {A} (R : A -> A -> Prop) (same : A -> A -> bool) l :
  StronglySorted R l -> StronglySorted R (distinct_on same l).
Proof.
  induction 1 as [|x l Hl IH Hx]; simpl; [constructor|]. constructor; [by apply lfilter_sorted|].
  apply Forall_forall. intros y [Hy _]%elem_of_lfilter. rewrite Forall_forall in Hx. apply Hx.
  apply distinct_on_elem in Hy as (l1 & l2 & -> & _). apply elem_of_app. right. left.
Qed.

Lemma ordpairs_lfilter {A} (R : A -> A -> Prop) (f : A -> bool) l :
  ForallOrdPairs R l -> ForallOrdPairs R (List.filter f l).
Proof.
  induction 1 as [|x l Hx Hl IH]; simpl; [constructor|]. destruct (f x); [|done].
  constructor; [|done]. apply Forall_forall. intros y [Hy _]%elem_of_lfilter.
  rewrite Forall_forall in Hx. auto.
Qed.

Lemma position_skip {A} (f : A -> bool) l1 l2 :
  (forall y, y ∈ l1 -> f y = false) -> position f (l1 ++ l2) = Z.of_nat (length l1) + position f l2.
Proof.
  induction l1 as [|y l1 IH]; intros Hl1; [simpl; lia|]. cbn [position app length].
  rewrite (Hl1 y) by left. rewrite IH by (intros z ?; apply Hl1; by right). lia.
Qed.

(** In a sorted list the ordinals follow the order. *)
Lemma position_sorted {A} (leb : A -> A -> bool) `{!TotalPreorder leb} (f g : A -> bool) l x y :
  x ∈ l -> y ∈ l ->
  f x = true -> (forall z, z ∈ l -> f z = true -> z = x) -> (forall z, z ∈ l -> g z = true -> z = y) ->
  leb y x = false -> position f (sort_by leb l) < position g (sort_by leb l).
Proof.
  intros Hx Hy Hf Hfu Hgu Hle. pose proof (sort_by_sorted leb l) as Hs.
  assert (Hin : forall z, z ∈ sort_by leb l -> z ∈ l) by (intros z; by rewrite elem_of_sort_by).
  rewrite <-(elem_of_sort_by leb) in Hx. apply list_elem_of_split in Hx as (l1 & l2 & Hl).
  rewrite Hl in *. apply StronglySorted_app in Hs as (Hcross & _ & _).
  assert (Hg : forall z, z ∈ l1 ++ [x] -> g z = false).
  { intros z Hz. destruct (g z) eqn:E; [|done]. exfalso.
    assert (z = y) as -> by (apply Hgu; [apply Hin|done]; rewrite elem_of_app in *; rewrite elem_of_cons;
      rewrite list_elem_of_singleton in Hz; tauto).
    apply elem_of_app in Hz as [Hz|Hz%list_elem_of_singleton].
    - rewrite (Hcross y x) in Hle; [done|done|left].
    - subst. destruct (leb_total (leb := leb) x x); congruence. }
  replace (position g (l1 ++ x :: l2)) with (position g ((l1 ++ [x]) ++ l2)) by by rewrite <-app_assoc.
  rewrite (position_skip g) by done. rewrite length_app. simpl. pose proof (position_pos g l2).
  enough (position f (l1 ++ x :: l2) <= Z.of_nat (length l1) + 1) by lia.
  clear -Hf. induction l1 as [|z l1 IH]; simpl; [by rewrite Hf|]. destruct (f z); lia.
Qed.
