(* ===== verification/Sample.v ===== *)
(** * Sample instances

    Concrete functions for the crates and the event codec the models take as
    parameters, small enough to evaluate, and sample rows.  The witnesses of the
    properties are evaluated with them. *)

From Stdlib Require Import DecimalString.
From S2P Require Import Prelude Times Types Db.

(** Identifiers in decimal, accounts as [label.audience]. *)
Definition sample_account_from_str (s : string) : option account_id :=
  match String.index 0 "." s with
  | Some i =>
    Some (AccountId (String.substring 0 i s) (String.substring (S i) (String.length s - S i) s))
  | None => None
  end.

#[export] Instance sample_externals : Externals := {
  uuid_to_string n := NilZero.string_of_uint (N.to_uint n);
  uuid_parse s := N.of_uint <$> NilZero.uint_of_string s;
  account_to_string a := (acc_label a ++ "." ++ acc_audience a)%string;
  account_from_str := sample_account_from_str;
  json_to_string v := match v with JString s => s | _ => "json"%string end;
  jsonb_octets v := match v with JString s => Z.of_nat (String.length s) | _ => 1 end;
  text_leb := String.leb
}.

(** Strings stored as their bytes. *)
#[export] Instance sample_codec : EventCodec := {
  CompactEvent := bytes;
  from_json v := match v with JString s => Some (String.list_byte_of_string s) | _ => None end;
  into_json b := Some (JString (String.string_of_list_byte b));
  encode b := b;
  decode b := Some b
}.

#[export] Instance sample_codec_laws : EventCodecLaws.
Proof. done. Qed.

Lemma string_leb_spec s t : String.leb s t = true <-> String.compare s t <> Gt.
Proof. unfold String.leb. destruct (String.compare s t); naive_solver. Qed.

#[export] Instance sample_collation : CollationLaws.
Proof.
  split; simpl; intros x y.
  - destruct (String.leb_total x y); auto.
  - revert y. induction x as [|a x IH]; intros [|b y] [|c z]; try done.
    rewrite !string_leb_spec. simpl. unfold Ascii.compare.
    destruct (N.compare_spec (Ascii.N_of_ascii a) (Ascii.N_of_ascii b)),
      (N.compare_spec (Ascii.N_of_ascii b) (Ascii.N_of_ascii c)),
      (N.compare_spec (Ascii.N_of_ascii a) (Ascii.N_of_ascii c)); try done; try lia.
    rewrite <-!string_leb_spec. apply IH.
Qed.

Definition sample_account : account_id := AccountId "user" "example.org".
Definition sample_agent : agent_id := AgentId sample_account "web".

(** Room 1: opened at second 1, without an end, not preserving history. *)
Definition sample_room_row : room_row :=
  RoomRow 1%N "example.org" None (Included nanos_per_sec, Unbounded) None 0 false 7%N
    (JObject []) (JObject []) Minigroup.

Definition sample_db : database := with_rooms (fun _ => [sample_room_row]) empty_database.

(** A live message of room 1. *)
Definition sample_event (id : uuid) (label : option string) (occurred_at created_at : Z) : event_row :=
  EventRow id 1%N "message" "messages" label None (Some JNull) None occurred_at sample_agent
    created_at None occurred_at sample_agent false None None.

Definition sample_ctx : qctx := QCtx (100 * nanos_per_sec) (fun n => N.of_nat (1000 + n)).
