(* ===== verification/EventDb.v ===== *)
(** * Events

    [src/src/db/event/mod.rs]: decoding of rows, the builder of transient
    events, and the queries on the table [event]. *)

From Stdlib Require Import Btauto.
From S2P Require Import Prelude Times Types Db Sample.

(** json equality tests on options need no decision on values. *)
Definition is_none {A} (o : option A) : bool := match o with None => true | _ => false end.

(** ** [RawObject] to [Object] *)

Section Decode.
Context `{EventCodec}.

(** [TryFrom<RawObject> for Object], with the column decoder of [PostcardBin]. *)
Definition try_from_raw (raw : event_row) : result sqlx_error Event :=
  result_bind
    (match er_binary_data raw with
     | Some binary =>
       match decode binary with
       | None => Err (DecodeError "failed to decode postcard binary")
       | Some compact =>
         match into_json compact with
         | Some v => Ok v
         | None => Err (DecodeError "serialization")
         end
       end
     | None =>
       ok_or (er_data raw) (DecodeError "data should be specified if binary_data is missing")
     end) (fun data =>
  Ok (MkEvent (er_id raw) (er_room_id raw) (er_kind raw) (er_set raw) (er_label raw)
        (er_attribute raw) data (er_occurred_at raw) (er_created_by raw) (er_created_at raw)
        (er_deleted_at raw) (er_original_occurred_at raw) (er_original_created_by raw)
        (er_removed raw))).
End Decode.

(** ** [Builder]: transient events *)

Module Builder.

Record t : Type := Mk {
  b_room_id : option uuid;
  b_kind : option string;
  b_set : option string;
  b_label : option string;
  b_data : option json;
  b_occurred_at : option Z;
  b_created_by : option agent_id;
  b_attribute : option string
}.

Definition new : t := Mk None None None None None None None None.

Definition room_id (v : uuid) (b : t) : t :=
  Mk (Some v) (b_kind b) (b_set b) (b_label b) (b_data b) (b_occurred_at b) (b_created_by b) (b_attribute b).
Definition kind (v : string) (b : t) : t :=
  Mk (b_room_id b) (Some v) (b_set b) (b_label b) (b_data b) (b_occurred_at b) (b_created_by b) (b_attribute b).
Definition set (v : string) (b : t) : t :=
  Mk (b_room_id b) (b_kind b) (Some v) (b_label b) (b_data b) (b_occurred_at b) (b_created_by b) (b_attribute b).
Definition label (v : string) (b : t) : t :=
  Mk (b_room_id b) (b_kind b) (b_set b) (Some v) (b_data b) (b_occurred_at b) (b_created_by b) (b_attribute b).
Definition attribute (v : string) (b : t) : t :=
  Mk (b_room_id b) (b_kind b) (b_set b) (b_label b) (b_data b) (b_occurred_at b) (b_created_by b) (Some v).
Definition data (v : json) (b : t) : t :=
  Mk (b_room_id b) (b_kind b) (b_set b) (b_label b) (Some v) (b_occurred_at b) (b_created_by b) (b_attribute b).
Definition occurred_at (v : Z) (b : t) : t :=
  Mk (b_room_id b) (b_kind b) (b_set b) (b_label b) (b_data b) (Some v) (b_created_by b) (b_attribute b).
Definition created_by (v : agent_id) (b : t) : t :=
  Mk (b_room_id b) (b_kind b) (b_set b) (b_label b) (b_data b) (b_occurred_at b) (Some v) (b_attribute b).

(** [id] is [Uuid::new_v4()], [now] is [Utc::now()]. *)
Definition build (id : uuid) (now : Z) (b : t) : result string Event :=
  result_bind (ok_or (b_room_id b) "Missing `room_id`"%string) (fun room_id =>
  result_bind (ok_or (b_kind b) "Missing `kind`"%string) (fun kind =>
  let set := default kind (b_set b) in
  result_bind (ok_or (b_data b) "Missing `data`"%string) (fun data =>
  result_bind (ok_or (b_occurred_at b) "Missing `occurred_at`"%string) (fun occurred_at =>
  result_bind (ok_or (b_created_by b) "Missing `created_by`"%string) (fun created_by =>
  Ok (MkEvent id room_id kind set (b_label b) (b_attribute b) data occurred_at created_by now
        None occurred_at created_by false)))))).

End Builder.

(** ** [ListQuery] *)

Inductive Direction : Type := Forward | Backward.

Inductive KindFilter : Type :=
  | Single (kind : string)
  | Multiple (kinds : list string).

Definition DEFAULT_LIST_LIMIT : Z := 100000.

Module ListQuery.

Record t : Type := Mk {
  lq_room_id : option uuid;
  lq_kind : option KindFilter;
  lq_set : option string;
  lq_label : option string;
  lq_attribute : option string;
  lq_last_occurred_at : option Z;
  lq_direction : Direction;
  lq_limit : option Z
}.

Definition new : t := Mk None None None None None None Forward None.

Definition room_id (v : uuid) (q : t) : t :=
  Mk (Some v) (lq_kind q) (lq_set q) (lq_label q) (lq_attribute q) (lq_last_occurred_at q) (lq_direction q) (lq_limit q).
Definition kind (v : string) (q : t) : t :=
  Mk (lq_room_id q) (Some (Single v)) (lq_set q) (lq_label q) (lq_attribute q) (lq_last_occurred_at q) (lq_direction q) (lq_limit q).
Definition kinds (v : list string) (q : t) : t :=
  Mk (lq_room_id q) (Some (Multiple v)) (lq_set q) (lq_label q) (lq_attribute q) (lq_last_occurred_at q) (lq_direction q) (lq_limit q).
Definition set (v : string) (q : t) : t :=
  Mk (lq_room_id q) (lq_kind q) (Some v) (lq_label q) (lq_attribute q) (lq_last_occurred_at q) (lq_direction q) (lq_limit q).
Definition label (v : string) (q : t) : t :=
  Mk (lq_room_id q) (lq_kind q) (lq_set q) (Some v) (lq_attribute q) (lq_last_occurred_at q) (lq_direction q) (lq_limit q).
Definition attribute (v : string) (q : t) : t :=
  Mk (lq_room_id q) (lq_kind q) (lq_set q) (lq_label q) (Some v) (lq_last_occurred_at q) (lq_direction q) (lq_limit q).
Definition last_occurred_at (v : Z) (q : t) : t :=
  Mk (lq_room_id q) (lq_kind q) (lq_set q) (lq_label q) (lq_attribute q) (Some v) (lq_direction q) (lq_limit q).
Definition direction (v : Direction) (q : t) : t :=
  Mk (lq_room_id q) (lq_kind q) (lq_set q) (lq_label q) (lq_attribute q) (lq_last_occurred_at q) v (lq_limit q).
Definition limit (v : Z) (q : t) : t :=
  Mk (lq_room_id q) (lq_kind q) (lq_set q) (lq_label q) (lq_attribute q) (lq_last_occurred_at q) (lq_direction q) (Some v).

(** The [WHERE] clause. *)
Definition matches (q : t) (e : event_row) : bool :=
  let kinds := match lq_kind q with
               | Some (Single kind) => [kind]
               | Some (Multiple kinds) => kinds
               | None => []
               end in
  is_none (er_deleted_at e)
  && sql_opt (fun r => bool_decide (er_room_id e = r)) (lq_room_id q)
  && sql_opt (fun a => sql_eq (er_attribute e) (Some a)) (lq_attribute q)
  && (bool_decide (kinds = []) || bool_decide (er_kind e ∈ kinds))
  && sql_opt (fun t => match lq_direction q with
                       | Forward => t <? er_occurred_at e
                       | Backward => er_occurred_at e <? t
                       end) (lq_last_occurred_at q)
  && sql_opt (fun s => bool_decide (er_set e = s)) (lq_set q)
  && sql_opt (fun l => sql_eq (er_label e) (Some l)) (lq_label q).

(** The [ORDER BY] clause. *)
Definition order (d : Direction) : event_row -> event_row -> bool :=
  match d with
  | Forward => then_by (by_key er_occurred_at) (by_key er_created_at)
  | Backward => then_by (desc (by_key er_occurred_at)) (desc (by_key er_created_at))
  end.

(** The rows the statement returns. *)
Definition rows (q : t) (events : list event_row) : list event_row :=
  Db.limit (default DEFAULT_LIST_LIMIT (lq_limit q))
    (sort_by (order (lq_direction q)) (List.filter (matches q) events)).

Definition execute `{EventCodec} (q : t) : query (list Event) :=
  select (fun db => map_rows try_from_raw (rows q (db_events db))).

End ListQuery.

(** ** [InsertQuery] *)

Module InsertQuery.

(** [binary_data] is the value wrapped in [PostcardBin]. *)
Record t `{EventCodec} : Type := Mk {
  iq_room_id : uuid;
  iq_kind : string;
  iq_set : string;
  iq_label : option string;
  iq_data : option json;
  iq_binary_data : option CompactEvent;
  iq_attribute : option string;
  iq_occurred_at : Z;
  iq_created_by : agent_id;
  iq_created_at : option Z;
  iq_removed : bool;
  iq_entity_type : option string;
  iq_entity_event_id : option Z
}.

Section InsertQuery.
Context `{Externals, EventCodec}.

Definition new (room_id : uuid) (kind : string) (data : json) (occurred_at : Z)
    (created_by : agent_id) : result failure t :=
  result_bind
    (if bool_decide (kind = "draw"%string)
     then match from_json data with
          | Some compact => Ok (None, Some compact)
          | None => Err (Bail "compact event")
          end
     else Ok (Some data, None)) (fun '(data, binary_data) =>
  Ok (Mk _ room_id kind kind None data binary_data None occurred_at created_by None false None None)).

Definition set (v : string) (q : t) : t :=
  Mk _ (iq_room_id q) (iq_kind q) v (iq_label q) (iq_data q) (iq_binary_data q) (iq_attribute q)
    (iq_occurred_at q) (iq_created_by q) (iq_created_at q) (iq_removed q) (iq_entity_type q) (iq_entity_event_id q).
Definition label (v : string) (q : t) : t :=
  Mk _ (iq_room_id q) (iq_kind q) (iq_set q) (Some v) (iq_data q) (iq_binary_data q) (iq_attribute q)
    (iq_occurred_at q) (iq_created_by q) (iq_created_at q) (iq_removed q) (iq_entity_type q) (iq_entity_event_id q).
Definition attribute (v : string) (q : t) : t :=
  Mk _ (iq_room_id q) (iq_kind q) (iq_set q) (iq_label q) (iq_data q) (iq_binary_data q) (Some v)
    (iq_occurred_at q) (iq_created_by q) (iq_created_at q) (iq_removed q) (iq_entity_type q) (iq_entity_event_id q).
Definition removed (v : bool) (q : t) : t :=
  Mk _ (iq_room_id q) (iq_kind q) (iq_set q) (iq_label q) (iq_data q) (iq_binary_data q) (iq_attribute q)
    (iq_occurred_at q) (iq_created_by q) (iq_created_at q) v (iq_entity_type q) (iq_entity_event_id q).
(** Only the tests set the time of creation. *)
Definition created_at (v : Z) (q : t) : t :=
  Mk _ (iq_room_id q) (iq_kind q) (iq_set q) (iq_label q) (iq_data q) (iq_binary_data q) (iq_attribute q)
    (iq_occurred_at q) (iq_created_by q) (Some v) (iq_removed q) (iq_entity_type q) (iq_entity_event_id q).
Definition entity_type (v : string) (q : t) : t :=
  Mk _ (iq_room_id q) (iq_kind q) (iq_set q) (iq_label q) (iq_data q) (iq_binary_data q) (iq_attribute q)
    (iq_occurred_at q) (iq_created_by q) (iq_created_at q) (iq_removed q) (Some v) (iq_entity_event_id q).
Definition entity_event_id (v : Z) (q : t) : t :=
  Mk _ (iq_room_id q) (iq_kind q) (iq_set q) (iq_label q) (iq_data q) (iq_binary_data q) (iq_attribute q)
    (iq_occurred_at q) (iq_created_by q) (iq_created_at q) (iq_removed q) (iq_entity_type q) (Some v).

(** The [VALUES] of the statement. *)
Definition values (id : uuid) (q : t) : new_event :=
  NewEvent id (iq_room_id q) (iq_kind q) (iq_set q) (iq_label q) (iq_attribute q) (iq_data q)
    (encode <$> iq_binary_data q) (iq_occurred_at q) (iq_created_by q) (iq_created_at q)
    (iq_removed q) (iq_entity_type q) (iq_entity_event_id q).

Definition execute (q : t) : query Event := fun c db =>
  match insert_event (q_now c) (values (q_uuid c 0) q) db with
  | Ok (row, db') => (try_from_raw row, db')
  | Err e => (Err e, db)
  end.

End InsertQuery.
End InsertQuery.

(** ** [DeleteQuery] *)

Module DeleteQuery.

Definition matches (room_id : uuid) (kind : string) (e : event_row) : bool :=
  is_none (er_deleted_at e) && bool_decide (er_room_id e = room_id) && bool_decide (er_kind e = kind).

Definition execute (room_id : uuid) (kind : string) : query unit := fun _ db =>
  (Ok tt, delete_events (matches room_id kind) db).

End DeleteQuery.

(** ** [OriginalEventQuery] *)

Module OriginalEventQuery.

Definition execute `{EventCodec} (room_id : uuid) (set label : string) : query (option Event) :=
  select (fun db =>
    match head (sort_by (by_key er_occurred_at)
                 (List.filter (same_live_label room_id set (Some label)) (db_events db))) with
    | Some raw => result_bind (try_from_raw raw) (fun e => Ok (Some e))
    | None => Ok None
    end).

End OriginalEventQuery.

(** ** [VacuumQuery] *)

Module VacuumQuery.

Record t : Type := Mk {
  vq_max_history_size : Z;
  vq_max_history_lifetime : Z;
  vq_max_deleted_lifetime : Z
}.

(** [Duration::num_seconds]. *)
Definition num_seconds (d : Z) : Z := Z.quot d nanos_per_sec.

(** [PARTITION BY room_id, set, label]: [NULL] labels form one group. *)
Definition same_label (x y : event_row) : bool :=
  bool_decide (er_room_id x = er_room_id y) && bool_decide (er_set x = er_set y)
  && bool_decide (er_label x = er_label y).

Definition same_id (x y : event_row) : bool := bool_decide (er_id x = er_id y).

(** The rows of [sub]: the events of the rooms that do not preserve history. *)
Definition sub (db : database) : list event_row :=
  List.filter (fun e => existsb (fun r =>
    bool_decide (rr_id r = er_room_id e) && negb (rr_preserve_history r)) (db_rooms db)) (db_events db).

Definition reverse_ordinal (rows : list event_row) (e : event_row) : Z :=
  row_number same_id same_label (desc (by_key er_occurred_at)) rows e.

(** [created_at < NOW() - INTERVAL '1 second' * lifetime]. *)
Definition older (now lifetime : Z) (e : event_row) : bool :=
  er_created_at e <? now - nanos_per_sec * num_seconds lifetime.

(** The three selects of the [UNION ALL]. *)
Definition too_deep (q : t) (rows : list event_row) (e : event_row) : bool :=
  vq_max_history_size q <? reverse_ordinal rows e.

Definition too_old (q : t) (now : Z) (rows : list event_row) (e : event_row) : bool :=
  (1 <? reverse_ordinal rows e) && older now (vq_max_history_lifetime q) e.

Definition too_old_deleted (q : t) (now : Z) (rows : list event_row) (e : event_row) : bool :=
  is_none (er_deleted_at e)
  && existsb (fun s =>
       bool_decide (er_room_id e = er_room_id s) && bool_decide (er_set e = er_set s)
       && sql_eq (er_label e) (er_label s)
       && sql_eq (er_attribute s) (Some "deleted"%string)
       && (reverse_ordinal rows s =? 1) && older now (vq_max_deleted_lifetime q) s) rows.

(** Whether the statement deletes the event. *)
Definition vacuumed (q : t) (now : Z) (db : database) (e : event_row) : bool :=
  let rows := sub db in
  (existsb (same_id e) rows && (too_deep q rows e || too_old q now rows e))
  || too_old_deleted q now rows e.

Definition execute (q : t) : query unit := fun c db =>
  (Ok tt, delete_events (vacuumed q (q_now c) db) db).

End VacuumQuery.

(** ** Events the service itself records *)

Inductive AgentAction : Type := Left | Enter.

Definition AgentAction_as_str (a : AgentAction) : string :=
  match a with Left => "agent_left" | Enter => "agent_enter" end.

(** [(Utc::now() - opened_at).num_nanoseconds().unwrap_or(std::i64::MAX)]. *)
Definition since_opening (now opened_at : Z) : Z := default i64_max (bigint (now - opened_at)).

Section Actions.
Context `{Externals, EventCodec}.

(** The failures of [anyhow::Result]: a bail, the error of a query, or a panic. *)
Inductive op_error : Type :=
  | OpBail (msg : string)
  | OpSqlx (e : sqlx_error)
  | OpPanic (msg : string).

Definition room_opening (room : Room) : option Z :=
  rt_start <$> RoomTimeImpl.new (room_time room).

(** [now] is the reading of [Utc::now()]. *)
Definition insert_agent_action (now : Z) (room : Room) (action : AgentAction) (agent : agent_id)
    (c : qctx) (db : database) : result op_error unit * database :=
  match room_opening room with
  | None => (Err (OpBail "Invalid room time"), db)
  | Some opened_at =>
    let occurred_at := since_opening now opened_at in
    match InsertQuery.new (room_id room) (AgentAction_as_str action) JNull occurred_at agent with
    | Err _ => (Err (OpBail "invalid event"), db)
    | Ok q =>
      match InsertQuery.execute q c db with
      | (Ok _, db') => (Ok tt, db')
      | (Err e, db') => (Err (OpSqlx e), db')
      end
    end
  end.

Definition insert_account_ban_event (now : Z) (room : Room) (banned_user : account_id)
    (value : bool) (reason : option string) (agent : agent_id)
    (c : qctx) (db : database) : result op_error unit * database :=
  match room_opening room with
  | None => (Err (OpBail "Invalid room time"), db)
  | Some opened_at =>
    let occurred_at := since_opening now opened_at in
    let data := JObject [("account_id", JString (account_to_string banned_user));
                         ("value", JBool value);
                         ("reason", match reason with Some r => JString r | None => JNull end)] in
    match InsertQuery.new (room_id room) "account_ban" data occurred_at agent with
    | Err _ => (Err (OpBail "invalid event"), db)
    | Ok q =>
      match InsertQuery.execute q c db with
      | (Ok _, db') => (Ok tt, db')
      | (Err e, db') => (Err (OpSqlx e), db')
      end
    end
  end.

End Actions.

(** ** Specifications *)

(** Every live event of a label carries the time and the author of the label's
    original event, the one created first. *)
Definition originals_coherent (events : list event_row) : Prop :=
  forall x o, x ∈ events -> er_deleted_at x = None ->
    original_row events (er_room_id x) (er_set x) (er_label x) = Some o ->
    er_original_occurred_at x = er_occurred_at o /\ er_original_created_by x = er_created_by o.

Definition event_ids_unique (db : database) : Prop := NoDup (er_id <$> db_events db).

(** Every room of this identifier keeps its whole history. *)
Definition preserved (db : database) (room : uuid) : Prop :=
  forall r, r ∈ db_rooms db -> rr_id r = room -> rr_preserve_history r = true.

(** The one latest version of its label. *)
Definition latest_version (events : list event_row) (e : event_row) : Prop :=
  forall e', e' ∈ events -> VacuumQuery.same_label e e' = true -> e' = e \/ er_occurred_at e' < er_occurred_at e.

(** The rows of a label, latest first. *)
Definition history (rows : list event_row) (e : event_row) : list event_row :=
  sort_by (desc (by_key er_occurred_at)) (List.filter (VacuumQuery.same_label e) rows).

(** ** Lemmas *)

Lemma original_row_elem events r s l o :
  original_row events r s l = Some o -> o ∈ events /\ same_live_label r s l o = true.
Proof.
  unfold original_row. intros Ho.
  assert (o ∈ sort_by (by_key er_created_at) (List.filter (same_live_label r s l) events)) as Hin.
  { destruct (sort_by _ _); simplify_eq/=. left. }
  by rewrite elem_of_sort_by, elem_of_lfilter in Hin.
Qed.

Lemma original_row_None events r s l x :
  original_row events r s l = None -> x ∈ events -> same_live_label r s l x = false.
Proof.
  unfold original_row. intros Hn Hx. destruct (same_live_label r s l x) eqn:E; [|done].
  assert (x ∈ sort_by (by_key er_created_at) (List.filter (same_live_label r s l) events)) as Hin.
  { by rewrite elem_of_sort_by, elem_of_lfilter. }
  destruct (sort_by _ _); [|done]. by apply elem_of_nil in Hin.
Qed.

(** Appending a row that is younger than the original leaves the original. *)
Lemma original_row_snoc events row r s l :
  (forall o, original_row events r s l = Some o -> same_live_label r s l row = true ->
             er_created_at o <= er_created_at row) ->
  original_row (events ++ [row]) r s l =
  match original_row events r s l with
  | Some o => Some o
  | None => if same_live_label r s l row then Some row else None
  end.
Proof.
  intros Hle. unfold original_row in *. rewrite lfilter_app. simpl.
  destruct (same_live_label r s l row) eqn:Erow; [|by rewrite app_nil_r; destruct (head _)].
  destruct (head (sort_by _ (List.filter _ _))) as [o|] eqn:E.
  - apply head_sort_snoc; [apply _|done|]. unfold by_key. by apply Z.leb_le, Hle.
  - destruct (List.filter _ events) as [|y l']; [done|]. exfalso.
    assert (length (sort_by (by_key er_created_at) (y :: l')) = 0%nat) as Hlen.
    { by destruct (sort_by (by_key er_created_at) (y :: l')). }
    by rewrite length_sort_by in Hlen.
Qed.

Lemma same_live_label_self x o events :
  er_deleted_at x = None ->
  original_row events (er_room_id x) (er_set x) (er_label x) = Some o ->
  same_live_label (er_room_id x) (er_set x) (er_label x) x = true.
Proof.
  intros Hlive [_ Ho]%original_row_elem. unfold same_live_label in *.
  rewrite Hlive, !bool_decide_eq_true_2 by done. simpl.
  destruct (er_label x); simpl; [by rewrite bool_decide_eq_true_2|].
  rewrite andb_true_iff in Ho. destruct Ho as [_ Ho]. by destruct (er_label o).
Qed.

(** The trigger makes the new row younger than its original. *)
Lemma on_event_insert_younger now events new o :
  ne_created_at new = None ->
  original_row events (ne_room_id new) (ne_set new) (ne_label new) = Some o ->
  er_created_at o < er_created_at (on_event_insert now events new).
Proof. intros Hc Ho. unfold on_event_insert. rewrite Hc, Ho. simpl. lia. Qed.

Lemma on_event_insert_coherent now events new :
  ne_created_at new = None -> originals_coherent events ->
  originals_coherent (events ++ [on_event_insert now events new]).
Proof.
  intros Hc Hcoh. set (row := on_event_insert now events new).
  assert (Hkey : er_room_id row = ne_room_id new /\ er_set row = ne_set new /\ er_label row = ne_label new)
    by done. destruct Hkey as (Hr & Hs & Hl).
  assert (Hsnoc : forall r s l, original_row (events ++ [row]) r s l =
    match original_row events r s l with
    | Some o => Some o
    | None => if same_live_label r s l row then Some row else None
    end).
  { intros r s l. apply original_row_snoc. intros o Ho Hrow.
    unfold same_live_label in Hrow. bool_prop. rewrite Hr, Hs, Hl in *. subst.
    assert (l = ne_label new) as ->.
    { destruct l, (ne_label new); simpl in *; try done; bool_prop. by subst. }
    apply Z.lt_le_incl, on_event_insert_younger; done. }
  intros x o Hx Hlive. rewrite Hsnoc. intros Ho. apply elem_of_app in Hx as [Hx|Hx%list_elem_of_singleton].
  - destruct (original_row events (er_room_id x) (er_set x) (er_label x)) as [o'|] eqn:E.
    + simplify_eq. by apply (Hcoh x o Hx Hlive).
    + exfalso. pose proof (original_row_None _ _ _ _ _ E Hx) as Hself.
      rewrite (same_live_label_self x o (events ++ [row])) in Hself; [done|done|].
      by rewrite Hsnoc, E.
  - subst x. rewrite Hr, Hs, Hl in Ho.
    destruct (original_row events (ne_room_id new) (ne_set new) (ne_label new)) as [o'|] eqn:E.
    + simplify_eq. subst row. unfold on_event_insert. by rewrite E.
    + case_match; [|done]. injection Ho as <-. unfold row, on_event_insert. by rewrite E.
Qed.

(** *** The queries' orders *)

#[export] Instance list_order d : TotalPreorder (ListQuery.order d).
Proof.
  destruct d;
    [exact (then_by_order (by_key er_occurred_at) (by_key er_created_at))
    |exact (then_by_order (desc (by_key er_occurred_at)) (desc (by_key er_created_at)))].
Qed.

(** *** [VacuumQuery] *)

Lemma sub_elem db e :
  e ∈ VacuumQuery.sub db <->
  e ∈ db_events db /\ exists r, r ∈ db_rooms db /\ rr_id r = er_room_id e /\ rr_preserve_history r = false.
Proof.
  unfold VacuumQuery.sub. rewrite elem_of_lfilter, existsb_exists. apply and_iff_compat_l.
  split; intros (r & Hr & H); exists r; rewrite list_elem_of_In in *; bool_prop; [done|].
  destruct H as [? ->]. rewrite bool_decide_eq_true_2 by done. done.
Qed.

Lemma sub_preserved db e : preserved db (er_room_id e) -> e ∉ VacuumQuery.sub db.
Proof. intros Hp [_ (r & Hr & Hid & Hf)]%sub_elem. rewrite (Hp r Hr Hid) in Hf. done. Qed.

Lemma unique_ids (db : database) e e' :
  event_ids_unique db -> e ∈ db_events db -> e' ∈ db_events db -> er_id e = er_id e' -> e = e'.
Proof.
  apply (NoDup_key er_id).
Qed.

Lemma same_label_group x y (rows : list event_row) :
  VacuumQuery.same_label x y = true ->
  List.filter (VacuumQuery.same_label x) rows = List.filter (VacuumQuery.same_label y) rows.
Proof.
  unfold VacuumQuery.same_label. intros H. bool_prop. apply lfilter_ext. intros z _.
  repeat match goal with E : _ x = _ y |- _ => rewrite E; clear E end. done.
Qed.

Lemma same_label_refl x : VacuumQuery.same_label x x = true.
Proof. unfold VacuumQuery.same_label. by rewrite !bool_decide_eq_true_2. Qed.

Lemma history_elem rows e x :
  x ∈ history rows e <-> x ∈ rows /\ VacuumQuery.same_label e x = true.
Proof. unfold history. by rewrite elem_of_sort_by, elem_of_lfilter. Qed.

Lemma history_self rows e : e ∈ rows -> exists x, x ∈ history rows e /\ VacuumQuery.same_id e x = true.
Proof.
  intros. exists e. rewrite history_elem. unfold VacuumQuery.same_id.
  rewrite bool_decide_eq_true_2 by done. auto using same_label_refl.
Qed.

(** A row whose ordinal is at most [n] is one of the [n] latest of its label. *)
Lemma reverse_ordinal_take db e n :
  event_ids_unique db -> e ∈ VacuumQuery.sub db ->
  VacuumQuery.reverse_ordinal (VacuumQuery.sub db) e <= n ->
  e ∈ take (Z.to_nat n) (history (VacuumQuery.sub db) e).
Proof.
  intros Hu He Hn. destruct (position_take (VacuumQuery.same_id e) _ n (history_self _ _ He) Hn)
    as (y & Hy & Hid).
  assert (y ∈ history (VacuumQuery.sub db) e) as [Hsub _]%history_elem.
  { rewrite <-(take_drop (Z.to_nat n)). apply elem_of_app. by left. }
  unfold VacuumQuery.same_id in Hid. bool_prop.
  apply sub_elem in He as [He _], Hsub as [Hsub _]. 
  assert (e = y) as <- by (by apply (unique_ids db)). exact Hy.
Qed.

Lemma reverse_ordinal_latest db e :
  e ∈ VacuumQuery.sub db -> latest_version (db_events db) e ->
  VacuumQuery.reverse_ordinal (VacuumQuery.sub db) e = 1.
Proof.
  intros He Hl. apply (position_head _ _ e).
  - apply head_sort_least; [apply _| |].
    + by rewrite elem_of_lfilter, same_label_refl.
    + intros y [[Hy _]%sub_elem Hs]%elem_of_lfilter. destruct (Hl y Hy Hs) as [->|]; [by left|].
      right. unfold desc, by_key. lia.
  - unfold VacuumQuery.same_id. by rewrite bool_decide_eq_true_2.
Qed.

Lemma sql_eq_true {A} `{EqDecision A} (a b : option A) : sql_eq a b = true -> a = b.
Proof. destruct a, b; simpl; try done. intros ?%bool_decide_eq_true. by subst. Qed.

(** An expired deletion mark deletes the labels it is the latest version of. *)
Lemma too_old_deleted_latest q now db e :
  event_ids_unique db -> latest_version (db_events db) e ->
  VacuumQuery.too_old_deleted q now (VacuumQuery.sub db) e = true ->
  e ∈ db_events db -> er_attribute e = Some "deleted"%string.
Proof.
  intros Hu Hl. unfold VacuumQuery.too_old_deleted. intros H. bool_prop.
  apply existsb_exists in H0 as (s & Hs & Hc). apply list_elem_of_In in Hs. bool_prop.
  repeat match goal with H : sql_eq _ _ = true |- _ => apply sql_eq_true in H end.
  intros He. enough (s = e) as ->; [done|].
  assert (Hes : VacuumQuery.same_label e s = true).
  { unfold VacuumQuery.same_label. rewrite !bool_decide_eq_true_2 by done. done. }
  assert (Hsub : e ∈ VacuumQuery.sub db).
  { apply sub_elem. split; [done|]. apply sub_elem in Hs as [_ (r & Hr & Hid & Hp)].
    exists r. split_and!; congruence. }
  pose proof (reverse_ordinal_take db s 1 Hu Hs) as Hts.
  pose proof (reverse_ordinal_take db e 1 Hu Hsub) as Hte.
  rewrite (reverse_ordinal_latest db e Hsub Hl) in Hte.
  unfold history in *. rewrite (same_label_group e s _ Hes) in Hte.
  specialize (Hts ltac:(lia)). specialize (Hte ltac:(lia)).
  destruct (sort_by _ _) as [|z l]; [by apply elem_of_nil in Hte|].
  simpl in Hts, Hte. rewrite take_0, list_elem_of_singleton in Hts, Hte. congruence.
Qed.

Lemma NoDup_of_ids (l : list event_row) : NoDup (er_id <$> l) -> NoDup l.
Proof. apply NoDup_fmap_1. Qed.

Lemma NoDup_lfilter {A} (f : A -> bool) l : NoDup l -> NoDup (List.filter f l).
Proof.
  induction 1 as [|x l Hx Hl IH]; simpl; [constructor|]. destruct (f x); [|done].
  constructor; [|done]. by intros [? _]%elem_of_lfilter.
Qed.

Lemma length_incl {A} (l l' : list A) : NoDup l -> (forall x, x ∈ l -> x ∈ l') -> (length l <= length l')%nat.
Proof. intros Hn Hi. by apply submseteq_length, NoDup_submseteq. Qed.

Lemma vacuumed_false q now db e :
  VacuumQuery.vacuumed q now db e = false -> e ∈ VacuumQuery.sub db ->
  VacuumQuery.reverse_ordinal (VacuumQuery.sub db) e <= VacuumQuery.vq_max_history_size q.
Proof.
  unfold VacuumQuery.vacuumed. intros H He. apply orb_false_iff in H as [H _].
  rewrite (proj2 (existsb_exists _ _)) in H.
  - simpl in H. bool_prop. unfold VacuumQuery.too_deep in *. lia.
  - exists e. split; [by apply list_elem_of_In|]. unfold VacuumQuery.same_id. by rewrite bool_decide_eq_true_2.
Qed.

Lemma too_old_deleted_not_sub q now db e :
  preserved db (er_room_id e) -> VacuumQuery.too_old_deleted q now (VacuumQuery.sub db) e = false.
Proof.
  intros Hp. unfold VacuumQuery.too_old_deleted. apply not_true_is_false. intros H. bool_prop.
  apply existsb_exists in H0 as (s & Hs%list_elem_of_In & Hc). bool_prop.
  apply (sub_preserved db s); [|done]. by match goal with E : er_room_id e = er_room_id s |- _ => rewrite <-E end.
Qed.

Lemma vacuum_survivors q now db e r :
  event_ids_unique db -> e ∈ db_events (delete_events (VacuumQuery.vacuumed q now db) db) ->
  r ∈ db_rooms db -> rr_id r = er_room_id e -> rr_preserve_history r = false ->
  1 <= VacuumQuery.vq_max_history_size q ->
  Z.of_nat (length (List.filter (VacuumQuery.same_label e)
    (db_events (delete_events (VacuumQuery.vacuumed q now db) db)))) <= VacuumQuery.vq_max_history_size q.
Proof.
  intros Hu He Hr Hid Hp Hsize. set (n := VacuumQuery.vq_max_history_size q).
  assert (Hlen : (length (List.filter (VacuumQuery.same_label e)
    (db_events (delete_events (VacuumQuery.vacuumed q now db) db)))
    <= length (take (Z.to_nat n) (history (VacuumQuery.sub db) e)))%nat).
  2: { rewrite length_take in Hlen. lia. }
  apply length_incl.
  { unfold delete_events. simpl. do 2 apply NoDup_lfilter. by apply NoDup_of_ids. }
  intros x [[Hx Hv]%delete_events_elem Hs]%elem_of_lfilter.
  assert (Hsub : x ∈ VacuumQuery.sub db).
  { apply sub_elem. split; [done|]. exists r. split_and!; try done.
    unfold VacuumQuery.same_label in Hs. bool_prop. congruence. }
  unfold history. rewrite (same_label_group e x _ Hs).
  apply (reverse_ordinal_take db x n Hu Hsub). by apply (vacuumed_false q now).
Qed.

(** *** [ListQuery] *)

Definition after (d : Direction) (t : Z) (e : event_row) : bool :=
  match d with Forward => t <? er_occurred_at e | Backward => er_occurred_at e <? t end.

(** All the rows a list query selects, in order; [rows] is a prefix of them. *)
Definition selection (q : ListQuery.t) (events : list event_row) : list event_row :=
  sort_by (ListQuery.order (ListQuery.lq_direction q)) (List.filter (ListQuery.matches q) events).

Lemma selection_elem q events e :
  e ∈ selection q events <-> e ∈ events /\ ListQuery.matches q e = true.
Proof. unfold selection. by rewrite elem_of_sort_by, elem_of_lfilter. Qed.

Lemma selection_sorted q events :
  StronglySorted (fun a b => ListQuery.order (ListQuery.lq_direction q) a b = true) (selection q events).
Proof. apply sort_by_sorted, _. Qed.

(** A query continued after [t] matches the rows of the query that are after [t],
    when the query itself matches a row at [t]. *)
Lemma matches_last_occurred_at q e x :
  ListQuery.matches q e = true ->
  ListQuery.matches (ListQuery.last_occurred_at (er_occurred_at e) q) x
  = ListQuery.matches q x && after (ListQuery.lq_direction q) (er_occurred_at e) x.
Proof.
  intros He.
  assert (Hk : forall last, sql_opt (fun t => match ListQuery.lq_direction q with
                       | Forward => t <? er_occurred_at e
                       | Backward => er_occurred_at e <? t
                       end) last = true ->
    after (ListQuery.lq_direction q) (er_occurred_at e) x =
    sql_opt (fun t => match ListQuery.lq_direction q with
                       | Forward => t <? er_occurred_at x
                       | Backward => er_occurred_at x <? t
                       end) last && after (ListQuery.lq_direction q) (er_occurred_at e) x).
  { intros [t|]; [|done]. destruct (ListQuery.lq_direction q); simpl; lia. }
  unfold ListQuery.matches in *. apply andb_true_iff in He as [[[_ He]%andb_true_iff _]%andb_true_iff _].
  specialize (Hk _ He). simpl. unfold after in *. rewrite Hk. btauto.
Qed.

Lemma order_after d x y :
  ListQuery.order d x y = true -> er_occurred_at x <> er_occurred_at y ->
  after d (er_occurred_at x) y = true /\ after d (er_occurred_at y) x = false.
Proof.
  unfold ListQuery.order, then_by, desc, by_key, after. destruct d; intros H ?;
    repeat case_match; split; lia.
Qed.

Lemma sorted_after d l1 e l2 :
  StronglySorted (fun a b => ListQuery.order d a b = true) (l1 ++ e :: l2) ->
  NoDup (er_occurred_at <$> l1 ++ e :: l2) ->
  List.filter (after d (er_occurred_at e)) (l1 ++ e :: l2) = l2.
Proof.
  induction l1 as [|x l1 IH]; simpl; inversion 1 as [|? ? Hs Hx]; inversion 1 as [|? ? Hnot Hnd]; subst.
  - assert (after d (er_occurred_at e) e = false) as -> by (destruct d; simpl; lia).
    rewrite Forall_forall in Hx. clear -Hx Hnot. induction l2 as [|y l2 IH]; [done|].
    simpl. destruct (order_after d e y) as [-> _].
    + apply Hx. left.
    + intros Hy. apply Hnot. rewrite Hy. simpl. left.
    + f_equal. apply IH; [intros z ?; apply Hx; by right|]. intros Hy. apply Hnot. by right.
  - rewrite Forall_forall in Hx. destruct (order_after d x e) as [_ ->].
    + apply Hx. rewrite elem_of_app. right. left.
    + intros Hy. apply Hnot. rewrite Hy. apply (list_elem_of_fmap_2 er_occurred_at).
      rewrite elem_of_app. right. left.
    + by apply IH.
Qed.

(** ** Properties *)



(** C34: paging through a list by [last_occurred_at] loses and repeats nothing, in
    both directions, as long as no two matching events share their [occurred_at]:
    the rows of a page followed by all the rows of the query continued after the
    last of them are the rows of the query. *)
Theorem list_pagination_complete (q : ListQuery.t) (events : list event_row) (e : event_row) :
  NoDup (er_occurred_at <$> List.filter (ListQuery.matches q) events) ->
  last (ListQuery.rows q events) = Some e ->
  selection q events =
  ListQuery.rows q events ++ selection (ListQuery.last_occurred_at (er_occurred_at e) q) events.
Proof.
  intros Hnd Hlast. set (d := ListQuery.lq_direction q).
  assert (Hrows : ListQuery.rows q events
    = take (Z.to_nat (default DEFAULT_LIST_LIMIT (ListQuery.lq_limit q))) (selection q events)) by done.
  assert (He : ListQuery.matches q e = true).
  { apply last_Some in Hlast as [l Hl]. apply (selection_elem q events e).
    rewrite <-(take_drop (Z.to_nat (default DEFAULT_LIST_LIMIT (ListQuery.lq_limit q)))), <-Hrows, Hl.
    rewrite !elem_of_app. left. right. left. }
  assert (Hnext : selection (ListQuery.last_occurred_at (er_occurred_at e) q) events
    = List.filter (after d (er_occurred_at e)) (selection q events)).
  { unfold selection. rewrite sort_by_lfilter, lfilter_lfilter by apply _. f_equal.
    apply lfilter_ext. intros x _. by rewrite matches_last_occurred_at. }
  set (n := Z.to_nat (default DEFAULT_LIST_LIMIT (ListQuery.lq_limit q))) in *.
  apply last_Some in Hlast as [l Hl].
  assert (Hsel : selection q events = l ++ e :: drop n (selection q events)).
  { by rewrite <-(take_drop n (selection q events)) at 1; rewrite <-Hrows, Hl, <-app_assoc. }
  rewrite Hnext, Hl, <-app_assoc. rewrite Hsel at 1. do 2 f_equal.
  rewrite Hsel at 2. symmetry. apply sorted_after; rewrite <-Hsel.
  - apply selection_sorted.
  - unfold selection. by rewrite sort_by_Permutation.
Qed.

Lemma list_pagination_complete_witness :
  let row i t := sample_event i None t t in
  let events := [row 10%N 20; row 11%N 10; row 12%N 30] in
  let q := ListQuery.limit 2 (ListQuery.direction Backward (ListQuery.room_id 1%N ListQuery.new)) in
  ListQuery.rows q events = [row 12%N 30; row 10%N 20] /\
  selection q events = ListQuery.rows q events ++ selection (ListQuery.last_occurred_at 20 q) events.
Proof.
  intros row events q. split; [vm_compute; reflexivity|].
  apply (list_pagination_complete q events (row 10%N 20)).
  - by_evaluation.
  - vm_compute. reflexivity.
Defined.

(** Events at the same instant are lost at the boundary of a page. *)
Example list_pagination_ties :
  let row i := sample_event i None 10 (Z.of_N i) in
  let events := [row 10%N; row 11%N] in
  let q := ListQuery.limit 1 (ListQuery.room_id 1%N ListQuery.new) in
  ListQuery.rows q events = [row 10%N] /\
  ListQuery.rows (ListQuery.last_occurred_at 10 q) events = [].
Proof. split; vm_compute; reflexivity. Qed.

(** C33: what a vacuum deletes and what it keeps.  Events of the rooms that
    preserve history all stay; the latest version of a label stays unless it is
    a deletion mark, as long as the history size allows one version; and in the
    rooms that do not preserve history no label keeps more versions than the
    history size. *)
Theorem vacuum_policy (q : VacuumQuery.t) (c : qctx) (db : database) :
  event_ids_unique db -> 1 <= VacuumQuery.vq_max_history_size q ->
  let db' := (VacuumQuery.execute q c db).2 in
  (forall e, e ∈ db_events db -> preserved db (er_room_id e) -> e ∈ db_events db') /\
  (forall e, e ∈ db_events db -> latest_version (db_events db) e ->
     er_attribute e <> Some "deleted"%string -> e ∈ db_events db') /\
  (forall e r, e ∈ db_events db' ->
     r ∈ db_rooms db -> rr_id r = er_room_id e -> rr_preserve_history r = false ->
     Z.of_nat (length (List.filter (VacuumQuery.same_label e) (db_events db'))) <= VacuumQuery.vq_max_history_size q).
Proof.
  intros Hu Hsize db'. unfold db', VacuumQuery.execute. cbn [snd]. split_and!.
  - intros e He Hp. apply delete_events_elem. split; [done|].
    pose proof (sub_preserved db e Hp) as Hsub. unfold VacuumQuery.vacuumed.
    apply orb_false_iff. split; [|by apply too_old_deleted_not_sub].
    apply andb_false_iff. left. apply not_true_is_false. intros Hex.
    apply existsb_exists in Hex as (y & Hy%list_elem_of_In & Hid).
    unfold VacuumQuery.same_id in Hid. bool_prop.
    assert (e = y) as ->; [|done]. apply (unique_ids db); try done. by apply sub_elem in Hy as [? _].
  - intros e He Hl Hattr. apply delete_events_elem. split; [done|].
    unfold VacuumQuery.vacuumed. apply orb_false_iff. split.
    + destruct (existsb _ _) eqn:Hex; [|done]. simpl.
      apply existsb_exists in Hex as (y & Hy%list_elem_of_In & Hid).
      unfold VacuumQuery.same_id in Hid. bool_prop.
      assert (e = y) as <-; [apply (unique_ids db); try done; by apply sub_elem in Hy as [? _]|].
      unfold VacuumQuery.too_deep, VacuumQuery.too_old.
      rewrite (reverse_ordinal_latest db e) by done.
      destruct (Z.ltb_spec (VacuumQuery.vq_max_history_size q) 1); [lia|done].
    + destruct (VacuumQuery.too_old_deleted q _ _ e) eqn:E; [|done].
      by apply too_old_deleted_latest in E.
  - intros e r He Hr Hid Hp. by apply (vacuum_survivors q (q_now c) db e r).
Qed.

Lemma vacuum_policy_witness :
  let row i t := sample_event i (Some "a"%string) t t in
  let db := with_events (fun _ => [row 10%N 10; row 11%N 20]) sample_db in
  let q := VacuumQuery.Mk 1 0 0 in
  let c := QCtx 100 (fun _ => 0%N) in
  db_events (VacuumQuery.execute q c db).2 = [row 11%N 20] /\
  forall e r, e ∈ db_events (VacuumQuery.execute q c db).2 ->
     r ∈ db_rooms db -> rr_id r = er_room_id e -> rr_preserve_history r = false ->
     Z.of_nat (length (List.filter (VacuumQuery.same_label e) (db_events (VacuumQuery.execute q c db).2))) <= 1.
Proof.
  intros row db q c. split; [vm_compute; reflexivity|].
  apply (vacuum_policy q c db).
  - unfold event_ids_unique. by_evaluation.
  - cbn. lia.
Defined.

Section InsertCorrect.
Context `{Externals, EventCodec}.

Lemma insert_event_cases now new db :
  let row := on_event_insert now (db_events db) new in
  (exists v, event_violation db row = Some v /\ insert_event now new db = Err (DatabaseError v)) \/
  (event_violation db row = None /\
   insert_event now new db = Ok (row, with_events (fun l => l ++ [row]) db)).
Proof. unfold insert_event. cbv zeta. case_match; eauto. Qed.

Lemma event_violation_None db row :
  event_violation db row = None ->
  (er_id row ∉ (er_id <$> db_events db)) /\ ~ (er_data row = None /\ er_binary_data row = None) /\
  exists r, r ∈ db_rooms db /\ rr_id r = er_room_id row.
Proof.
  unfold event_violation. intros Hv. repeat (case_match; [done|]). split_and!.
  - intros (e & He & Hin)%list_elem_of_fmap.
    match goal with H : existsb (fun e => bool_decide (er_id e = er_id row)) _ = false |- _ =>
      apply not_true_iff_false in H; apply H, existsb_exists end.
    exists e. rewrite <-list_elem_of_In. split; [done|]. by apply bool_decide_eq_true_2.
  - intros [Hd Hb]. rewrite Hd, Hb, !bool_decide_eq_true_2 in * by done. done.
  - match goal with H : negb _ = false |- _ => apply negb_false_iff, existsb_exists in H as (r & Hr & Hid) end.
    exists r. rewrite list_elem_of_In. split; [done|]. by apply bool_decide_eq_true_1 in Hid.
Qed.

Lemma try_from_raw_fields row e :
  try_from_raw row = Ok e ->
  event_id e = er_id row /\ event_room_id e = er_room_id row /\ event_kind e = er_kind row /\
  event_set e = er_set row /\ event_label e = er_label row /\ event_attribute e = er_attribute row /\
  event_occurred_at e = er_occurred_at row /\ event_created_by e = er_created_by row /\
  event_original_occurred_at e = er_original_occurred_at row /\
  event_original_created_by e = er_original_created_by row /\ event_removed e = er_removed row.
Proof. unfold try_from_raw. intros (data & _ & [= <-])%result_bind_Ok. done. Qed.

(** An insertion that succeeds appends the row of the event it returns. *)
Lemma insert_execute_Ok q c db e db' :
  InsertQuery.execute q c db = (Ok e, db') ->
  exists row, db' = with_events (fun l => l ++ [row]) db /\ try_from_raw row = Ok e /\
    row = on_event_insert (q_now c) (db_events db) (InsertQuery.values (q_uuid c 0) q) /\
    event_violation db row = None.
Proof.
  unfold InsertQuery.execute.
  pose proof (insert_event_cases (q_now c) (InsertQuery.values (q_uuid c 0) q) db) as Hcases.
  cbv zeta in Hcases. destruct Hcases as [(v & _ & ->)|(Hv & ->)]; [done|].
  intros [= He <-]. eauto.
Qed.

(** A live row of the service's own, appended. *)
Definition appended (room : uuid) (kind : string) (agent : agent_id) (occurred_at : Z) (db db' : database) : Prop :=
  exists row, db' = with_events (fun l => l ++ [row]) db /\ er_room_id row = room /\ er_kind row = kind /\
    er_created_by row = agent /\ er_occurred_at row = occurred_at /\ er_deleted_at row = None.

Lemma insert_appended q c db e db' :
  InsertQuery.execute q c db = (Ok e, db') ->
  appended (InsertQuery.iq_room_id q) (InsertQuery.iq_kind q) (InsertQuery.iq_created_by q)
    (InsertQuery.iq_occurred_at q) db db'.
Proof. intros (row & -> & _ & -> & _)%insert_execute_Ok. by eexists. Qed.

Lemma insert_agent_action_Ok now room action agent c db u db' :
  insert_agent_action now room action agent c db = (Ok u, db') ->
  exists opened_at, room_opening room = Some opened_at /\
    appended (room_id room) (AgentAction_as_str action) agent (since_opening now opened_at) db db'.
Proof.
  unfold insert_agent_action. destruct (room_opening room) as [opened_at|]; [|done]. intros E. exists opened_at.
  split; [done|]. destruct action; simpl in E; destruct (InsertQuery.execute _ c db) as [[e|e] db1] eqn:Eq; try done;
    injection E as _ <-; apply (insert_appended _ _ _ _ _ Eq).
Qed.

Lemma insert_account_ban_event_Ok now room account value reason agent c db u db' :
  insert_account_ban_event now room account value reason agent c db = (Ok u, db') ->
  exists opened_at, room_opening room = Some opened_at /\
    appended (room_id room) "account_ban" agent (since_opening now opened_at) db db'.
Proof.
  unfold insert_account_ban_event. destruct (room_opening room) as [opened_at|]; [|done]. intros E. exists opened_at.
  split; [done|]. simpl in E. destruct (InsertQuery.execute _ c db) as [[e|e] db1] eqn:Eq; try done.
  injection E as _ <-. apply (insert_appended _ _ _ _ _ Eq).
Qed.

Context `{!EventCodecLaws}.

(** The payload the statement stored is the payload decoded from the row. *)
Lemma try_from_raw_insert now events id q :
  let row := on_event_insert now events (InsertQuery.values id q) in
  ~ (er_data row = None /\ er_binary_data row = None) ->
  match try_from_raw row with
  | Ok e =>
    match InsertQuery.iq_binary_data q with
    | Some compact => into_json compact = Some (event_data e)
    | None => InsertQuery.iq_data q = Some (event_data e)
    end
  | Err (DatabaseError _) => False
  | Err _ => exists compact, InsertQuery.iq_binary_data q = Some compact /\ into_json compact = None
  end.
Proof.
  unfold try_from_raw, on_event_insert, InsertQuery.values. simpl. intros Hne.
  destruct (InsertQuery.iq_binary_data q) as [compact|]; simpl in *.
  - rewrite decode_encode. destruct (into_json compact) eqn:E; simpl; [done|by exists compact].
  - destruct (InsertQuery.iq_data q); simpl in *; [done|]. tauto.
Qed.

(** C15: what an insertion does.  A violated constraint leaves the database
    alone; otherwise one row is appended, with the identifier, the columns and
    the decoded payload of the event returned, attributed to the original event
    of its label.  In every case each live event of the database still carries
    the time and the author of the original event of its label. *)
Theorem insert_query_correct (q : InsertQuery.t) (c : qctx) (db : database) :
  InsertQuery.iq_created_at q = None -> originals_coherent (db_events db) ->
  let '(r, db') := InsertQuery.execute q c db in
  originals_coherent (db_events db') /\
  match r with
  | Ok e =>
    exists row, db' = with_events (fun l => l ++ [row]) db /\ try_from_raw row = Ok e /\
      event_id e = q_uuid c 0 /\ (event_id e ∉ (er_id <$> db_events db)) /\
      event_room_id e = InsertQuery.iq_room_id q /\ event_kind e = InsertQuery.iq_kind q /\
      event_set e = InsertQuery.iq_set q /\ event_label e = InsertQuery.iq_label q /\
      event_occurred_at e = InsertQuery.iq_occurred_at q /\
      match InsertQuery.iq_binary_data q with
      | Some compact => into_json compact = Some (event_data e)
      | None => InsertQuery.iq_data q = Some (event_data e)
      end
  | Err (DatabaseError _) => db' = db
  | Err _ => exists compact, InsertQuery.iq_binary_data q = Some compact /\ into_json compact = None
  end.
Proof.
  intros Hc Hcoh. unfold InsertQuery.execute.
  pose proof (insert_event_cases (q_now c) (InsertQuery.values (q_uuid c 0) q) db) as Hcases.
  cbv zeta in Hcases. destruct Hcases as [(v & _ & ->)|(Hv & ->)]; [done|].
  set (row := on_event_insert (q_now c) (db_events db) (InsertQuery.values (q_uuid c 0) q)) in *.
  split; [by apply on_event_insert_coherent|].
  apply event_violation_None in Hv as (Hid & Hne & _).
  pose proof (try_from_raw_insert (q_now c) (db_events db) (q_uuid c 0) q Hne) as Hdata.
  fold row in Hdata. destruct (try_from_raw row) as [e|[]] eqn:E; try done.
  pose proof (try_from_raw_fields row e E) as Hf. split_and_all.
  exists row. split_and!; try done; congruence.
Qed.
End InsertCorrect.

Lemma insert_query_correct_witness :
  exists q, InsertQuery.new 1%N "message" (JString "hi") 5 sample_agent = Ok q /\
    is_ok (InsertQuery.execute q sample_ctx sample_db).1 = true /\
    originals_coherent (db_events (InsertQuery.execute q sample_ctx sample_db).2).
Proof.
  eexists. split; [reflexivity|]. split; [vm_compute; reflexivity|].
  match goal with |- context [InsertQuery.execute ?q _ _] =>
    pose proof (insert_query_correct q sample_ctx sample_db eq_refl
      (fun x o Hx => match not_elem_of_nil x Hx with end)) as H;
    destruct (InsertQuery.execute q sample_ctx sample_db) end.
  exact (proj1 H).
Defined.
