(* ===== verification/CompactEvent.v ===== *)
(** * Compact events

    The stored form of drawings ([src/src/db/event/schema.rs]): the figures with
    a path, whose coordinates become integers ([CompactPathEvent]), and the others,
    kept as they are but for the parts of their path ([CompactEventSchema]); and
    [PostcardBin] of [src/src/db/event/binary_encoding.rs].  At the end, the two
    make an instance of the interface the event queries are written against
    ([Types.EventCodec]). *)

From S2P Require Import Prelude Floats Times Types CompactPath Schema Db Sample EventDb.

#[export] Instance result_mbind {E} : MBind (result E) := fun _ _ f m => result_bind m f.

(** The crate [postcard]. *)
Class Postcard (A : Type) : Type := {
  to_allocvec : A -> option bytes;
  from_bytes : bytes -> option A
}.

(** [schema.rs]'s [Error]. *)
Inductive Error : Type := LosingPrecision | MissingPath.

#[global] Instance Error_eq_dec : EqDecision Error.
Proof. solve_decision. Defined.

(** ** Figures without a path *)

Module CompactEventSchema.

Record t : Type := Mk {
  _id : uuid;
  origin_x : Origin.t;
  origin_y : Origin.t;
  top : f32;
  left : f32;
  height : f32;
  width : f32;
  angle : f32;
  flip_x : bool;
  flip_y : bool;
  skew_x : f32;
  skew_y : f32;
  scale_x : f64;
  scale_y : f64;
  fill : option string;
  fill_rule : FillRule.t;
  shadow : option string;
  stroke : option string;
  opacity : Z;
  visible : bool;
  paint_first : PaintFirst.t;
  global_composite_operation : GlobalCompositeOperation.t;
  background_color : option string;
  no_scale_cache : option bool;
  stroke_dash_array : option (list f32);
  stroke_dash_offset : f32;
  stroke_line_cap : StrokeLineCap.t;
  stroke_line_join : StrokeLineJoin.t;
  stroke_miter_limit : Z;
  stroke_uniform : option bool;
  stroke_width : Z;
  cross_origin : option CrossOrigin.t;
  version : string;
  kind : Kind.t;
  _removed : option bool;
  _rev : option uuid;
  _restored : option bool;
  _locked_by_user : option bool;
  _only_state : option bool;
  _invalidate : option bool;
  _order : option Z;
  _no_history : option bool;
  _draw_by_stretch : option bool;
  path : option (list string);
  src : option string;
  crop_x : option f32;
  crop_y : option f32;
  filters : option string;
  rx : option f32;
  ry : option f32;
  radius : option f32;
  start_angle : option f32;
  end_angle : option f32;
  text : option string;
  styles : option string;
  font_size : option Z;
  min_width : option f32;
  overline : option bool;
  path_side : option string;
  direction : option Direction.t;
  font_style : option FontStyle.t;
  text_align : option TextAlign.t;
  underline : option bool;
  font_family : option string;
  font_weight : option string;
  line_height : option f32;
  char_spacing : option f32;
  linethrough : option bool;
  path_start_offset : option f32;
  split_by_grapheme : option bool;
  text_background_color : option string;
  x1 : option f32;
  x2 : option f32;
  y1 : option f32;
  y2 : option f32
}.

Section Convert.
Context `{Externals, JsonParser}.

Definition from_event (e : EventSchema.t) : t := Mk
  (EventSchema._id e) (EventSchema.origin_x e) (EventSchema.origin_y e) (EventSchema.top e)
  (EventSchema.left e) (EventSchema.height e) (EventSchema.width e) (EventSchema.angle e)
  (EventSchema.flip_x e) (EventSchema.flip_y e) (EventSchema.skew_x e) (EventSchema.skew_y e)
  (EventSchema.scale_x e) (EventSchema.scale_y e) (EventSchema.fill e) (EventSchema.fill_rule e)
  (EventSchema.shadow e) (EventSchema.stroke e) (EventSchema.opacity e) (EventSchema.visible e)
  (EventSchema.paint_first e) (EventSchema.global_composite_operation e) (EventSchema.background_color e)
  (EventSchema.no_scale_cache e) (EventSchema.stroke_dash_array e) (EventSchema.stroke_dash_offset e)
  (EventSchema.stroke_line_cap e) (EventSchema.stroke_line_join e) (EventSchema.stroke_miter_limit e)
  (EventSchema.stroke_uniform e) (EventSchema.stroke_width e) (EventSchema.cross_origin e)
  (EventSchema.version e) (EventSchema.kind e) (EventSchema._removed e) (EventSchema._rev e)
  (EventSchema._restored e) (EventSchema._locked_by_user e) (EventSchema._only_state e)
  (EventSchema._invalidate e) (EventSchema._order e) (EventSchema._no_history e)
  (EventSchema._draw_by_stretch e) ((fun p : list json => json_to_string <$> p) <$> EventSchema.path e)
  (EventSchema.src e) (EventSchema.crop_x e) (EventSchema.crop_y e) (EventSchema.filters e)
  (EventSchema.rx e) (EventSchema.ry e) (EventSchema.radius e) (EventSchema.start_angle e)
  (EventSchema.end_angle e) (EventSchema.text e) (EventSchema.styles e) (EventSchema.font_size e)
  (EventSchema.min_width e) (EventSchema.overline e) (EventSchema.path_side e) (EventSchema.direction e)
  (EventSchema.font_style e) (EventSchema.text_align e) (EventSchema.underline e)
  (EventSchema.font_family e) (EventSchema.font_weight e) (EventSchema.line_height e)
  (EventSchema.char_spacing e) (EventSchema.linethrough e) (EventSchema.path_start_offset e)
  (EventSchema.split_by_grapheme e) (EventSchema.text_background_color e) (EventSchema.x1 e)
  (EventSchema.x2 e) (EventSchema.y1 e) (EventSchema.y2 e).

(** A part that cannot be parsed is left out. *)
Definition into_event (self : t) : EventSchema.t := EventSchema.Mk
  (_id self) (origin_x self) (origin_y self) (top self) (left self) (height self) (width self)
  (angle self) (flip_x self) (flip_y self) (skew_x self) (skew_y self) (scale_x self) (scale_y self)
  (fill self) (fill_rule self) (shadow self) (stroke self) (opacity self) (visible self)
  (paint_first self) (global_composite_operation self) (background_color self) (stroke_dash_array self)
  (stroke_dash_offset self) (stroke_line_cap self) (stroke_line_join self) (stroke_miter_limit self)
  (stroke_uniform self) (stroke_width self) (cross_origin self) (version self) (kind self)
  (no_scale_cache self) (_removed self) (_rev self) (_restored self) (_locked_by_user self)
  (_only_state self) (_invalidate self) (_order self) (_no_history self) (_draw_by_stretch self)
  ((fun p : list string => omap json_from_str p) <$> path self) (src self) (crop_x self) (crop_y self)
  (filters self) (rx self) (ry self) (radius self) (start_angle self) (end_angle self) (text self)
  (styles self) (font_size self) (min_width self) (overline self) (path_side self) (direction self)
  (font_style self) (text_align self) (underline self) (font_family self) (font_weight self)
  (line_height self) (char_spacing self) (linethrough self) (path_start_offset self)
  (split_by_grapheme self) (text_background_color self) (x1 self) (x2 self) (y1 self) (y2 self).

End Convert.

End CompactEventSchema.

(** ** Coordinates in hundredths *)

Definition u32_MAX : Z := 2 ^ 32 - 1.
Definition u8_MAX : Z := 2 ^ 8 - 1.
Definition i32_MAX : Z := 2 ^ 31 - 1.
Definition i32_MIN : Z := - 2 ^ 31.

(** [x as i16] of an integer wraps around. *)
Definition wrap16 (x : Z) : Z := (x + 2 ^ 15) mod 2 ^ 16 - 2 ^ 15.

(** [(f * 100.0).trunc()]. *)
Definition hundredfold (f : f32) : f32 := f32_trunc (f32_mul f (f32_of_Z 100)).

Definition f32tu (max : Z) (f : f32) : option Z :=
  let f := hundredfold f in
  if cast_int 0 u64_MAX f <? max then Some (cast_int 0 max f) else None.

Definition f32tu32 (f : f32) : option Z := f32tu u32_MAX f.
Definition f32tu16 (f : f32) : option Z := f32tu u16_MAX f.
Definition f32tu8 (f : f32) : option Z := f32tu u8_MAX f.

Definition f32ti32 (f : f32) : option Z :=
  let f := cast_int i64_min i64_max (hundredfold f) in
  if (f <? i32_MAX) && (i32_MIN <? f) then Some f else None.

(** The range tested is the one of [i32]. *)
Definition f32ti16 (f : f32) : option Z :=
  let f := cast_int i64_min i64_max (hundredfold f) in
  if (f <? i32_MAX) && (i32_MIN <? f) then Some (wrap16 f) else None.

(** [two_decimal_places(n as f64 / 100.0) as f32]. *)
Definition from_hundredths (n : Z) : f32 := f32_of_f64 (two_decimal_places (f64_div (f64_of_Z n) hundred)).

(** ** Figures with a path *)

Module CompactPathEvent.

Record t : Type := Mk {
  _id : uuid;
  origin_x : Origin.t;
  origin_y : Origin.t;
  top : Z;
  left : Z;
  height : Z;
  width : Z;
  angle : Z;
  flip_x : bool;
  flip_y : bool;
  skew_x : Z;
  skew_y : Z;
  scale_x : f64;
  scale_y : f64;
  fill : option string;
  fill_rule : FillRule.t;
  shadow : option string;
  stroke : option string;
  opacity : Z;
  visible : bool;
  paint_first : PaintFirst.t;
  global_composite_operation : GlobalCompositeOperation.t;
  background_color : option string;
  no_scale_cache : bool;
  stroke_dash_array : option (list f32);
  stroke_dash_offset : Z;
  stroke_line_cap : StrokeLineCap.t;
  stroke_line_join : StrokeLineJoin.t;
  stroke_miter_limit : Z;
  stroke_uniform : option bool;
  stroke_width : Z;
  version : string;
  kind : Kind.t;
  path : CompactPath;
  _removed : option bool;
  _rev : option uuid;
  _restored : option bool;
  _locked_by_user : option bool;
  _only_state : option bool;
  _invalidate : option bool;
  _order : option Z;
  _no_history : option bool;
  _draw_by_stretch : option bool
}.

Definition try_from_event (e : EventSchema.t) : result Error t :=
  top ← ok_or (f32ti32 (EventSchema.top e)) LosingPrecision;
  left ← ok_or (f32ti32 (EventSchema.left e)) LosingPrecision;
  height ← ok_or (f32tu32 (EventSchema.height e)) LosingPrecision;
  width ← ok_or (f32tu32 (EventSchema.width e)) LosingPrecision;
  angle ← ok_or (f32tu16 (EventSchema.angle e)) LosingPrecision;
  skew_x ← ok_or (f32ti16 (EventSchema.skew_x e)) LosingPrecision;
  skew_y ← ok_or (f32ti16 (EventSchema.skew_y e)) LosingPrecision;
  stroke_dash_offset ← ok_or (f32tu8 (EventSchema.stroke_dash_offset e)) LosingPrecision;
  path ← ok_or (EventSchema.path e) MissingPath;
  path ← ok_or (compress_path path) LosingPrecision;
  Ok (Mk
    (EventSchema._id e) (EventSchema.origin_x e) (EventSchema.origin_y e) top left height width angle
    (EventSchema.flip_x e) (EventSchema.flip_y e) skew_x skew_y (EventSchema.scale_x e)
    (EventSchema.scale_y e) (EventSchema.fill e) (EventSchema.fill_rule e) (EventSchema.shadow e)
    (EventSchema.stroke e) (EventSchema.opacity e) (EventSchema.visible e) (EventSchema.paint_first e)
    (EventSchema.global_composite_operation e) (EventSchema.background_color e)
    (default true (EventSchema.no_scale_cache e)) (EventSchema.stroke_dash_array e) stroke_dash_offset
    (EventSchema.stroke_line_cap e) (EventSchema.stroke_line_join e) (EventSchema.stroke_miter_limit e)
    (EventSchema.stroke_uniform e) (EventSchema.stroke_width e) (EventSchema.version e)
    (EventSchema.kind e) path (EventSchema._removed e) (EventSchema._rev e) (EventSchema._restored e)
    (EventSchema._locked_by_user e) (EventSchema._only_state e) (EventSchema._invalidate e)
    (EventSchema._order e) (EventSchema._no_history e) (EventSchema._draw_by_stretch e)).

Definition into_event (self : t) : EventSchema.t := EventSchema.Mk
  (_id self) (origin_x self) (origin_y self) (from_hundredths (top self)) (from_hundredths (left self))
  (from_hundredths (height self)) (from_hundredths (width self)) (from_hundredths (angle self))
  (flip_x self) (flip_y self) (from_hundredths (skew_x self)) (from_hundredths (skew_y self))
  (scale_x self) (scale_y self) (fill self) (fill_rule self) (shadow self) (stroke self) (opacity self)
  (visible self) (paint_first self) (global_composite_operation self) (background_color self)
  (stroke_dash_array self) (f32_of_Z (stroke_dash_offset self)) (stroke_line_cap self)
  (stroke_line_join self) (stroke_miter_limit self) (stroke_uniform self) (stroke_width self) None
  (version self) (kind self) (Some (no_scale_cache self)) (_removed self) (_rev self) (_restored self)
  (_locked_by_user self) (_only_state self) (_invalidate self) (_order self) (_no_history self)
  (_draw_by_stretch self) (Some (path_to_json (decompress_path (path self)))) None None None None None
  None None None None None None None None None None None None None None None None None None None None
  None None None None None None.

End CompactPathEvent.

(** ** Events *)

Module schema.

(** [schema::Event]: the figures by their kind. *)
Inductive Event : Type :=
  | EPath (evt : EventSchema.t)
  | EOther (evt : EventSchema.t).

Inductive CompactEvent : Type :=
  | CPath (evt : CompactPathEvent.t)
  | COther (evt : CompactEventSchema.t).

(** What [from_json] fails with: the error of the parser, or of the compaction. *)
Inductive from_json_error : Type :=
  | SerdeError
  | CompactError (e : Error).

Section Events.
Context `{Externals, JsonParser}.

(** [Deserialize for Event]. *)
Definition event_deserialize (v : json) : option Event :=
  evt ← EventSchema.deserialize v;
  Some match EventSchema.kind evt with
       | Kind.Path => EPath evt
       | _ => EOther evt
       end.

(** [Serialize for Event]. *)
Definition event_serialize (e : Event) : option json :=
  match e with EPath evt | EOther evt => EventSchema.serialize evt end.

Definition compact (self : Event) : result Error CompactEvent :=
  match self with
  | EPath evt => evt ← CompactPathEvent.try_from_event evt; Ok (CPath evt)
  | EOther evt => Ok (COther (CompactEventSchema.from_event evt))
  end.

Definition from_json (v : json) : result from_json_error CompactEvent :=
  match event_deserialize v with
  | None => Err SerdeError
  | Some evt =>
    match compact evt with
    | Ok compacted => Ok compacted
    | Err e => Err (CompactError e)
    end
  end.

Definition into_json (self : CompactEvent) : option json :=
  event_serialize
    match self with
    | CPath evt => EPath (CompactPathEvent.into_event evt)
    | COther evt => EOther (CompactEventSchema.into_event evt)
    end.

(** ** [PostcardBin]

    The encoder expects [postcard] to succeed: it panics otherwise. *)
Context `{Postcard CompactEvent}.

Definition encode_by_ref (value : CompactEvent) : result failure bytes :=
  ok_or (to_allocvec value) (Panic "failed to encode as postcard binary").

(** The decoder of the column. *)
Definition postcard_decode (bytes : bytes) : option CompactEvent := from_bytes bytes.

End Events.

End schema.
(** ** Samples

    The drawings of the tests of [schema.rs]; identifiers in the form of
    [sample_externals]. *)

#[local] Instance sample_parser : JsonParser := fun s => Some (JString s).

Definition sample_rect : json := JObject [
  ("rx"%string, JNumber (PosInt 0)); ("ry"%string, JNumber (PosInt 0)); ("_id"%string, JString "1");
   ("top"%string, hundredths 26576); ("fill"%string, JString "rgba(255,255,255,1)");
   ("left"%string, hundredths 44013); ("type"%string, JString "rect");
   ("angle"%string, JNumber (PosInt 0)); ("flipX"%string, JBool false);
   ("flipY"%string, JBool false); ("skewX"%string, JNumber (PosInt 0));
   ("skewY"%string, JNumber (PosInt 0)); ("width"%string, hundredths 39896);
   ("_order"%string, JNumber (NegInt (-1))); ("height"%string, hundredths 13343);
   ("scaleX"%string, JNumber (PosInt 1)); ("scaleY"%string, JNumber (PosInt 1));
   ("shadow"%string, JNull); ("stroke"%string, JString "rgba(255,255,255,1)");
   ("opacity"%string, JNumber (PosInt 1)); ("originX"%string, JString "left");
   ("originY"%string, JString "top"); ("version"%string, JString "4.6.0");
   ("visible"%string, JBool true); ("fillRule"%string, JString "nonzero");
   ("_noHistory"%string, JNull); ("paintFirst"%string, JString "fill");
   ("strokeWidth"%string, JNumber (PosInt 2)); ("noScaleCache"%string, JBool false);
   ("_lockedbyuser"%string, JNull); ("strokeLineCap"%string, JString "butt");
   ("strokeUniform"%string, JBool true); ("_drawByStretch"%string, JBool true);
   ("strokeLineJoin"%string, JString "miter"); ("backgroundColor"%string, JString EmptyString);
   ("strokeDashArray"%string, JNull); ("strokeDashOffset"%string, JNumber (PosInt 0));
   ("strokeMiterLimit"%string, JNumber (PosInt 4));
   ("globalCompositeOperation"%string, JString "source-over")].

Definition sample_path_figure : json := JObject [
  ("type"%string, JString "path"); ("version"%string, JString "4.6.0");
   ("originX"%string, JString "left"); ("originY"%string, JString "bottom");
   ("left"%string, hundredths 69224); ("top"%string, hundredths 30787);
   ("width"%string, hundredths 9720); ("height"%string, hundredths 9720);
   ("fill"%string, JString "rgba(0,0,0,0.009)"); ("stroke"%string, JString "rgba(0,0,0,1)");
   ("strokeWidth"%string, JNumber (PosInt 2)); ("strokeDashArray"%string, JNull);
   ("strokeLineCap"%string, JString "butt"); ("strokeDashOffset"%string, JNumber (PosInt 0));
   ("strokeLineJoin"%string, JString "miter"); ("strokeUniform"%string, JBool true);
   ("strokeMiterLimit"%string, JNumber (PosInt 40)); ("scaleX"%string, hundredths 181);
   ("scaleY"%string, hundredths 98); ("angle"%string, JNumber (PosInt 0));
   ("flipX"%string, JBool false); ("flipY"%string, JBool true);
   ("opacity"%string, JNumber (PosInt 1)); ("shadow"%string, JNull); ("visible"%string, JBool true);
   ("backgroundColor"%string, JString EmptyString); ("fillRule"%string, JString "nonzero");
   ("paintFirst"%string, JString "fill"); ("globalCompositeOperation"%string, JString "source-over");
   ("skewX"%string, JNumber (PosInt 0)); ("skewY"%string, JNumber (PosInt 0));
   ("_id"%string, JString "2"); ("noScaleCache"%string, JBool false);
   ("_order"%string, JNumber (PosInt 11)); ("_drawByStretch"%string, JBool true);
   ("path"%string, JArray [JArray [JString "M"; JNumber (PosInt 0); JNumber (PosInt 0)]; JArray [JString "L"; hundredths 9720; JNumber (PosInt 0)]; JArray [JString "L"; JNumber (PosInt 0); hundredths 9720]; JArray [JString "z"]])].

(** The round trips of the test [test_roundtrip], to the end of the second. *)
Definition restored (v : json) : option json :=
  match schema.from_json v with Ok c => schema.into_json c | Err _ => None end.

Example sample_rect_restored : exists v, restored sample_rect = Some v /\ restored v = Some v.
Proof. eexists. split; [vm_compute; reflexivity|]. vm_compute. reflexivity. Qed.

Example sample_path_restored : exists v, restored sample_path_figure = Some v /\ restored v = Some v.
Proof. eexists. split; [vm_compute; reflexivity|]. vm_compute. reflexivity. Qed.

(** What the ranges of the integers let through: a skew of 400 becomes -255.36,
    an angle of -90 becomes 0, an offset of 1.5 is restored as 150, and 0.53
    stored twice becomes 0.52. *)
Example skew_wraps : from_hundredths <$> f32ti16 (f32_lit 400 1) = Some (f32_lit (-25536) 100).
Proof. vm_compute. reflexivity. Qed.

Example negative_angle_lost : f32tu16 (f32_lit (-90) 1) = Some 0.
Proof. vm_compute. reflexivity. Qed.

Example dash_offset_grows : f32_of_Z <$> f32tu8 (f32_lit 15 10) = Some (f32_lit 150 1).
Proof. vm_compute. reflexivity. Qed.

Example hundredth_lost : f32ti32 (from_hundredths 53) = Some 52.
Proof. vm_compute. reflexivity. Qed.

(** ** Hundredths *)

Section Hundredths.
Context (n : Z).

#[local] Abbreviation lo := (1024 * n / 100).
#[local] Abbreviation hi := (1024 * n / 100 + 1).

Lemma hundred_canonical : canonical 53 1024 (100 * 2 ^ 46) (-46).
Proof. done. Qed.

Context (Hn : 0 < n < 2 ^ 33).

Lemma lo_hi : 100 * lo <= 1024 * n < 100 * hi /\ 0 < lo /\ hi < 2 ^ 37 /\ (n < 2 ^ 20 -> hi < 2 ^ 24).
Proof.
  pose proof (Z.div_mod (1024 * n) 100 ltac:(lia)). pose proof (Z.mod_pos_bound (1024 * n) 100 ltac:(lia)). lia.
Qed.

Lemma digits_le k m : 0 <= k -> 0 <= m < 2 ^ k -> Zdigits2 m <= k.
Proof. intros ? []. by apply Zdigits2_le. Qed.

(** [n / 100] is rounded to a number within [2 ^ -10]. *)
Lemma div_hundred_between : between 53 1024 (f64_div (f64_of_Z n) hundred) lo hi (-10).
Proof.
  destruct lo_hi as (Hlh & Hlo & Hhi & Hsmall). destruct n as [|p|p]; [lia| |lia]. unfold of_Z. cbn [binary_normalize].
  assert (Zdigits2 (Zpos p) <= 33) as Hd by (apply digits_le; lia).
  destruct (binary_round_representable 53 1024 false p 0) as (M & E & -> & HE & HM & Hc);
    [unfold SpecFloat.fexp, SpecFloat.emin; lia..|].
  change hundred with (S754_finite false (100 * 2 ^ 46) (-46)).
  destruct (div_rounds 53 1024 M E (100 * 2 ^ 46) (-46)) as (e' & He' & HR).
  apply (round_between 53 1024 0 _ _ _ _ _ _ _ HR); try (apply (digits_le 53)); try done; try lia.
  intros K HK1 HK2 HK3.
  assert (Zpos M * 2 ^ (E - -46 - e') * 2 ^ (e' - K) = Zpos p * 1024 * 2 ^ (36 - K)) as ->.
  { rewrite HM, <-!Z.mul_assoc, <-!Z.pow_add_r by lia. change 1024 with (2 ^ 10). rewrite <-Z.pow_add_r by lia.
    do 2 f_equal. lia. }
  assert (forall a, a * Zpos (100 * 2 ^ 46) * 2 ^ (-10 - K) = a * 100 * 2 ^ (36 - K)) as Ha.
  { intros a. change (Zpos (100 * 2 ^ 46)) with (100 * 2 ^ 46). rewrite <-!Z.mul_assoc, <-Z.pow_add_r by lia.
    do 3 f_equal. lia. }
  rewrite !Ha. assert (0 < 2 ^ (36 - K)) by (apply Z.pow_pos_nonneg; lia). split; nia.
Qed.

(** Multiplied by a hundred, it rounds to [n]. *)
Lemma round_hundredfold : f64_round (f64_mul (f64_div (f64_of_Z n) hundred) hundred) = f64_of_Z n.
Proof.
  destruct lo_hi as (Hlh & Hlo & Hhi & Hsmall). destruct div_hundred_between as (m & e & -> & _ & Hc & Hl & Hh).
  change hundred with (S754_finite false (100 * 2 ^ 46) (-46)).
  pose proof (mul_rounds 53 1024 m e (100 * 2 ^ 46) (-46) Hc hundred_canonical) as HR.
  assert (between 53 1024 (f64_mul (S754_finite false m e) (S754_finite false (100 * 2 ^ 46) (-46)))
    (100 * lo) (100 * hi) (-10)) as (m' & e' & -> & _ & Hc' & Hl' & Hh').
  { apply (round_between 53 1024 0 _ _ _ _ _ _ _ HR); try (apply (digits_le 53)); try done; try lia.
    intros K HK1 HK2 HK3. rewrite (dle_at K) in Hl, Hh by lia.
    assert (Zpos m * Zpos (100 * 2 ^ 46) * 2 ^ (e + -46 - K) = 100 * (Zpos m * 2 ^ (e - K))) as ->; [|lia].
    change (Zpos (100 * 2 ^ 46)) with (100 * 2 ^ 46).
    replace (Zpos m * (100 * 2 ^ 46) * 2 ^ (e + -46 - K)) with (100 * (Zpos m * (2 ^ 46 * 2 ^ (e + -46 - K)))) by lia.
    rewrite <-Z.pow_add_r by lia. do 3 f_equal. lia. }
  cbn [round]. destruct (Z.leb_spec 0 e') as [Hpos|Hneg].
  - exfalso. assert (Zdigits2 (Zpos m') = 53) as Hd.
    { apply (canonical_digits 53 1024 m' e' Hc'). unfold SpecFloat.emin. lia. }
    destruct (Zdigits2_bounds (Zpos m')) as [[Hb _] _]; [done|]. rewrite Hd in Hb.
    rewrite (dle_at (-10)) in Hh' by lia. assert (0 < 2 ^ (e' - -10)) by (apply Z.pow_pos_nonneg; lia).
    change (2 ^ (-10 - -10)) with 1 in Hh'. nia.
  - set (K := Z.min e' (-10)). rewrite (dle_at K) in Hl', Hh' by lia.
    assert (Z.shiftl (Zpos m' + 2 ^ (- e' - 1)) e' = n) as ->.
    { assert (0 < 2 ^ (- e' - 1)) by (apply Z.pow_pos_nonneg; lia).
      rewrite (shiftl_floor _ e' K) by lia.
      assert (0 < 2 ^ (-10 - K)) by (apply Z.pow_pos_nonneg; lia).
      assert (2 ^ (- K) = 1024 * 2 ^ (-10 - K)) as Hp.
      { change 1024 with (2 ^ 10). rewrite <-Z.pow_add_r by lia. f_equal. lia. }
      assert (2 ^ (- e' - 1) * 2 ^ (e' - K) = 512 * 2 ^ (-10 - K)) as Hh2.
      { change 512 with (2 ^ 9). rewrite <-!Z.pow_add_r by lia. f_equal. lia. }
      symmetry. apply Z.div_unique with ((Zpos m' + 2 ^ (- e' - 1)) * 2 ^ (e' - K) - 2 ^ (- K) * n); [left|lia].
      rewrite Z.mul_add_distr_r, Hh2, Hp. split; nia. }
    destruct n as [|p|p]; [lia|done|lia].
Qed.

Lemma from_hundredths_positive : valid 24 128 (from_hundredths n) /\ is_finite (from_hundredths n) = true.
Proof.
  destruct lo_hi as (Hlh & Hlo & Hhi & Hsmall).
  unfold from_hundredths, two_decimal_places. rewrite round_hundredfold.
  destruct div_hundred_between as (m & e & -> & _ & Hc & Hl & Hh). cbn [convert].
  split; [apply binary_round_valid, _|].
  destruct (binary_round_rounds 24 128 false m e) as (v & e' & HR & He' & Hv & _).
  apply dle_mag in Hh; [|lia..]. assert (Zdigits2 hi <= 37) by (apply digits_le; lia).
  eapply (rounds_finite 24 128); [exact HR|rewrite Hv; apply Z.mul_pos_pos; [lia|apply Z.pow_pos_nonneg; lia]|].
  rewrite Hv, Zdigits2_shift by lia. lia.
Qed.

Context (Hs : n < 2 ^ 20).

Lemma from_hundredths_between : between 24 128 (from_hundredths n) lo hi (-10).
Proof.
  destruct lo_hi as (Hlh & Hlo & Hhi & Hsmall). specialize (Hsmall Hs).
  unfold from_hundredths, two_decimal_places. rewrite round_hundredfold.
  destruct div_hundred_between as (m & e & -> & _ & Hc & Hl & Hh). cbn [convert].
  destruct (binary_round_rounds 24 128 false m e) as (v & e' & HR & He' & Hv & _).
  apply (round_between 24 128 0 _ _ _ _ _ _ _ HR); try (apply (digits_le 24)); try done; try lia.
  intros K HK1 HK2 HK3. rewrite (dle_at K) in Hl, Hh by lia.
  assert (v * 2 ^ (e' - K) = Zpos m * 2 ^ (e - K)) as ->; [|lia].
  rewrite Hv, <-Z.mul_assoc, <-Z.pow_add_r by lia. do 2 f_equal. lia.
Qed.

Lemma requantized_between :
  between 24 128 (f32_mul (from_hundredths n) (f32_of_Z 100)) (16 * n - 13) (16 * n + 13) (-4).
Proof.
  destruct lo_hi as (Hlh & Hlo & Hhi & Hsmall). specialize (Hsmall Hs). destruct from_hundredths_between as (m & e & -> & _ & Hc & Hl & Hh).
  change (f32_of_Z 100) with (S754_finite false (100 * 2 ^ 17) (-17)).
  assert (canonical 24 128 (Zpos (100 * 2 ^ 17)) (-17)) as H100 by done.
  pose proof (mul_rounds 24 128 m e (100 * 2 ^ 17) (-17) Hc H100) as HR.
  apply (round_between 24 128 (-10) _ _ _ _ _ _ _ HR); try (apply (digits_le 24)); try done; try lia.
  intros K HK1 HK2 HK3. rewrite (dle_at K) in Hl, Hh by lia.
  assert (Zpos m * Zpos (100 * 2 ^ 17) * 2 ^ (e + -17 - K) = 100 * (Zpos m * 2 ^ (e - K))) as ->.
  { change (Zpos (100 * 2 ^ 17)) with (100 * 2 ^ 17).
    replace (Zpos m * (100 * 2 ^ 17) * 2 ^ (e + -17 - K)) with (100 * (Zpos m * (2 ^ 17 * 2 ^ (e + -17 - K)))) by lia.
    rewrite <-Z.pow_add_r by lia. do 3 f_equal. lia. }
  assert (2 ^ (-4 - K) = 64 * 2 ^ (-10 - K)) as -> by (change 64 with (2 ^ 6); rewrite <-Z.pow_add_r by lia; f_equal; lia).
  assert (0 < 2 ^ (-10 - K)) by (apply Z.pow_pos_nonneg; lia). split; nia.
Qed.
Lemma requantized :
  (valid 24 128 (f32_mul (from_hundredths n) (f32_of_Z 100)) /\
   is_finite (f32_mul (from_hundredths n) (f32_of_Z 100)) = true) /\
  n - 1 <= trunc_Z (f32_mul (from_hundredths n) (f32_of_Z 100)) <= n.
Proof.
  split.
  - by destruct requantized_between as (m & e & -> & Hv & _).
  - apply (between_trunc 24 128 _ (16 * n - 13) (16 * n + 13) (-4));
      [exact requantized_between|done|change (2 ^ (- -4)) with 16; lia..].
Qed.
End Hundredths.

(** A number of [f32] that is written and read back. *)
Abbreviation fin32 x := (valid 24 128 x /\ is_finite x = true).

Lemma from_hundredths_opp n : n <> 0 -> from_hundredths (- n) = SFopp (from_hundredths n).
Proof.
  intros Hn. unfold from_hundredths, two_decimal_places.
  by rewrite of_Z_opp, SFdiv_opp, SFmul_opp, round_opp, SFdiv_opp, convert_opp.
Qed.

Lemma from_hundredths_fin n : - 2 ^ 33 < n < 2 ^ 33 -> fin32 (from_hundredths n).
Proof.
  intros Hn. destruct (Z.lt_trichotomy n 0) as [Hneg|[->|Hpos]]; [|by split; vm_compute|apply from_hundredths_positive; lia].
  replace n with (- - n) by lia. rewrite from_hundredths_opp, valid_opp, is_finite_opp by lia.
  apply from_hundredths_positive. lia.
Qed.

(** ** The instance of [EventCodec] *)

(** What [postcard] documents of the values it can encode. *)
Class PostcardLaws `{Postcard A} : Prop :=
  postcard_roundtrip : forall a : A, exists b, to_allocvec a = Some b /\ from_bytes b = Some a.

Section Codec.
Context `{Externals, JsonParser, Postcard schema.CompactEvent}.

(** What [db::event] uses of the two modules; [encode] leaves out the panic of
    [encode_by_ref], which [PostcardLaws] excludes. *)
#[export] Instance schema_codec : EventCodec := {|
  Types.CompactEvent := schema.CompactEvent;
  Types.from_json v := match schema.from_json v with Ok c => Some c | Err _ => None end;
  Types.into_json := schema.into_json;
  Types.encode c := match schema.encode_by_ref c with Ok b => b | Err _ => [] end;
  Types.decode := schema.postcard_decode
|}.

(** What the event queries assume of the stored form holds of it. *)
#[export] Instance schema_codec_laws : PostcardLaws -> EventCodecLaws.
Proof.
  intros Hp c. destruct (Hp c) as (b & Hb & Hd). simpl. unfold schema.encode_by_ref. by rewrite Hb.
Qed.
End Codec.

(** ** Specification *)

(** The parts of the path are values the parser gives back. *)
Definition path_printable `{Externals, JsonParser} (e : EventSchema.t) : Prop :=
  match EventSchema.path e with
  | Some l => Forall (fun v => json_from_str (json_to_string v) = Some v) l
  | None => True
  end.

(** A figure with a path, without what its compact form approximates: the
    coordinates, the path, [crossOrigin] and the fields of other figures. *)
Definition outline (e : EventSchema.t) : EventSchema.t := EventSchema.Mk
  (EventSchema._id e) (EventSchema.origin_x e) (EventSchema.origin_y e) (S754_zero false)
  (S754_zero false) (S754_zero false) (S754_zero false) (S754_zero false) (EventSchema.flip_x e)
  (EventSchema.flip_y e) (S754_zero false) (S754_zero false) (EventSchema.scale_x e)
  (EventSchema.scale_y e) (EventSchema.fill e) (EventSchema.fill_rule e) (EventSchema.shadow e)
  (EventSchema.stroke e) (EventSchema.opacity e) (EventSchema.visible e) (EventSchema.paint_first e)
  (EventSchema.global_composite_operation e) (EventSchema.background_color e)
  (EventSchema.stroke_dash_array e) (S754_zero false) (EventSchema.stroke_line_cap e)
  (EventSchema.stroke_line_join e) (EventSchema.stroke_miter_limit e) (EventSchema.stroke_uniform e)
  (EventSchema.stroke_width e) None (EventSchema.version e) (EventSchema.kind e)
  (Some (default true (EventSchema.no_scale_cache e))) (EventSchema._removed e) (EventSchema._rev e)
  (EventSchema._restored e) (EventSchema._locked_by_user e) (EventSchema._only_state e)
  (EventSchema._invalidate e) (EventSchema._order e) (EventSchema._no_history e)
  (EventSchema._draw_by_stretch e) None None None None None None None None None None None None None None
  None None None None None None None None None None None None None None None None None None.

(** The integers of the compact form have the widths of their types. *)
Definition widths (c : schema.CompactEvent) : Prop :=
  match c with
  | schema.CPath p =>
    i32_MIN <= CompactPathEvent.top p <= i32_MAX /\ i32_MIN <= CompactPathEvent.left p <= i32_MAX /\
    0 <= CompactPathEvent.height p <= u32_MAX /\ 0 <= CompactPathEvent.width p <= u32_MAX /\
    0 <= CompactPathEvent.angle p <= u16_MAX /\ - 2 ^ 15 <= CompactPathEvent.skew_x p < 2 ^ 15 /\
    - 2 ^ 15 <= CompactPathEvent.skew_y p < 2 ^ 15 /\ 0 <= CompactPathEvent.stroke_dash_offset p <= u8_MAX /\
    Forall (fun part => Forall (fun xy => 0 <= xy.1 < u16_MAX /\ 0 <= xy.2 < u16_MAX) (compact_part_points part))
      (c_parts (CompactPathEvent.path p))
  | schema.COther _ => True
  end.

(** The event a compact event is restored as. *)
Definition restored_event `{Externals, JsonParser} (c : schema.CompactEvent) : EventSchema.t :=
  match c with
  | schema.CPath evt => CompactPathEvent.into_event evt
  | schema.COther evt => CompactEventSchema.into_event evt
  end.

(** ** Lemmas *)

Lemma omap_fmap_id {A B} (f : A -> option B) (g : B -> A) (l : list B) :
  Forall (fun v => f (g v) = Some v) l -> omap f (g <$> l) = l.
Proof. induction 1 as [|v l Hv _ IH]; csimpl; [done|]. by rewrite Hv, IH. Qed.

Lemma cast_int_range lo hi x : lo <= 0 <= hi -> lo <= cast_int lo hi x <= hi.
Proof. intros Hr. destruct x as [|[]| |]; simpl; lia. Qed.

Lemma f32tu_range max f n : 0 <= max -> f32tu max f = Some n -> 0 <= n <= max.
Proof. intros Hm. unfold f32tu. case_match; [|done]. intros [= <-]. apply cast_int_range. lia. Qed.

Lemma f32ti32_range f n : f32ti32 f = Some n -> i32_MIN <= n <= i32_MAX.
Proof. unfold f32ti32. case_match; [|done]. intros [= <-]. bool_prop. lia. Qed.

Lemma f32ti16_range f n : f32ti16 f = Some n -> - 2 ^ 15 <= n < 2 ^ 15.
Proof.
  unfold f32ti16. case_match; [|done]. intros [= <-]. unfold wrap16.
  match goal with |- context [?x mod _] => pose proof (Z.mod_pos_bound x (2 ^ 16) ltac:(lia)) end. lia.
Qed.

Lemma norm_range x min length n : norm x min length = Some n -> 0 <= n < u16_MAX.
Proof.
  unfold norm, to_u16. destruct (Z.ltb_spec (cast_int 0 u64_MAX (f64_trunc (f64_mul (f64_div (f64_sub x min) length) ten_thousand))) u16_MAX);
    [|done]. intros [= <-]. split; [|done]. by apply cast_int_range.
Qed.

Lemma compress_part_range decoded part c :
  compress_part decoded part = Some c ->
  Forall (fun xy => 0 <= xy.1 < u16_MAX /\ 0 <= xy.2 < u16_MAX) (compact_part_points c).
Proof.
  unfold compress_part. intros Hc. destruct part; repeat (apply bind_Some in Hc as (? & ?%norm_range & Hc));
    injection Hc as <-; repeat constructor; simpl; lia.
Qed.

Section Events.
Context `{Externals, JsonParser}.

(** Keeping an event as it is and restoring it. *)
Lemma other_restored (e : EventSchema.t) :
  path_printable e -> CompactEventSchema.into_event (CompactEventSchema.from_event e) = e.
Proof.
  unfold path_printable. intros Hp.
  enough ((fun p : list string => omap json_from_str p) <$> ((fun p : list json => json_to_string <$> p) <$> EventSchema.path e)
    = EventSchema.path e) as Heq.
  { destruct e. unfold CompactEventSchema.into_event, CompactEventSchema.from_event. simpl in *. by rewrite Heq. }
  destruct (EventSchema.path e) as [l|]; [|done]. simpl. by rewrite omap_fmap_id.
Qed.

Lemma try_from_event_typed e c :
  EventSchema.wf e -> CompactPathEvent.try_from_event e = Ok c ->
  widths (schema.CPath c) /\ EventSchema.wf (CompactPathEvent.into_event c).
Proof.
  intros Hwf. unfold CompactPathEvent.try_from_event.
  destruct (f32ti32 (EventSchema.top e)) as [top|] eqn:E1; [|done]. apply f32ti32_range in E1.
  destruct (f32ti32 (EventSchema.left e)) as [left|] eqn:E2; [|done]. apply f32ti32_range in E2.
  destruct (f32tu32 (EventSchema.height e)) as [height|] eqn:E3; [|done]. apply f32tu_range in E3; [|done].
  destruct (f32tu32 (EventSchema.width e)) as [width|] eqn:E4; [|done]. apply f32tu_range in E4; [|done].
  destruct (f32tu16 (EventSchema.angle e)) as [angle|] eqn:E5; [|done]. apply f32tu_range in E5; [|done].
  destruct (f32ti16 (EventSchema.skew_x e)) as [skew_x|] eqn:E6; [|done]. apply f32ti16_range in E6.
  destruct (f32ti16 (EventSchema.skew_y e)) as [skew_y|] eqn:E7; [|done]. apply f32ti16_range in E7.
  destruct (f32tu8 (EventSchema.stroke_dash_offset e)) as [offset|] eqn:E8; [|done]. apply f32tu_range in E8; [|done].
  destruct (EventSchema.path e) as [path|] eqn:Epath; [|done].
  cbn [ok_or mbind result_mbind result_bind]. destruct (compress_path path) as [cp|] eqn:Ec; [|done].
  intros [= <-]. split.
  - unfold widths. cbn. unfold i32_MIN, i32_MAX, u32_MAX, u16_MAX, u8_MAX in *. split_and!; try lia.
    unfold compress_path in Ec. apply bind_Some in Ec as (decoded & _ & (parts & Hp & [= <-])%bind_Some). cbn.
    apply mapM_Some in Hp. apply Forall_forall. intros part Hin. rewrite list_elem_of_lookup in Hin. destruct Hin as [i Hi].
    destruct (Forall2_lookup_r _ _ _ _ _ Hp Hi) as (q & _ & Hq). by apply (compress_part_range decoded q).
  - unfold i32_MIN, i32_MAX, u32_MAX, u16_MAX, u8_MAX in *.
    unfold EventSchema.wf in *. split_and_all. unfold CompactPathEvent.into_event. cbn -[from_hundredths of_Z Z.pow] in *.
    assert (Zdigits2 offset <= 8) by (apply Zdigits2_le; lia).
    split_and!; first [done|lia|apply from_hundredths_fin; lia|apply of_Z_valid, _|idtac].
    + apply of_Z_finite; [apply _|lia].
    + by apply Forall_true.
Qed.

Lemma from_event_typed e : EventSchema.wf e -> EventSchema.wf (CompactEventSchema.into_event (CompactEventSchema.from_event e)).
Proof.
  intros Hwf. unfold EventSchema.wf in *. split_and_all. split_and!; try done. simpl.
  destruct (EventSchema.path e); [by apply Forall_true|done].
Qed.

Lemma try_from_event_identity e c :
  CompactPathEvent.try_from_event e = Ok c ->
  EventSchema._id (CompactPathEvent.into_event c) = EventSchema._id e /\
  EventSchema.kind (CompactPathEvent.into_event c) = EventSchema.kind e.
Proof.
  unfold CompactPathEvent.try_from_event, mbind, result_mbind, ok_or, result_bind.
  repeat (case_match; try done). by intros [= <-].
Qed.

Lemma from_json_kind v c e :
  EventSchema.deserialize v = Some e -> schema.from_json v = Ok c ->
  match c with
  | schema.CPath p => EventSchema.kind e = Kind.Path /\ CompactPathEvent.try_from_event e = Ok p
  | schema.COther o => EventSchema.kind e <> Kind.Path /\ o = CompactEventSchema.from_event e
  end.
Proof.
  intros He. unfold schema.from_json, schema.event_deserialize. rewrite He. cbn [mbind option_bind].
  assert (forall x, x = EventSchema.kind e ->
    match schema.compact (match x with Kind.Path => schema.EPath e | _ => schema.EOther e end) with
    | Ok compacted => Ok compacted | Err err => Err (schema.CompactError err) end = Ok c ->
    match c with
    | schema.CPath p => EventSchema.kind e = Kind.Path /\ CompactPathEvent.try_from_event e = Ok p
    | schema.COther o => EventSchema.kind e <> Kind.Path /\ o = CompactEventSchema.from_event e
    end) as Hx; [|by apply Hx].
  intros x Hk. destruct x; simpl; [|intros [= <-]; rewrite <-Hk; done..].
  destruct (CompactPathEvent.try_from_event e) as [p|err] eqn:Ep; simpl; [|done]. by intros [= <-].
Qed.

Lemma from_json_other v e :
  EventSchema.deserialize v = Some e -> EventSchema.kind e <> Kind.Path ->
  schema.from_json v = Ok (schema.COther (CompactEventSchema.from_event e)).
Proof.
  intros He Hk. unfold schema.from_json, schema.event_deserialize. rewrite He. simpl.
  by destruct (EventSchema.kind e).
Qed.
End Events.

(** ** Properties *)

Section Properties.
Context `{Externals, JsonParser}.

(** C25: a figure of another kind than a path survives storage, when its values can be
    written: its numbers are finite (a coordinate beyond the range of [f32] is read
    as an infinity, which JSON does not have), its integers fit their types, and each
    item of its path, if it has one nevertheless, is read back from its text.  Then
    the event restored from its compact form can be written in JSON, what is written
    reads as the same event, and compacting that again gives the same compact form. *)
Theorem other_event_roundtrip (v : json) (e : EventSchema.t) (c : CompactEventSchema.t) :
  EventSchema.deserialize v = Some e -> EventSchema.wf e -> path_printable e ->
  schema.from_json v = Ok (schema.COther c) ->
  exists v', schema.into_json (schema.COther c) = Some v' /\ EventSchema.deserialize v' = Some e /\
    schema.from_json v' = Ok (schema.COther c).
Proof.
  intros He Hwf Hp Hc. apply (from_json_kind _ _ _ He) in Hc as [Hk ->].
  destruct (schema_roundtrip e Hwf) as (v' & Hs & Hd). exists v'. split_and!; [|done|by apply from_json_other].
  unfold schema.into_json, schema.event_serialize. by rewrite other_restored.
Qed.

(** A figure with a path is compacted exactly when its position, size, angle,
    skew and dash offset are in range and its path can be read; the error tells a
    missing path from the rest, and is decided before the path is looked at; what
    the compact form does not approximate is restored as it was. *)
Theorem path_event_compacted (e : EventSchema.t) :
  match CompactPathEvent.try_from_event e with
  | Ok c =>
    f32ti32 (EventSchema.top e) = Some (CompactPathEvent.top c) /\
    f32ti32 (EventSchema.left e) = Some (CompactPathEvent.left c) /\
    f32tu32 (EventSchema.height e) = Some (CompactPathEvent.height c) /\
    f32tu32 (EventSchema.width e) = Some (CompactPathEvent.width c) /\
    f32tu16 (EventSchema.angle e) = Some (CompactPathEvent.angle c) /\
    f32ti16 (EventSchema.skew_x e) = Some (CompactPathEvent.skew_x c) /\
    f32ti16 (EventSchema.skew_y e) = Some (CompactPathEvent.skew_y c) /\
    f32tu8 (EventSchema.stroke_dash_offset e) = Some (CompactPathEvent.stroke_dash_offset c) /\
    EventSchema.path e ≫= compress_path = Some (CompactPathEvent.path c) /\
    outline (CompactPathEvent.into_event c) = outline e
  | Err MissingPath =>
    EventSchema.path e = None /\ is_Some (f32ti32 (EventSchema.top e)) /\ is_Some (f32ti32 (EventSchema.left e)) /\
    is_Some (f32tu32 (EventSchema.height e)) /\ is_Some (f32tu32 (EventSchema.width e)) /\
    is_Some (f32tu16 (EventSchema.angle e)) /\ is_Some (f32ti16 (EventSchema.skew_x e)) /\
    is_Some (f32ti16 (EventSchema.skew_y e)) /\ is_Some (f32tu8 (EventSchema.stroke_dash_offset e))
  | Err LosingPrecision =>
    f32ti32 (EventSchema.top e) = None \/ f32ti32 (EventSchema.left e) = None \/
    f32tu32 (EventSchema.height e) = None \/ f32tu32 (EventSchema.width e) = None \/
    f32tu16 (EventSchema.angle e) = None \/ f32ti16 (EventSchema.skew_x e) = None \/
    f32ti16 (EventSchema.skew_y e) = None \/ f32tu8 (EventSchema.stroke_dash_offset e) = None \/
    exists path, EventSchema.path e = Some path /\ compress_path path = None
  end.
Proof.
  unfold CompactPathEvent.try_from_event.
  destruct (f32ti32 (EventSchema.top e)) as [top|]; [|simpl; auto].
  destruct (f32ti32 (EventSchema.left e)) as [left|]; [|simpl; auto].
  destruct (f32tu32 (EventSchema.height e)) as [height|]; [|simpl; auto 9].
  destruct (f32tu32 (EventSchema.width e)) as [width|]; [|simpl; auto 9].
  destruct (f32tu16 (EventSchema.angle e)) as [angle|]; [|simpl; auto 9].
  destruct (f32ti16 (EventSchema.skew_x e)) as [skew_x|]; [|simpl; auto 9].
  destruct (f32ti16 (EventSchema.skew_y e)) as [skew_y|]; [|simpl; auto 9].
  destruct (f32tu8 (EventSchema.stroke_dash_offset e)) as [offset|]; [|simpl; auto 10].
  destruct (EventSchema.path e) as [path|] eqn:Epath; cbn [ok_or mbind result_mbind result_bind]; [|by eauto 20].
  destruct (compress_path path) as [c|] eqn:Ec; cbn [ok_or mbind result_mbind result_bind]; [|do 8 right; eauto].
  cbn [mbind option_bind]. rewrite Ec. by split_and!.
Qed.

(** C12: what is stored can be served.  Of an event that can be written, the
    integers of its compact form fit their types, and the event it is restored as
    can be written too: the conversion back to JSON does not fail, and what it gives
    reads as that event, of the same identifier and kind. *)
Theorem stored_event_readable (v : json) (e : EventSchema.t) (c : schema.CompactEvent) :
  EventSchema.deserialize v = Some e -> EventSchema.wf e -> schema.from_json v = Ok c ->
  widths c /\ EventSchema.wf (restored_event c) /\
  EventSchema._id (restored_event c) = EventSchema._id e /\ EventSchema.kind (restored_event c) = EventSchema.kind e /\
  exists v', schema.into_json c = Some v' /\ EventSchema.deserialize v' = Some (restored_event c).
Proof.
  intros He Hwf Hc. pose proof (from_json_kind _ _ _ He Hc) as Hk.
  assert (widths c /\ EventSchema.wf (restored_event c) /\
    EventSchema._id (restored_event c) = EventSchema._id e /\ EventSchema.kind (restored_event c) = EventSchema.kind e)
    as (Hw & Hr & Hid & Hkind).
  { destruct c as [p|o].
    - destruct Hk as [_ Hp]. destruct (try_from_event_typed e p Hwf Hp) as [Hw Hr].
      destruct (try_from_event_identity e p Hp) as [? ?]. done.
    - destruct Hk as [_ ->]. split_and!; [done|by apply from_event_typed|done|done]. }
  split_and!; [done..|]. destruct (schema_roundtrip _ Hr) as (v' & Hs & Hd). exists v'. split; [|done]. by destruct c.
Qed.

(** C36: storing a coordinate a second time loses a hundredth at most, towards
    zero: for up to 2^20 hundredths, the number read back from [n] hundredths (a
    [f64] quotient rounded twice) is stored as [n] or [n - 1] hundredths, whatever
    its type, and the number read back from [- n] as their opposite. *)
Theorem hundredths_restored (n : Z) :
  0 <= n < 2 ^ 20 ->
  exists m, (m = n \/ m = n - 1) /\ 0 <= m /\
    f32tu32 (from_hundredths n) = Some m /\ f32ti32 (from_hundredths n) = Some m /\
    f32ti32 (from_hundredths (- n)) = Some (- m) /\
    (n < u16_MAX -> f32tu16 (from_hundredths n) = Some m).
Proof.
  intros Hn. destruct (Z.eq_dec n 0) as [->|Hne]; [by exists 0; split_and!; auto|].
  destruct (requantized n ltac:(lia) ltac:(lia)) as [[Hval Hf] Ht].
  exists (trunc_Z (f32_mul (from_hundredths n) (f32_of_Z 100))).
  rewrite from_hundredths_opp by done. unfold f32tu32, f32tu16, f32ti32, f32tu, hundredfold. rewrite SFmul_opp.
  rewrite !(cast_int_trunc 24 128), !cast_int_finite, trunc_Z_opp by (rewrite ?valid_opp, ?is_finite_opp; done).
  unfold u64_MAX, u32_MAX, u16_MAX, i64_min, i64_max, i32_MAX, i32_MIN.
  set (t := trunc_Z _) in *. split_and!; [lia|lia|..].
  - rewrite (proj2 (Z.ltb_lt _ _)) by lia. f_equal. lia.
  - rewrite !(proj2 (Z.ltb_lt _ _)) by lia. simpl. f_equal. lia.
  - rewrite !(proj2 (Z.ltb_lt _ _)) by lia. simpl. f_equal. lia.
  - intros ?. rewrite (proj2 (Z.ltb_lt _ _)) by lia. f_equal. lia.
Qed.

Lemma hundredths_restored_witness :
  exists m, (m = 53 \/ m = 53 - 1) /\ 0 <= m /\ f32tu32 (from_hundredths 53) = Some m /\
    f32ti32 (from_hundredths 53) = Some m /\ f32ti32 (from_hundredths (-53)) = Some (- m) /\
    (53 < u16_MAX -> f32tu16 (from_hundredths 53) = Some m).
Proof. refine (hundredths_restored 53 _). lia. Defined.
End Properties.

Lemma other_event_roundtrip_witness :
  exists e c, EventSchema.deserialize sample_rect = Some e /\ schema.from_json sample_rect = Ok (schema.COther c) /\
    exists v', schema.into_json (schema.COther c) = Some v' /\ EventSchema.deserialize v' = Some e /\
      schema.from_json v' = Ok (schema.COther c).
Proof.
  destruct (EventSchema.deserialize sample_rect) as [e|] eqn:He; [|by vm_compute in He].
  destruct (schema.from_json sample_rect) as [[p|c]|err] eqn:Hc; [by vm_compute in Hc| |by vm_compute in Hc].
  exists e, c. split; [done|]. split; [done|].
  refine (other_event_roundtrip sample_rect e c He _ _ Hc).
  - vm_compute in He. injection He as <-. unfold EventSchema.wf. cbn.
    split_and!; first [done|vm_compute; done|idtac].
  - vm_compute in He. injection He as <-. done.
Defined.

Lemma stored_event_readable_witness :
  exists e c, EventSchema.deserialize sample_path_figure = Some e /\ schema.from_json sample_path_figure = Ok c /\
    widths c /\ exists v', schema.into_json c = Some v' /\ EventSchema.deserialize v' = Some (restored_event c).
Proof.
  destruct (EventSchema.deserialize sample_path_figure) as [e|] eqn:He; [|by vm_compute in He].
  destruct (schema.from_json sample_path_figure) as [c|err] eqn:Hc; [|by vm_compute in Hc].
  exists e, c. split; [exact eq_refl|]. split; [exact eq_refl|].
  destruct (stored_event_readable sample_path_figure e c He) as (Hw & _ & _ & _ & Hj); [|exact Hc|exact (conj Hw Hj)].
  clear Hc.
  vm_compute in He. injection He as <-. unfold EventSchema.wf. cbn.
  split_and!; first [done|vm_compute; done|by repeat constructor].
Defined.
