(* ===== verification/Figures.v ===== *)
(** * The figures of the tests

    [EventSchema::placeholder] and the figures [CompactEvent::test_*] of
    [src/src/db/event/schema.rs], and the tests of that file, those of the bytes of
    [postcard] excepted.  The tests hold whatever the encoding is that [postcard]
    has, if it is read back. *)

From Stdlib Require Import Ascii.
From S2P Require Import Prelude Floats Types CompactPath Schema CompactEvent.

(** [EventSchema::placeholder], with the identifier it draws. *)
Definition placeholder (id : uuid) : EventSchema.t := EventSchema.Mk
  id Origin.Left Origin.Top (S754_zero false) (S754_zero false) (S754_zero false) (S754_zero false)
  (S754_zero false) false false (S754_zero false) (S754_zero false) (S754_zero false) (S754_zero false) None
  FillRule.NonZero None None 1 true PaintFirst.Fill GlobalCompositeOperation.SourceOver None None
  (S754_zero false) StrokeLineCap.Round StrokeLineJoin.Round 10 None 0 None "4.6.0"%string
  Kind.WhiteboardLine (Some true) None None None None None None (Some 0) None None None None None None None
  None None None None None None None None None None None None None None None None None None None None None
  None None None None None None.

(** The fields the figures set: those of every figure, and of one kind each. *)

Definition with_box (kind : Kind.t) (top left height width : f32) (e : EventSchema.t) : EventSchema.t := EventSchema.Mk
  (EventSchema._id e) (EventSchema.origin_x e) (EventSchema.origin_y e) top left height width
  (EventSchema.angle e) (EventSchema.flip_x e) (EventSchema.flip_y e) (EventSchema.skew_x e)
  (EventSchema.skew_y e) (EventSchema.scale_x e) (EventSchema.scale_y e) (EventSchema.fill e)
  (EventSchema.fill_rule e) (EventSchema.shadow e) (EventSchema.stroke e) (EventSchema.opacity e)
  (EventSchema.visible e) (EventSchema.paint_first e) (EventSchema.global_composite_operation e)
  (EventSchema.background_color e) (EventSchema.stroke_dash_array e) (EventSchema.stroke_dash_offset e)
  (EventSchema.stroke_line_cap e) (EventSchema.stroke_line_join e) (EventSchema.stroke_miter_limit e)
  (EventSchema.stroke_uniform e) (EventSchema.stroke_width e) (EventSchema.cross_origin e)
  (EventSchema.version e) kind (EventSchema.no_scale_cache e) (EventSchema._removed e) (EventSchema._rev e)
  (EventSchema._restored e) (EventSchema._locked_by_user e) (EventSchema._only_state e)
  (EventSchema._invalidate e) (EventSchema._order e) (EventSchema._no_history e)
  (EventSchema._draw_by_stretch e) (EventSchema.path e) (EventSchema.src e) (EventSchema.crop_x e)
  (EventSchema.crop_y e) (EventSchema.filters e) (EventSchema.rx e) (EventSchema.ry e) (EventSchema.radius e)
  (EventSchema.start_angle e) (EventSchema.end_angle e) (EventSchema.text e) (EventSchema.styles e)
  (EventSchema.font_size e) (EventSchema.min_width e) (EventSchema.overline e) (EventSchema.path_side e)
  (EventSchema.direction e) (EventSchema.font_style e) (EventSchema.text_align e) (EventSchema.underline e)
  (EventSchema.font_family e) (EventSchema.font_weight e) (EventSchema.line_height e)
  (EventSchema.char_spacing e) (EventSchema.linethrough e) (EventSchema.path_start_offset e)
  (EventSchema.split_by_grapheme e) (EventSchema.text_background_color e) (EventSchema.x1 e)
  (EventSchema.x2 e) (EventSchema.y1 e) (EventSchema.y2 e).

Definition with_ends (x1 x2 y1 y2 : f32) (e : EventSchema.t) : EventSchema.t := EventSchema.Mk
  (EventSchema._id e) (EventSchema.origin_x e) (EventSchema.origin_y e) (EventSchema.top e)
  (EventSchema.left e) (EventSchema.height e) (EventSchema.width e) (EventSchema.angle e)
  (EventSchema.flip_x e) (EventSchema.flip_y e) (EventSchema.skew_x e) (EventSchema.skew_y e)
  (EventSchema.scale_x e) (EventSchema.scale_y e) (EventSchema.fill e) (EventSchema.fill_rule e)
  (EventSchema.shadow e) (EventSchema.stroke e) (EventSchema.opacity e) (EventSchema.visible e)
  (EventSchema.paint_first e) (EventSchema.global_composite_operation e) (EventSchema.background_color e)
  (EventSchema.stroke_dash_array e) (EventSchema.stroke_dash_offset e) (EventSchema.stroke_line_cap e)
  (EventSchema.stroke_line_join e) (EventSchema.stroke_miter_limit e) (EventSchema.stroke_uniform e)
  (EventSchema.stroke_width e) (EventSchema.cross_origin e) (EventSchema.version e) (EventSchema.kind e)
  (EventSchema.no_scale_cache e) (EventSchema._removed e) (EventSchema._rev e) (EventSchema._restored e)
  (EventSchema._locked_by_user e) (EventSchema._only_state e) (EventSchema._invalidate e)
  (EventSchema._order e) (EventSchema._no_history e) (EventSchema._draw_by_stretch e) (EventSchema.path e)
  (EventSchema.src e) (EventSchema.crop_x e) (EventSchema.crop_y e) (EventSchema.filters e)
  (EventSchema.rx e) (EventSchema.ry e) (EventSchema.radius e) (EventSchema.start_angle e)
  (EventSchema.end_angle e) (EventSchema.text e) (EventSchema.styles e) (EventSchema.font_size e)
  (EventSchema.min_width e) (EventSchema.overline e) (EventSchema.path_side e) (EventSchema.direction e)
  (EventSchema.font_style e) (EventSchema.text_align e) (EventSchema.underline e) (EventSchema.font_family e)
  (EventSchema.font_weight e) (EventSchema.line_height e) (EventSchema.char_spacing e)
  (EventSchema.linethrough e) (EventSchema.path_start_offset e) (EventSchema.split_by_grapheme e)
  (EventSchema.text_background_color e) (Some x1) (Some x2) (Some y1) (Some y2).

Definition with_circle (radius start_angle end_angle : f32) (e : EventSchema.t) : EventSchema.t := EventSchema.Mk
  (EventSchema._id e) (EventSchema.origin_x e) (EventSchema.origin_y e) (EventSchema.top e)
  (EventSchema.left e) (EventSchema.height e) (EventSchema.width e) (EventSchema.angle e)
  (EventSchema.flip_x e) (EventSchema.flip_y e) (EventSchema.skew_x e) (EventSchema.skew_y e)
  (EventSchema.scale_x e) (EventSchema.scale_y e) (EventSchema.fill e) (EventSchema.fill_rule e)
  (EventSchema.shadow e) (EventSchema.stroke e) (EventSchema.opacity e) (EventSchema.visible e)
  (EventSchema.paint_first e) (EventSchema.global_composite_operation e) (EventSchema.background_color e)
  (EventSchema.stroke_dash_array e) (EventSchema.stroke_dash_offset e) (EventSchema.stroke_line_cap e)
  (EventSchema.stroke_line_join e) (EventSchema.stroke_miter_limit e) (EventSchema.stroke_uniform e)
  (EventSchema.stroke_width e) (EventSchema.cross_origin e) (EventSchema.version e) (EventSchema.kind e)
  (EventSchema.no_scale_cache e) (EventSchema._removed e) (EventSchema._rev e) (EventSchema._restored e)
  (EventSchema._locked_by_user e) (EventSchema._only_state e) (EventSchema._invalidate e)
  (EventSchema._order e) (EventSchema._no_history e) (EventSchema._draw_by_stretch e) (EventSchema.path e)
  (EventSchema.src e) (EventSchema.crop_x e) (EventSchema.crop_y e) (EventSchema.filters e)
  (EventSchema.rx e) (EventSchema.ry e) (Some radius) (Some start_angle) (Some end_angle)
  (EventSchema.text e) (EventSchema.styles e) (EventSchema.font_size e) (EventSchema.min_width e)
  (EventSchema.overline e) (EventSchema.path_side e) (EventSchema.direction e) (EventSchema.font_style e)
  (EventSchema.text_align e) (EventSchema.underline e) (EventSchema.font_family e)
  (EventSchema.font_weight e) (EventSchema.line_height e) (EventSchema.char_spacing e)
  (EventSchema.linethrough e) (EventSchema.path_start_offset e) (EventSchema.split_by_grapheme e)
  (EventSchema.text_background_color e) (EventSchema.x1 e) (EventSchema.x2 e) (EventSchema.y1 e)
  (EventSchema.y2 e).

Definition with_src (src : string) (e : EventSchema.t) : EventSchema.t := EventSchema.Mk
  (EventSchema._id e) (EventSchema.origin_x e) (EventSchema.origin_y e) (EventSchema.top e)
  (EventSchema.left e) (EventSchema.height e) (EventSchema.width e) (EventSchema.angle e)
  (EventSchema.flip_x e) (EventSchema.flip_y e) (EventSchema.skew_x e) (EventSchema.skew_y e)
  (EventSchema.scale_x e) (EventSchema.scale_y e) (EventSchema.fill e) (EventSchema.fill_rule e)
  (EventSchema.shadow e) (EventSchema.stroke e) (EventSchema.opacity e) (EventSchema.visible e)
  (EventSchema.paint_first e) (EventSchema.global_composite_operation e) (EventSchema.background_color e)
  (EventSchema.stroke_dash_array e) (EventSchema.stroke_dash_offset e) (EventSchema.stroke_line_cap e)
  (EventSchema.stroke_line_join e) (EventSchema.stroke_miter_limit e) (EventSchema.stroke_uniform e)
  (EventSchema.stroke_width e) (EventSchema.cross_origin e) (EventSchema.version e) (EventSchema.kind e)
  (EventSchema.no_scale_cache e) (EventSchema._removed e) (EventSchema._rev e) (EventSchema._restored e)
  (EventSchema._locked_by_user e) (EventSchema._only_state e) (EventSchema._invalidate e)
  (EventSchema._order e) (EventSchema._no_history e) (EventSchema._draw_by_stretch e) (EventSchema.path e)
  (Some src) (EventSchema.crop_x e) (EventSchema.crop_y e) (EventSchema.filters e) (EventSchema.rx e)
  (EventSchema.ry e) (EventSchema.radius e) (EventSchema.start_angle e) (EventSchema.end_angle e)
  (EventSchema.text e) (EventSchema.styles e) (EventSchema.font_size e) (EventSchema.min_width e)
  (EventSchema.overline e) (EventSchema.path_side e) (EventSchema.direction e) (EventSchema.font_style e)
  (EventSchema.text_align e) (EventSchema.underline e) (EventSchema.font_family e)
  (EventSchema.font_weight e) (EventSchema.line_height e) (EventSchema.char_spacing e)
  (EventSchema.linethrough e) (EventSchema.path_start_offset e) (EventSchema.split_by_grapheme e)
  (EventSchema.text_background_color e) (EventSchema.x1 e) (EventSchema.x2 e) (EventSchema.y1 e)
  (EventSchema.y2 e).

Definition with_path (path : list json) (e : EventSchema.t) : EventSchema.t := EventSchema.Mk
  (EventSchema._id e) (EventSchema.origin_x e) (EventSchema.origin_y e) (EventSchema.top e)
  (EventSchema.left e) (EventSchema.height e) (EventSchema.width e) (EventSchema.angle e)
  (EventSchema.flip_x e) (EventSchema.flip_y e) (EventSchema.skew_x e) (EventSchema.skew_y e)
  (EventSchema.scale_x e) (EventSchema.scale_y e) (EventSchema.fill e) (EventSchema.fill_rule e)
  (EventSchema.shadow e) (EventSchema.stroke e) (EventSchema.opacity e) (EventSchema.visible e)
  (EventSchema.paint_first e) (EventSchema.global_composite_operation e) (EventSchema.background_color e)
  (EventSchema.stroke_dash_array e) (EventSchema.stroke_dash_offset e) (EventSchema.stroke_line_cap e)
  (EventSchema.stroke_line_join e) (EventSchema.stroke_miter_limit e) (EventSchema.stroke_uniform e)
  (EventSchema.stroke_width e) (EventSchema.cross_origin e) (EventSchema.version e) (EventSchema.kind e)
  (EventSchema.no_scale_cache e) (EventSchema._removed e) (EventSchema._rev e) (EventSchema._restored e)
  (EventSchema._locked_by_user e) (EventSchema._only_state e) (EventSchema._invalidate e)
  (EventSchema._order e) (EventSchema._no_history e) (EventSchema._draw_by_stretch e) (Some path)
  (EventSchema.src e) (EventSchema.crop_x e) (EventSchema.crop_y e) (EventSchema.filters e)
  (EventSchema.rx e) (EventSchema.ry e) (EventSchema.radius e) (EventSchema.start_angle e)
  (EventSchema.end_angle e) (EventSchema.text e) (EventSchema.styles e) (EventSchema.font_size e)
  (EventSchema.min_width e) (EventSchema.overline e) (EventSchema.path_side e) (EventSchema.direction e)
  (EventSchema.font_style e) (EventSchema.text_align e) (EventSchema.underline e) (EventSchema.font_family e)
  (EventSchema.font_weight e) (EventSchema.line_height e) (EventSchema.char_spacing e)
  (EventSchema.linethrough e) (EventSchema.path_start_offset e) (EventSchema.split_by_grapheme e)
  (EventSchema.text_background_color e) (EventSchema.x1 e) (EventSchema.x2 e) (EventSchema.y1 e)
  (EventSchema.y2 e).

Definition with_text (text : string) (font_size : Z) (min_width : f32) (overline : bool) (path_side : string)
    (direction : Direction.t) (font_style : FontStyle.t) (text_align : TextAlign.t) (underline : bool)
    (font_family font_weight : string) (line_height char_spacing : f32) (linethrough : bool)
    (path_start_offset : f32) (split_by_grapheme : bool) (text_background_color : string)
    (e : EventSchema.t) : EventSchema.t := EventSchema.Mk
  (EventSchema._id e) (EventSchema.origin_x e) (EventSchema.origin_y e) (EventSchema.top e)
  (EventSchema.left e) (EventSchema.height e) (EventSchema.width e) (EventSchema.angle e)
  (EventSchema.flip_x e) (EventSchema.flip_y e) (EventSchema.skew_x e) (EventSchema.skew_y e)
  (EventSchema.scale_x e) (EventSchema.scale_y e) (EventSchema.fill e) (EventSchema.fill_rule e)
  (EventSchema.shadow e) (EventSchema.stroke e) (EventSchema.opacity e) (EventSchema.visible e)
  (EventSchema.paint_first e) (EventSchema.global_composite_operation e) (EventSchema.background_color e)
  (EventSchema.stroke_dash_array e) (EventSchema.stroke_dash_offset e) (EventSchema.stroke_line_cap e)
  (EventSchema.stroke_line_join e) (EventSchema.stroke_miter_limit e) (EventSchema.stroke_uniform e)
  (EventSchema.stroke_width e) (EventSchema.cross_origin e) (EventSchema.version e) (EventSchema.kind e)
  (EventSchema.no_scale_cache e) (EventSchema._removed e) (EventSchema._rev e) (EventSchema._restored e)
  (EventSchema._locked_by_user e) (EventSchema._only_state e) (EventSchema._invalidate e)
  (EventSchema._order e) (EventSchema._no_history e) (EventSchema._draw_by_stretch e) (EventSchema.path e)
  (EventSchema.src e) (EventSchema.crop_x e) (EventSchema.crop_y e) (EventSchema.filters e)
  (EventSchema.rx e) (EventSchema.ry e) (EventSchema.radius e) (EventSchema.start_angle e)
  (EventSchema.end_angle e) (Some text) (EventSchema.styles e) (Some font_size) (Some min_width)
  (Some overline) (Some path_side) (Some direction) (Some font_style) (Some text_align) (Some underline)
  (Some font_family) (Some font_weight) (Some line_height) (Some char_spacing) (Some linethrough)
  (Some path_start_offset) (Some split_by_grapheme) (Some text_background_color) (EventSchema.x1 e)
  (EventSchema.x2 e) (EventSchema.y1 e) (EventSchema.y2 e).

(** The path of [test_path_event]. *)
Definition path_of_event : list json := [
  JArray [JString "M"; hundredths (-654); hundredths 561420];
  JArray [JString "Q"; hundredths (-654); hundredths 561419; hundredths (-654); hundredths 561308];
  JArray [JString "Q"; hundredths (-654); hundredths 561198; hundredths (-654); hundredths 561087];
  JArray [JString "Q"; hundredths (-654); hundredths 560976; hundredths (-654); hundredths 560865];
  JArray [JString "Q"; hundredths (-654); hundredths 560754; hundredths (-543); hundredths 560587];
  JArray [JString "Q"; hundredths (-432); hundredths 560421; hundredths (-377); hundredths 560310];
  JArray [JString "Q"; hundredths (-321); hundredths 560199; hundredths (-210); hundredths 560032];
  JArray [JString "Q"; hundredths (-99); hundredths 559866; hundredths (-43); hundredths 559755];
  JArray [JString "Q"; hundredths 12; hundredths 559644; hundredths 123; hundredths 559533];
  JArray [JString "Q"; hundredths 234; hundredths 559422; hundredths 345; hundredths 559311];
  JArray [JString "Q"; hundredths 457; JNumber (PosInt 5592); hundredths 623; hundredths 559089];
  JArray [JString "Q"; hundredths 790; hundredths 558978; hundredths 901; hundredths 558923];
  JArray [JString "Q"; hundredths 1012; hundredths 558867; hundredths 1123; hundredths 558812];
  JArray [JString "Q"; hundredths 1234; hundredths 558756; hundredths 1345; hundredths 558756];
  JArray [JString "Q"; hundredths 1456; hundredths 558756; hundredths 1623; hundredths 558645];
  JArray [JString "L"; hundredths 1790; hundredths 558534]]%string.

Section Figures.
Context `{Externals, JsonParser}.

Definition one : f32 := f32_of_Z 1.
Definition ten : f32 := f32_of_Z 10.

(** [CompactEvent::Other(CompactEventSchema { .., ..CompactEventSchema::from_event(EventSchema::placeholder()) })]. *)
Definition other (e : EventSchema.t) : schema.CompactEvent := schema.COther (CompactEventSchema.from_event e).

Definition test_rect_event (id : uuid) : schema.CompactEvent :=
  other (with_ends one ten one ten (with_box Kind.Rect one one ten ten (placeholder id))).
Definition test_line_event (id : uuid) : schema.CompactEvent :=
  other (with_ends one ten one ten (with_box Kind.WhiteboardLine one one ten ten (placeholder id))).
Definition test_circle_event (id : uuid) : schema.CompactEvent :=
  other (with_circle ten (S754_zero false) (f32_of_f64 (f64_lit 6283185307179586 1000000000000000))
           (with_box Kind.Circle one one ten ten (placeholder id))).
Definition test_image_event (id : uuid) : schema.CompactEvent :=
  other (with_src "storage://00000000-0000-0000-0000-000000000000.png"
           (with_box Kind.Image one one ten ten (placeholder id))).
Definition test_path_event (id : uuid) : result Error schema.CompactEvent :=
  result_bind (CompactPathEvent.try_from_event
                 (with_path path_of_event (with_box Kind.Path one one ten ten (placeholder id))))
    (fun p => Ok (schema.CPath p)).

(** The font families of the textbox. *)
Definition quoted (s : string) : string := (String "034"%char s ++ String "034"%char EmptyString)%string.
Definition font_family : string :=
  ("-apple-system, BlinkMacSystemFont, " ++ quoted "Segoe UI" ++ ", " ++ quoted "Roboto" ++ ", " ++ quoted "Oxygen"
   ++ ", " ++ quoted "Ubuntu" ++ ", " ++ quoted "Cantarell" ++ ", " ++ quoted "Fira Sans" ++ ", "
   ++ quoted "Droid Sans" ++ ", " ++ quoted "Helvetica Neue" ++ ", sans-serif")%string.

Definition test_textbox_event (id : uuid) : schema.CompactEvent :=
  other (with_text "text" 40 (f32_of_Z 20) false "left" Direction.Ltr FontStyle.Normal TextAlign.Left false
           font_family (json_to_string (JString "normal")) (f32_lit 116 100) (S754_zero false) true
           (S754_zero false) false EmptyString
           (with_box Kind.Textbox one one ten ten (placeholder id))).
Definition test_triangle_event (id : uuid) : schema.CompactEvent :=
  other (with_box Kind.Triangle one one ten ten (placeholder id)).

(** ** [test_roundtrip] *)

Context `{Postcard schema.CompactEvent}.

(** To the bytes, back, and to JSON. *)
Definition encode_decode (evt : schema.CompactEvent) : option schema.CompactEvent := to_allocvec evt ≫= from_bytes.
Definition compacted (v : json) : option schema.CompactEvent :=
  match schema.from_json v with Ok evt => Some evt | Err _ => None end.
Definition roundtrip (v : json) : option json :=
  evt ← compacted v;
  evt ← encode_decode evt;
  schema.into_json evt.
Definition roundtrips (v : json) : bool := match roundtrip v with Some _ => true | None => false end.

(** [evt.into_json().unwrap()], then as a value received. *)
Definition figure_roundtrips (evt : schema.CompactEvent) : bool :=
  match schema.into_json evt with Some v => roundtrips v | None => false end.

Definition figures (id : uuid) : list schema.CompactEvent :=
  [test_rect_event id; test_line_event id; test_circle_event id; test_image_event id]
  ++ match test_path_event id with Ok evt => [evt] | Err _ => [] end
  ++ [test_triangle_event id; test_textbox_event id].

Definition test_roundtrip (id : uuid) (raw_evts : list json) : bool :=
  (length (figures id) =? 7)%nat && forallb figure_roundtrips (figures id) && forallb roundtrips raw_evts.

(** [test_encode_decode_event], the first event: its kind and order are kept. *)
Definition is_rect (evt : schema.CompactEvent) : bool :=
  match evt with
  | schema.COther e => match CompactEventSchema.kind e with Kind.Rect => true | _ => false end
                       && bool_decide (CompactEventSchema._order e = Some (-1))
  | schema.CPath _ => false
  end.
Definition test_encode_decode_event (v : json) : bool :=
  match compacted v with
  | Some evt => is_rect evt && match encode_decode evt with Some evt => is_rect evt | None => false end
  | None => false
  end.

Definition test_losing_precision_error (v : json) : bool :=
  match compacted v with
  | Some (schema.CPath p) => (length (c_parts (CompactPathEvent.path p)) =? 4)%nat
  | _ => false
  end.

End Figures.

(** ** [test_path_encode_decode] *)

Definition original_path : list json := [
  JArray [JString "M"; hundredths (-654); hundredths 561420];
  JArray [JString "Q"; hundredths (-654); hundredths 561419; hundredths (-654); hundredths 561308];
  JArray [JString "Q"; hundredths (-654); hundredths 561198; hundredths (-654); hundredths 561087];
  JArray [JString "Q"; hundredths (-654); hundredths 560976; hundredths (-654); hundredths 560865];
  JArray [JString "Q"; hundredths (-654); hundredths 560754; hundredths (-543); hundredths 560587];
  JArray [JString "Q"; hundredths (-432); hundredths 560421; hundredths (-377); hundredths 560310];
  JArray [JString "Q"; hundredths (-321); hundredths 560199; hundredths (-210); hundredths 560032];
  JArray [JString "Q"; hundredths (-99); hundredths 559866; hundredths (-43); hundredths 559755];
  JArray [JString "Q"; hundredths 12; hundredths 559644; hundredths 123; hundredths 559533];
  JArray [JString "Q"; hundredths 234; hundredths 559422; hundredths 345; hundredths 559311];
  JArray [JString "Q"; hundredths 457; hundredths 559200; hundredths 623; hundredths 559089];
  JArray [JString "Q"; hundredths 790; hundredths 558978; hundredths 901; hundredths 558923];
  JArray [JString "Q"; hundredths 1012; hundredths 558867; hundredths 1123; hundredths 558812];
  JArray [JString "Q"; hundredths 1234; hundredths 558756; hundredths 1345; hundredths 558756];
  JArray [JString "Q"; hundredths 1456; hundredths 558756; hundredths 1623; hundredths 558645];
  JArray [JString "L"; hundredths 1790; hundredths 558534]]%string.

Definition test_path_encode_decode : bool :=
  match compress_path original_path with
  | Some compacted => bool_decide (path_to_json (decompress_path compacted) = original_path)
  | None => false
  end.

(** The figure of [test_losing_precision_error]; identifiers are printed in decimal here. *)
Definition precise_figure : json := JObject [("type", JString "path");
   ("version", JString "4.6.0");
   ("originX", JString "left");
   ("originY", JString "top");
   ("left", hundredths 54118);
   ("top", hundredths 6147);
   ("width", hundredths 9720);
   ("height", hundredths 9720);
   ("fill", JString "rgba(255,255,255,1)");
   ("stroke", JString "rgba(255,255,255,1)");
   ("strokeWidth", JNumber (PosInt 2));
   ("strokeDashArray", JNull);
   ("strokeLineCap", JString "butt");
   ("strokeDashOffset", JNumber (PosInt 0));
   ("strokeLineJoin", JString "miter");
   ("strokeUniform", JBool true);
   ("strokeMiterLimit", JNumber (PosInt 40));
   ("scaleX", hundredths 7);
   ("scaleY", hundredths 11);
   ("angle", JNumber (PosInt 0));
   ("flipX", JBool false);
   ("flipY", JBool false);
   ("opacity", JNumber (PosInt 1));
   ("shadow", JNull);
   ("visible", JBool true);
   ("backgroundColor", JString EmptyString);
   ("fillRule", JString "nonzero");
   ("paintFirst", JString "fill");
   ("globalCompositeOperation", JString "source-over");
   ("skewX", JNumber (PosInt 0));
   ("skewY", JNumber (PosInt 0));
   ("_id", JString "3");
   ("noScaleCache", JBool false);
   ("_order", JNumber (PosInt 171));
   ("_noHistory", JBool true);
   ("_drawByStretch", JBool true);
   ("path", JArray [JArray [JString "M"; JNumber (PosInt 0); JNumber (PosInt 0)]; JArray [JString "L"; hundredths 9720; JNumber (PosInt 0)]; JArray [JString "L"; JNumber (PosInt 0); hundredths 9720]; JArray [JString "z"]])]%string.
