(* ===== verification/SetState.v ===== *)
(** * The state of a set

    [src/src/db/event/set_state.rs]: the query behind [state.read], which
    reconstructs what a set contained at a given moment, and its row count. *)

From S2P Require Import Prelude Times Types Db Sample EventDb.

Module SetStateQuery.

Record t : Type := Mk {
  sq_room_id : uuid;
  sq_set : string;
  sq_attribute : option string;
  sq_occurred_at : option Z;
  sq_original_occurred_at : Z;
  sq_limit : Z
}.

Definition new (room_id : uuid) (set : string) (original_occurred_at limit : Z) : t :=
  Mk room_id set None None original_occurred_at limit.
Definition occurred_at (v : Z) (q : t) : t :=
  Mk (sq_room_id q) (sq_set q) (sq_attribute q) (Some v) (sq_original_occurred_at q) (sq_limit q).
Definition attribute (v : string) (q : t) : t :=
  Mk (sq_room_id q) (sq_set q) (Some v) (sq_occurred_at q) (sq_original_occurred_at q) (sq_limit q).

(** The [WHERE] clause of the subquery. *)
Definition matches (q : t) (e : event_row) : bool :=
  is_none (er_deleted_at e) && bool_decide (er_room_id e = sq_room_id q)
  && bool_decide (er_set e = sq_set q) && (er_original_occurred_at e <? sq_original_occurred_at q)
  && (er_occurred_at e <? default 9223372036854775807 (sq_occurred_at q)).

Definition base (q : t) (events : list event_row) : list event_row := List.filter (matches q) events.

(** [DISTINCT ON (original_occurred_at, label)]. *)
Definition same_key (x y : event_row) : bool :=
  (er_original_occurred_at x =? er_original_occurred_at y) && bool_decide (er_label x = er_label y).

Section Query.
Context `{Externals}.

(** [label ASC]: [NULL]s last. *)
Definition label_leb (x y : event_row) : bool :=
  match er_label x, er_label y with
  | Some a, Some b => text_leb a b
  | _, None => true
  | None, Some _ => false
  end.

Definition order : event_row -> event_row -> bool :=
  then_by (desc (by_key er_original_occurred_at)) (then_by label_leb (desc (by_key er_occurred_at))).

Definition latest (q : t) (events : list event_row) : list event_row :=
  distinct_on same_key (sort_by order (base q events)).

(** The [ROW_NUMBER()] of the query by attribute, computed before [DISTINCT ON]. *)
Definition reverse_ordinal (q : t) (events : list event_row) (e : event_row) : Z :=
  row_number VacuumQuery.same_id VacuumQuery.same_label (desc (by_key er_occurred_at)) (base q events) e.

(** The rows of the outer query before [LIMIT]. *)
Definition selection (q : t) (events : list event_row) : list event_row :=
  match sq_attribute q with
  | Some a =>
    List.filter (fun e => (reverse_ordinal q events e =? 1) && sql_eq (er_attribute e) (Some a)
                          && negb (er_removed e)) (latest q events)
  | None => List.filter (fun e => negb (er_removed e)) (latest q events)
  end.

Definition rows (q : t) (events : list event_row) : result sqlx_error (list event_row) :=
  limit_rows (sq_limit q) (selection q events).

Definition execute `{EventCodec} (q : t) : query (list Event) :=
  select (fun db => result_bind (rows q (db_events db)) (map_rows try_from_raw)).

(** [bool_or(removed) OVER (PARTITION BY .. ORDER BY occurred_at DESC)]: the
    default frame ends with the peers of the row. *)
Definition removed_windowed (q : t) (events : list event_row) (e : event_row) : bool :=
  existsb (fun x => VacuumQuery.same_label e x && (er_occurred_at e <=? er_occurred_at x) && er_removed x)
    (base q events).

Definition counted (q : t) (events : list event_row) : list event_row :=
  List.filter (fun e => negb (removed_windowed q events e)
                        && sql_opt (fun a => sql_eq (er_attribute e) (Some a)) (sq_attribute q))
    (latest q events).

Definition total_count (q : t) : query Z :=
  select (fun db => Ok (Z.of_nat (length (counted q (db_events db))))).

End Query.
End SetStateQuery.

Import SetStateQuery.

(** ** Specification *)

(** The versions of a group are told apart by their time. *)
Definition versions_distinct (rows : list event_row) : Prop :=
  forall x y, x ∈ rows -> y ∈ rows -> same_key x y = true -> er_occurred_at x = er_occurred_at y -> x = y.

(** [e] is the last version of its group. *)
Definition is_latest (rows : list event_row) (e : event_row) : Prop :=
  e ∈ rows /\ forall x, x ∈ rows -> same_key e x = true -> er_occurred_at x <= er_occurred_at e.

(** The live events of the set whose original is before the one limit and that are
    themselves before the other, if there is one. *)
Definition visible (q : t) (events : list event_row) (e : event_row) : Prop :=
  e ∈ events /\ er_deleted_at e = None /\ er_room_id e = sq_room_id q /\ er_set e = sq_set q /\
  er_original_occurred_at e < sq_original_occurred_at q /\ er_occurred_at e < default i64_max (sq_occurred_at q).

(** ** Lemmas *)

Lemma same_key_refl x : same_key x x = true.
Proof. unfold same_key. by rewrite Z.eqb_refl, bool_decide_eq_true_2. Qed.

Lemma same_key_sym x y : same_key x y = same_key y x.
Proof. unfold same_key. rewrite Z.eqb_sym. f_equal. by apply bool_decide_ext. Qed.

Lemma versions_distinct_pairs rows :
  ForallOrdPairs (fun x y => same_key x y = true -> er_occurred_at x <> er_occurred_at y) rows ->
  versions_distinct rows.
Proof.
  intros Hp x y Hx%list_elem_of_In Hy%list_elem_of_In Hk Ho.
  destruct (ForallOrdPairs_In Hp x y Hx Hy) as [?|[Hn|Hn]]; [done|by destruct Hn|].
  rewrite same_key_sym in Hk. by destruct (Hn Hk).
Qed.

Section Lemmas.
Context `{Externals, !CollationLaws}.

#[export] Instance label_order : TotalPreorder label_leb.
Proof.
  split; unfold label_leb.
  - intros x y. destruct (er_label x), (er_label y); auto. apply leb_total.
  - intros x y z. destruct (er_label x), (er_label y), (er_label z); try done. apply leb_trans.
Qed.

#[export] Instance state_order : TotalPreorder order.
Proof.
  exact (then_by_order (desc (by_key er_original_occurred_at))
           (then_by label_leb (desc (by_key er_occurred_at)))).
Qed.

Lemma order_same_key x y :
  same_key x y = true -> order x y = true -> er_occurred_at y <= er_occurred_at x.
Proof.
  unfold same_key, order, then_by, desc, by_key. intros Hs Ho. bool_prop.
  assert (label_leb x y = true /\ label_leb y x = true) as [Hl1 Hl2].
  { unfold label_leb. match goal with E : er_label x = er_label y |- _ => rewrite E end.
    destruct (er_label y) as [l|]; [|done]. split; by destruct (leb_total (leb := text_leb) l l). }
  rewrite Hl1, Hl2 in Ho. repeat case_match; try done; lia.
Qed.

Lemma latest_elem q events e :
  e ∈ latest q events -> is_latest (base q events) e.
Proof.
  unfold latest. intros (l1 & l2 & Hl & Hl1)%distinct_on_elem.
  pose proof (sort_by_sorted order (base q events)) as Hs. rewrite Hl in Hs.
  assert (Hin : forall x, x ∈ base q events <-> x ∈ l1 ++ e :: l2).
  { intros x. by rewrite <-Hl, elem_of_sort_by. }
  split; [apply Hin, elem_of_app; right; left|].
  intros x [Hx|[->|Hx]%elem_of_cons]%Hin%elem_of_app Hk; [|lia|].
  - rewrite same_key_sym, Hl1 in Hk; done.
  - apply order_same_key; [done|]. apply StronglySorted_app in Hs as (_ & _ & Hs).
    inversion Hs as [|? ? _ Hall]. rewrite Forall_forall in Hall. auto.
Qed.

(** Every group is represented by its last version. *)
Lemma latest_exists q events e :
  e ∈ base q events -> exists x, x ∈ latest q events /\ same_key x e = true.
Proof.
  intros He. rewrite <-(elem_of_sort_by order) in He.
  destruct (first_of_group same_key _ e He (same_key_refl e)) as (l1 & y & l2 & Hl & Hy & Hl1).
  exists y. split; [|done]. apply distinct_on_elem. exists l1, l2. split; [done|].
  intros z Hz. specialize (Hl1 z Hz). unfold same_key in *. bool_prop.
  destruct Hl1 as [Hl1|Hl1]; apply andb_false_iff; [left|right; apply bool_decide_eq_false in Hl1;
    apply bool_decide_eq_false; congruence]. lia.
Qed.

Lemma latest_iff q events e :
  versions_distinct (base q events) -> (e ∈ latest q events <-> is_latest (base q events) e).
Proof.
  intros Hd. split; [apply latest_elem|]. intros [He Hmax].
  destruct (latest_exists q events e He) as (x & Hx & Hk).
  enough (e = x) as -> by done. pose proof (latest_elem _ _ _ Hx) as [Hxb Hxmax].
  apply Hd; [done|done|by rewrite same_key_sym|].
  specialize (Hxmax e He Hk). rewrite same_key_sym in Hk. specialize (Hmax x Hxb Hk). lia.
Qed.

(** The trigger's coherence makes the versions of a label share their key. *)
Lemma coherent_same_label events x y :
  originals_coherent events -> x ∈ events -> y ∈ events ->
  er_deleted_at x = None -> er_deleted_at y = None -> er_label x <> None ->
  VacuumQuery.same_label x y = true -> same_key x y = true.
Proof.
  intros Hc Hx Hy Hdx Hdy Hl Hs. unfold VacuumQuery.same_label in Hs. bool_prop.
  destruct (original_row events (er_room_id x) (er_set x) (er_label x)) as [o|] eqn:Ho.
  - destruct (Hc x o Hx Hdx Ho) as [Hox _].
    assert (original_row events (er_room_id y) (er_set y) (er_label y) = Some o) as Ho' by congruence.
    destruct (Hc y o Hy Hdy Ho') as [Hoy _]. unfold same_key.
    rewrite bool_decide_eq_true_2 by done. rewrite Hox, Hoy, Z.eqb_refl. done.
  - exfalso. pose proof (original_row_None _ _ _ _ x Ho Hx) as Hn.
    unfold same_live_label in Hn. rewrite Hdx, !bool_decide_eq_true_2 in Hn by done.
    destruct (er_label x); [|done]. simpl in Hn. by rewrite bool_decide_eq_true_2 in Hn.
Qed.

Lemma base_elem q events e : e ∈ base q events -> e ∈ events /\ er_deleted_at e = None.
Proof.
  unfold base. intros [He Hm]%elem_of_lfilter. split; [done|]. unfold matches in Hm. bool_prop.
  by destruct (er_deleted_at e).
Qed.

Lemma visible_base q events e : visible q events e <-> e ∈ base q events.
Proof.
  unfold visible, base. rewrite elem_of_lfilter. unfold matches, i64_max.
  rewrite !andb_true_iff, !bool_decide_eq_true, !Z.ltb_lt. destruct (er_deleted_at e); simpl; intuition congruence.
Qed.

Lemma base_label q events x y :
  x ∈ base q events -> y ∈ base q events -> er_label x = er_label y -> VacuumQuery.same_label x y = true.
Proof.
  intros (_ & _ & Hx & Hsx & _)%visible_base (_ & _ & Hy & Hsy & _)%visible_base Hl. unfold VacuumQuery.same_label.
  by rewrite !bool_decide_eq_true_2 by congruence.
Qed.

Section Labelled.
Context (q : t) (events : list event_row).
Context (Hcoh : originals_coherent events).
Context (Hlab : forall e, e ∈ base q events -> er_label e <> None).
Context (Hver : versions_distinct (base q events)).

Lemma base_same_label x y :
  x ∈ base q events -> y ∈ base q events -> VacuumQuery.same_label x y = true -> same_key x y = true.
Proof.
  intros Hx Hy. pose proof (base_elem _ _ _ Hx) as [? ?]. pose proof (base_elem _ _ _ Hy) as [? ?].
  apply (coherent_same_label events); auto.
Qed.

Lemma latest_last_of_label e :
  e ∈ latest q events <->
  e ∈ base q events /\ forall x, x ∈ base q events -> er_label x = er_label e -> er_occurred_at x <= er_occurred_at e.
Proof.
  rewrite latest_iff by done. split; intros [He Hmax]; (split; [done|]); intros x Hx Hk; apply Hmax; [done| |done|].
  - apply base_same_label; [done|done|]. by apply (base_label q events).
  - unfold same_key in Hk. by bool_prop.
Qed.

Lemma latest_labels_differ : ForallOrdPairs (fun x y => er_label x <> er_label y) (latest q events).
Proof.
  pose proof (distinct_on_groups same_key (sort_by order (base q events))) as Hp. fold (latest q events) in Hp.
  assert (forall x, x ∈ latest q events -> x ∈ base q events) as Hb by (by intros x [? _]%latest_elem).
  induction Hp as [|x l Hx _ IH]; constructor.
  - rewrite Forall_forall in *. intros y Hy Hl. specialize (Hx y Hy).
    rewrite (base_same_label x y) in Hx; [done|apply Hb; by left|apply Hb; by right|].
    apply (base_label q events); [apply Hb; by left|apply Hb; by right|done].
  - apply IH. intros y Hy. apply Hb. by right.
Qed.

Lemma latest_reverse_ordinal e : e ∈ latest q events -> reverse_ordinal q events e = 1.
Proof.
  intros [He Hmax]%latest_elem. apply (position_head _ _ e).
  - apply head_sort_least; [apply _|by rewrite elem_of_lfilter, same_label_refl|].
    intros y [Hy Hs]%elem_of_lfilter. unfold desc, by_key. pose proof (base_same_label e y He Hy Hs) as Hk.
    specialize (Hmax y Hy Hk). destruct (decide (er_occurred_at y = er_occurred_at e)) as [Heq|];
      [left|right; lia]. apply Hver; [done|done|by rewrite same_key_sym|done].
  - unfold VacuumQuery.same_id. by rewrite bool_decide_eq_true_2.
Qed.

Lemma latest_removed_windowed e : e ∈ latest q events -> removed_windowed q events e = er_removed e.
Proof.
  intros [He Hmax]%latest_elem. unfold removed_windowed. apply eq_true_iff_eq. rewrite existsb_exists. split.
  - intros (x & Hx%list_elem_of_In & Hc). bool_prop.
    assert (Hk : same_key e x = true) by by apply base_same_label.
    specialize (Hmax x Hx Hk). rewrite (Hver e x); try done. lia.
  - intros Hr. exists e. rewrite <-list_elem_of_In. rewrite same_label_refl, Z.leb_refl, Hr. done.
Qed.

Lemma state_selection_elem e :
  e ∈ selection q events <->
  e ∈ latest q events /\ er_removed e = false /\ forall a, sq_attribute q = Some a -> er_attribute e = Some a.
Proof.
  unfold selection. destruct (sq_attribute q) as [a|]; rewrite elem_of_lfilter, ?andb_true_iff, negb_true_iff.
  - split.
    + intros (He & (_ & Ha) & Hr). split_and!; [done|done|]. intros a' [= <-]. by apply sql_eq_true in Ha.
    + intros (He & Hr & Ha). split_and!; [done| | |done].
      * by rewrite latest_reverse_ordinal.
      * rewrite (Ha a eq_refl). by apply bool_decide_eq_true_2.
  - split; [intros [? ?]; by split_and!|]. by intros (? & ? & _).
Qed.

Lemma selection_labels_differ : ForallOrdPairs (fun x y => er_label x <> er_label y) (selection q events).
Proof. unfold selection. destruct (sq_attribute q); apply ordpairs_lfilter, latest_labels_differ. Qed.
End Labelled.

Lemma state_selection_sorted q events :
  StronglySorted (fun x y => er_original_occurred_at y <= er_original_occurred_at x) (selection q events).
Proof.
  assert (StronglySorted (fun x y => er_original_occurred_at y <= er_original_occurred_at x) (latest q events)) as Hs;
    [|unfold selection; destruct (sq_attribute q); by apply lfilter_sorted].
  apply distinct_on_sorted, (StronglySorted_weaken (fun x y => order x y = true)); [|apply sort_by_sorted, _].
  intros x y. unfold order, then_by, desc, by_key. intros Ho. repeat case_match; try done; lia.
Qed.

Lemma total_count_selection (q : t) (c : qctx) (db : database) :
  originals_coherent (db_events db) ->
  (forall e, e ∈ base q (db_events db) -> er_label e <> None) ->
  versions_distinct (base q (db_events db)) ->
  total_count q c db = (Ok (Z.of_nat (length (selection q (db_events db)))), db).
Proof.
  intros Hc Hl Hd. unfold total_count, select. do 4 f_equal. unfold counted, selection.
  destruct (sq_attribute q) as [a|]; apply lfilter_ext; intros e He; simpl;
    rewrite latest_removed_windowed by done; [|apply andb_true_r].
  rewrite latest_reverse_ordinal by done. simpl. apply andb_comm.
Qed.
End Lemmas.

(** ** Properties *)

Section Properties.
Context `{Externals, !CollationLaws}.

(** C2: the state of a set.  Take the live events of the set before the limits of
    the query, and suppose that the versions of a label are told apart by their time.
    The query gives the latest originals first.  Without an attribute it gives the
    last version of each group, the events of one label with one original time,
    that is not marked removed.  When moreover every event is labelled and the
    insertion trigger's invariant holds (a vacuum may break it), it gives, with an
    attribute or without, exactly the events that are the last version of their
    label, are not marked removed and have the attribute, one per label. *)
Theorem set_state_correct (q : t) (events : list event_row) :
  versions_distinct (base q events) ->
  StronglySorted (fun x y => er_original_occurred_at y <= er_original_occurred_at x) (selection q events) /\
  (sq_attribute q = None -> forall e, e ∈ selection q events <->
     visible q events e /\ er_removed e = false /\
     forall x, visible q events x -> er_original_occurred_at x = er_original_occurred_at e -> er_label x = er_label e ->
       er_occurred_at x <= er_occurred_at e) /\
  (originals_coherent events -> (forall e, visible q events e -> er_label e <> None) ->
   (forall e, e ∈ selection q events <->
      visible q events e /\ er_removed e = false /\ (forall a, sq_attribute q = Some a -> er_attribute e = Some a) /\
      forall x, visible q events x -> er_label x = er_label e -> er_occurred_at x <= er_occurred_at e) /\
   ForallOrdPairs (fun x y => er_label x <> er_label y) (selection q events)).
Proof.
  intros Hd. setoid_rewrite visible_base. split; [apply state_selection_sorted|]. split.
  - intros Ha e. unfold selection. rewrite Ha, elem_of_lfilter, latest_iff, negb_true_iff by done.
    unfold is_latest. split.
    + intros [[He Hmax] Hr]. split_and!; [done|done|]. intros x Hx Ho Hl. apply Hmax; [done|].
      unfold same_key. by rewrite Ho, Hl, Z.eqb_refl, bool_decide_eq_true_2.
    + intros (He & Hr & Hmax). split_and!; [done| |done]. intros x Hx Hk. unfold same_key in Hk. bool_prop.
      apply Hmax; [done|lia|done].
  - intros Hc Hl. split; [intros e; rewrite (state_selection_elem q events Hc Hl Hd)|
      by apply selection_labels_differ]. rewrite (latest_last_of_label q events Hc Hl Hd). tauto.
Qed.

(** Asking for an attribute filters the state: the query by attribute, which
    is written with a window function, returns the events of the state that have
    the attribute in their last version, as long as the insertion trigger's
    invariant holds and every event of the set is labelled. *)
Theorem set_state_attribute (q : t) (a : string) (events : list event_row) :
  sq_attribute q = None -> originals_coherent events ->
  (forall e, e ∈ base q events -> er_label e <> None) -> versions_distinct (base q events) ->
  selection (attribute a q) events
  = List.filter (fun e => sql_eq (er_attribute e) (Some a)) (selection q events).
Proof.
  intros Ha Hc Hl Hd. unfold selection. rewrite Ha, lfilter_lfilter. simpl.
  apply (lfilter_ext _ _ (latest q events)). intros e He.
  rewrite (latest_reverse_ordinal q events Hc Hl Hd e He : reverse_ordinal (attribute a q) events e = 1).
  simpl. apply andb_comm.
Qed.

(** The total count agrees with the query: it counts the rows the query would
    return without its limit, with and without an attribute, under the same
    conditions. *)
Theorem set_state_total_count (q : t) (c : qctx) (db : database) :
  originals_coherent (db_events db) ->
  (forall e, e ∈ base q (db_events db) -> er_label e <> None) ->
  versions_distinct (base q (db_events db)) ->
  total_count q c db = (Ok (Z.of_nat (length (selection q (db_events db)))), db).
Proof. apply total_count_selection. Qed.
End Properties.

(** Two messages, the first edited and the second removed, read at 100 and at 15. *)
Definition sample_history : list event_row :=
  let removed (e : event_row) := EventRow (er_id e) (er_room_id e) (er_kind e) (er_set e) (er_label e)
    (er_attribute e) (er_data e) (er_binary_data e) (er_occurred_at e) (er_created_by e) (er_created_at e)
    (er_deleted_at e) 2 (er_original_created_by e) true None None in
  let edited (e : event_row) := EventRow (er_id e) (er_room_id e) (er_kind e) (er_set e) (er_label e)
    (Some "pinned"%string) (er_data e) (er_binary_data e) (er_occurred_at e) (er_created_by e) (er_created_at e)
    (er_deleted_at e) 1 (er_original_created_by e) false None None in
  [sample_event 10%N (Some "a"%string) 1 1; sample_event 11%N (Some "b"%string) 2 2;
   edited (sample_event 12%N (Some "a"%string) 10 10); removed (sample_event 13%N (Some "b"%string) 20 20)].

Definition sample_query : t := new 1%N "messages" 100 10.

Lemma sample_versions : versions_distinct (base sample_query sample_history).
Proof. apply versions_distinct_pairs. repeat constructor; vm_compute; congruence. Qed.

Lemma sample_coherent : originals_coherent sample_history.
Proof.
  intros x o Hx _. rewrite list_elem_of_In in Hx. simpl in Hx.
  repeat destruct Hx as [<-|Hx]; [..|done]; vm_compute; intros [= <-]; done.
Qed.

Lemma sample_labelled e : e ∈ base sample_query sample_history -> er_label e <> None.
Proof.
  rewrite list_elem_of_In. vm_compute. intros Hx. by repeat destruct Hx as [<-|Hx].
Qed.

Lemma set_state_correct_witness :
  (er_id <$> selection sample_query sample_history) = [12%N] /\
  (er_id <$> selection (occurred_at 15 sample_query) sample_history) = [11%N; 12%N] /\
  ForallOrdPairs (fun x y => er_label x <> er_label y) (selection sample_query sample_history).
Proof.
  split; [vm_compute; reflexivity|]. split; [vm_compute; reflexivity|].
  destruct (set_state_correct sample_query sample_history sample_versions) as (_ & _ & Hl).
  apply Hl; [exact sample_coherent|]. intros e He. apply sample_labelled, visible_base. exact He.
Defined.

Lemma set_state_attribute_witness :
  (er_id <$> selection (attribute "pinned" sample_query) sample_history) = [12%N] /\
  selection (attribute "pinned" sample_query) sample_history
  = List.filter (fun e => sql_eq (er_attribute e) (Some "pinned"%string)) (selection sample_query sample_history).
Proof.
  split; [vm_compute; reflexivity|].
  exact (set_state_attribute sample_query "pinned" sample_history eq_refl sample_coherent
           sample_labelled sample_versions).
Defined.

Lemma set_state_total_count_witness :
  let db := with_events (fun _ => sample_history) sample_db in
  (total_count sample_query sample_ctx db).1 = Ok 1 /\
  total_count sample_query sample_ctx db
  = (Ok (Z.of_nat (length (selection sample_query (db_events db)))), db).
Proof.
  split; [vm_compute; reflexivity|].
  exact (set_state_total_count sample_query sample_ctx (with_events (fun _ => sample_history) sample_db)
           sample_coherent sample_labelled sample_versions).
Defined.

(** Unlabelled events form one group of the window function: one removed event
    hides from the count all the earlier ones, which the query returns. *)
Example total_count_unlabelled :
  let removed (e : event_row) := EventRow (er_id e) (er_room_id e) (er_kind e) (er_set e) (er_label e)
    (er_attribute e) (er_data e) (er_binary_data e) (er_occurred_at e) (er_created_by e) (er_created_at e)
    (er_deleted_at e) (er_original_occurred_at e) (er_original_created_by e) true None None in
  let events := [sample_event 10%N None 1 1; removed (sample_event 11%N None 2 2)] in
  (er_id <$> selection sample_query events) = [10%N] /\ counted sample_query events = [].
Proof. split; vm_compute; reflexivity. Qed.

(** A vacuum that deletes the original of a label splits the label: the next
    version is attributed to the oldest one left, and the state then holds the
    label twice. *)
Example vacuum_splits_label :
  let version := on_event_insert 0 [] (NewEvent 10%N 1%N "message" "messages" (Some "a"%string) None
                   (Some JNull) None 1 sample_agent None false None None) in
  let insert id occurred_at db :=
    snd <$> match insert_event occurred_at (NewEvent id 1%N "message" "messages" (Some "a"%string) None
      (Some JNull) None occurred_at sample_agent None false None None) db with Ok r => Some r | Err _ => None end in
  let db0 := with_events (fun _ => [version]) sample_db in
  let db1 := insert 11%N 10 db0 in
  let db2 := snd ∘ VacuumQuery.execute (VacuumQuery.Mk 1 0 0) sample_ctx <$> db1 in
  let db3 := db2 ≫= insert 12%N 20 in
  ((fun db => er_id <$> selection sample_query (db_events db)) <$> db1) = Some [11%N] /\
  ((fun db => er_id <$> selection sample_query (db_events db)) <$> db3) = Some [12%N; 11%N].
Proof. split; vm_compute; reflexivity. Qed.
