(* ===== verification/RoomDb.v ===== *)
(** * Rooms

    [src/src/db/room.rs]: decoding of rows, the tests handlers make on a room, the
    builder and the queries on the table [room]. *)

From S2P Require Import Prelude Times Types Db Sample.

(** ** Flag maps in [jsonb] columns *)

(** [serde_json::to_value] of a [HashMap<String, bool>]. *)
Definition locked_types_to_value (m : gmap string bool) : json :=
  JObject ((fun '(k, v) => (k, JBool v)) <$> map_to_list m).

(** [.into_iter().map(..).collect()]: a later entry replaces an earlier one. *)
Definition collect_flags {K} `{Countable K} (l : list (K * bool)) : gmap K bool :=
  foldl (fun m '(k, v) => <[k := v]> m) ∅ l.

Definition locked_types_from (v : json) : option (gmap string bool) :=
  match as_object v with
  | Some m => Some (collect_flags ((fun '(k, v) => (k, default false (as_bool v))) <$> m))
  | None => None
  end.

Section Rooms.
Context `{Externals}.

Definition whiteboard_access_to_value (m : gmap account_id bool) : json :=
  JObject ((fun '(k, v) => (account_to_string k, JBool v)) <$> map_to_list m).

(** Keys that are not account identifiers are skipped. *)
Definition whiteboard_access_from (v : json) : option (gmap account_id bool) :=
  match as_object v with
  | Some m => Some (collect_flags (omap (fun '(k, v) =>
      (fun k => (k, default false (as_bool v))) <$> account_from_str k) m))
  | None => None
  end.

(** ** [DbObject] to [Object] and back *)

Definition try_from_db_object (v : room_row) : result sqlx_error Room :=
  result_bind (ok_or (locked_types_from (rr_locked_types v)) (DecodeError "locked_types"))
    (fun locked_types =>
  result_bind (ok_or (whiteboard_access_from (rr_whiteboard_access v)) (DecodeError "whiteboard_access"))
    (fun whiteboard_access =>
  Ok (MkRoom (rr_id v) (rr_audience v) (rr_source_room_id v) (rr_time v) (rr_tags v) (rr_created_at v)
        (rr_preserve_history v) (rr_classroom_id v) locked_types whiteboard_access (rr_kind v)))).

Definition db_object_from (v : Room) : room_row :=
  RoomRow (room_id v) (room_audience v) (room_source_room_id v) (room_time v) (room_tags v)
    (room_created_at v) (room_preserve_history v) (room_classroom_id v)
    (locked_types_to_value (room_locked_types v))
    (whiteboard_access_to_value (room_whiteboard_access v)) (room_kind v).

(** ** Tests on a room *)

(** [Object::time]. *)
Definition time (self : Room) : result failure RoomTime := RoomTimeImpl.try_from (room_time self).

Definition validate_whiteboard_access (self : Room) : bool := bool_decide (room_kind self = Minigroup).

Definition authz_object (self : Room) : list string := ["classrooms"%string; uuid_to_string (room_classroom_id self)].

Definition account_has_whiteboard_access (self : Room) (account : account_id) : bool :=
  if validate_whiteboard_access self
  then bool_decide (room_whiteboard_access self !! account = Some true)
  else true.

Definition has_locked_type (self : Room) (kind : string) : bool :=
  bool_decide (room_locked_types self !! kind = Some true).

Definition event_should_authz_room_update (self : Room) (kind : string) (account : account_id) : bool :=
  has_locked_type self kind
  || ((bool_decide (kind = "draw"%string) || bool_decide (kind = "draw_lock"%string))
      && negb (account_has_whiteboard_access self account)).

(** [now] is the reading of [Utc::now()]. *)
Definition is_closed (now : Z) (self : Room) : bool :=
  match (room_time self).2 with
  | Included t => t <? now
  | Excluded t => t <=? now
  | Unbounded => false
  end.

Definition is_open (now : Z) (self : Room) : bool :=
  match room_time self with
  | (Included s, Excluded e) => (s <? now) && (now <? e)
  | (Included s, Unbounded) => s <? now
  | _ => false
  end.

End Rooms.

(** ** [Builder] *)

Module Builder.

Record t : Type := Mk {
  b_id : option uuid;
  b_audience : option string;
  b_source_room_id : option uuid;
  b_time : option BoundedDateTimeTuple;
  b_tags : option json;
  b_created_at : option Z;
  b_preserve_history : option bool;
  b_classroom_id : uuid;
  b_kind : option ClassType
}.

(** [Uuid::default()] is the nil identifier. *)
Definition new : t := Mk None None None None None None None 0%N None.

Definition build (b : t) : result string Room :=
  result_bind (ok_or (b_id b) "missing id"%string) (fun id =>
  result_bind (ok_or (b_audience b) "missing audience"%string) (fun audience =>
  result_bind (ok_or (b_time b) "missing time"%string) (fun time =>
  result_bind (ok_or (b_created_at b) "missing created_at"%string) (fun created_at =>
  result_bind (ok_or (b_preserve_history b) "missing preserve_history"%string) (fun preserve_history =>
  result_bind (ok_or (b_kind b) "missing kind"%string) (fun kind =>
  Ok (MkRoom id audience (b_source_room_id b) time (b_tags b) created_at preserve_history
        (b_classroom_id b) ∅ ∅ kind))))))).

(** The chain of setters of the queries that join [room]. *)
Definition of_row (r : room_row) : t :=
  Mk (Some (rr_id r)) (Some (rr_audience r)) (rr_source_room_id r) (Some (rr_time r)) (rr_tags r)
    (Some (rr_created_at r)) (Some (rr_preserve_history r)) (rr_classroom_id r) (Some (rr_kind r)).

End Builder.

(** ** Queries *)

Module FindQuery.

Record t : Type := Mk { fq_id : option uuid; fq_classroom_id : option uuid }.

Definition by_id (id : uuid) : t := Mk (Some id) None.
Definition by_classroom_id (classroom_id : uuid) : t := Mk None (Some classroom_id).

Definition matches (q : t) (r : room_row) : bool :=
  sql_opt (fun id => bool_decide (rr_id r = id)) (fq_id q)
  && sql_opt (fun c => bool_decide (rr_classroom_id r = c)) (fq_classroom_id q).

Definition execute `{Externals} (q : t) : query (option Room) :=
  select (fun db =>
    match list_first (matches q) (db_rooms db) with
    | Some row => result_bind (try_from_db_object row) (fun room => Ok (Some room))
    | None => Ok None
    end).

End FindQuery.

Module InsertQuery.

Record t : Type := Mk {
  iq_audience : string;
  iq_source_room_id : option uuid;
  iq_time : BoundedDateTimeTuple;
  iq_tags : option json;
  iq_preserve_history : bool;
  iq_classroom_id : uuid;
  iq_locked_types : gmap string bool;
  iq_whiteboard_access : gmap account_id bool;
  iq_kind : ClassType
}.

Definition new (audience : string) (time : BoundedDateTimeTuple) (classroom_id : uuid)
    (kind : ClassType) : t := Mk audience None time None true classroom_id ∅ ∅ kind.

Definition source_room_id (v : uuid) (q : t) : t :=
  Mk (iq_audience q) (Some v) (iq_time q) (iq_tags q) (iq_preserve_history q) (iq_classroom_id q)
    (iq_locked_types q) (iq_whiteboard_access q) (iq_kind q).
Definition tags (v : json) (q : t) : t :=
  Mk (iq_audience q) (iq_source_room_id q) (iq_time q) (Some v) (iq_preserve_history q) (iq_classroom_id q)
    (iq_locked_types q) (iq_whiteboard_access q) (iq_kind q).
Definition preserve_history (v : bool) (q : t) : t :=
  Mk (iq_audience q) (iq_source_room_id q) (iq_time q) (iq_tags q) v (iq_classroom_id q)
    (iq_locked_types q) (iq_whiteboard_access q) (iq_kind q).

Section Query.
Context `{Externals}.

Definition row (c : qctx) (q : t) : room_row :=
  RoomRow (q_uuid c 0) (iq_audience q) (iq_source_room_id q) (iq_time q) (iq_tags q) (q_now c)
    (iq_preserve_history q) (iq_classroom_id q) (locked_types_to_value (iq_locked_types q))
    (whiteboard_access_to_value (iq_whiteboard_access q)) (iq_kind q).

(** The range, the check, the primary key and the foreign key. *)
Definition violation (db : database) (r : room_row) : option string :=
  match tstzrange_error (rr_time r) with
  | Some e => Some e
  | None =>
    if existsb (fun x => bool_decide (rr_id x = rr_id r)) (db_rooms db) then Some "room_pkey"%string
    else if sql_opt (fun s => existsb (fun x => bool_decide (rr_id x = s)) (r :: db_rooms db))
              (rr_source_room_id r)
    then None
    else Some "room_source_room_id_fkey"%string
  end.

Definition execute (q : t) : query Room := fun c db =>
  let r := row c q in
  match violation db r with
  | Some e => (Err (DatabaseError e), db)
  | None => (try_from_db_object r, with_rooms (fun l => l ++ [r]) db)
  end.

End Query.
End InsertQuery.

Module UpdateQuery.

Record t : Type := Mk {
  uq_id : uuid;
  uq_time : option BoundedDateTimeTuple;
  uq_tags : option json;
  uq_classroom_id : option uuid;
  uq_locked_types : option (gmap string bool);
  uq_whiteboard_access : option (gmap account_id bool)
}.

Definition new (id : uuid) : t := Mk id None None None None None.

Definition time (v : option BoundedDateTimeTuple) (q : t) : t :=
  Mk (uq_id q) v (uq_tags q) (uq_classroom_id q) (uq_locked_types q) (uq_whiteboard_access q).
Definition tags (v : option json) (q : t) : t :=
  Mk (uq_id q) (uq_time q) v (uq_classroom_id q) (uq_locked_types q) (uq_whiteboard_access q).
Definition classroom_id (v : option uuid) (q : t) : t :=
  Mk (uq_id q) (uq_time q) (uq_tags q) v (uq_locked_types q) (uq_whiteboard_access q).
Definition locked_types (v : gmap string bool) (q : t) : t :=
  Mk (uq_id q) (uq_time q) (uq_tags q) (uq_classroom_id q) (Some v) (uq_whiteboard_access q).
Definition whiteboard_access (v : gmap account_id bool) (q : t) : t :=
  Mk (uq_id q) (uq_time q) (uq_tags q) (uq_classroom_id q) (uq_locked_types q) (Some v).

(** [m.retain(|_k, v| *v)]. *)
Definition retain {K} `{Countable K} (m : gmap K bool) : gmap K bool :=
  filter (fun kv => kv.2 = true) m.

Section Query.
Context `{Externals}.

(** The [SET] clause on one row. *)
Definition set_row (q : t) (r : room_row) : room_row :=
  RoomRow (rr_id r) (rr_audience r) (rr_source_room_id r) (default (rr_time r) (uq_time q))
    (coalesce (uq_tags q) (rr_tags r)) (rr_created_at r) (rr_preserve_history r)
    (default (rr_classroom_id r) (uq_classroom_id q))
    (default (rr_locked_types r) ((fun m => locked_types_to_value (retain m)) <$> uq_locked_types q))
    (default (rr_whiteboard_access r)
       ((fun m => whiteboard_access_to_value (retain m)) <$> uq_whiteboard_access q))
    (rr_kind r).

(** A range out of order is refused when the parameter is read; the empty range by
    the check, when a row is written. *)
Definition execute (q : t) : query Room := fun _ db =>
  let error := uq_time q ≫= tstzrange_error in
  if bool_decide (error = Some "range_lower_bound"%string) then (Err (DatabaseError "range_lower_bound"), db)
  else
    match list_first (fun r => bool_decide (rr_id r = uq_id q)) (db_rooms db) with
    | None => (Err RowNotFound, db)
    | Some r =>
      match error with
      | Some e => (Err (DatabaseError e), db)
      | None =>
        (try_from_db_object (set_row q r),
         with_rooms (fmap (fun x => if bool_decide (rr_id x = uq_id q) then set_row q x else x)) db)
      end
    end.

End Query.
End UpdateQuery.

(** ** Specification *)

(** The accounts of the map are read back from their serialization. *)
Definition accounts_parse `{Externals} (m : gmap account_id bool) : Prop :=
  forall a, is_Some (m !! a) -> account_from_str (account_to_string a) = Some a.

Definition room_ids_unique (db : database) : Prop := NoDup (rr_id <$> db_rooms db).

(** ** Lemmas *)

Lemma collect_flags_fold {K} `{Countable K} (l : list (K * bool)) (m : gmap K bool) :
  foldl (fun m '(k, v) => <[k := v]> m) m l = list_to_map (reverse l) ∪ m.
Proof.
  revert m. induction l as [|[k v] l IH]; intros m; simpl; [by rewrite (left_id_L ∅ (∪))|].
  rewrite IH, reverse_cons, list_to_map_app. simpl.
  rewrite <-(assoc_L (∪)). f_equal. by rewrite insert_empty, insert_union_singleton_l.
Qed.

(** Collecting the entries of a map gives the map. *)
Lemma collect_flags_map {K} `{Countable K} (m : gmap K bool) : collect_flags (map_to_list m) = m.
Proof.
  unfold collect_flags. rewrite collect_flags_fold, (right_id_L ∅ (∪)).
  rewrite (list_to_map_proper _ (map_to_list m)), list_to_map_to_list; [done| |].
  - rewrite fmap_reverse, reverse_Permutation. apply NoDup_fst_map_to_list.
  - apply reverse_Permutation.
Qed.

Lemma locked_types_roundtrip m : locked_types_from (locked_types_to_value m) = Some m.
Proof.
  unfold locked_types_from, locked_types_to_value. simpl. f_equal. rewrite <-list_fmap_compose.
  rewrite <-(collect_flags_map m) at 2. f_equal. rewrite <-(list_fmap_id (map_to_list m)) at 2.
  apply list_fmap_ext. by intros ? [].
Qed.

Lemma whiteboard_access_roundtrip `{Externals} m :
  accounts_parse m -> whiteboard_access_from (whiteboard_access_to_value m) = Some m.
Proof.
  intros Hp. unfold whiteboard_access_from, whiteboard_access_to_value. simpl. f_equal.
  rewrite <-(collect_flags_map m) at 2. f_equal.
  assert (Hl : forall k v, (k, v) ∈ map_to_list m -> account_from_str (account_to_string k) = Some k).
  { intros k v Hkv%elem_of_map_to_list. by apply Hp. }
  revert Hl. induction (map_to_list m) as [|[k v] l IH]; intros Hl; [done|]. simpl.
  rewrite (Hl k v) by left. simpl. f_equal. apply IH. intros k' v' ?. apply (Hl k' v'). by right.
Qed.

Lemma retain_lookup {K} `{Countable K} (m : gmap K bool) k :
  UpdateQuery.retain m !! k = Some true <-> m !! k = Some true.
Proof. unfold UpdateQuery.retain. rewrite map_lookup_filter_Some. simpl. intuition. Qed.

Lemma retain_accounts `{Externals} m : accounts_parse m -> accounts_parse (UpdateQuery.retain m).
Proof.
  intros Hp a [b Hb]. unfold UpdateQuery.retain in Hb. apply map_lookup_filter_Some in Hb as [Hb _].
  apply Hp. eauto.
Qed.

(** The first row of an identifier is the only one. *)
Lemma first_room db r id :
  room_ids_unique db -> r ∈ db_rooms db -> rr_id r = id ->
  list_first (fun x => bool_decide (rr_id x = id)) (db_rooms db) = Some r.
Proof.
  unfold room_ids_unique. induction (db_rooms db) as [|x l IH]; intros Hu Hr Hid; [by apply elem_of_nil in Hr|].
  simpl in *. apply NoDup_cons in Hu as [Hx Hu]. apply elem_of_cons in Hr as [->|Hr].
  - by rewrite bool_decide_eq_true_2.
  - rewrite bool_decide_eq_false_2; [by apply IH|]. intros Hx'. apply Hx. rewrite Hx', <-Hid.
    by apply list_elem_of_fmap_2.
Qed.

Lemma first_after_update (f : room_row -> room_row) id (l : list room_row) r :
  (forall x, rr_id (f x) = rr_id x) ->
  list_first (fun x => bool_decide (rr_id x = id)) l = Some r ->
  list_first (fun x => bool_decide (rr_id x = id)) ((fun x => if bool_decide (rr_id x = id) then f x else x) <$> l)
  = Some (f r).
Proof.
  intros Hf. induction l as [|x l IH]; simpl; [done|]. destruct (bool_decide (rr_id x = id)) eqn:E.
  - intros [= ->]. rewrite Hf, E. done.
  - rewrite E. done.
Qed.

Section Properties.
Context `{Externals}.

Lemma find_by_id_list id db :
  FindQuery.execute (FindQuery.by_id id) sample_ctx db =
  (match list_first (fun x => bool_decide (rr_id x = id)) (db_rooms db) with
   | Some row => result_bind (try_from_db_object row) (fun room => Ok (Some room))
   | None => Ok None
   end, db).
Proof.
  unfold FindQuery.execute, select. do 2 f_equal.
  assert (forall l, list_first (FindQuery.matches (FindQuery.by_id id)) l
    = list_first (fun x => bool_decide (rr_id x = id)) l) as ->; [|done].
  induction l as [|x l IH]; simpl; [done|]. unfold FindQuery.matches at 1. simpl.
  rewrite andb_true_r, IH. done.
Qed.

Lemma find_by_id_ctx id c c' db :
  FindQuery.execute (FindQuery.by_id id) c db = FindQuery.execute (FindQuery.by_id id) c' db.
Proof. done. Qed.

(** A room survives its row: decoding the row a room is stored as gives the
    room, flag maps included, when its accounts are read back from their
    serialization. *)
Theorem room_row_roundtrip (room : Room) :
  accounts_parse (room_whiteboard_access room) -> try_from_db_object (db_object_from room) = Ok room.
Proof.
  intros Hp. unfold try_from_db_object, db_object_from. cbn [rr_locked_types rr_whiteboard_access].
  rewrite locked_types_roundtrip, whiteboard_access_roundtrip by done. by destruct room.
Qed.

(** What the fields of an updated room are. *)
Definition updated (q : UpdateQuery.t) (old new : Room) : Prop :=
  room_id new = room_id old /\
  room_time new = default (room_time old) (UpdateQuery.uq_time q) /\
  room_tags new = coalesce (UpdateQuery.uq_tags q) (room_tags old) /\
  room_classroom_id new = default (room_classroom_id old) (UpdateQuery.uq_classroom_id q) /\
  room_kind new = room_kind old /\ room_audience new = room_audience old /\
  room_preserve_history new = room_preserve_history old /\
  (forall kind, has_locked_type new kind =
     match UpdateQuery.uq_locked_types q with
     | Some m => bool_decide (m !! kind = Some true)
     | None => has_locked_type old kind
     end) /\
  (forall account, room_whiteboard_access new !! account = Some true <->
     match UpdateQuery.uq_whiteboard_access q with
     | Some m => m !! account = Some true
     | None => room_whiteboard_access old !! account = Some true
     end).

Lemma set_row_updated q r old :
  (forall m, UpdateQuery.uq_whiteboard_access q = Some m -> accounts_parse m) ->
  try_from_db_object r = Ok old ->
  exists new, try_from_db_object (UpdateQuery.set_row q r) = Ok new /\ updated q old new.
Proof.
  intros Hp. unfold try_from_db_object.
  destruct (locked_types_from (rr_locked_types r)) as [lt|] eqn:Elt; simpl; [|done].
  destruct (whiteboard_access_from (rr_whiteboard_access r)) as [wa|] eqn:Ewa; simpl; [|done].
  intros [= <-].
  assert (exists lt', locked_types_from (default (rr_locked_types r)
      ((fun m => locked_types_to_value (UpdateQuery.retain m)) <$> UpdateQuery.uq_locked_types q)) = Some lt' /\
      forall kind, lt' !! kind = Some true <->
        match UpdateQuery.uq_locked_types q with
        | Some m => m !! kind = Some true | None => lt !! kind = Some true end) as (lt' & -> & Hlt).
  { destruct (UpdateQuery.uq_locked_types q) as [m|]; simpl; [|eauto].
    exists (UpdateQuery.retain m). split; [apply locked_types_roundtrip|]. intros. apply retain_lookup. }
  assert (exists wa', whiteboard_access_from (default (rr_whiteboard_access r)
      ((fun m => whiteboard_access_to_value (UpdateQuery.retain m)) <$> UpdateQuery.uq_whiteboard_access q)) = Some wa' /\
      forall a, wa' !! a = Some true <->
        match UpdateQuery.uq_whiteboard_access q with
        | Some m => m !! a = Some true | None => wa !! a = Some true end) as (wa' & -> & Hwa).
  { destruct (UpdateQuery.uq_whiteboard_access q) as [m|] eqn:Em; simpl; [|eauto].
    exists (UpdateQuery.retain m). split; [|intros; apply retain_lookup].
    apply whiteboard_access_roundtrip, retain_accounts. by apply Hp. }
  simpl. eexists. split; [done|]. unfold updated, has_locked_type. simpl. split_and!; try done.
  intros kind. specialize (Hlt kind). destruct (UpdateQuery.uq_locked_types q); by apply bool_decide_ext.
Qed.

(** What an update does.  A time PostgreSQL refuses and a room that does not
    exist are errors that change nothing; otherwise the fields given are set, the
    others kept, every other room is left alone, and reading the room again gives
    the room returned.  Dropping the [false] flags is not observable: a type is
    locked, an account has access, exactly if the request says [true]. *)
Theorem room_update_correct (q : UpdateQuery.t) (c : qctx) (db : database) (r : room_row) (old : Room) :
  room_ids_unique db -> r ∈ db_rooms db -> rr_id r = UpdateQuery.uq_id q -> try_from_db_object r = Ok old ->
  (forall m, UpdateQuery.uq_whiteboard_access q = Some m -> accounts_parse m) ->
  match UpdateQuery.uq_time q ≫= tstzrange_error with
  | Some e => UpdateQuery.execute q c db = (Err (DatabaseError e), db)
  | None =>
    exists new db', UpdateQuery.execute q c db = (Ok new, db') /\ updated q old new /\
      (FindQuery.execute (FindQuery.by_id (UpdateQuery.uq_id q)) c db').1 = Ok (Some new) /\
      (forall x, rr_id x <> UpdateQuery.uq_id q -> (x ∈ db_rooms db' <-> x ∈ db_rooms db)) /\
      (rr_id <$> db_rooms db') = (rr_id <$> db_rooms db)
  end.
Proof.
  intros Hu Hr Hid Hold Hacc. unfold UpdateQuery.execute. rewrite (first_room db r) by done.
  destruct (UpdateQuery.uq_time q ≫= tstzrange_error) as [e|]; cbv zeta.
  { destruct (decide (Some e = Some "range_lower_bound"%string)) as [[= ->]|Hn].
    - by rewrite bool_decide_eq_true_2.
    - by rewrite bool_decide_eq_false_2. }
  rewrite bool_decide_eq_false_2 by done.
  destruct (set_row_updated q r old Hacc Hold) as (new & Hnew & Hupd). rewrite Hnew.
  eexists new, _. split; [done|]. split_and!; [done| | |].
  - rewrite (find_by_id_ctx _ c sample_ctx), find_by_id_list. simpl.
    rewrite (first_after_update (UpdateQuery.set_row q) _ _ r); [|done|by apply first_room].
    rewrite Hnew. done.
  - intros x Hx. simpl. rewrite list_elem_of_fmap. split.
    + intros (y & -> & Hy). case_bool_decide; [|done]. simpl in Hx. done.
    + intros Hin. exists x. by rewrite bool_decide_eq_false_2.
  - simpl. rewrite <-list_fmap_compose. apply list_fmap_ext. intros i x _. simpl. by case_bool_decide.
Qed.

(** When a room is open.  A room whose time is a [RoomTime] is open strictly
    between its opening and its closing and closed from its closing on; it is
    never both, and it is neither only until, and at, its opening. *)
Theorem room_open_closed (now : Z) (room : Room) (t : RoomTime) :
  time room = Ok t ->
  (is_open now room = true <-> rt_start t < now /\ match rt_end t with RtExcluded e => now < e | RtUnbounded => True end) /\
  (is_closed now room = true <-> exists e, rt_end t = RtExcluded e /\ e <= now) /\
  (is_open now room = true -> is_closed now room = false) /\
  (is_open now room = false -> is_closed now room = false -> now <= rt_start t).
Proof.
  unfold time, RoomTimeImpl.try_from, RoomTimeImpl.new, is_open, is_closed.
  destruct (room_time room) as [[s|s|] [e|e|]]; simpl; try done;
    repeat case_match; try done; intros [= <-]; simpl; split_and!; try naive_solver lia.
Qed.
End Properties.

(** Room 1 as an object, with a locked type and an account at the whiteboard. *)
Definition sample_room : Room :=
  MkRoom 1%N "example.org" None (Included nanos_per_sec, Unbounded) None 0 false 7%N
    {["message"%string := true]} {[sample_account := true]} Minigroup.

Lemma room_row_roundtrip_witness : try_from_db_object (db_object_from sample_room) = Ok sample_room.
Proof.
  apply room_row_roundtrip. intros a [b Hb]. simpl in Hb.
  apply lookup_singleton_Some in Hb as [<- _]. vm_compute. reflexivity.
Defined.

(** Locking [chat] and unlocking [message] on room 1. *)
Lemma room_update_correct_witness :
  let db := with_rooms (fun _ => [sample_room_row]) empty_database in
  let q := UpdateQuery.locked_types {["chat"%string := true; "message"%string := false]} (UpdateQuery.new 1%N) in
  exists old new db', try_from_db_object sample_room_row = Ok old /\
    UpdateQuery.execute q sample_ctx db = (Ok new, db') /\
    has_locked_type new "chat" = true /\ has_locked_type new "message" = false /\
    (FindQuery.execute (FindQuery.by_id 1%N) sample_ctx db').1 = Ok (Some new).
Proof.
  intros db q.
  assert (Hold : exists old, try_from_db_object sample_room_row = Ok old) by (eexists; vm_compute; reflexivity).
  destruct Hold as [old Hold].
  destruct (room_update_correct q sample_ctx db sample_room_row old) as (new & db' & Hex & Hup & Hfind & _);
    [unfold room_ids_unique; by_evaluation|apply list_elem_of_singleton; reflexivity|reflexivity|exact Hold|
     intros m Hm; discriminate Hm|].
  exists old, new, db'. destruct Hup as (_ & _ & _ & _ & _ & _ & _ & Hlt & _).
  rewrite !Hlt. split; [exact Hold|]. split; [exact Hex|]. split; [vm_compute; reflexivity|].
  split; [vm_compute; reflexivity|exact Hfind].
Defined.

Lemma room_open_closed_witness :
  let t := MkRoomTime nanos_per_sec (RtExcluded (5 * nanos_per_sec)) in
  let room := MkRoom 1%N "example.org" None (RoomTimeImpl.into_tuple t) None 0 false 7%N ∅ ∅ Minigroup in
  is_open (2 * nanos_per_sec) room = true /\
  (is_open (2 * nanos_per_sec) room = true -> is_closed (2 * nanos_per_sec) room = false).
Proof.
  intros t room. split; [vm_compute; reflexivity|].
  apply (room_open_closed (2 * nanos_per_sec) room t). vm_compute. reflexivity.
Defined.
