(* ===== verification/EditionDb.v ===== *)
(** * Editions and changes

    [src/src/db/edition.rs] and [src/src/db/change.rs], with the constraints of
    the tables [edition] and [change]. *)

From S2P Require Import Prelude Times Types Db Sample RoomDb.

(** [usize as i32]. *)
Definition as_i32 (z : Z) : Z := (z + 2 ^ 31) mod 2 ^ 32 - 2 ^ 31.

Module EditionQueries.

(** The room of an edition, as the join with [room] builds it: without flags. *)
Definition room_of (row : room_row) : result sqlx_error Room :=
  match RoomDb.Builder.build (RoomDb.Builder.of_row row) with
  | Ok room => Ok room
  | Err e => Err (DecodeError e)
  end.

(** [FindWithRoomQuery]. *)
Definition find_with_room (id : uuid) : query (option (Edition * Room)) :=
  select (fun db =>
    match list_first (fun p => bool_decide (edition_id p.1 = id))
            (e ← db_editions db; r ← List.filter (fun r => bool_decide (rr_id r = edition_source_room_id e)) (db_rooms db);
             mret (e, r)) with
    | None => Ok None
    | Some (e, r) => result_bind (room_of r) (fun room => Ok (Some (e, room)))
    end).

(** [InsertQuery]. *)
Definition insert (source_room_id : uuid) (created_by : agent_id) : query Edition := fun c db =>
  let e := MkEdition (q_uuid c 0) source_room_id created_by (q_now c) in
  if existsb (fun x => bool_decide (edition_id x = edition_id e)) (db_editions db)
  then (Err (DatabaseError "edition_pkey"), db)
  else if existsb (fun r => bool_decide (rr_id r = source_room_id)) (db_rooms db)
  then (Ok e, with_editions (fun l => l ++ [e]) db)
  else (Err (DatabaseError "edition_source_room_id_fkey"), db).

(** [ListQuery]. *)
Record list_query : Type := ListQ {
  lq_source_room_id : uuid;
  lq_last_created_at : option Z;
  lq_limit : Z
}.

Definition list_new (source_room_id : uuid) : list_query := ListQ source_room_id None 25.
Definition list_limit (v : Z) (q : list_query) : list_query :=
  ListQ (lq_source_room_id q) (lq_last_created_at q) v.
Definition list_last_created_at (v : Z) (q : list_query) : list_query :=
  ListQ (lq_source_room_id q) (Some v) (lq_limit q).

Definition list_matches (q : list_query) (e : Edition) : bool :=
  bool_decide (edition_source_room_id e = lq_source_room_id q)
  && (default 0 (lq_last_created_at q) <? edition_created_at e).

Definition list_rows (q : list_query) (l : list Edition) : result sqlx_error (list Edition) :=
  limit_rows (lq_limit q) (sort_by (desc (by_key edition_created_at)) (List.filter (list_matches q) l)).

Definition list (q : list_query) : query (list Edition) := select (fun db => list_rows q (db_editions db)).

(** [DeleteQuery]: the number of rows deleted; the changes of the edition go with
    it ([ON DELETE CASCADE]). *)
Definition delete (id : uuid) : query Z := fun _ db =>
  let gone := List.filter (fun e => bool_decide (edition_id e = id)) (db_editions db) in
  (Ok (Z.of_nat (length gone)),
   with_changes (List.filter (fun c => negb (existsb (fun e => bool_decide (edition_id e = change_edition_id c)) gone)))
     (with_editions (List.filter (fun e => negb (bool_decide (edition_id e = id)))) db)).

End EditionQueries.

Module ChangeQueries.

(** [FindWithRoomQuery]. *)
Definition find_with_room (id : uuid) : query (option (Change * Room)) :=
  select (fun db =>
    match list_first (fun p => bool_decide (change_id p.1 = id))
            (c ← db_changes db;
             e ← List.filter (fun e => bool_decide (edition_id e = change_edition_id c)) (db_editions db);
             r ← List.filter (fun r => bool_decide (rr_id r = edition_source_room_id e)) (db_rooms db);
             mret (c, r)) with
    | None => Ok None
    | Some (c, r) => result_bind (EditionQueries.room_of r) (fun room => Ok (Some (c, room)))
    end).

(** [InsertQuery]. *)
Record insert_query : Type := InsertQ {
  iq_edition_id : uuid;
  iq_kind : ChangeType;
  iq_event_id : option uuid;
  iq_event_kind : option string;
  iq_event_set : option string;
  iq_event_label : option string;
  iq_event_data : option json;
  iq_event_occurred_at : option Z;
  iq_event_created_by : option agent_id
}.

Definition insert_new (edition_id : uuid) (kind : ChangeType) : insert_query :=
  InsertQ edition_id kind None None None None None None None.
Definition event_id (v : uuid) (q : insert_query) : insert_query :=
  InsertQ (iq_edition_id q) (iq_kind q) (Some v) (iq_event_kind q) (iq_event_set q) (iq_event_label q)
    (iq_event_data q) (iq_event_occurred_at q) (iq_event_created_by q).
Definition event_kind (v : string) (q : insert_query) : insert_query :=
  InsertQ (iq_edition_id q) (iq_kind q) (iq_event_id q) (Some v) (iq_event_set q) (iq_event_label q)
    (iq_event_data q) (iq_event_occurred_at q) (iq_event_created_by q).
Definition event_set (v : option string) (q : insert_query) : insert_query :=
  InsertQ (iq_edition_id q) (iq_kind q) (iq_event_id q) (iq_event_kind q) v (iq_event_label q)
    (iq_event_data q) (iq_event_occurred_at q) (iq_event_created_by q).
Definition event_label (v : option string) (q : insert_query) : insert_query :=
  InsertQ (iq_edition_id q) (iq_kind q) (iq_event_id q) (iq_event_kind q) (iq_event_set q) v
    (iq_event_data q) (iq_event_occurred_at q) (iq_event_created_by q).
Definition event_data (v : json) (q : insert_query) : insert_query :=
  InsertQ (iq_edition_id q) (iq_kind q) (iq_event_id q) (iq_event_kind q) (iq_event_set q) (iq_event_label q)
    (Some v) (iq_event_occurred_at q) (iq_event_created_by q).
Definition event_occurred_at (v : Z) (q : insert_query) : insert_query :=
  InsertQ (iq_edition_id q) (iq_kind q) (iq_event_id q) (iq_event_kind q) (iq_event_set q) (iq_event_label q)
    (iq_event_data q) (Some v) (iq_event_created_by q).
Definition event_created_by (v : agent_id) (q : insert_query) : insert_query :=
  InsertQ (iq_edition_id q) (iq_kind q) (iq_event_id q) (iq_event_kind q) (iq_event_set q) (iq_event_label q)
    (iq_event_data q) (iq_event_occurred_at q) (Some v).

(** The check [event_data_and_event_id_present]; a [NULL] check passes. *)
Definition check_presence (c : Change) : bool :=
  match change_kind c with
  | Addition =>
    bool_decide (change_event_id c = None) && bool_decide (is_Some (change_event_kind c))
    && bool_decide (is_Some (change_event_data c)) && bool_decide (is_Some (change_event_occurred_at c))
    && bool_decide (is_Some (change_event_created_by c))
  | Modification =>
    bool_decide (is_Some (change_event_id c))
    && (bool_decide (is_Some (change_event_kind c)) || bool_decide (is_Some (change_event_set c))
        || bool_decide (is_Some (change_event_label c)) || bool_decide (is_Some (change_event_data c))
        || bool_decide (is_Some (change_event_occurred_at c)) || bool_decide (is_Some (change_event_created_by c)))
  | Removal => bool_decide (is_Some (change_event_id c))
  | BulkRemoval => true
  end.

(** The check, the primary key and the two foreign keys. *)
Definition violation (db : database) (c : Change) : option string :=
  if negb (check_presence c) then Some "event_data_and_event_id_present"%string
  else if existsb (fun x => bool_decide (change_id x = change_id c)) (db_changes db)
  then Some "change_pkey"%string
  else if negb (existsb (fun e => bool_decide (edition_id e = change_edition_id c)) (db_editions db))
  then Some "change_edition_id_fkey"%string
  else if sql_opt (fun i => existsb (fun e => bool_decide (er_id e = i)) (db_events db)) (change_event_id c)
  then None
  else Some "change_event_id_fkey"%string.

Definition row (c : qctx) (q : insert_query) : Change :=
  MkChange (q_uuid c 0) (iq_edition_id q) (iq_kind q) (iq_event_id q) (iq_event_kind q) (iq_event_set q)
    (iq_event_label q) (iq_event_data q) (iq_event_occurred_at q) (iq_event_created_by q) (q_now c).

Definition insert (q : insert_query) : query Change := fun c db =>
  match violation db (row c q) with
  | Some e => (Err (DatabaseError e), db)
  | None => (Ok (row c q), with_changes (fun l => l ++ [row c q]) db)
  end.

(** [ListQuery]. *)
Definition DEFAULT_LIST_LIMIT : Z := 25.

Record list_query : Type := ListQ {
  lq_id : uuid;
  lq_last_created_at : option Z;
  lq_kind : option string;
  lq_limit : Z
}.

Definition list_new (id : uuid) : list_query := ListQ id None None DEFAULT_LIST_LIMIT.
Definition list_limit (v : Z) (q : list_query) : list_query := ListQ (lq_id q) (lq_last_created_at q) (lq_kind q) v.
Definition list_kind (v : string) (q : list_query) : list_query :=
  ListQ (lq_id q) (lq_last_created_at q) (Some v) (lq_limit q).
Definition list_last_created_at (v : Z) (q : list_query) : list_query :=
  ListQ (lq_id q) (Some v) (lq_kind q) (lq_limit q).

Definition list_matches (q : list_query) (c : Change) : bool :=
  bool_decide (change_edition_id c = lq_id q)
  && sql_opt (fun k => sql_eq (change_event_kind c) (Some k)) (lq_kind q)
  && sql_opt (fun t => t <? change_created_at c) (lq_last_created_at q).

Definition list_rows (q : list_query) (l : list Change) : result sqlx_error (list Change) :=
  limit_rows (as_i32 (lq_limit q))
    (sort_by (desc (by_key change_created_at)) (List.filter (list_matches q) l)).

Definition list (q : list_query) : query (list Change) := select (fun db => list_rows q (db_changes db)).

(** [DeleteQuery]. *)
Definition delete (id : uuid) : query unit := fun _ db =>
  (Ok tt, with_changes (List.filter (fun c => negb (bool_decide (change_id c = id)))) db).

End ChangeQueries.
