(* ===== verification/AgentDb.v ===== *)
(** * Agents, bans and adjustments

    [src/src/db/agent.rs], [src/src/db/room_ban.rs] and
    [src/src/db/adjustment.rs], with the constraints of their tables. *)

From S2P Require Import Prelude Times Types Db Sample EditionDb.

(** [OFFSET n]; a negative offset is an error. *)
Definition offset_rows {A} (n : Z) (l : list A) : result sqlx_error (list A) :=
  if n <? 0 then Err (DatabaseError "negative offset") else Ok (drop (Z.to_nat n) l).

Definition as_i64 (z : Z) : Z := wrap64 z.

(** Whether a room of this identifier exists: the foreign key [room_id]. *)
Definition room_exists (db : database) (id : uuid) : bool :=
  existsb (fun r => bool_decide (rr_id r = id)) (db_rooms db).

Module AgentQueries.

(** The unique key [(agent_id, room_id)]. *)
Definition is_agent (agent_id : agent_id) (room_id : uuid) (a : Agent) : bool :=
  bool_decide (ag_agent_id a = agent_id) && bool_decide (ag_room_id a = room_id).

(** [LEFT OUTER JOIN room_ban]. *)
Definition with_bans (bans : list RoomBan) (a : Agent) : list AgentWithBan :=
  match List.filter (fun b => bool_decide (ban_room_id b = ag_room_id a)
                              && bool_decide (ban_account_id b = agent_account (ag_agent_id a))) bans with
  | [] => [MkAgentWithBan a (Some false) None]
  | l => (fun b => MkAgentWithBan a (Some true) (ban_reason b)) <$> l
  end.

(** [ListWithBansQuery]. *)
Definition list_with_bans (room_id : uuid) (status : Status) (offset limit : Z) : query (list AgentWithBan) :=
  select (fun db =>
    let rows := a ← List.filter (fun a => bool_decide (ag_room_id a = room_id)
                                          && bool_decide (ag_status a = status)) (db_agents db);
                with_bans (db_bans db) a in
    result_bind (offset_rows (as_i64 offset)
      (sort_by (desc (by_key (fun a => ag_created_at (awb_agent a)))) rows)) (fun rows =>
    limit_rows (as_i64 limit) rows)).

(** [FindWithBanQuery]. *)
Definition find_with_ban (agent_id : agent_id) (room_id : uuid) : query (option AgentWithBan) :=
  select (fun db =>
    Ok (head (a ← List.filter (is_agent agent_id room_id) (db_agents db); with_bans (db_bans db) a))).

(** [InsertQuery]: an agent that is already in the room gets the status. *)
Definition insert_as (status : Status) (agent_id : agent_id) (room_id : uuid) : query Agent := fun c db =>
  let a := MkAgent (q_uuid c 0) agent_id room_id status (q_now c) in
  let set_status (x : Agent) := MkAgent (ag_id x) (ag_agent_id x) (ag_room_id x) status (ag_created_at x) in
  match list_first (is_agent agent_id room_id) (db_agents db) with
  | Some x =>
    (Ok (set_status x),
     with_agents (fmap (fun x => if is_agent agent_id room_id x then set_status x else x)) db)
  | None =>
    if existsb (fun x => bool_decide (ag_id x = ag_id a)) (db_agents db)
    then (Err (DatabaseError "agent_pkey"), db)
    else if room_exists db room_id
    then (Ok a, with_agents (fun l => l ++ [a]) db)
    else (Err (DatabaseError "agent_room_id_fkey"), db)
  end.

(** The status of [InsertQuery::new]; only the tests set another. *)
Definition insert : agent_id -> uuid -> query Agent := insert_as InProgress.

(** [UpdateQuery]: [None] as a status violates [NOT NULL]. *)
Definition update (agent_id : agent_id) (room_id : uuid) (status : option Status) : query (option Agent) :=
  fun _ db =>
  match list_first (is_agent agent_id room_id) (db_agents db), status with
  | None, _ => (Ok None, db)
  | Some _, None => (Err (DatabaseError "agent_status_not_null"), db)
  | Some x, Some status =>
    let set_status (x : Agent) := MkAgent (ag_id x) (ag_agent_id x) (ag_room_id x) status (ag_created_at x) in
    (Ok (Some (set_status x)),
     with_agents (fmap (fun x => if is_agent agent_id room_id x then set_status x else x)) db)
  end.

(** [DeleteQuery]. *)
Definition delete (agent_id : agent_id) (room_id : uuid) : query Z := fun _ db =>
  (Ok (Z.of_nat (length (List.filter (is_agent agent_id room_id) (db_agents db)))),
   with_agents (List.filter (fun a => negb (is_agent agent_id room_id a))) db).

(** [ListQuery], which only the tests use; they give no limit and no offset. *)
Definition list (agent_id : option agent_id) (room_id : option uuid) (status : option Status) : query (list Agent) :=
  select (fun db => Ok (sort_by (desc (by_key ag_created_at)) (List.filter (fun a =>
    match agent_id with Some v => bool_decide (ag_agent_id a = v) | None => true end
    && match room_id with Some v => bool_decide (ag_room_id a = v) | None => true end
    && match status with Some v => bool_decide (ag_status a = v) | None => true end) (db_agents db)))).

End AgentQueries.

Module BanQueries.

(** The unique key [(account_id, room_id)]. *)
Definition is_ban (account_id : account_id) (room_id : uuid) (b : RoomBan) : bool :=
  bool_decide (ban_account_id b = account_id) && bool_decide (ban_room_id b = room_id).

(** [InsertQuery]: an existing ban is returned as it is. *)
Definition insert (account_id : account_id) (room_id : uuid) (reason : option string) : query RoomBan :=
  fun c db =>
  let b := MkRoomBan (q_uuid c 0) account_id room_id (q_now c) reason in
  match list_first (is_ban account_id room_id) (db_bans db) with
  | Some x => (Ok x, db)
  | None =>
    if existsb (fun x => bool_decide (ban_id x = ban_id b)) (db_bans db)
    then (Err (DatabaseError "room_ban_pkey"), db)
    else if room_exists db room_id
    then (Ok b, with_bans (fun l => l ++ [b]) db)
    else (Err (DatabaseError "room_ban_room_id_fkey"), db)
  end.

(** [UPPER(time) IS NULL]: the range has no upper bound. *)
Definition endless (r : room_row) : bool :=
  match (rr_time r).2 with Unbounded => true | _ => false end.

(** The subquery: the latest endless room of the classroom. *)
Definition classroom_room (classroom_id : uuid) (db : database) : option room_row :=
  head (sort_by (desc (by_key rr_created_at))
    (List.filter (fun r => bool_decide (rr_classroom_id r = classroom_id) && endless r) (db_rooms db))).

(** [ClassroomFindQuery]: a ban in the latest endless room of the classroom. *)
Definition classroom_find (account_id : account_id) (classroom_id : uuid) : query (option RoomBan) :=
  select (fun db =>
    Ok (match classroom_room classroom_id db with
        | Some r => list_first (is_ban account_id (rr_id r)) (db_bans db)
        | None => None
        end)).

(** [DeleteQuery]. *)
Definition delete (account_id : account_id) (room_id : uuid) : query Z := fun _ db =>
  (Ok (Z.of_nat (length (List.filter (is_ban account_id room_id) (db_bans db)))),
   with_bans (List.filter (fun b => negb (is_ban account_id room_id b))) db).

(** [ListQuery]. *)
Definition list (room_id : uuid) : query (list RoomBan) :=
  select (fun db => Ok (List.filter (fun b => bool_decide (ban_room_id b = room_id)) (db_bans db))).

End BanQueries.

Module AdjustmentQueries.

(** PostgreSQL refuses a range of [int8] whose lower bound exceeds its upper one,
    and stores the others in canonical form: closed on the left, open on the
    right, with the empty range for no element. *)
Definition int8range_canonical (r : Bound Z * Bound Z) : option (Bound Z * Bound Z) :=
  let '(lo, hi) := r in
  match lo, hi with
  | (Included a | Excluded a), (Included b | Excluded b) =>
    if b <? a then None
    else
      let a' := match lo with Excluded _ => a + 1 | _ => a end in
      let b' := match hi with Included _ => b + 1 | _ => b end in
      Some (if a' <? b' then (Included a', Excluded b') else (Excluded a', Excluded a'))
  | Excluded a, Unbounded => Some (Included (a + 1), Unbounded)
  | Unbounded, Included b => Some (Unbounded, Excluded (b + 1))
  | _, _ => Some r
  end.

(** [InsertQuery]. *)
Definition insert (room_id : uuid) (started_at : Z) (segments : Segments) (offset : Z) : query Adjustment :=
  fun c db =>
  match mapM int8range_canonical segments with
  | None => (Err (DatabaseError "range_lower_bound"), db)
  | Some segments =>
    let a := MkAdjustment room_id started_at segments offset (q_now c) in
    if existsb (fun x => bool_decide (adj_room_id x = room_id)) (db_adjustments db)
    then (Err (DatabaseError "adjustment_pkey"), db)
    else if room_exists db room_id
    then (Ok a, with_adjustments (fun l => l ++ [a]) db)
    else (Err (DatabaseError "adjustment_room_id_fkey"), db)
  end.

End AdjustmentQueries.
