(* ===== verification/Integrity.v ===== *)
(** * Integrity of the database

    The keys, foreign keys and checks of [src/migrations] as one invariant, and
    the statements of [src/src/db] as the steps that preserve it. *)

From S2P Require Import Prelude Times Types Db Sample EventDb RoomDb EditionDb AgentDb.

Create HintDb integrity.

(** ** Keys and references *)

Definition unique {A B} (key : A -> B) (l : list A) : Prop := NoDup (key <$> l).

(** Every row that refers to something refers to one of [keys]. *)
Definition refs {A B} (ref : A -> option B) (l : list A) (keys : list B) : Prop :=
  forall x k, x ∈ l -> ref x = Some k -> k ∈ keys.

Definition agent_key (a : Agent) : agent_id * uuid := (ag_agent_id a, ag_room_id a).
(** The entity of another service an event records. *)
Definition entity_key (e : event_row) : option (string * Z) :=
  t ← er_entity_type e; i ← er_entity_event_id e; Some (t, i).
Definition ban_key (b : RoomBan) : account_id * uuid := (ban_account_id b, ban_room_id b).

Record integrity (db : database) : Prop := Integrity {
  key_rooms : unique rr_id (db_rooms db);
  key_events : unique er_id (db_events db);
  key_event_entity : NoDup (omap entity_key (db_events db));
  key_editions : unique edition_id (db_editions db);
  key_changes : unique change_id (db_changes db);
  key_agents : unique ag_id (db_agents db);
  key_agent_room : unique agent_key (db_agents db);
  key_bans : unique ban_id (db_bans db);
  key_account_room : unique ban_key (db_bans db);
  key_adjustments : unique adj_room_id (db_adjustments db);
  ref_source_room : refs rr_source_room_id (db_rooms db) (rr_id <$> db_rooms db);
  ref_event_room : refs (Some ∘ er_room_id) (db_events db) (rr_id <$> db_rooms db);
  ref_edition_room : refs (Some ∘ edition_source_room_id) (db_editions db) (rr_id <$> db_rooms db);
  ref_change_edition : refs (Some ∘ change_edition_id) (db_changes db) (edition_id <$> db_editions db);
  ref_change_event : refs change_event_id (db_changes db) (er_id <$> db_events db);
  ref_agent_room : refs (Some ∘ ag_room_id) (db_agents db) (rr_id <$> db_rooms db);
  ref_ban_room : refs (Some ∘ ban_room_id) (db_bans db) (rr_id <$> db_rooms db);
  ref_adjustment_room : refs (Some ∘ adj_room_id) (db_adjustments db) (rr_id <$> db_rooms db);
  check_changes : forall c, c ∈ db_changes db -> ChangeQueries.check_presence c = true
}.

(** ** Statements *)

(** The statements that change the database. *)
Inductive statement `{Externals, EventCodec} : Type :=
  | InsertRoom (q : RoomDb.InsertQuery.t)
  | UpdateRoom (q : RoomDb.UpdateQuery.t)
  | InsertEvent (q : EventDb.InsertQuery.t)
  | InsertEvents (news : list new_event)
  | DeleteEvents (room_id : uuid) (kind : string)
  | Vacuum (q : VacuumQuery.t)
  | InsertEdition (source_room_id : uuid) (created_by : agent_id)
  | DeleteEdition (id : uuid)
  | InsertChange (q : ChangeQueries.insert_query)
  | DeleteChange (id : uuid)
  | InsertAgent (agent_id : agent_id) (room_id : uuid)
  | UpdateAgent (agent_id : agent_id) (room_id : uuid) (status : option Status)
  | DeleteAgent (agent_id : agent_id) (room_id : uuid)
  | InsertBan (account_id : account_id) (room_id : uuid) (reason : option string)
  | DeleteBan (account_id : account_id) (room_id : uuid)
  | InsertAdjustment (room_id : uuid) (started_at : Z) (segments : Segments) (offset : Z).

Definition run_statement `{Externals, EventCodec} (s : statement) (c : qctx) (db : database) : database :=
  match s with
  | InsertRoom q => (RoomDb.InsertQuery.execute q c db).2
  | UpdateRoom q => (RoomDb.UpdateQuery.execute q c db).2
  | InsertEvent q => (EventDb.InsertQuery.execute q c db).2
  | InsertEvents news => match insert_events (q_now c) news db with Ok db' => db' | Err _ => db end
  | DeleteEvents room_id kind => (DeleteQuery.execute room_id kind c db).2
  | Vacuum q => (VacuumQuery.execute q c db).2
  | InsertEdition source_room_id created_by => (EditionQueries.insert source_room_id created_by c db).2
  | DeleteEdition id => (EditionQueries.delete id c db).2
  | InsertChange q => (ChangeQueries.insert q c db).2
  | DeleteChange id => (ChangeQueries.delete id c db).2
  | InsertAgent agent_id room_id => (AgentQueries.insert agent_id room_id c db).2
  | UpdateAgent agent_id room_id status => (AgentQueries.update agent_id room_id status c db).2
  | DeleteAgent agent_id room_id => (AgentQueries.delete agent_id room_id c db).2
  | InsertBan account_id room_id reason => (BanQueries.insert account_id room_id reason c db).2
  | DeleteBan account_id room_id => (BanQueries.delete account_id room_id c db).2
  | InsertAdjustment room_id started_at segments offset =>
    (AdjustmentQueries.insert room_id started_at segments offset c db).2
  end.

Definition statement_step `{Externals, EventCodec} (db db' : database) : Prop :=
  exists s c, db' = run_statement s c db.

(** An event of another service's entity is of the kind of the entity. *)
Definition entity_is_kind (entity_type : option string) (kind : string) : bool :=
  match entity_type with Some t => bool_decide (t = kind) | None => true end.

(** The statements of the service but the vacuum: they delete no events, apart from
    the cuts of the stream. *)
Definition lasting `{Externals, EventCodec} (s : statement) : bool :=
  match s with
  | Vacuum _ => false
  | DeleteEvents _ kind => bool_decide (kind = "stream"%string)
  | InsertEvent q => entity_is_kind (EventDb.InsertQuery.iq_entity_type q) (EventDb.InsertQuery.iq_kind q)
  | InsertEvents news => forallb (fun new => entity_is_kind (ne_entity_type new) (ne_kind new)) news
  | _ => true
  end.

Definition lasting_step `{Externals, EventCodec} (db db' : database) : Prop :=
  exists s c, lasting s = true /\ db' = run_statement s c db.

(** ** Lemmas *)

Section Tables.
Context {A B : Type}.
Implicit Types (l : list A) (key : A -> B) (ref : A -> option B) (keys : list B) (p : A -> bool).

Lemma unique_snoc key l x : unique key l -> key x ∉ (key <$> l) -> unique key (l ++ [x]).
Proof.
  unfold unique. intros Hl Hx. rewrite fmap_app, NoDup_app. simpl. split_and!; [done| |apply NoDup_singleton].
  intros y Hy Hy'%list_elem_of_singleton. by subst.
Qed.

Lemma unique_filter key l p : unique key l -> unique key (List.filter p l).
Proof.
  unfold unique. induction l as [|x l IH]; simpl; [done|]. intros [Hx Hl]%NoDup_cons.
  destruct (p x); simpl; [|auto]. apply NoDup_cons. split; [|auto].
  intros (y & Hy & [Hin _]%elem_of_lfilter)%list_elem_of_fmap. apply Hx. rewrite Hy. by apply list_elem_of_fmap_2.
Qed.

Lemma unique_update key l (f : A -> A) : (forall x, key (f x) = key x) -> unique key l -> unique key (f <$> l).
Proof.
  unfold unique. intros Hf. enough (key <$> (f <$> l) = key <$> l) as -> by done.
  rewrite <-list_fmap_compose. apply list_fmap_ext. intros. apply Hf.
Qed.

Lemma refs_snoc ref l keys x :
  refs ref l keys -> (forall k, ref x = Some k -> k ∈ keys) -> refs ref (l ++ [x]) keys.
Proof. intros Hl Hx y k [Hy| ->%list_elem_of_singleton]%elem_of_app; [by apply Hl|apply Hx]. Qed.

Lemma refs_filter ref l keys p : refs ref l keys -> refs ref (List.filter p l) keys.
Proof. intros Hl y k [Hy _]%elem_of_lfilter. by apply Hl. Qed.

Lemma refs_update ref l keys (f : A -> A) : (forall x, ref (f x) = ref x) -> refs ref l keys -> refs ref (f <$> l) keys.
Proof. intros Hf Hl y k (x & -> & Hx)%list_elem_of_fmap. rewrite Hf. by apply Hl. Qed.

Lemma refs_more ref l keys keys' : (forall k, k ∈ keys -> k ∈ keys') -> refs ref l keys -> refs ref l keys'.
Proof. intros Hk Hl y k Hy Hr. eauto. Qed.
End Tables.

Lemma refs_more_snoc {A B C} (ref : A -> option B) l (key : C -> B) rows x :
  refs ref l (key <$> rows) -> refs ref l (key <$> (rows ++ [x])).
Proof. apply refs_more. intros k Hk. rewrite fmap_app. apply elem_of_app. by left. Qed.

Lemma existsb_key {A B} `{EqDecision B} (key : A -> B) (l : list A) k :
  existsb (fun x => bool_decide (key x = k)) l = true <-> k ∈ (key <$> l).
Proof.
  rewrite existsb_exists, list_elem_of_fmap. split.
  - intros (x & Hx%list_elem_of_In & <-%bool_decide_eq_true). eauto.
  - intros (x & -> & Hx). exists x. rewrite <-list_elem_of_In, bool_decide_eq_true. done.
Qed.

Lemma existsb_key_false {A B} `{EqDecision B} (key : A -> B) (l : list A) k :
  existsb (fun x => bool_decide (key x = k)) l = false <-> k ∉ (key <$> l).
Proof. rewrite <-existsb_key. by rewrite not_true_iff_false. Qed.

Lemma list_first_none_key {A B} `{EqDecision B} (key : A -> B) (p : A -> bool) (l : list A) k :
  (forall x, key x = k -> p x = true) -> list_first p l = None -> k ∉ (key <$> l).
Proof.
  intros Hp Hn%list_first_None (x & -> & Hx)%list_elem_of_fmap. rewrite Forall_forall in Hn.
  specialize (Hn x Hx). rewrite Hp in Hn; done.
Qed.

Lemma NoDup_omap_snoc {A B} (f : A -> option B) (l : list A) x :
  NoDup (omap f l) -> (forall b, f x = Some b -> b ∉ omap f l) -> NoDup (omap f (l ++ [x])).
Proof.
  intros Hl Hx. rewrite omap_app. apply NoDup_app. split_and!; [done|..]; simpl.
  - intros b Hb. destruct (f x) as [b'|] eqn:E; [|apply not_elem_of_nil].
    intros ->%list_elem_of_singleton. by eapply Hx.
  - destruct (f x); [apply NoDup_singleton|apply NoDup_nil_2].
Qed.

Lemma NoDup_omap_filter {A B} (f : A -> option B) (l : list A) (p : A -> bool) :
  NoDup (omap f l) -> NoDup (omap f (List.filter p l)).
Proof.
  induction l as [|x l IH]; csimpl; [done|]. intros Hl.
  destruct (p x); csimpl; destruct (f x) as [b|] eqn:E; try (apply NoDup_cons in Hl as [Hb Hl]); auto.
  apply NoDup_cons. split; [|auto].
  intros (y & [Hy _]%elem_of_lfilter & Hf)%list_elem_of_omap. apply Hb, list_elem_of_omap. eauto.
Qed.

#[export] Hint Resolve NoDup_omap_snoc NoDup_omap_filter unique_snoc unique_filter unique_update refs_snoc refs_filter refs_update
  refs_more_snoc : integrity.

(** ** Preservation, table by table *)

Ltac keep H := destruct H; constructor; simpl; eauto with integrity.

Lemma add_room db r :
  integrity db -> rr_id r ∉ (rr_id <$> db_rooms db) ->
  (forall s, rr_source_room_id r = Some s -> s = rr_id r \/ s ∈ (rr_id <$> db_rooms db)) ->
  integrity (with_rooms (fun l => l ++ [r]) db).
Proof.
  intros H Hk Hs. keep H. apply refs_snoc; [by apply refs_more_snoc|].
  intros s Hr. rewrite fmap_app. apply elem_of_app. simpl. rewrite list_elem_of_singleton.
  destruct (Hs s Hr); auto.
Qed.

Lemma set_rooms db (f : room_row -> room_row) :
  integrity db -> (forall r, rr_id (f r) = rr_id r) ->
  (forall r, rr_source_room_id (f r) = rr_source_room_id r) -> integrity (with_rooms (fmap f) db).
Proof.
  intros H Hf Hs.
  assert (Hids : rr_id <$> (f <$> db_rooms db) = rr_id <$> db_rooms db).
  { rewrite <-list_fmap_compose. apply list_fmap_ext. intros. apply Hf. }
  destruct H; constructor; simpl; rewrite ?Hids; eauto with integrity.
Qed.

Lemma add_event db e : 
  integrity db -> er_id e ∉ (er_id <$> db_events db) -> er_room_id e ∈ (rr_id <$> db_rooms db) ->
  (forall k, entity_key e = Some k -> k ∉ omap entity_key (db_events db)) ->
  integrity (with_events (fun l => l ++ [e]) db).
Proof. intros H Hk Hr He. keep H. apply refs_snoc; [done|]. by intros k [= <-]. Qed.

Lemma del_events db p : integrity db -> integrity (delete_events p db).
Proof.
  intros H. unfold delete_events. destruct H; constructor; simpl; eauto with integrity.
  - intros c k Hc Hk. pose proof Hc as [Hc' Hgone]%elem_of_lfilter.
    rewrite Hk in Hgone. bool_prop. pose proof (ref_change_event0 c k Hc' Hk) as (e & -> & He)%list_elem_of_fmap.
    apply list_elem_of_fmap_2, elem_of_lfilter. split; [done|].
    destruct (p e) eqn:E; [|done]. exfalso. apply Hgone. apply list_elem_of_fmap_2, elem_of_lfilter. done.
  - intros c [Hc _]%elem_of_lfilter. auto.
Qed.

Lemma add_edition db e :
  integrity db -> edition_id e ∉ (edition_id <$> db_editions db) ->
  edition_source_room_id e ∈ (rr_id <$> db_rooms db) ->
  integrity (with_editions (fun l => l ++ [e]) db).
Proof. intros H Hk Hr. keep H. apply refs_snoc; [done|]. by intros k [= <-]. Qed.

Lemma del_edition db id c : integrity db -> integrity (EditionQueries.delete id c db).2.
Proof.
  intros H. unfold EditionQueries.delete. simpl. destruct H; constructor; simpl; eauto with integrity.
  - intros x k Hx [= <-]. pose proof Hx as [Hx' Hgone%negb_true_iff]%elem_of_lfilter.
    pose proof (ref_change_edition0 x _ Hx' eq_refl) as (e & He & Hin)%list_elem_of_fmap. simpl in *.
    rewrite He. apply list_elem_of_fmap_2, elem_of_lfilter. split; [done|].
    apply negb_true_iff. apply not_true_is_false. intros Hid. apply not_true_iff_false in Hgone. apply Hgone.
    apply existsb_exists. exists e. rewrite <-list_elem_of_In, elem_of_lfilter.
    split_and!; [done|done|by apply bool_decide_eq_true_2].
  - intros x [Hx _]%elem_of_lfilter. auto.
Qed.

Lemma add_change db c : integrity db -> ChangeQueries.violation db c = None ->
  integrity (with_changes (fun l => l ++ [c]) db).
Proof.
  unfold ChangeQueries.violation. intros H Hv. repeat (case_match; [done|]). case_match; [|done].
  repeat match goal with H : negb _ = false |- _ => apply negb_false_iff in H end.
  repeat match goal with
  | H : existsb (fun x => bool_decide (_ = _)) _ = true |- _ => apply existsb_key in H
  | H : existsb (fun x => bool_decide (_ = _)) _ = false |- _ => apply existsb_key_false in H end.
  keep H.
  - apply refs_snoc; [done|]. by intros k [= <-].
  - apply refs_snoc; [done|]. intros k Hk. rewrite Hk in *. simpl in *. by apply existsb_key.
  - intros x [Hx| ->%list_elem_of_singleton]%elem_of_app; auto.
Qed.

Lemma del_changes db p : integrity db -> integrity (with_changes (List.filter p) db).
Proof. intros H. keep H. intros c [Hc _]%elem_of_lfilter. auto. Qed.

Lemma add_agent db a :
  integrity db -> ag_id a ∉ (ag_id <$> db_agents db) -> agent_key a ∉ (agent_key <$> db_agents db) ->
  ag_room_id a ∈ (rr_id <$> db_rooms db) -> integrity (with_agents (fun l => l ++ [a]) db).
Proof. intros H Hk Hk' Hr. keep H. apply refs_snoc; [done|]. by intros k [= <-]. Qed.

Lemma set_agents db (f : Agent -> Agent) :
  integrity db -> (forall a, ag_id (f a) = ag_id a) -> (forall a, agent_key (f a) = agent_key a) ->
  integrity (with_agents (fmap f) db).
Proof.
  intros H Hf Hk. keep H. apply refs_update; [|done]. intros a. simpl. f_equal.
  specialize (Hk a). unfold agent_key in Hk. congruence.
Qed.

Lemma del_agents db p : integrity db -> integrity (with_agents (List.filter p) db).
Proof. intros H. keep H. Qed.

Lemma add_ban db b :
  integrity db -> ban_id b ∉ (ban_id <$> db_bans db) -> ban_key b ∉ (ban_key <$> db_bans db) ->
  ban_room_id b ∈ (rr_id <$> db_rooms db) -> integrity (with_bans (fun l => l ++ [b]) db).
Proof. intros H Hk Hk' Hr. keep H. apply refs_snoc; [done|]. by intros k [= <-]. Qed.

Lemma del_bans db p : integrity db -> integrity (with_bans (List.filter p) db).
Proof. intros H. keep H. Qed.

Lemma add_adjustment db a :
  integrity db -> adj_room_id a ∉ (adj_room_id <$> db_adjustments db) ->
  adj_room_id a ∈ (rr_id <$> db_rooms db) -> integrity (with_adjustments (fun l => l ++ [a]) db).
Proof. intros H Hk Hr. keep H. apply refs_snoc; [done|]. by intros k [= <-]. Qed.

Lemma room_exists_key db id : room_exists db id = true <-> id ∈ (rr_id <$> db_rooms db).
Proof. apply existsb_key. Qed.

Lemma same_entity_key e e' k :
  entity_key e = Some k -> entity_key e' = Some k ->
  sql_eq (er_entity_type e) (er_entity_type e') && sql_eq (er_entity_event_id e) (er_entity_event_id e') = true.
Proof.
  unfold entity_key. destruct (er_entity_type e), (er_entity_event_id e), (er_entity_type e'),
    (er_entity_event_id e'); simpl; try done. intros [= <-] [= -> ->]. by rewrite !bool_decide_eq_true_2.
Qed.

Lemma event_violation_entity `{Externals} db row k :
  event_violation db row = None -> entity_key row = Some k -> k ∉ omap entity_key (db_events db).
Proof.
  unfold event_violation. intros Hv Hk (e & He & Hke)%list_elem_of_omap. repeat (case_match; [done|]).
  match goal with H : existsb _ _ = false |- _ => apply not_true_iff_false in H; apply H, existsb_exists end.
  exists e. rewrite <-list_elem_of_In. split; [done|]. by apply (same_entity_key e row k).
Qed.

Section Preservation.
Context `{Externals, EventCodec}.

Lemma insert_event_integrity now new db row db' :
  integrity db -> insert_event now new db = Ok (row, db') -> integrity db'.
Proof.
  intros Hi Hins. destruct (insert_event_cases now new db) as [(v & _ & Hv)|(Hv & Hok)]; [congruence|].
  rewrite Hok in Hins. injection Hins as <- <-.
  pose proof (fun k => event_violation_entity _ _ k Hv) as He.
  apply event_violation_None in Hv as (Hid & _ & r & Hr & Hrid).
  apply add_event; [done|done|apply list_elem_of_fmap; eauto|exact He].
Qed.

Lemma insert_events_integrity now news db db' :
  integrity db -> insert_events now news db = Ok db' -> integrity db'.
Proof.
  revert db. induction news as [|new news IH]; intros db Hi; simpl; [by intros [= <-]|].
  destruct (insert_event now new db) as [[row db1]|] eqn:E; [|done].
  apply IH. by apply (insert_event_integrity now new db row).
Qed.

Lemma insert_room_integrity q c db :
  integrity db -> integrity (RoomDb.InsertQuery.execute q c db).2.
Proof.
  intros Hi. unfold RoomDb.InsertQuery.execute, RoomDb.InsertQuery.violation.
  repeat (case_match; simpl; try done); simplify_eq. apply add_room; [done|by apply existsb_key_false|].
  intros s Hs. match goal with E : sql_opt _ _ = true |- _ => rewrite Hs in E; simpl in E end.
  bool_prop. match goal with E : _ \/ _ |- _ => destruct E as [E|E] end; bool_prop; [by left|].
  right. by apply existsb_key.
Qed.

Lemma insert_agent_integrity agent room c db :
  integrity db -> integrity (AgentQueries.insert agent room c db).2.
Proof.
  intros Hi. unfold AgentQueries.insert, AgentQueries.insert_as.
  destruct (list_first _ _) as [x|] eqn:E; simpl.
  - apply set_agents; [done|..]; intros ?; by case_match.
  - repeat (case_match; simpl; try done). apply add_agent; simpl; [done|by apply existsb_key_false| |by apply room_exists_key].
    eapply list_first_none_key; [|exact E]. intros y [= <- <-]. unfold AgentQueries.is_agent.
    by rewrite !bool_decide_eq_true_2.
Qed.

Lemma update_agent_integrity agent room status c db :
  integrity db -> integrity (AgentQueries.update agent room status c db).2.
Proof.
  intros Hi. unfold AgentQueries.update. destruct (list_first _ _), status; simpl; try done.
  apply set_agents; [done|..]; intros ?; by case_match.
Qed.

Lemma insert_ban_integrity account room reason c db :
  integrity db -> integrity (BanQueries.insert account room reason c db).2.
Proof.
  intros Hi. unfold BanQueries.insert. destruct (list_first _ _) as [x|] eqn:E; [done|].
  repeat (case_match; simpl; try done). apply add_ban; simpl; [done|by apply existsb_key_false| |by apply room_exists_key].
  eapply list_first_none_key; [|exact E]. intros y [= <- <-]. unfold BanQueries.is_ban.
  by rewrite !bool_decide_eq_true_2.
Qed.

Lemma run_statement_integrity s c db : integrity db -> integrity (run_statement s c db).
Proof.
  intros Hi. destruct s; simpl.
  - by apply (insert_room_integrity q c).
  - unfold UpdateQuery.execute. repeat (case_match; simpl; try done).
    apply set_rooms; [done|..]; intros r'; by case_match.
  - unfold EventDb.InsertQuery.execute. destruct (insert_event _ _ _) as [[row db']|] eqn:E; [|done].
    by apply insert_event_integrity in E.
  - destruct (insert_events _ _ _) as [db'|] eqn:E; [|done]. by apply insert_events_integrity in E.
  - by apply del_events.
  - by apply del_events.
  - unfold EditionQueries.insert. repeat (case_match; simpl; try done).
    apply add_edition; simpl; [done|by apply existsb_key_false|by apply existsb_key].
  - by apply (del_edition db id c).
  - unfold ChangeQueries.insert. case_match eqn:E; simpl; [done|]. by apply add_change.
  - by apply del_changes.
  - by apply (insert_agent_integrity _ _ c).
  - by apply (update_agent_integrity _ _ _ c).
  - by apply del_agents.
  - by apply (insert_ban_integrity _ _ _ c).
  - by apply del_bans.
  - unfold AdjustmentQueries.insert. repeat (case_match; simpl; try done).
    apply add_adjustment; simpl; [done|by apply existsb_key_false|by apply room_exists_key].
Qed.

Lemma empty_integrity : integrity empty_database.
Proof. constructor; simpl; try apply NoDup_nil_2; intros ? * Hx; by apply elem_of_nil in Hx. Qed.

(** Every sequence of statements, failing ones included, keeps the integrity
    of the database: the keys stay unique (one agent per room, one ban per account
    and room, one adjustment per room, one event per entity of another service), every reference names a row that exists,
    deletions included, and every change has the fields its kind requires. *)
Theorem statements_keep_integrity (db db' : database) :
  rtc statement_step db db' -> integrity db -> integrity db'.
Proof.
  induction 1 as [|db1 db2 db3 (s & c & ->) _ IH]; [done|]. intros Hi. by apply IH, run_statement_integrity.
Qed.
End Preservation.

(** A room, an agent entering it twice, an edition and its deletion. *)
Lemma statements_keep_integrity_witness :
  exists db, rtc statement_step empty_database db /\ length (db_agents db) = 1%nat /\ integrity db.
Proof.
  set (room := RoomDb.InsertQuery.new "example.org" (Included 0, Unbounded) 7%N Webinar).
  set (db1 := run_statement (InsertRoom room) sample_ctx empty_database).
  set (db2 := run_statement (InsertAgent sample_agent 1000%N) sample_ctx db1).
  set (db3 := run_statement (InsertAgent sample_agent 1000%N) sample_ctx db2).
  exists db3.
  assert (Hsteps : rtc statement_step empty_database db3).
  { apply (rtc_l _ _ db1); [by exists (InsertRoom room), sample_ctx|].
    apply (rtc_l _ _ db2); [by exists (InsertAgent sample_agent 1000%N), sample_ctx|].
    apply rtc_once. by exists (InsertAgent sample_agent 1000%N), sample_ctx. }
  split; [exact Hsteps|]. split; [vm_compute; reflexivity|].
  exact (statements_keep_integrity empty_database db3 Hsteps empty_integrity).
Defined.

(** Integrity of a database with rooms and events only. *)
Lemma rooms_events_integrity rooms events :
  unique rr_id rooms -> unique er_id events -> NoDup (omap entity_key events) -> Forall (fun r => rr_source_room_id r = None) rooms ->
  Forall (fun e => er_room_id e ∈ (rr_id <$> rooms)) events ->
  integrity (with_events (fun _ => events) (with_rooms (fun _ => rooms) empty_database)).
Proof.
  intros Hr He Hkey Hs Hf. rewrite Forall_forall in Hs. rewrite Forall_forall in Hf. constructor; simpl; try done; try apply NoDup_nil_2;
    try (intros ? * Hx; by apply elem_of_nil in Hx).
  - intros x k Hx Hk. specialize (Hs x Hx). congruence.
  - intros x k Hx [= <-]. simpl. by apply Hf.
Qed.
