(* ===== verification/Errors.v ===== *)
(** * Errors

    [src/src/app/error.rs]: the kinds of errors a handler answers with, their HTTP
    status, code and title, and which are reported to Sentry; the errors themselves.
    The cause of an error is a text for the log and for the [detail] of the answer,
    its tags go into the answer: nothing depends on them, so the handlers of the
    other files fail with the kind alone. *)

From S2P Require Import Prelude.

Inductive ErrorKind : Type :=
  | AccessDenied | AgentNotEnteredTheRoom | AuthorizationFailed | BrokerRequestFailed
  | ChangeNotFound | DbConnAcquisitionFailed | DbQueryFailed | EditionCommitTaskFailed
  | EditionNotFound | InternalServerError | InvalidPayload | InvalidQueryString
  | InvalidRoomTime | InvalidStateSets | InvalidSubscriptionObject | MessageHandlingFailed
  | MqttClientNotConnected | NoS3Client | S3UploadFailed | StatsCollectionFailed
  | PublishFailed | RoomAdjustTaskFailed | RoomClosed | RoomNotFound
  | SerializationFailed | TransientEventCreationFailed | UnknownMethod | WhiteboardAccessUpdateNotChecked
  | PayloadSizeExceeded | InvalidEvent | NatsSubscriptionFailed | InternalNatsError
  | NatsMessageHandlingFailed | NatsPublishFailed.

#[global] Instance ErrorKind_eq_dec : EqDecision ErrorKind.
Proof. solve_decision. Defined.

(** [http::StatusCode]. *)
Definition OK : Z := 200.
Definition CREATED : Z := 201.
Definition ACCEPTED : Z := 202.
Definition NO_CONTENT : Z := 204.
Definition BAD_REQUEST : Z := 400.
Definition FORBIDDEN : Z := 403.
Definition NOT_FOUND : Z := 404.
Definition METHOD_NOT_ALLOWED : Z := 405.
Definition CONFLICT : Z := 409.
Definition UNPROCESSABLE_ENTITY : Z := 422.
Definition FAILED_DEPENDENCY : Z := 424.
Definition INTERNAL_SERVER_ERROR : Z := 500.
Definition NOT_IMPLEMENTED : Z := 501.

Record ErrorKindProperties : Type := Properties {
  ekp_status : Z;
  ekp_kind : string;
  ekp_title : string;
  ekp_is_notify_sentry : bool
}.

Definition properties (val : ErrorKind) : ErrorKindProperties :=
  match val with
  | AccessDenied => Properties FORBIDDEN "access_denied" "Access denied" false
  | AgentNotEnteredTheRoom => Properties NOT_FOUND "agent_not_entered_the_room" "Agent not entered the room" false
  | AuthorizationFailed => Properties UNPROCESSABLE_ENTITY "authorization_failed" "Authorization failed" false
  | BrokerRequestFailed => Properties UNPROCESSABLE_ENTITY "broker_request_failed" "Broker request failed" true
  | ChangeNotFound => Properties NOT_FOUND "change_not_found" "Change not found" false
  | DbConnAcquisitionFailed => Properties UNPROCESSABLE_ENTITY "database_connection_acquisition_failed" "Database connection acquisition failed" true
  | DbQueryFailed => Properties UNPROCESSABLE_ENTITY "database_query_failed" "Database query failed" true
  | EditionCommitTaskFailed => Properties UNPROCESSABLE_ENTITY "edition_commit_task_failed" "Edition commit task failed" true
  | EditionNotFound => Properties NOT_FOUND "edition_not_found" "Edition not found" false
  | InternalServerError => Properties INTERNAL_SERVER_ERROR "internal_server_error" "Internal server error" true
  | InvalidPayload => Properties BAD_REQUEST "invalid_payload" "Invalid payload" false
  | InvalidQueryString => Properties BAD_REQUEST "invalid_query_string" "Invalid query string" false
  | InvalidRoomTime => Properties BAD_REQUEST "invalid_room_time" "Invalid room time" false
  | InvalidStateSets => Properties BAD_REQUEST "invalid_state_sets" "Invalid state sets" false
  | InvalidSubscriptionObject => Properties BAD_REQUEST "invalid_subscription_object" "Invalid subscription object" true
  | MessageHandlingFailed => Properties UNPROCESSABLE_ENTITY "message_handling_failed" "Message handling failed" true
  | MqttClientNotConnected => Properties UNPROCESSABLE_ENTITY "mqtt_client_not_connected" "Mqtt client not connected" false
  | NoS3Client => Properties NOT_IMPLEMENTED "no_s3_client" "No s3 configuration, nowhere to dump events to" true
  | S3UploadFailed => Properties INTERNAL_SERVER_ERROR "s3_upload_failed" "S3 upload failed" true
  | StatsCollectionFailed => Properties UNPROCESSABLE_ENTITY "stats_collection_failed" "Stats collection failed" true
  | PublishFailed => Properties UNPROCESSABLE_ENTITY "publish_failed" "Publish failed" true
  | RoomAdjustTaskFailed => Properties UNPROCESSABLE_ENTITY "room_adjust_task_failed" "Room adjust task failed" true
  | RoomClosed => Properties NOT_FOUND "room_closed" "Room closed" false
  | RoomNotFound => Properties NOT_FOUND "room_not_found" "Room not found" false
  | SerializationFailed => Properties UNPROCESSABLE_ENTITY "serialization_failed" "Serialization failed" true
  | TransientEventCreationFailed => Properties UNPROCESSABLE_ENTITY "transient_event_creation_failed" "Transient event creation failed" true
  | UnknownMethod => Properties METHOD_NOT_ALLOWED "unknown_method" "Unknown method" false
  | WhiteboardAccessUpdateNotChecked => Properties CONFLICT "useless_whiteboard_access_update" "Whiteboard access change in room with universal whiteboard access (which doesnt make sense)" false
  | PayloadSizeExceeded => Properties UNPROCESSABLE_ENTITY "payload_size_exceeded" "Payload size exceeded" false
  | InvalidEvent => Properties UNPROCESSABLE_ENTITY "invalid_event" "Invalid event" false
  | NatsSubscriptionFailed => Properties UNPROCESSABLE_ENTITY "nats_subscription_failed" "Nats subscription failed" true
  | InternalNatsError => Properties FAILED_DEPENDENCY "internal_nats_error" "Internal nats error" true
  | NatsMessageHandlingFailed => Properties UNPROCESSABLE_ENTITY "nats_message_handling_failed" "Nats message handling failed" true
  | NatsPublishFailed => Properties UNPROCESSABLE_ENTITY "nats_publish_failed" "Nats publish failed" true
  end.

Definition status (k : ErrorKind) : Z := ekp_status (properties k).
Definition kind (k : ErrorKind) : string := ekp_kind (properties k).
Definition title (k : ErrorKind) : string := ekp_title (properties k).
Definition is_notify_sentry (k : ErrorKind) : bool := ekp_is_notify_sentry (properties k).

(** The kinds of [svc_authz::Error]. *)
Inductive authz_error : Type := Forbidden | AuthzFailed.

(** [From<svc_authz::Error> for Error]. *)
Definition from_authz_error (e : authz_error) : ErrorKind :=
  match e with
  | Forbidden => AccessDenied
  | AuthzFailed => AuthorizationFailed
  end.

(** ** [Error]

    The cause is the text of an [anyhow::Error]. *)

Module Error.

Record t : Type := MkError {
  err_kind : ErrorKind;
  err_cause : option string;
  err_tags : gmap string string
}.

(** [Error::new], [ErrorKindExt::kind]. *)
Definition new (kind : ErrorKind) (err : string) : t := MkError kind (Some err) ∅.
Definition tag (k v : string) (e : t) : t :=
  MkError (err_kind e) (err_cause e) (<[k := v]> (err_tags e)).
Definition detail (e : t) : string := default EmptyString (err_cause e).

(** [svc_error::Error]: the problem details of an answer. *)
Record SvcError : Type := MkSvcError {
  svc_status : Z;
  svc_kind : string;
  svc_title : string;
  svc_detail : string;
  svc_extras : gmap string string
}.
Definition to_svc_error (e : t) : SvcError :=
  let properties := properties (err_kind e) in
  MkSvcError (ekp_status properties) (ekp_kind properties) (ekp_title properties) (detail e) (err_tags e).

(** [Error::notify_sentry]: the cause that is sent, if any. *)
Definition notified (e : t) : option string :=
  if is_notify_sentry (err_kind e) then err_cause e else None.

(** [Error::log]: the line that is written, if any; the error stays. *)
Definition log (e : t) : option string * t := (err_cause e, e).

(** [From<svc_authz::Error>]. *)
Definition of_authz_error (e : authz_error) (source : string) : t := new (from_authz_error e) source.

End Error.

(** ** Lemmas *)

(** Every status is one of an error: none of them reads as a success. *)
Lemma status_error k : 400 <= status k < 600.
Proof. by destruct k. Qed.

(** The code of an answer tells its kind. *)
Lemma kind_inj k k' : kind k = kind k' -> k = k'.
Proof. by destruct k, k'. Qed.

(** The problem details name the kind, whatever the cause and the tags are: two
    errors whose answers have the same code are of the same kind. *)
Lemma svc_error_kind e e' : Error.svc_kind (Error.to_svc_error e) = Error.svc_kind (Error.to_svc_error e') -> Error.err_kind e = Error.err_kind e'.
Proof. apply kind_inj. Qed.

(** An error the service makes has a cause: it is sent to Sentry when its kind says so. *)
Lemma new_notified k err : Error.notified (Error.new k err) = if is_notify_sentry k then Some err else None.
Proof. done. Qed.
