(* ===== verification/Effects.v ===== *)
(** * Effects

    The monad the operations and the request handlers are written in: a
    computation reads its environment (the clock, the connection pool, the
    authorization service, the broker), threads the world (the database, the
    requests sent to other services and the errors sent to Sentry) and may fail.  Each use of the outside is a
    tick; the environment answers it as a function of the tick, so that a
    statement about all environments covers every clock and every fault. *)

From S2P Require Import Prelude Times Types Db Sample EventDb RoomDb EditionDb AgentDb Integrity Errors.

Create HintDb effects.

(** What the outside answers at one tick: the reading of [Utc::now()], what a
    statement takes from the server, and whether the connection fails. *)
Record tick : Type := Tick { t_now : Z; t_ctx : qctx; t_fault : option sqlx_error }.

(** Requests to the outside: the subscription of an agent at the broker, a ban
    written to the authorization cache, an object put into the storage. *)
Inductive effect : Type :=
  | Subscribe (subject : agent_id) (object : list string) (version : string)
  | CacheBan (audience : string) (account : account_id) (object : list string) (value : bool) (seconds : Z)
  | PutObject (bucket key content_type : string) (room : Room) (events : list Event).

(** What is sent to Sentry: an error of the service, or the [anyhow::Error] of a
    task, which has no kind. *)
Inductive report : Type := AppReport (kind : ErrorKind) | TaskReport.

Record env : Type := Env {
  e_tick : nat -> tick;
  (** [svc_authz]: audience, subject, object, action. *)
  e_authorize : nat -> string -> account_id -> list string -> string -> result authz_error Z;
  (** The read replica, when there is one: what it serves of the database. *)
  e_replica : option (nat -> database -> database);
  (** The broker, the storage: whether the request succeeds. *)
  e_broker : nat -> bool;
  e_storage : nat -> bool
}.

Record world : Type := World {
  w_db : database;
  w_tick : nat;
  w_trace : list effect;
  w_reported : list report
}.

(** A computation is done, or uses the outside and goes on with what it was
    answered.  A use happens at once; between two uses other computations may run
    ([Concurrency]). *)
Inductive M (E A : Type) : Type :=
  | Done (r : result E A)
  | Use {B : Type} (use : env -> world -> B * world) (k : B -> M E A).
Arguments Done {E A} r.
Arguments Use {E A B} use k.

(** The computation alone: its uses one after another. *)
Fixpoint exec {E A} (m : M E A) (n : env) (w : world) : result E A * world :=
  match m with
  | Done r => (r, w)
  | Use use k => let '(b, w') := use n w in exec (k b) n w'
  end.

(** [m n w] is the result of [m] alone in the environment [n] and the world [w]. *)
Coercion exec : M >-> Funclass.

(** One use, and nothing else. *)
Definition once {E A} (use : env -> world -> result E A * world) : M E A := Use use Done.

Definition ret {E A} (a : A) : M E A := Done (Ok a).
Definition fail {E A} (e : E) : M E A := Done (Err e).
Definition lift {E A} (r : result E A) : M E A := Done r.

(** Go on with the result, whichever it is. *)
Fixpoint continue {E F A B} (m : M E A) (f : result E A -> M F B) : M F B :=
  match m with
  | Done r => f r
  | Use use k => Use use (fun b => continue (k b) f)
  end.

Definition bind {E A B} (m : M E A) (f : A -> M E B) : M E B :=
  continue m (fun r => match r with Ok a => f a | Err e => Done (Err e) end).

Notation "x <~ m ; k" := (bind m (fun x => k)) (at level 100, m at next level, k at level 200, right associativity).
Notation "m ;; k" := (bind m (fun _ => k)) (at level 100, k at level 200, right associativity).

(** [map_err]. *)
Definition on_error {E F A} (f : E -> F) (m : M E A) : M F A :=
  continue m (fun r => Done (match r with Ok a => Ok a | Err e => Err (f e) end)).

(** The outcome of a computation as a value. *)
Definition attempt {E F A} (m : M E A) : M F (result E A) := continue m (fun r => Done (Ok r)).

(** [ErrorExt::error]. *)
Definition error {E A} (k : ErrorKind) (m : M E A) : M ErrorKind A := on_error (fun _ => k) m.

Definition advance (w : world) : world := World (w_db w) (S (w_tick w)) (w_trace w) (w_reported w).
Definition trace (e : effect) (w : world) : world := World (w_db w) (w_tick w) (w_trace w ++ [e]) (w_reported w).
Definition with_db (db : database) (w : world) : world := World db (w_tick w) (w_trace w) (w_reported w).
Definition add_reports (l : list report) (w : world) : world :=
  World (w_db w) (w_tick w) (w_trace w) (w_reported w ++ l).

(** What [Error::notify_sentry] sends: an error the service makes has a cause
    ([Errors.new_notified]), so it is sent when its kind says so. *)
Definition reports_of (k : ErrorKind) : list report := if is_notify_sentry k then [AppReport k] else [].

(** [svc_sentry::send]: nothing is answered, and nothing depends on its failure. *)
Definition sentry_send {E} (l : list report) : M E unit := once (fun n w => (Ok tt, add_reports l w)).
Definition notify_sentry {E} (k : ErrorKind) : M E unit := sentry_send (reports_of k).

(** The error of a task is of the kind [k], whatever made it fail. *)
Definition notify_failure {E F A} (k : ErrorKind) (r : result F A) : M E unit :=
  match r with Ok _ => ret tt | Err _ => notify_sentry k end.

(** [Utc::now()]. *)
Definition now {E} : M E Z := once (fun n w => (Ok (t_now (e_tick n (w_tick w))), advance w)).

(** [pool.acquire()]. *)
Definition acquire : M sqlx_error unit := once (fun n w =>
  match t_fault (e_tick n (w_tick w)) with
  | Some e => (Err e, advance w)
  | None => (Ok tt, advance w)
  end).

(** Run a statement; a connection that fails loses it. *)
Definition run {A} (q : query A) : M sqlx_error A := once (fun n w =>
  let t := e_tick n (w_tick w) in
  match t_fault t with
  | Some e => (Err e, advance w)
  | None => let '(r, db') := q (t_ctx t) (w_db w) in (r, advance (with_db db' w))
  end).

(** A read through the replica, if there is one. *)
Definition run_ro {A} (q : query A) : M sqlx_error A := once (fun n w =>
  let t := e_tick n (w_tick w) in
  match t_fault t with
  | Some e => (Err e, advance w)
  | None =>
    let db := match e_replica n with Some f => f (w_tick w) (w_db w) | None => w_db w end in
    ((q (t_ctx t) db).1, advance w)
  end).

(** [begin] .. [commit]: [conv] turns a failure of either into the error of the
    computation, which rolls back.  A transaction is one use: no other session
    runs between its statements. *)
Definition transaction {E A} (conv : sqlx_error -> E) (m : M E A) : M E A := once (fun n w =>
  match acquire n w with
  | (Err e, w1) => (Err (conv e), w1)
  | (Ok _, w1) =>
    match m n w1 with
    | (Err e, w2) => (Err e, with_db (w_db w1) w2)
    | (Ok a, w2) =>
      match acquire n w2 with
      | (Err e, w3) => (Err (conv e), with_db (w_db w1) w3)
      | (Ok _, w3) => (Ok a, w3)
      end
    end
  end).

(** [for x in l { f(x)?; }]. *)
Fixpoint for_each {E A} (f : A -> M E unit) (l : list A) : M E unit :=
  match l with
  | [] => ret tt
  | x :: l => f x;; for_each f l
  end.

(** ** [anyhow::Result] *)

(** The error of a query of an operation, its [context] message aside. *)
Definition query_op {A} (q : query A) : M op_error A := on_error OpSqlx (run q).

Definition op_lift {A} (r : result failure A) : M op_error A :=
  lift match r with
       | Ok a => Ok a
       | Err (Bail m) => Err (OpBail m)
       | Err (Panic m) => Err (OpPanic m)
       end.

Definition bail {A} (msg : string) : M op_error A := fail (OpBail msg).

(** An operation of the [db] modules that returns [anyhow::Result]. *)
Definition run_op {A} (q : qctx -> database -> result op_error A * database) : M op_error A := once (fun n w =>
  let t := e_tick n (w_tick w) in
  match t_fault t with
  | Some e => (Err (OpSqlx e), advance w)
  | None => let '(r, db') := q (t_ctx t) (w_db w) in (r, advance (with_db db' w))
  end).

(** ** What a computation alone does *)

Lemma exec_use {E A B} use (k : B -> M E A) n w : Use use k n w = let '(b, w') := use n w in k b n w'.
Proof. done. Qed.

Lemma continue_exec {E F A B} (m : M E A) (f : result E A -> M F B) n w :
  continue m f n w = f (m n w).1 n (m n w).2.
Proof. revert w. induction m as [r|C use k IH]; intros w; [done|]. cbn. destruct (use n w). apply IH. Qed.

Lemma bind_exec {E A B} (m : M E A) (f : A -> M E B) n w :
  bind m f n w = match m n w with (Ok a, w') => f a n w' | (Err e, w') => (Err e, w') end.
Proof. unfold bind. rewrite continue_exec. by destruct (m n w) as [[a|e] w']. Qed.

Lemma on_error_exec {E F A} (f : E -> F) (m : M E A) n w :
  on_error f m n w = match m n w with (Ok a, w') => (Ok a, w') | (Err e, w') => (Err (f e), w') end.
Proof. unfold on_error. rewrite continue_exec. by destruct (m n w) as [[a|e] w']. Qed.

Lemma attempt_exec {E F A} (m : M E A) n w : attempt (F := F) m n w = (Ok (m n w).1, (m n w).2).
Proof. unfold attempt. by rewrite continue_exec. Qed.

Lemma once_exec {E A} (use : env -> world -> result E A * world) n w : once use n w = use n w.
Proof. unfold once. cbn. by destruct (use n w). Qed.

Lemma lift_exec {E A} (r : result E A) n w : lift r n w = (r, w).
Proof. done. Qed.

Lemma sentry_exec {E} l n w : sentry_send (E := E) l n w = (Ok tt, add_reports l w).
Proof. done. Qed.

Lemma add_reports_nil w : add_reports [] w = w.
Proof. destruct w. unfold add_reports. simpl. by rewrite app_nil_r. Qed.

Lemma add_reports_of k w :
  add_reports (reports_of k) w = if is_notify_sentry k then add_reports [AppReport k] w else w.
Proof. unfold reports_of. destruct (is_notify_sentry k); [done|]. apply add_reports_nil. Qed.

Lemma ret_exec {E A} (a : A) n w : ret (E := E) a n w = (Ok a, w).
Proof. done. Qed.

Lemma fail_exec {E A} (e : E) n w : fail (A := A) e n w = (Err e, w).
Proof. done. Qed.

(** A computation that cannot fail. *)
Definition total {A} (m : M Empty_set A) (n : env) (w : world) : A * world :=
  match exec m n w with
  | (Ok a, w') => (a, w')
  | (Err e, _) => match e with end
  end.

Lemma total_exec {A} (m : M Empty_set A) n w : m n w = (Ok (total m n w).1, (total m n w).2).
Proof. unfold total. by destruct (m n w) as [[a|[]] w']. Qed.

Lemma total_ret {A} (a : A) n w : total (ret a) n w = (a, w).
Proof. done. Qed.

Lemma total_bind {A B} (m : M Empty_set A) (f : A -> M Empty_set B) n w :
  total (bind m f) n w = total (f (total m n w).1) n (total m n w).2.
Proof. unfold total. rewrite bind_exec. by destruct (m n w) as [[a|[]] w']. Qed.

Lemma total_attempt {E A} (m : M E A) n w : total (attempt m) n w = m n w.
Proof. unfold total. rewrite attempt_exec. by destruct (m n w). Qed.

Lemma acquire_exec n w :
  acquire n w = match t_fault (e_tick n (w_tick w)) with Some e => (Err e, advance w) | None => (Ok tt, advance w) end.
Proof. apply once_exec. Qed.

Lemma run_exec {A} (q : query A) n w :
  run q n w = match t_fault (e_tick n (w_tick w)) with
              | Some e => (Err e, advance w)
              | None => let '(r, db') := q (t_ctx (e_tick n (w_tick w))) (w_db w) in (r, advance (with_db db' w))
              end.
Proof. apply once_exec. Qed.

Lemma run_op_exec {A} (q : qctx -> database -> result op_error A * database) n w :
  run_op q n w = match t_fault (e_tick n (w_tick w)) with
                 | Some e => (Err (OpSqlx e), advance w)
                 | None => let '(r, db') := q (t_ctx (e_tick n (w_tick w))) (w_db w) in (r, advance (with_db db' w))
                 end.
Proof. apply once_exec. Qed.

(** The part of the database reads are served from at tick [k]. *)
Definition served (n : env) (k : nat) (db : database) : database :=
  match e_replica n with Some f => f k db | None => db end.

Lemma run_ro_exec {A} (q : query A) n w :
  run_ro q n w = match t_fault (e_tick n (w_tick w)) with
                 | Some e => (Err e, advance w)
                 | None => ((q (t_ctx (e_tick n (w_tick w))) (served n (w_tick w) (w_db w))).1, advance w)
                 end.
Proof. apply once_exec. Qed.

Lemma transaction_exec {E A} (conv : sqlx_error -> E) (m : M E A) n w :
  transaction conv m n w =
  match acquire n w with
  | (Err e, w1) => (Err (conv e), w1)
  | (Ok _, w1) =>
    match m n w1 with
    | (Err e, w2) => (Err e, with_db (w_db w1) w2)
    | (Ok a, w2) =>
      match acquire n w2 with
      | (Err e, w3) => (Err (conv e), with_db (w_db w1) w3)
      | (Ok _, w3) => (Ok a, w3)
      end
    end
  end.
Proof. apply once_exec. Qed.

(** ** What a computation does to the world *)

(** What a computation returns satisfies [P], whatever its uses are answered. *)
Fixpoint returns {E A} (P : A -> Prop) (m : M E A) : Prop :=
  match m with
  | Done (Ok a) => P a
  | Done (Err _) => True
  | Use _ k => forall b, returns P (k b)
  end.

(** In the environment [n] every use is in the relation, whatever the world is by
    then, and the result satisfies [Q]. *)
Fixpoint within (n : env) (R : relation world) {E A} (Q : result E A -> Prop) (m : M E A) : Prop :=
  match m with
  | Done r => Q r
  | Use use k => forall w, R w (use n w).2 /\ within n R Q (k (use n w).1)
  end.

(** Every use of the computation takes the world before it to the world after it
    in the relation, whatever the world is by then and whatever the uses before it
    were answered. *)
Fixpoint uses (R : relation world) {E A} (m : M E A) : Prop :=
  match m with
  | Done _ => True
  | Use use k => (forall n w, R w (use n w).2) /\ forall b, uses R (k b)
  end.

(** Every use takes the database before it to the database after it in the
    relation; a query does. *)
Definition respects (R : relation database) {E A} (m : M E A) : Prop :=
  uses (fun w w' => R (w_db w) (w_db w')) m.
Definition query_respects (R : relation database) {A} (q : query A) : Prop :=
  forall c db, R db (q c db).2.

(** The database changes by statements only; by statements other than the vacuum;
    it does not change. *)
Abbreviation any_steps := (respects (rtc statement_step)).
Abbreviation steps := (respects (rtc lasting_step)).
Abbreviation query_steps := (query_respects (rtc lasting_step)).
Abbreviation reads := (respects eq).

Section Uses.
Context (R : relation world).

Lemma uses_mono (R' : relation world) {E A} (m : M E A) : (forall w w', R w w' -> R' w w') -> uses R m -> uses R' m.
Proof. intros HR. induction m as [r|B use k IH]; simpl; [done|]. intros [? ?]. split; eauto. Qed.

Lemma uses_exec `{!PreOrder R} {E A} (m : M E A) n w : uses R m -> R w (m n w).2.
Proof.
  revert w. induction m as [r|B use k IH]; simpl; intros w; [reflexivity|]. intros [Hu Hk]. specialize (Hu n w).
  destruct (use n w) as [b w']. etrans; [exact Hu|]. by apply IH.
Qed.

Lemma uses_once {E A} (use : env -> world -> result E A * world) : (forall n w, R w (use n w).2) -> uses R (once use).
Proof. done. Qed.

Lemma uses_continue {E F A B} (m : M E A) (f : result E A -> M F B) :
  uses R m -> (forall r, uses R (f r)) -> uses R (continue m f).
Proof. intros Hm Hf. induction m as [r|C use k IH]; cbn in *; [apply Hf|]. destruct Hm. split; eauto. Qed.

Lemma uses_bind {E A B} (m : M E A) (f : A -> M E B) : uses R m -> (forall a, uses R (f a)) -> uses R (bind m f).
Proof. intros Hm Hf. apply uses_continue; [done|]. by intros [a|e]. Qed.

Lemma uses_on_error {E F A} (f : E -> F) (m : M E A) : uses R m -> uses R (on_error f m).
Proof. intros Hm. by apply uses_continue. Qed.

Lemma uses_attempt {E F A} (m : M E A) : uses R m -> uses R (attempt (F := F) m).
Proof. intros Hm. by apply uses_continue. Qed.
End Uses.

#[global] Arguments exec : simpl never.
#[global] Arguments total : simpl never.
#[global] Arguments bind : simpl never.
#[global] Arguments continue : simpl never.
#[global] Arguments on_error : simpl never.
#[global] Arguments attempt : simpl never.
#[global] Arguments run : simpl never.
#[global] Arguments run_ro : simpl never.
#[global] Arguments run_op : simpl never.
#[global] Arguments acquire : simpl never.
#[global] Arguments sentry_send : simpl never.
#[global] Arguments transaction : simpl never.

Section Within.
Context (n : env) (R : relation world).

Lemma within_continue {E F A B} (m : M E A) (f : result E A -> M F B) Q Q' :
  within n R Q m -> (forall r, Q r -> within n R Q' (f r)) -> within n R Q' (continue m f).
Proof.
  intros Hm Hf. induction m as [r|C use k IH]; [by apply Hf|]. intros w. destruct (Hm w) as [Hu Hk].
  split; [exact Hu|]. by apply IH.
Qed.

Lemma within_exec `{!PreOrder R} {E A} (Q : result E A -> Prop) (m : M E A) w :
  within n R Q m -> Q (m n w).1 /\ R w (m n w).2.
Proof.
  revert w. induction m as [r|B use k IH]; intros w Hm; [by split|]. destruct (Hm w) as [Hu Hk].
  rewrite exec_use. destruct (use n w) as [b w']. apply (IH b w') in Hk as [HQ Hw]. split; [done|].
  by transitivity w'.
Qed.

Lemma within_uses {E A} (m : M E A) : uses R m -> within n R (fun _ => True) m.
Proof. induction m as [r|B use k IH]; [done|]. intros [Hu Hk] w. auto. Qed.
End Within.

Lemma acquire_db n w : w_db (acquire n w).2 = w_db w.
Proof. rewrite acquire_exec. by destruct (t_fault _). Qed.

#[export] Instance db_relation_preorder (R : relation database) `{!PreOrder R} :
  PreOrder (fun w w' : world => R (w_db w) (w_db w')).
Proof. split; [intros w; reflexivity|]. intros w1 w2 w3 H1 H2. by transitivity (w_db w2). Qed.

Section Respects.
Context (R : relation database) `{!PreOrder R}.

Lemma respects_exec {E A} (m : M E A) : respects R m -> forall n w, R (w_db w) (w_db (m n w).2).
Proof. intros Hm n w. by apply (uses_exec _ m n w) in Hm. Qed.

Lemma reads_respects {E A} (m : M E A) : reads m -> respects R m.
Proof. apply uses_mono. intros w w' Hw. simpl in *. rewrite Hw. reflexivity. Qed.

Lemma select_respects {A} (f : database -> result sqlx_error A) : query_respects R (select f).
Proof. intros c db. simpl. reflexivity. Qed.

Lemma ret_respects {E A} (a : A) : respects R (ret (E := E) a).
Proof. exact I. Qed.

Lemma fail_respects {E A} (e : E) : respects R (fail (A := A) e).
Proof. exact I. Qed.

Lemma lift_respects {E A} (r : result E A) : respects R (lift r).
Proof. exact I. Qed.

Lemma now_respects {E} : respects R (now (E := E)).
Proof. apply uses_once. intros n w. simpl. reflexivity. Qed.

Lemma sentry_respects {E} l : respects R (sentry_send (E := E) l).
Proof. apply uses_once. intros n w. simpl. reflexivity. Qed.

Lemma acquire_respects : respects R acquire.
Proof. apply uses_once. intros n w. by destruct (t_fault _). Qed.

Lemma run_ro_respects {A} (q : query A) : respects R (run_ro q).
Proof. apply uses_once. intros n w. simpl. by destruct (t_fault _). Qed.

Lemma bind_respects {E A B} (m : M E A) (f : A -> M E B) :
  respects R m -> (forall a, respects R (f a)) -> respects R (bind m f).
Proof. apply uses_bind. Qed.

Lemma on_error_respects {E F A} (f : E -> F) (m : M E A) : respects R m -> respects R (on_error f m).
Proof. apply uses_on_error. Qed.

Lemma attempt_respects {E F A} (m : M E A) : respects R m -> respects R (attempt (F := F) m).
Proof. apply uses_attempt. Qed.

Lemma run_respects {A} (q : query A) : query_respects R q -> respects R (run q).
Proof.
  intros Hq. apply uses_once. intros n w. simpl. destruct (t_fault _); [done|].
  specialize (Hq (t_ctx (e_tick n (w_tick w))) (w_db w)). by destruct (q _ _).
Qed.

Lemma run_op_respects {A} (q : qctx -> database -> result op_error A * database) :
  (forall c db, R db (q c db).2) -> respects R (run_op q).
Proof.
  intros Hq. apply uses_once. intros n w. simpl. destruct (t_fault _); [done|].
  specialize (Hq (t_ctx (e_tick n (w_tick w))) (w_db w)). by destruct (q _ _).
Qed.

Lemma query_op_respects {A} (q : query A) : query_respects R q -> respects R (query_op q).
Proof. intros. by apply on_error_respects, run_respects. Qed.

Lemma transaction_respects {E A} (conv : sqlx_error -> E) (m : M E A) :
  respects R m -> respects R (transaction conv m).
Proof.
  intros Hm. apply uses_once. intros n w. pose proof (acquire_db n w) as H1.
  destruct (acquire n w) as [[u|e] w1]; simpl in *; [|by rewrite H1]. pose proof (respects_exec m Hm n w1) as H2.
  destruct (m n w1) as [[a|e] w2]; simpl in *; [|by rewrite H1].
  pose proof (acquire_db n w2) as H3. destruct (acquire n w2) as [[u'|e] w3]; simpl in *; by rewrite ?H3, <-H1.
Qed.

(** What the first computation returns, whatever it is answered. *)
Lemma bind_respects_with {E A B} (P : A -> Prop) (m : M E A) (f : A -> M E B) :
  returns P m -> respects R m -> (forall a, P a -> respects R (f a)) -> respects R (bind m f).
Proof.
  unfold bind, respects. intros Hr Hm Hf. induction m as [[a|e]|C use k IH]; cbn in *; [by apply Hf|done|].
  destruct Hm as [Hu Hk]. split; [done|]. intros b. by apply IH.
Qed.

Lemma for_each_respects {E A} (f : A -> M E unit) l :
  (forall x, x ∈ l -> respects R (f x)) -> respects R (for_each f l).
Proof.
  intros Hf. induction l as [|x l IH]; simpl; [apply ret_respects|]. apply bind_respects; [apply Hf; by left|].
  intros _. apply IH. intros y Hy. apply Hf. by right.
Qed.
End Respects.

Section Outcomes.
Context `{Externals, EventCodec}.

(** A transaction that fails leaves the database as it was. *)
Lemma transaction_atomic {E A} (conv : sqlx_error -> E) (m : M E A) n w e w' :
  transaction conv m n w = (Err e, w') -> w_db w' = w_db w.
Proof.
  rewrite transaction_exec. pose proof (acquire_db n w) as H1.
  destruct (acquire n w) as [[u|e1] w1]; simpl in *; [|by intros [= <- <-]].
  destruct (m n w1) as [[a|e1] w2]; [|by intros [= <- <-]].
  destruct (acquire n w2) as [[u'|e1] w3]; [done|]. by intros [= <- <-].
Qed.

Lemma bind_Ok {E A B} (m : M E A) (f : A -> M E B) n w b w' :
  bind m f n w = (Ok b, w') -> exists a w1, m n w = (Ok a, w1) /\ f a n w1 = (Ok b, w').
Proof. rewrite bind_exec. destruct (m n w) as [[a|e] w1]; [eauto|done]. Qed.

Lemma bind_Err {E A B} (m : M E A) (f : A -> M E B) n w e w' :
  bind m f n w = (Err e, w') -> m n w = (Err e, w') \/ exists a w1, m n w = (Ok a, w1) /\ f a n w1 = (Err e, w').
Proof. rewrite bind_exec. destruct (m n w) as [[a|e1] w1]; [eauto|]. intros [= <- <-]. by left. Qed.

Lemma on_error_Ok {E F A} (f : E -> F) (m : M E A) n w a w' :
  on_error f m n w = (Ok a, w') <-> m n w = (Ok a, w').
Proof. rewrite on_error_exec. by destruct (m n w) as [[b|e] w1]; split; intros [= <- <-]. Qed.

Lemma error_Ok {E A} k (m : M E A) n w a w' : error k m n w = (Ok a, w') <-> m n w = (Ok a, w').
Proof. apply on_error_Ok. Qed.

Lemma lift_Ok {E A} (r : result E A) n w a w' : lift r n w = (Ok a, w') -> r = Ok a /\ w' = w.
Proof. by intros [= -> <-]. Qed.

Lemma ret_Ok {E A} (a b : A) n w w' : ret (E := E) a n w = (Ok b, w') -> b = a /\ w' = w.
Proof. by intros [= <- <-]. Qed.

Lemma fail_Ok {E A} (e : E) (a : A) n w w' : fail e n w <> (Ok a, w').
Proof. done. Qed.

Lemma run_Ok {A} (q : query A) n w a w' :
  run q n w = (Ok a, w') -> exists c, q c (w_db w) = (Ok a, w_db w') /\ w_trace w' = w_trace w.
Proof.
  rewrite run_exec. destruct (t_fault _); [done|]. destruct (q _ _) as [r db'] eqn:E. intros [= -> <-]. eauto.
Qed.

Lemma query_op_Ok {A} (q : query A) n w a w' :
  query_op q n w = (Ok a, w') -> exists c, q c (w_db w) = (Ok a, w_db w') /\ w_trace w' = w_trace w.
Proof. unfold query_op. rewrite on_error_Ok. apply run_Ok. Qed.
Lemma transaction_Ok {E A} (conv : sqlx_error -> E) (m : M E A) n w a w' :
  transaction conv m n w = (Ok a, w') ->
  exists w1 w2, w_db w1 = w_db w /\ w_db w' = w_db w2 /\ m n w1 = (Ok a, w2).
Proof.
  rewrite transaction_exec. pose proof (acquire_db n w) as H1.
  destruct (acquire n w) as [[u|e1] w1]; [|done]. simpl in H1.
  destruct (m n w1) as [[b|e1] w2] eqn:Em; [|done]. pose proof (acquire_db n w2) as H2.
  destruct (acquire n w2) as [[u'|e1] w3]; [|done]. intros [= <- <-]. eauto 10.
Qed.

Lemma respects_Ok (R : relation database) `{!PreOrder R} {E A} (m : M E A) n w r w' :
  m n w = (r, w') -> respects R m -> R (w_db w) (w_db w').
Proof. intros Hm Hr. pose proof (respects_exec R m Hr n w) as Hw. by rewrite Hm in Hw. Qed.

Lemma reads_Ok {E A} (m : M E A) n w r w' : m n w = (r, w') -> reads m -> w_db w' = w_db w.
Proof. intros Hm Hr. symmetry. by apply (respects_Ok eq m n w r). Qed.

Lemma steps_integrity db db' : rtc statement_step db db' -> integrity db -> integrity db'.
Proof.
  induction 1 as [|db1 db2 db3 (s & c & ->) _ IH]; [done|]. intros Hi. by apply IH, run_statement_integrity.
Qed.

Lemma lasting_statement db db' : rtc lasting_step db db' -> rtc statement_step db db'.
Proof. apply rtc_subrel. intros ? ? (s & c & _ & ->). by exists s, c. Qed.

Lemma steps_any {E A} (m : M E A) : steps m -> any_steps m.
Proof. apply uses_mono. intros w w'. apply lasting_statement. Qed.

Lemma steps_keep_integrity {E A} (m : M E A) n w :
  any_steps m -> integrity (w_db w) -> integrity (w_db (m n w).2).
Proof. intros Hm. by apply steps_integrity, (respects_exec (rtc statement_step)). Qed.
End Outcomes.

(** Each query is a statement, or reads. *)
Section Queries.
Context `{Externals, EventCodec}.

Lemma statement_query_steps {A} (s : statement) (q : query A) :
  lasting s = true ->
  (forall c db, (q c db).2 = run_statement s c db) -> query_steps q.
Proof. intros Hs Hq c db. apply rtc_once. exists s, c. split; [done|apply Hq]. Qed.

Lemma room_insert_steps q : query_steps (RoomDb.InsertQuery.execute q).
Proof. by apply (statement_query_steps (InsertRoom q)). Qed.
Lemma room_update_steps q : query_steps (RoomDb.UpdateQuery.execute q).
Proof. by apply (statement_query_steps (UpdateRoom q)). Qed.
Lemma event_insert_steps q :
  entity_is_kind (EventDb.InsertQuery.iq_entity_type q) (EventDb.InsertQuery.iq_kind q) = true ->
  query_steps (EventDb.InsertQuery.execute q).
Proof. intros Hq. by apply (statement_query_steps (InsertEvent q)). Qed.

Lemma new_event_kind room kind data occurred_at agent q :
  EventDb.InsertQuery.new room kind data occurred_at agent = Ok q -> EventDb.InsertQuery.iq_entity_type q = None.
Proof.
  unfold EventDb.InsertQuery.new. destruct (if bool_decide _ then _ else _) as [[d b]|]; simpl; [|done].
  by intros [= <-].
Qed.
Lemma stream_delete_steps r : query_steps (DeleteQuery.execute r "stream").
Proof. by apply (statement_query_steps (DeleteEvents r "stream")). Qed.
Lemma vacuum_steps q : query_respects (rtc statement_step) (VacuumQuery.execute q).
Proof. intros c db. apply rtc_once. by exists (Vacuum q), c. Qed.
Lemma edition_insert_steps r a : query_steps (EditionQueries.insert r a).
Proof. by apply (statement_query_steps (InsertEdition r a)). Qed.
Lemma edition_delete_steps i : query_steps (EditionQueries.delete i).
Proof. by apply (statement_query_steps (DeleteEdition i)). Qed.
Lemma change_insert_steps q : query_steps (ChangeQueries.insert q).
Proof. by apply (statement_query_steps (InsertChange q)). Qed.
Lemma change_delete_steps i : query_steps (ChangeQueries.delete i).
Proof. by apply (statement_query_steps (DeleteChange i)). Qed.
Lemma agent_insert_steps a r : query_steps (AgentQueries.insert a r).
Proof. by apply (statement_query_steps (InsertAgent a r)). Qed.
Lemma agent_update_steps a r s : query_steps (AgentQueries.update a r s).
Proof. by apply (statement_query_steps (UpdateAgent a r s)). Qed.
Lemma agent_delete_steps a r : query_steps (AgentQueries.delete a r).
Proof. by apply (statement_query_steps (DeleteAgent a r)). Qed.
Lemma ban_insert_steps a r x : query_steps (BanQueries.insert a r x).
Proof. by apply (statement_query_steps (InsertBan a r x)). Qed.
Lemma ban_delete_steps a r : query_steps (BanQueries.delete a r).
Proof. by apply (statement_query_steps (DeleteBan a r)). Qed.
Lemma adjustment_insert_steps r t s o : query_steps (AdjustmentQueries.insert r t s o).
Proof. by apply (statement_query_steps (InsertAdjustment r t s o)). Qed.
End Queries.

#[export] Hint Resolve room_insert_steps room_update_steps event_insert_steps stream_delete_steps
  vacuum_steps edition_insert_steps edition_delete_steps change_insert_steps change_delete_steps
  agent_insert_steps agent_update_steps agent_delete_steps ban_insert_steps ban_delete_steps
  adjustment_insert_steps : effects.

(** Walk through a computation, showing that it respects a relation. *)
Ltac by_steps :=
  repeat first
    [ progress intros
    | apply bind_respects; try apply _
    | apply query_op_respects; try apply _
    | apply on_error_respects
    | apply transaction_respects; try apply _
    | apply for_each_respects; try apply _
    | apply run_respects; try apply _
    | apply run_op_respects; try apply _
    | apply select_respects; try apply _
    | apply ret_respects; try apply _
    | apply fail_respects; try apply _
    | apply lift_respects; try apply _
    | apply now_respects; try apply _
    | apply sentry_respects; try apply _
    | apply acquire_respects; try apply _
    | apply run_ro_respects; try apply _
    | solve [eauto with effects]
    | case_match ].

(** ** A sample environment

    The clock advances by a nanosecond at each tick, nothing fails and everybody
    is allowed everything. *)
Definition sample_env : env := Env
  (fun k => Tick (100 * nanos_per_sec + Z.of_nat k)
              (QCtx (100 * nanos_per_sec + Z.of_nat k) (fun i => N.of_nat (1000 + 100 * k + i))) None)
  (fun _ _ _ _ _ => Ok 0) None (fun _ => true) (fun _ => true).

Definition sample_world : world := World sample_db 0 [] [].

Lemma sample_db_integrity : integrity sample_db.
Proof.
  apply (rooms_events_integrity [sample_room_row] []); [by_evaluation|by_evaluation|by_evaluation|by repeat constructor|].
  repeat constructor; by_evaluation.
Qed.

