(* ===== verification/Concurrency.v ===== *)
(** * Concurrency

    Computations that run at the same time: a pool of sessions over one world, in
    which at each step some session makes its next use of the outside, or a new
    session starts.  [schedule] runs a pool in a given order.  The theory of the
    file is about pools of any computations: a session alone runs as [exec] says;
    what every use keeps, every interleaving keeps ([pool_keeps]); what a
    session establishes whatever the others do ([holds], [holds_in_pool]); and
    sessions that exclude one another ([exclusive], [at_most_one_in_pool]). *)

From S2P Require Import Prelude Types Db Effects.

(** ** Pools *)

Record pool (A : Type) : Type := Pool { sessions : list (M Empty_set A); p_world : world }.
Arguments Pool {A} _ _.
Arguments sessions {A} _.
Arguments p_world {A} _.

(** The next use of a session; one that is done stays as it is. *)
Definition use_once {E A} (n : env) (m : M E A) (w : world) : M E A * world :=
  match m with
  | Done r => (Done r, w)
  | Use use k => let '(b, w') := use n w in (k b, w')
  end.

Inductive pool_step {A} (starts : M Empty_set A -> Prop) (n : env) : pool A -> pool A -> Prop :=
  | pool_use i (m : M Empty_set A) l w :
      l !! i = Some m -> pool_step starts n (Pool l w) (Pool (<[i := (use_once n m w).1]> l) (use_once n m w).2)
  | pool_start m l w : starts m -> pool_step starts n (Pool l w) (Pool (l ++ [m]) w).

(** The pool when the sessions of the given numbers have made a use each, in that
    order. *)
Fixpoint schedule {A} (n : env) (order : list nat) (p : pool A) : pool A :=
  match order with
  | [] => p
  | i :: order =>
    match sessions p !! i with
    | Some m => let '(m', w') := use_once n m (p_world p) in schedule n order (Pool (<[i := m']> (sessions p)) w')
    | None => schedule n order p
    end
  end.

(** The result of a session that is done. *)
Definition result_of {A} (p : pool A) (i : nat) : option A :=
  match sessions p !! i with Some (Done (Ok a)) => Some a | _ => None end.

(** ** A session alone *)

Section Alone.
Context {A : Type} (starts : M Empty_set A -> Prop) (n : env).
Implicit Types (p : pool A) (l : list (M Empty_set A)).

Lemma schedule_steps order p : rtc (pool_step starts n) p (schedule n order p).
Proof.
  revert p. induction order as [|i order IH]; intros [l w]; simpl; [done|].
  destruct (l !! i) as [m|] eqn:E; [|apply IH].
  destruct (use_once n m w) as [m' w'] eqn:Eu. eapply rtc_l; [by apply (pool_use _ _ i m)|]. rewrite Eu. apply IH.
Qed.

(** The sessions of a list start one after another. *)
Lemma pool_starts l ms w : Forall starts ms -> rtc (pool_step starts n) (Pool l w) (Pool (l ++ ms) w).
Proof.
  intros Hs. revert l. induction Hs as [|m ms Hm _ IH]; intros l; [by rewrite app_nil_r|].
  eapply rtc_l; [by apply pool_start|]. specialize (IH (l ++ [m])). by rewrite <-app_assoc in IH.
Qed.

(** A session may run to its end while the others wait. *)
Lemma pool_runs_alone l i (m : M Empty_set A) w :
  l !! i = Some m -> rtc (pool_step starts n) (Pool l w) (Pool (<[i := Done (m n w).1]> l) (m n w).2).
Proof.
  revert l w. induction m as [r|B use k IH]; intros l w Hi.
  - by rewrite list_insert_id.
  - rewrite exec_use. eapply rtc_l; [by apply (pool_use _ _ i (Use use k))|]. simpl.
    destruct (use n w) as [b w']. simpl.
    rewrite <-(list_insert_insert_eq l i (Done (k b n w').1) (k b)). apply IH. apply list_lookup_insert_eq. by eapply lookup_lt_Some.
Qed.

Lemma use_once_exec {E} (m : M E A) w : (use_once n m w).1 n (use_once n m w).2 = m n w.
Proof. destruct m as [r|B use k]; [done|]. rewrite exec_use. simpl. by destruct (use n w). Qed.

End Alone.

Lemma pool_of_one_exec {A} n (p p' : pool A) m :
  rtc (pool_step (fun _ => False) n) p p' -> sessions p = [m] ->
  exists m', sessions p' = [m'] /\ m' n (p_world p') = m n (p_world p).
Proof.
  intros Hr. revert m. induction Hr as [p|p1 p2 p3 Hstep _ IH]; intros m Hs; [eauto|].
  destruct Hstep as [i m' l w1 Hi|m' l w1 []]. simpl in Hs. subst l.
  destruct i as [|i]; [|done]. injection Hi as <-. simpl in *.
  destruct (IH _ eq_refl) as (m' & Hm' & He). exists m'. split; [done|]. etrans; [exact He|]. apply use_once_exec.
Qed.

(** A pool of one session is that session alone. *)
Lemma pool_of_one {A} n (m : M Empty_set A) w r w' :
  rtc (pool_step (fun _ => False) n) (Pool [m] w) (Pool [Done r] w') <-> m n w = (r, w').
Proof.
  split.
  - intros Hr. destruct (pool_of_one_exec n _ _ m Hr eq_refl) as (m' & [= <-] & He). by symmetry.
  - intros E. pose proof (pool_runs_alone (fun _ => False) n [m] 0 m w eq_refl) as Hr. by rewrite E in Hr.
Qed.

(** ** What every interleaving keeps *)

Section Invariants.
Context {A : Type} (starts : M Empty_set A -> Prop) (n : env).

Lemma use_once_uses (R : relation world) `{!Reflexive R} {E} (m : M E A) w :
  uses R m -> uses R (use_once n m w).1 /\ R w (use_once n m w).2.
Proof.
  destruct m as [r|B use k]; simpl; [done|]. intros [Hu Hk]. specialize (Hu n w). destruct (use n w). split; [apply Hk|done].
Qed.

(** If every use of the sessions, and of those that may start, keeps the relation,
    then so does every interleaving. *)
Lemma pool_keeps (R : relation world) `{!PreOrder R} p p' :
  rtc (pool_step starts n) p p' -> (forall m, starts m -> uses R m) -> Forall (uses R) (sessions p) ->
  Forall (uses R) (sessions p') /\ R (p_world p) (p_world p').
Proof.
  intros Hr Hs. induction Hr as [p|p1 p2 p3 Hstep _ IH]; [done|]. intros Hl.
  assert (Forall (uses R) (sessions p2) /\ R (p_world p1) (p_world p2)) as [Hl2 Hw].
  { destruct Hstep as [i m l w Hi|m l w Hm]; simpl in *.
    - pose proof (proj1 (Forall_lookup _ _) Hl i m Hi) as Hm. apply (use_once_uses _ _ w) in Hm as [Hm Hw].
      split; [by apply Forall_insert|done].
    - split; [apply Forall_app; eauto|done]. }
  destruct (IH Hl2) as [Hl3 Hw']. split; [done|by etrans].
Qed.

(** The same of computations that keep the relation in the environment of the pool
    only, with what the sessions end with. *)
Lemma pool_within (R : relation world) `{!PreOrder R} Q p p' :
  rtc (pool_step starts n) p p' -> (forall m, starts m -> within n R Q m) -> Forall (within n R Q) (sessions p) ->
  Forall (within n R Q) (sessions p') /\ R (p_world p) (p_world p').
Proof.
  intros Hr Hs. induction Hr as [p|p1 p2 p3 Hstep _ IH]; [done|]. intros Hl.
  assert (Forall (within n R Q) (sessions p2) /\ R (p_world p1) (p_world p2)) as [Hl2 Hw].
  { destruct Hstep as [i m l w Hi|m l w Hm]; simpl in *.
    - pose proof (proj1 (Forall_lookup _ _) Hl i m Hi) as Hm. destruct m as [r|B use k]; simpl.
      + split; [|reflexivity]. by apply Forall_insert.
      + destruct (Hm w) as [Hu Hk]. destruct (use n w) as [b w']. split; [by apply Forall_insert|done].
    - split; [apply Forall_app; eauto|reflexivity]. }
  destruct (IH Hl2) as [Hl3 Hw']. split; [done|by etrans].
Qed.
End Invariants.

(** ** What a session establishes whatever the others do *)

(** While the world changes between its uses as the relation says, the session
    ends with a result and a world that satisfy [Q]. *)
Fixpoint holds (n : env) (R : relation world) {E A} (Q : result E A -> world -> Prop) (m : M E A) (w : world) : Prop :=
  match m with
  | Done r => Q r w
  | Use use k => forall w1, R w w1 -> holds n R Q (k (use n w1).1) (use n w1).2
  end.

(** Whatever the world is, the session ends with a result that satisfies [Q]. *)
Fixpoint ends (n : env) {E A} (Q : result E A -> Prop) (m : M E A) : Prop :=
  match m with
  | Done r => Q r
  | Use use k => forall w, ends n Q (k (use n w).1)
  end.

Section Holds.
Context (n : env) (R : relation world).

Lemma holds_mono {E A} (Q Q' : result E A -> world -> Prop) m w :
  (forall r w, Q r w -> Q' r w) -> holds n R Q m w -> holds n R Q' m w.
Proof. intros HQ. revert w. induction m as [r|B use k IH]; simpl; [auto|]. intros w Hm w1 Hw. by apply IH, Hm. Qed.

Lemma holds_continue {E F A B} (m : M E A) (f : result E A -> M F B) Q Q' w :
  holds n R Q m w -> (forall r w, Q r w -> holds n R Q' (f r) w) -> holds n R Q' (continue m f) w.
Proof.
  intros Hm Hf. revert w Hm. induction m as [r|C use k IH]; intros w Hm; [by apply Hf|]. intros w1 Hw. by apply IH, Hm.
Qed.

Lemma holds_bind {E A B} (m : M E A) (f : A -> M E B) Q w :
  holds n R (fun r w => match r with Ok a => holds n R Q (f a) w | Err e => Q (Err e) w end) m w ->
  holds n R Q (bind m f) w.
Proof. intros Hm. apply (holds_continue _ _ _ _ _ Hm). by intros [a|e] w'. Qed.

Lemma holds_on_error {E F A} (f : E -> F) (m : M E A) Q w :
  holds n R (fun r w => Q (match r with Ok a => Ok a | Err e => Err (f e) end) w) m w -> holds n R Q (on_error f m) w.
Proof. intros Hm. by apply (holds_continue _ _ _ _ _ Hm). Qed.

Lemma holds_attempt {E F A} (m : M E A) (Q : result F (result E A) -> world -> Prop) w :
  holds n R (fun r w => Q (Ok r) w) m w -> holds n R Q (attempt m) w.
Proof. intros Hm. by apply (holds_continue _ _ _ _ _ Hm). Qed.

Lemma holds_any {E A} (Q : result E A -> world -> Prop) m w : (forall r w, Q r w) -> holds n R Q m w.
Proof. intros HQ. revert w. induction m as [r|B use k IH]; intros w; [apply HQ|]. intros w1 _. apply IH. Qed.

Lemma holds_and {E A} (Q Q' : result E A -> world -> Prop) m w :
  holds n R Q m w -> holds n R Q' m w -> holds n R (fun r w => Q r w /\ Q' r w) m w.
Proof. revert w. induction m as [r|B use k IH]; simpl; intros w; [done|]. intros H1 H2 w1 Hw. auto. Qed.

Lemma holds_stable {E A} (P : world -> Prop) (m : M E A) w :
  (forall w w', R w w' -> P w -> P w') -> uses R m -> P w -> holds n R (fun _ w => P w) m w.
Proof.
  intros HP. revert w. induction m as [r|B use k IH]; simpl; intros w Hu Hw; [done|].
  intros w1 Hw1. destruct Hu as [Hu Hk]. apply IH; [apply Hk|]. eapply HP; [apply Hu|]. by eapply HP.
Qed.

Lemma holds_use {E A} `{!PreOrder R} (Q : result E A -> world -> Prop) m w w1 :
  R w w1 -> holds n R Q m w -> holds n R Q (use_once n m w1).1 (use_once n m w1).2 \/ exists r, m = Done r /\ Q r w.
Proof.
  destruct m as [r|B use k]; simpl; [eauto|]. intros Hw Hm. left. specialize (Hm w1 Hw). by destruct (use n w1).
Qed.

Lemma ends_mono {E A} (Q Q' : result E A -> Prop) (m : M E A) : (forall r, Q r -> Q' r) -> ends n Q m -> ends n Q' m.
Proof. intros HQ. induction m as [r|B use k IH]; simpl; auto. Qed.

Lemma ends_any {E A} (Q : result E A -> Prop) (m : M E A) : (forall r, Q r) -> ends n Q m.
Proof. intros HQ. induction m as [r|B use k IH]; simpl; auto. Qed.

Lemma ends_continue {E F A B} (m : M E A) (f : result E A -> M F B) Q Q' :
  ends n Q m -> (forall r, Q r -> ends n Q' (f r)) -> ends n Q' (continue m f).
Proof. intros Hm Hf. induction m as [r|C use k IH]; [by apply Hf|]. intros w. apply IH, Hm. Qed.

(** What is sent to Sentry tells nothing. *)
Lemma ends_notify {E A} k (Q : result E A -> Prop) (m : M E A) : ends n Q m -> ends n Q (notify_sentry k;; m).
Proof. by intros Hm w. Qed.

Lemma ends_exec {E A} (Q : result E A -> Prop) (m : M E A) w : ends n Q m -> Q (m n w).1.
Proof.
  revert w. induction m as [r|B use k IH]; intros w Hm; [done|]. rewrite exec_use. specialize (Hm w).
  destruct (use n w) as [b w']. by apply IH.
Qed.
End Holds.

(** An invariant of the relation may be assumed of the worlds the session meets. *)
Lemma holds_with_invariant n (R : relation world) (I : world -> Prop) {E A} (Q : result E A -> world -> Prop) m w :
  (forall w w', R w w' -> I w -> I w') -> uses R m -> I w ->
  holds n (fun w w' => R w w' /\ I w') Q m w -> holds n R Q m w.
Proof.
  intros HI. revert w. induction m as [r|B use k IH]; simpl; intros w Hu Hw Hm; [done|]. intros w1 Hw1.
  destruct Hu as [Hu Hk]. apply IH; [apply Hk| |apply Hm; by eauto]. eapply HI; [apply Hu|]. by eapply HI.
Qed.

(** In a pool whose sessions keep the relation, what a session establishes against
    it was established when the session ended, and the world has changed since as
    the relation says. *)
Lemma holds_in_pool {A} (starts : M Empty_set A -> Prop) n (R : relation world) `{!PreOrder R} (I : world -> Prop) Q p p' :
  rtc (pool_step starts n) p p' -> (forall w w', R w w' -> I w -> I w') -> I (p_world p) ->
  (forall m, starts m -> uses R m /\ forall w, I w -> holds n R Q m w) ->
  Forall (fun m => uses R m /\ holds n R Q m (p_world p)) (sessions p) ->
  forall i r, sessions p' !! i = Some (Done r) -> exists w, Q r w /\ R w (p_world p').
Proof.
  intros Hr HI HIp Hs Hl.
  assert (Forall (fun m => uses R m /\ exists w, holds n R Q m w /\ R w (p_world p)) (sessions p)) as Hl'.
  { eapply Forall_impl; [exact Hl|]. intros m [Hu Hm]. split; [done|]. by exists (p_world p). }
  clear Hl. revert HIp Hl'. induction Hr as [p|p1 p2 p3 Hstep _ IH]; intros HIp Hl.
  - intros i r Hi. by apply (proj1 (Forall_lookup _ _) Hl) in Hi as [_ Hm].
  - destruct Hstep as [j mj l w Hj|mj l w Hj]; simpl in *.
    + pose proof (proj1 (Forall_lookup _ _) Hl j mj Hj) as [Huse (w0 & Hm & Hw0)].
      apply (use_once_uses n _ _ w) in Huse as [Huse Hw]. apply IH; [by eapply HI|].
      apply Forall_insert.
      * eapply Forall_impl; [exact Hl|]. intros m [Hu (w1 & Hm1 & Hw1)]. split; [done|].
        exists w1. split; [done|by etrans].
      * split; [done|]. destruct (holds_use n R Q mj w0 w Hw0 Hm) as [Hh|(r & -> & Hq)]; [by eexists|].
        exists w0. split; [exact Hq|done].
    + apply IH; [done|]. apply Forall_app. split; [done|]. destruct (Hs mj Hj) as [Hu Hh].
      repeat constructor; [done|]. exists w. split; [by apply Hh|done].
Qed.

(** ** Sessions that exclude one another *)

(** The session does not succeed ([S]) unless one of its uses makes [P] true of a
    world it was not true of. *)
Fixpoint exclusive (n : env) (P : world -> bool) {E A} (S : result E A -> Prop) (m : M E A) : Prop :=
  match m with
  | Done r => ~ S r
  | Use use k => forall w, (P w = true -> exclusive n P S (k (use n w).1)) /\
      (P w = false -> P (use n w).2 = true \/ exclusive n P S (k (use n w).1))
  end.

Section Exclusive.
Context (n : env) (P : world -> bool).

Lemma exclusive_ends {E A} (S : result E A -> Prop) (m : M E A) : ends n (fun r => ~ S r) m -> exclusive n P S m.
Proof. induction m as [r|B use k IH]; simpl; [done|]. intros Hm w. auto. Qed.

Lemma exclusive_continue {E F A B} (S : result E A -> Prop) (S' : result F B -> Prop) m (f : result E A -> M F B) :
  exclusive n P S m -> (forall r, ~ S r -> exclusive n P S' (f r)) -> exclusive n P S' (continue m f).
Proof.
  intros Hm Hf. induction m as [r|C use k IH]; [by apply Hf|]. intros w. destruct (Hm w) as [H1 H2].
  split; intros Hw; [by apply IH, H1|]. destruct (H2 Hw) as [?|?]; [by left|]. right. by apply IH.
Qed.

Lemma exclusive_mono {E A} (S S' : result E A -> Prop) (m : M E A) :
  (forall r, S' r -> S r) -> exclusive n P S m -> exclusive n P S' m.
Proof.
  intros HS. induction m as [r|B use k IH]; [by intros Hm Hr; apply Hm, HS|]. intros Hm w. destruct (Hm w) as [H1 H2].
  split; intros Hw; [by apply IH, H1|]. destruct (H2 Hw) as [?|?]; [by left|]. right. by apply IH.
Qed.

(** What comes before the use that matters. *)
Lemma exclusive_after {E F A B} (Q : result E A -> Prop) (S : result F B -> Prop) m (f : result E A -> M F B) :
  ends n Q m -> (forall r, Q r -> exclusive n P S (f r)) -> exclusive n P S (continue m f).
Proof.
  intros Hm Hf. induction m as [r|C use k IH]; [by apply Hf|]. intros w. split; intros Hw; [|right]; apply IH, Hm.
Qed.

Lemma exclusive_bind {E A B} (Q : A -> Prop) (S : result E B -> Prop) (m : M E A) (f : A -> M E B) :
  ends n (fun r => match r with Ok a => Q a | Err _ => True end) m -> (forall e, ~ S (Err e)) ->
  (forall a, Q a -> exclusive n P S (f a)) -> exclusive n P S (bind m f).
Proof. intros Hm He Hf. apply (exclusive_after _ _ _ _ Hm). intros [a|e]; [apply Hf|]. intros _. apply He. Qed.

Lemma exclusive_use {E A} (S : result E A -> Prop) (m : M E A) w :
  exclusive n P S m -> exclusive n P S (use_once n m w).1 \/ (P w = false /\ P (use_once n m w).2 = true).
Proof.
  destruct m as [r|B use k]; simpl; [by left|]. intros Hm. destruct (Hm w) as [H1 H2].
  destruct (use n w) as [b w']. simpl in *. destruct (P w); [by left; apply H1|]. destruct (H2 eq_refl); auto.
Qed.
End Exclusive.

(** When [P] stays true, at most one session of a pool of exclusive ones succeeds. *)
Lemma at_most_one_in_pool {A} (starts : M Empty_set A -> Prop) n (P : world -> bool) (S : result Empty_set A -> Prop) p p' :
  rtc (pool_step starts n) p p' ->
  (forall m, starts m -> exclusive n P S m /\ uses (fun w w' => P w = true -> P w' = true) m) ->
  Forall (fun m => exclusive n P S m /\ uses (fun w w' => P w = true -> P w' = true) m) (sessions p) ->
  forall i j r r', sessions p' !! i = Some (Done r) -> S r -> sessions p' !! j = Some (Done r') -> S r' -> i = j.
Proof.
  set (R := fun w w' => P w = true -> P w' = true). assert (Reflexive R) by (intros w Hw; exact Hw). intros Hr Hs Hl.
  assert (Forall (uses R) (sessions p) /\ (Forall (exclusive n P S) (sessions p) \/
    exists k, P (p_world p) = true /\ forall i m, sessions p !! i = Some m -> i <> k -> exclusive n P S m)) as Hinv.
  { apply Forall_and in Hl as [He Hu]. split; [done|by left]. }
  clear Hl. revert Hinv. induction Hr as [p|p1 p2 p3 Hstep _ IH].
  - intros [_ [He|(k & _ & He)]] i j r r' Hi HS Hj HS'.
    + exfalso. by apply (proj1 (Forall_lookup _ _) He i (Done r) Hi).
    + destruct (decide (i = k)) as [->|Hik]; [|exact (match He i (Done r) Hi Hik HS with end)].
      destruct (decide (j = k)) as [->|Hjk]; [done|exact (match He j (Done r') Hj Hjk HS' with end)].
  - intros [Hu Hinv]. apply IH. clear IH. destruct Hstep as [i m l w Hi|m l w Hm]; simpl in *.
    + pose proof (proj1 (Forall_lookup _ _) Hu i m Hi) as Hum.
      apply (use_once_uses n R _ w) in Hum as [Hum Hw].
      split; [by apply Forall_insert|]. destruct Hinv as [He|(k & Hk & He)].
      * pose proof (proj1 (Forall_lookup _ _) He i m Hi) as Hem.
        destruct (exclusive_use n P S m w Hem) as [He'|[_ HP]]; [left; by apply Forall_insert|].
        right. exists i. split; [done|]. intros j mj Hj Hij. rewrite list_lookup_insert_ne in Hj by done.
        by apply (proj1 (Forall_lookup _ _) He j).
      * right. exists k. split; [by apply Hw|]. intros j mj Hj Hjk.
        destruct (decide (j = i)) as [->|Hij]; [|by rewrite list_lookup_insert_ne in Hj by done; apply (He j)].
        rewrite list_lookup_insert_eq in Hj by by eapply lookup_lt_Some. injection Hj as <-.
        destruct (exclusive_use n P S m w (He i m Hi Hjk)) as [?|[Hf _]]; [done|congruence].
    + destruct (Hs m Hm) as [Hem Hum]. split; [by apply Forall_app; repeat constructor|].
      destruct Hinv as [He|(k & Hk & He)]; [left; by apply Forall_app; repeat constructor|].
      right. exists k. split; [done|]. intros j mj Hj Hjk.
      apply lookup_app_Some in Hj as [Hj|[_ Hj]]; [by apply (He j)|]. by apply list_lookup_singleton_Some in Hj as [_ <-].
Qed.
