(* ===== verification/AdjustRoom.v ===== *)
(** * Room adjustment

    [src/src/app/operations/adjust_room.rs]: the operation behind [room.adjust].
    From the recording's segments it derives two rooms: the original room, with
    the events moved into the segments, and the modified room, with the cuts the
    users made applied as well. *)

From S2P Require Import Prelude Intervals Times Types Db Sample EventDb RoomDb EditionDb AgentDb Integrity Effects.

Definition NANOSECONDS_IN_MILLISECOND : Z := 1000000.

Record AdjustOutput : Type := MkAdjustOutput {
  original_room : Room;
  modified_room : Room;
  modified_segments : Segments;
  cut_original_segments : Segments
}.

(** ** Parsing and arithmetic *)

(** The loop over the bounds of the segments. *)
Fixpoint parse_segments (segments : Segments) : result failure (list range) :=
  match segments with
  | [] => Ok []
  | (Included start, Excluded stop) :: segments =>
    result_bind (parse_segments segments) (fun parsed => Ok ((start, stop) :: parsed))
  | _ :: _ => Err (Bail "Invalid segment")
  end.

(** [Duration::num_milliseconds] and [Duration::milliseconds]. *)
Definition num_milliseconds (d : Z) : Z := Z.quot d NANOSECONDS_IN_MILLISECOND.
Definition milliseconds (ms : Z) : Z := ms * NANOSECONDS_IN_MILLISECOND.

Definition to_nano (rtc_offset : Z) (segment : range) : range :=
  (((segment.1 + rtc_offset) * NANOSECONDS_IN_MILLISECOND)%i64,
   ((segment.2 + rtc_offset) * NANOSECONDS_IN_MILLISECOND)%i64).

(** Back to the recording's own clock. *)
Definition from_rtc (rtc_offset : Z) (r : range) : range :=
  ((r.1 - wrap64 (rtc_offset * NANOSECONDS_IN_MILLISECOND))%i64,
   (r.2 - wrap64 (rtc_offset * NANOSECONDS_IN_MILLISECOND))%i64).

Definition total_segments_millis (segments : list range) : Z :=
  foldl (fun acc '(start, stop) => (acc + wrap64 (stop - start))%i64) 0 segments.

Definition to_millis (r : range) : Bound Z * Bound Z :=
  (Included (Z.quot r.1 NANOSECONDS_IN_MILLISECOND), Excluded (Z.quot r.2 NANOSECONDS_IN_MILLISECOND)).

Definition to_millis_from_zero (r : range) : Bound Z * Bound Z :=
  (Included (Z.max (Z.quot r.1 NANOSECONDS_IN_MILLISECOND) 0),
   Excluded (Z.quot r.2 NANOSECONDS_IN_MILLISECOND)).

(** ** Stream events of breaks and groups *)

Definition cut (value : string) : json := JObject [("cut"%string, JString value)].

(** The payload of the [stream] event a [break] or [video_group] event gives. *)
Definition stream_data (event : Event) : option json :=
  if bool_decide (event_kind event = "break"%string) then
    match json_get "value" (event_data event) ≫= as_bool with
    | Some true => Some (cut "start")
    | Some false => Some (cut "stop")
    | None => None
    end
  else
    match json_get "video_group" (event_data event) ≫= as_str with
    | Some v =>
      if bool_decide (v = "created"%string) then Some (cut "start")
      else if bool_decide (v = "deleted"%string) then Some (cut "stop")
      else None
    | None => None
    end.

Fixpoint stream_queries `{Externals, EventCodec} (room_id : uuid) (events : list Event)
    : result failure (list EventDb.InsertQuery.t) :=
  match events with
  | [] => Ok []
  | event :: events =>
    match stream_data event with
    | None => stream_queries room_id events
    | Some data =>
      result_bind (EventDb.InsertQuery.new room_id "stream" data (event_occurred_at event)
                     (event_created_by event)) (fun q =>
      result_bind (stream_queries room_id events) (fun qs => Ok (q :: qs)))
    end
  end.

(** ** Cut events *)

Inductive CutEventsToGapsState : Type := Started (start : Z) | Stopped.

(** One iteration: the gap pushed, if any, and the next state. *)
Definition cut_step (state : CutEventsToGapsState) (event : Event)
    : result failure (list range * CutEventsToGapsState) :=
  match json_get "cut" (event_data event) ≫= as_str with
  | Some command =>
    if bool_decide (command = "start"%string) then Ok ([], Started (event_occurred_at event))
    else if bool_decide (command = "stop"%string) then
      match state with
      | Started start => Ok ([(start, event_occurred_at event)], Stopped)
      | Stopped => Ok ([], Stopped)
      end
    else Err (Bail "invalid cut event")
  | None => Err (Bail "invalid cut event")
  end.

Fixpoint cut_loop (state : CutEventsToGapsState) (gaps : list range) (events : list Event)
    : result failure (list range) :=
  match events with
  | [] => Ok gaps
  | event :: events =>
    result_bind (cut_step state event) (fun '(pushed, state) => cut_loop state (gaps ++ pushed) events)
  end.

Definition cut_events_to_gaps (cut_events : list Event) : result failure (list range) :=
  cut_loop (Started 0) [] cut_events.

(** ** Cloning events *)

Module CloneEvents.

(** [(SELECT stop FROM gaps WHERE start = 0)]: more than one row is an error. *)
Definition leading_stop (gaps : list range) : option (option Z) :=
  match List.filter (fun g => g.1 =? 0) gaps with
  | [] => Some None
  | [g] => Some (Some g.2)
  | _ => None
  end.

(** [SUM(LEAST(stop, occurred_at) - start)] over the gaps that start before the
    event; the terms are [BIGINT], the sum is [NUMERIC]. *)
Fixpoint removed (gaps : list range) (occurred_at : Z) : option Z :=
  match gaps with
  | [] => Some 0
  | (start, stop) :: gaps =>
    if (start <? occurred_at) && (0 <=? start)
    then match bigint (Z.min stop occurred_at - start), removed gaps occurred_at with
         | Some d, Some s => Some (d + s)
         | _, _ => None
         end
    else removed gaps occurred_at
  end.

(** The [occurred_at] of the subquery. *)
Definition shift (gaps : list range) (offset occurred_at : Z) : result sqlx_error Z :=
  match leading_stop gaps with
  | None => Err (DatabaseError "cardinality_violation")
  | Some leading =>
    if match leading with Some stop => occurred_at <=? stop | None => false end
    then Ok offset
    else match removed gaps occurred_at with
         | Some s => Ok (occurred_at - s + offset)
         | None => Err (DatabaseError "bigint_out_of_range")
         end
  end.

(** The rows of the subquery. *)
Definition sub (gaps : list range) (offset : Z) (source_room_id : uuid) (events : list event_row)
    : result sqlx_error (list (event_row * Z)) :=
  map_rows (fun e => result_bind (shift gaps offset (er_occurred_at e)) (fun t => Ok (e, t)))
    (List.filter (fun e => bool_decide (er_room_id e = source_room_id) && is_none (er_deleted_at e)) events).

Definition is_stream (e : event_row) : bool := bool_decide (er_kind e = "stream"%string).

(** [PARTITION BY occurred_at, kind = 'stream' ORDER BY created_at]. *)
Definition same_partition (x y : event_row * Z) : bool :=
  (x.2 =? y.2) && eqb (is_stream x.1) (is_stream y.1).

(** Monotonization: events that fall on one instant are set apart by a nanosecond
    each; cut starts and stops are left as they are. *)
Definition monotonize (rows : list (event_row * Z)) (x : event_row * Z) : Z :=
  if is_stream x.1 then x.2
  else x.2 + row_number (fun a b => VacuumQuery.same_id a.1 b.1) same_partition
               (by_key (fun a => er_created_at a.1)) rows x - 1.

(** The order in which the window function hands the rows on: it reads them sorted
    by the partition, then by the time of creation. *)
Definition window_order (x y : event_row * Z) : bool :=
  (x.2 <? y.2)
  || (x.2 =? y.2) && ((negb (is_stream x.1) && is_stream y.1)
                      || eqb (is_stream x.1) (is_stream y.1) && by_key (fun a => er_created_at a.1) x y).

(** The row inserted, numbered [i] in the statement. *)
Definition clone (c : qctx) (room_id : uuid) (rows : list (event_row * Z)) (i : nat)
    (x : event_row * Z) : result sqlx_error new_event :=
  match bigint (monotonize rows x) with
  | None => Err (DatabaseError "bigint_out_of_range")
  | Some occurred_at =>
    let e := x.1 in
    Ok (NewEvent (q_uuid c i) room_id (er_kind e) (er_set e) (er_label e) (er_attribute e) (er_data e)
          (er_binary_data e) occurred_at (er_created_by e) (Some (er_created_at e)) (er_removed e) None None)
  end.

Fixpoint clones (c : qctx) (room_id : uuid) (rows : list (event_row * Z)) (i : nat)
    (l : list (event_row * Z)) : result sqlx_error (list new_event) :=
  match l with
  | [] => Ok []
  | x :: l =>
    result_bind (clone c room_id rows i x) (fun n =>
    result_bind (clones c room_id rows (S i) l) (fun ns => Ok (n :: ns)))
  end.

(** The whole statement. *)
Definition execute `{Externals} (room_id : uuid) (gaps : list range) (offset : Z) (source_room_id : uuid)
    : query unit := fun c db =>
  match result_bind (sub gaps offset source_room_id (db_events db)) (fun rows =>
        result_bind (clones c room_id rows 0 (sort_by window_order rows)) (fun news => insert_events (q_now c) news db)) with
  | Ok db' => (Ok tt, db')
  | Err e => (Err e, db)
  end.

End CloneEvents.

Section Operation.
Context `{Externals, EventCodec}.

Definition clone_events (room : Room) (gaps : list range) (offset : Z) : M op_error unit :=
  match room_source_room_id room with
  | None => bail "room is not derived from another room"
  | Some source_room_id => query_op (CloneEvents.execute (room_id room) gaps offset source_room_id)
  end.

Definition create_room (source_room : Room) (started_at room_duration : Z) : M op_error Room :=
  let time := (Included started_at, Excluded (started_at + room_duration)) in
  let query := RoomDb.InsertQuery.new (room_audience source_room) time (room_classroom_id source_room)
                 (room_kind source_room) in
  let query := RoomDb.InsertQuery.source_room_id (room_id source_room) query in
  let query := match room_tags source_room with
               | Some tags => RoomDb.InsertQuery.tags tags query
               | None => query
               end in
  query_op (RoomDb.InsertQuery.execute query).

(** ** The operation *)

(** The room's time, closed now if it is still endless. *)
Definition close_room_time (real_time_room : Room) (start_timestamp : Z) : M op_error RoomTime :=
  time <~ op_lift (RoomDb.time real_time_room);
  match rt_end time with
  | RtUnbounded =>
    now <~ now;
    match RoomTimeImpl.update now time (Included (rt_start time), Excluded start_timestamp) with
    | None => bail "Failed to update room time bound, invalid room time"
    | Some new_time =>
      query_op (RoomDb.UpdateQuery.execute
        (RoomDb.UpdateQuery.time (Some (RoomTimeImpl.into_tuple new_time))
          (RoomDb.UpdateQuery.new (room_id real_time_room))));;
      ret new_time
    end
  | RtExcluded _ => ret time
  end.

Definition list_kinds (room_id : uuid) (kinds : list string) : M op_error (list Event) :=
  query_op (ListQuery.execute (ListQuery.kinds kinds (ListQuery.room_id room_id ListQuery.new))).

Definition list_stream (room_id : uuid) : M op_error (list Event) :=
  query_op (ListQuery.execute (ListQuery.kind "stream" (ListQuery.room_id room_id ListQuery.new))).

(** The stream events of the breaks and groups, in one transaction. *)
Definition add_stream_events (room_id : uuid) : M op_error unit :=
  events <~ list_kinds room_id ["break"%string; "video_group"%string];
  insert_queries <~ op_lift (stream_queries room_id events);
  match insert_queries with
  | [] => ret tt
  | _ => transaction OpSqlx
           (for_each (fun q => query_op (EventDb.InsertQuery.execute q);; ret tt) insert_queries)
  end.

(** The cut original segments: what the cuts of the real-time room leave of the
    recording's segments. *)
Definition cut_segments (cut_events : list Event) (rtc_offset parsed_segments_finish min_segment_length : Z)
    (nano_segments : list range) : result failure Segments :=
  result_bind (cut_events_to_gaps cut_events) (fun cut_g1 =>
  let cut_g1 := from_rtc rtc_offset <$> cut_g1 in
  result_bind (invert_segments cut_g1 (milliseconds parsed_segments_finish) min_segment_length) (fun g1 =>
  let segments := from_rtc rtc_offset <$> nano_segments in
  match intersect g1 segments with
  | Some l => Ok (to_millis <$> l)
  | None => Err (Panic "intersect")
  end)).

(** The room's opening and duration. *)
Definition opening_and_duration (time : RoomTime) : M op_error (Z * Z) :=
  match rt_end time with
  | RtExcluded stop => ret (rt_start time, stop - rt_start time)
  | RtUnbounded => bail "invalid duration for room"
  end.

(** [parsed_segments.last().unwrap().1]. *)
Definition segments_finish (parsed_segments : list range) : M op_error Z :=
  match last parsed_segments with
  | Some (_, stop) => ret stop
  | None => fail (OpPanic "called `Option::unwrap()` on a `None` value")
  end.

(** From the shifted events of the original room on. *)
Definition derive_modified (real_time_room original_room : Room) (nano_segments : list range)
    (started_at offset min_segment_length rtc_offset parsed_segments_finish total_segments_duration : Z)
    : M op_error AdjustOutput :=
  cut_events <~ list_stream (room_id original_room);
  cut_gaps <~ op_lift (cut_events_to_gaps cut_events);
  source_cut_events <~ list_stream (room_id real_time_room);
  cut_original_segments <~ op_lift (cut_segments source_cut_events rtc_offset parsed_segments_finish
                                      min_segment_length nano_segments);
  modified_room <~ create_room original_room started_at total_segments_duration;
  clone_events modified_room cut_gaps (offset * NANOSECONDS_IN_MILLISECOND)%i64;;
  query_op (DeleteQuery.execute (room_id modified_room) "stream");;
  modified_segments <~ op_lift (invert_segments cut_gaps total_segments_duration min_segment_length);
  ret (MkAdjustOutput original_room modified_room (to_millis_from_zero <$> modified_segments)
         cut_original_segments).

Definition call (real_time_room : Room) (started_at : Z) (segments : Segments)
    (offset min_segment_length : Z) : M op_error AdjustOutput :=
  start_timestamp <~ now;
  parsed_segments <~ op_lift (parse_segments segments);
  on_error OpSqlx acquire;;
  real_time_room_new_time <~ close_room_time real_time_room start_timestamp;
  query_op (AdjustmentQueries.insert (room_id real_time_room) started_at segments offset);;
  add_stream_events (room_id real_time_room);;
  opening <~ opening_and_duration real_time_room_new_time;
  let '(room_opening, room_duration) := opening in
  let rtc_offset := num_milliseconds (started_at - room_opening) in
  let nano_segments := to_nano rtc_offset <$> parsed_segments in
  segment_gaps <~ op_lift (invert_segments nano_segments room_duration min_segment_length);
  parsed_segments_finish <~ segments_finish parsed_segments;
  let total_segments_duration := milliseconds (total_segments_millis parsed_segments) in
  original_room <~ create_room real_time_room started_at total_segments_duration;
  clone_events original_room segment_gaps 0;;
  derive_modified real_time_room original_room nano_segments started_at offset min_segment_length
    rtc_offset parsed_segments_finish total_segments_duration.

End Operation.

(** ** Specification *)

(** The cut commands as the state machine reads them. *)
Definition command (event : Event) : option string := json_get "cut" (event_data event) ≫= as_str.
Definition is_start (event : Event) : bool := bool_decide (command event = Some "start"%string).
Definition is_stop (event : Event) : bool := bool_decide (command event = Some "stop"%string).

(** Reference definition of the gaps: the pairs of a start, or the beginning of
    the recording, and the event right after it when that is a stop. *)
Definition pairs_from (prev : option Z) (cut_events : list Event) : list range :=
  omap (fun '(prev, event) => if is_stop event then (fun s => (s, event_occurred_at event)) <$> prev else None)
    (zip (prev :: ((fun e => if is_start e then Some (event_occurred_at e) else None) <$> cut_events))
       cut_events).
Definition gap_pairs (cut_events : list Event) : list range := pairs_from (Some 0) cut_events.

(** The start the state machine remembers. *)
Definition state_start (state : CutEventsToGapsState) : option Z :=
  match state with Started start => Some start | Stopped => None end.

(** ** Lemmas *)

(** *** Shifting *)

Lemma removed_spec lo gaps t :
  0 <= lo -> ranges_from lo gaps -> 0 <= t <= i64_max ->
  CloneEvents.removed gaps t = Some (removed_before gaps t).
Proof.
  revert lo. induction gaps as [|[s e] gaps IH]; intros lo Hlo; simpl; [done|]. intros [Hs Hg] Ht.
  rewrite removed_before_cons. specialize (IH e). rewrite IH by (done || lia).
  unfold clip. simpl. destruct (Z.leb_spec 0 s); [|lia]. destruct (Z.ltb_spec s t); simpl; [|f_equal; lia].
  rewrite bigint_Some; [done|]. unfold in_i64, i64_min, i64_max in *. lia.
Qed.

Lemma leading_stop_elem gaps stop :
  CloneEvents.leading_stop gaps = Some (Some stop) -> (0, stop) ∈ gaps.
Proof.
  unfold CloneEvents.leading_stop. intros Hl.
  destruct (List.filter _ gaps) as [|[s e] [|]] eqn:E; simplify_eq/=.
  assert ((s, stop) ∈ List.filter (fun g => g.1 =? 0) gaps) as [Hin Hs]%elem_of_lfilter by (rewrite E; left).
  simpl in Hs. by replace 0 with s by lia.
Qed.

(** Before the end of a gap that starts at zero nothing is kept. *)
Lemma kept_before_leading gaps stop t : (0, stop) ∈ gaps -> t <= stop -> kept_before gaps t = 0.
Proof.
  intros Hin Ht. unfold kept_before.
  destruct (filter _ (seqZ 0 t)) as [|z l] eqn:E; [done|]. exfalso.
  assert (z ∈ filter (fun z => coversb gaps z = false) (seqZ 0 t)) as Hz by (rewrite E; left).
  apply list_elem_of_filter in Hz as [Hn%coversb_false Hz%elem_of_seqZ].
  apply Hn. exists 0, stop. split; [done|lia].
Qed.

Lemma shift_spec gaps offset t :
  ranges_from 0 gaps -> CloneEvents.leading_stop gaps <> None -> 0 <= t <= i64_max ->
  CloneEvents.shift gaps offset t = Ok (t - removed_before gaps t + offset).
Proof.
  intros Hg Hl Ht. unfold CloneEvents.shift.
  destruct (CloneEvents.leading_stop gaps) as [[stop|]|] eqn:E; [| |done].
  - destruct (Z.leb_spec t stop); [|by rewrite (removed_spec 0) by done].
    apply leading_stop_elem in E. rewrite removed_before_kept by (done || lia).
    by rewrite (kept_before_leading gaps stop).
  - by rewrite (removed_spec 0).
Qed.

(** The gaps between non-empty segments have one gap at most at zero. *)
Lemma gaps_between_positive segments g :
  (forall r, r ∈ segments -> 0 < r.2) -> g ∈ gaps_between segments -> 0 < g.1.
Proof.
  unfold gaps_between. intros Hp (i & Hi)%list_elem_of_lookup.
  rewrite lookup_zip_with in Hi. destruct (segments !! i) as [r|] eqn:Er; [|done]. simpl in Hi.
  destruct (tail segments !! i); simplify_eq/=. apply Hp. by apply list_elem_of_lookup_2 in Er.
Qed.

Lemma leading_stop_unique lead rest :
  (length lead <= 1)%nat -> (forall g, g ∈ rest -> 0 < g.1) ->
  CloneEvents.leading_stop (lead ++ rest) <> None.
Proof.
  intros Hlen Hrest. unfold CloneEvents.leading_stop. rewrite lfilter_app.
  rewrite (lfilter_nil _ rest), app_nil_r.
  - destruct lead as [|g [|]]; simpl in *; [done| |lia]. by destruct (g.1 =? 0).
  - intros g Hg. specialize (Hrest g Hg). lia.
Qed.

Lemma invert_leading segments d min gaps :
  ranges_from 0 segments -> (forall r, r ∈ segments -> r.1 < r.2) ->
  invert_segments segments d min = Ok gaps -> CloneEvents.leading_stop gaps <> None.
Proof.
  intros Hr Hne. destruct segments as [|[s e] l]; [intros [= <-]; by unfold CloneEvents.leading_stop|].
  assert (Hpos : forall r, r ∈ (s, e) :: l -> 0 < r.2).
  { intros [a b] Hab. specialize (Hne _ Hab). pose proof (ranges_from_elem _ _ _ _ Hr Hab). simpl in *. lia. }
  unfold invert_segments.
  assert (Hlead : (length (if (0 <? s)%Z then [(0%Z, s)] else []) <= 1)%nat) by (case_match; simpl; lia).
  destruct (last ((s, e) :: l)) as [[a b]|] eqn:El; [|rewrite last_cons in El; by destruct (last l)].
  assert (Hb : 0 < b).
  { apply (Hpos (a, b)). apply last_Some in El as [l' ->]. apply elem_of_app. right. left. }
  destruct (_ && _); intros [= <-]; rewrite <-?app_assoc; (apply leading_stop_unique; [exact Hlead|]).
  - intros g [Hg| ->%list_elem_of_singleton]%elem_of_app; [|done]. by apply (gaps_between_positive _ g Hpos).
  - intros g Hg. by apply (gaps_between_positive _ g Hpos).
Qed.

(** *** Cut events *)

Lemma cut_step_spec state event :
  cut_step state event =
  if is_start event then Ok ([], Started (event_occurred_at event))
  else if is_stop event then
    Ok (match state_start state with Some s => [(s, event_occurred_at event)] | None => [] end, Stopped)
  else Err (Bail "invalid cut event").
Proof.
  unfold cut_step, is_start, is_stop, command.
  destruct (json_get "cut" (event_data event) ≫= as_str) as [c|]; [|done].
  destruct (decide (c = "start"%string)) as [->|]; [by rewrite !bool_decide_eq_true_2|].
  rewrite !(bool_decide_eq_false_2 (c = "start"%string)), (bool_decide_eq_false_2 (Some c = Some "start"%string)) by congruence.
  destruct (decide (c = "stop"%string)) as [->|]; [|by rewrite !bool_decide_eq_false_2 by congruence].
  rewrite !bool_decide_eq_true_2 by done. by destruct state.
Qed.

Lemma cut_loop_spec state gaps events :
  cut_loop state gaps events =
  if forallb (fun e => is_start e || is_stop e) events
  then Ok (gaps ++ pairs_from (state_start state) events) else Err (Bail "invalid cut event").
Proof.
  revert state gaps. induction events as [|e events IH]; intros state gaps; simpl; [by rewrite app_nil_r|].
  rewrite cut_step_spec. destruct (is_start e) eqn:Es; simpl.
  - rewrite IH. simpl. unfold pairs_from. simpl. rewrite Es, app_nil_r.
    assert (is_stop e = false) as ->; [|done]. unfold is_start, is_stop in *. bool_prop.
    rewrite Es. by apply bool_decide_eq_false_2.
  - destruct (is_stop e) eqn:Et; simpl; [|done]. rewrite IH. unfold pairs_from. simpl.
    rewrite Es, Et. destruct (state_start state); simpl; [by rewrite <-app_assoc|by rewrite app_nil_r].
Qed.

(** *** Order of the gaps *)

Lemma pairs_from_ranges lo prev events :
  match prev with Some s => lo <= s | None => True end ->
  StronglySorted (fun a b => event_occurred_at a <= event_occurred_at b) events ->
  (forall e, e ∈ events -> default lo prev <= event_occurred_at e /\ lo <= event_occurred_at e) ->
  ranges_from lo (pairs_from prev events).
Proof.
  revert lo prev. induction events as [|e events IH]; intros lo prev Hlo Hs Hge; [done|].
  inversion Hs as [|? ? Hs' Hall]; subst. rewrite Forall_forall in Hall.
  destruct (Hge e) as [H1 H2]; [left|]. unfold pairs_from. simpl.
  assert (Hrest : forall lo', lo' <= event_occurred_at e -> lo <= lo' ->
    ranges_from lo' (pairs_from (if is_start e then Some (event_occurred_at e) else None) events)).
  { intros lo' ? ?. apply IH; [by destruct (is_start e)|done|]. intros x Hx. specialize (Hall x Hx).
    destruct (is_start e); simpl; lia. }
  unfold pairs_from in Hrest. destruct (is_stop e); simpl; [|apply Hrest; lia].
  destruct prev as [s|]; simpl in *; [split; [lia|apply Hrest; lia]|apply Hrest; lia].
Qed.

(** ** Properties *)

(** C13: an adjustment moves the events into the recording.  With the gaps computed
    from the recording's segments, an event inside a segment (its ends included)
    is moved to the total length of the segments before it plus the time since the
    beginning of its segment, which is its position in the recording. *)
Theorem shift_into_segments (l1 l2 : list range) (s e d min offset t : Z) :
  let segments := l1 ++ (s, e) :: l2 in
  ranges_from 0 segments -> (forall r, r ∈ segments -> r.1 < r.2) -> in_i64 d ->
  s <= t <= e -> t <= i64_max ->
  exists gaps, invert_segments segments d min = Ok gaps /\
    CloneEvents.shift gaps offset t = Ok (zsum ((fun r => r.2 - r.1) <$> l1) + (t - s) + offset).
Proof.
  intros segments Hr Hne Hd Ht Hmax.
  assert (Hnil : segments <> []) by (unfold segments; by destruct l1).
  destruct (invert_segments_spec segments d min Hnil Hr Hd) as (gaps & Hinv & Hg & Hcov).
  exists gaps. split; [done|].
  assert (Hs : 0 <= s <= e).
  { apply (ranges_from_elem 0 segments); [done|]. apply elem_of_app. right. left. }
  rewrite shift_spec; [|done|by apply (invert_leading segments d min)|lia]. do 2 f_equal.
  assert (He : e <= timeline_end segments d min).
  { etrans; [|apply timeline_end_ge]. apply (ranges_from_stop 0 _ s e); [done|]. apply elem_of_app. right. left. }
  rewrite (removed_before_complement segments gaps (timeline_end segments d min)) by (done || lia).
  f_equal. by apply (removed_before_position l1 s e l2 t 0).
Qed.

Lemma shift_into_segments_witness :
  exists gaps, invert_segments ([(10, 20)] ++ (30, 50) :: []) 60 5 = Ok gaps /\
    CloneEvents.shift gaps 0 35 = Ok (zsum ((fun r => r.2 - r.1) <$> [(10, 20)]) + (35 - 30) + 0).
Proof.
  apply (shift_into_segments [(10, 20)] [] 30 50 60 5 0 35).
  - simpl. lia.
  - intros r Hr. rewrite list_elem_of_In in Hr. simpl in Hr. by destruct Hr as [<-|[<-|[]]].
  - unfold in_i64, i64_min, i64_max. lia.
  - lia.
  - unfold i64_max. lia.
Defined.

(** Shifting removes exactly the time of the gaps: the new time of an event is
    the number of instants before it that no gap contains, so the order of the
    events is kept and no two of them get further apart. *)
Theorem shift_counts_kept_time (gaps : list range) (offset t u : Z) :
  ranges_from 0 gaps -> CloneEvents.leading_stop gaps <> None -> 0 <= t <= u -> u <= i64_max ->
  exists t' u', CloneEvents.shift gaps offset t = Ok t' /\ CloneEvents.shift gaps offset u = Ok u' /\
    t' = kept_before gaps t + offset /\ u' = kept_before gaps u + offset /\ 0 <= u' - t' <= u - t.
Proof.
  intros Hg Hl Htu Hu. rewrite !shift_spec by (done || lia). do 2 eexists. do 2 (split; [done|]).
  pose proof (removed_before_mono gaps t u Hg). rewrite !removed_before_kept in * by (done || lia).
  rewrite <-!removed_before_kept by (done || lia). split_and!; lia.
Qed.

Lemma shift_counts_kept_time_witness :
  exists t' u', CloneEvents.shift [(0, 10); (20, 25)] 3 15 = Ok t' /\
    CloneEvents.shift [(0, 10); (20, 25)] 3 30 = Ok u' /\
    t' = kept_before [(0, 10); (20, 25)] 15 + 3 /\ u' = kept_before [(0, 10); (20, 25)] 30 + 3 /\
    0 <= u' - t' <= 30 - 15.
Proof.
  apply (shift_counts_kept_time [(0, 10); (20, 25)] 3 15 30); [simpl; lia|discriminate|lia|unfold i64_max; lia].
Defined.

Lemma monotonize_ge rows x : x.2 <= CloneEvents.monotonize rows x.
Proof.
  unfold CloneEvents.monotonize, row_number. case_match; [done|].
  match goal with |- context [position ?f ?l] => pose proof (position_pos f l) end. lia.
Qed.

Lemma monotonize_le rows x :
  x ∈ rows ->
  CloneEvents.monotonize rows x <=
  Z.max x.2 (x.2 + Z.of_nat (length (List.filter (fun z => negb (CloneEvents.is_stream z.1) && (z.2 =? x.2)) rows)) - 1).
Proof.
  intros Hx. unfold CloneEvents.monotonize, row_number. destruct (CloneEvents.is_stream x.1) eqn:Es; [lia|].
  assert (Hf : List.filter (CloneEvents.same_partition x) rows =
    List.filter (fun z => negb (CloneEvents.is_stream z.1) && (z.2 =? x.2)) rows).
  { apply lfilter_ext. intros z _. unfold CloneEvents.same_partition. rewrite Es, (Z.eqb_sym z.2), andb_comm.
    by destruct (CloneEvents.is_stream z.1). }
  rewrite Hf. match goal with |- context [position ?f (sort_by ?leb ?l)] =>
    pose proof (position_le f (sort_by leb l) x) as Hle end.
  rewrite length_sort_by, elem_of_sort_by, elem_of_lfilter, Es, Z.eqb_refl in Hle. simpl in Hle.
  assert (VacuumQuery.same_id x.1 x.1 = true) as Hid by (unfold VacuumQuery.same_id; by rewrite bool_decide_eq_true_2).
  specialize (Hle (conj Hx eq_refl) Hid). lia.
Qed.

(** C32: monotonization separates the events that fall on one instant.  A cut event
    keeps its time and no other event is moved back; of two other events on one
    instant the one created first stays strictly first.  It looks at one instant at a
    time: an event stays before the events of a later instant when there are no more
    events on its own than nanoseconds between the two, and may pass them otherwise
    ([monotonize_reorders]). *)
Theorem monotonize_separates_ties (rows : list (event_row * Z)) (x y : event_row * Z) :
  NoDup ((fun r => er_id r.1) <$> rows) -> x ∈ rows -> y ∈ rows ->
  (CloneEvents.is_stream x.1 = true -> CloneEvents.monotonize rows x = x.2) /\
  x.2 <= CloneEvents.monotonize rows x /\
  (CloneEvents.is_stream x.1 = false -> CloneEvents.is_stream y.1 = false -> x.2 = y.2 ->
   er_created_at x.1 < er_created_at y.1 ->
   CloneEvents.monotonize rows x < CloneEvents.monotonize rows y) /\
  (x.2 + Z.of_nat (length (List.filter (fun z => negb (CloneEvents.is_stream z.1) && (z.2 =? x.2)) rows)) <= y.2 ->
   x.2 < y.2 -> CloneEvents.monotonize rows x < CloneEvents.monotonize rows y).
Proof.
  intros Hnd Hx Hy. pose proof (monotonize_ge rows x) as Hge. split_and!; [|done| |].
  - unfold CloneEvents.monotonize. by intros ->.
  - unfold CloneEvents.monotonize, row_number. intros Hsx Hsy Heq Hlt. rewrite Hsx, Hsy, <-Heq.
    assert (Hpart : List.filter (CloneEvents.same_partition y) rows = List.filter (CloneEvents.same_partition x) rows).
    { apply lfilter_ext. intros z _. unfold CloneEvents.same_partition. by rewrite Heq, Hsx, Hsy. }
    rewrite Hpart. apply Z.sub_lt_mono_r, Z.add_lt_mono_l.
    assert (Huniq : forall a z, a ∈ rows -> z ∈ List.filter (CloneEvents.same_partition x) rows ->
      VacuumQuery.same_id a.1 z.1 = true -> z = a).
    { intros a z Ha [Hz _]%elem_of_lfilter Hid. unfold VacuumQuery.same_id in Hid. bool_prop.
      by apply (NoDup_key (fun r => er_id r.1) rows). }
    apply (position_sorted _ _ _ _ x y); rewrite ?elem_of_lfilter; unfold CloneEvents.same_partition.
    + split; [done|]. by rewrite Z.eqb_refl, eqb_reflx.
    + split; [done|]. by rewrite Heq, Z.eqb_refl, Hsx, Hsy.
    + unfold VacuumQuery.same_id. by rewrite bool_decide_eq_true_2.
    + by intros z Hz; apply Huniq.
    + by intros z Hz; apply Huniq.
    + unfold by_key. lia.
  - intros Hd Hlt. pose proof (monotonize_ge rows y). pose proof (monotonize_le rows x Hx). lia.
Qed.

(** Three events on one instant and one a nanosecond later: the third passes the
    fourth, and the second falls on its time. *)
Example monotonize_reorders :
  let event id t := (sample_event id None t (Z.of_N id), t) in
  let rows := [event 10%N 5; event 11%N 5; event 12%N 5; event 13%N 6] in
  CloneEvents.monotonize rows <$> rows = [5; 6; 7; 6].
Proof. vm_compute. reflexivity. Qed.

Lemma monotonize_separates_ties_witness :
  let x := (sample_event 10%N None 5 1, 5) in
  let y := (sample_event 11%N None 7 2, 5) in
  CloneEvents.monotonize [y; x] x = 5 /\ CloneEvents.monotonize [y; x] y = 6 /\
  CloneEvents.monotonize [y; x] x < CloneEvents.monotonize [y; x] y.
Proof.
  intros x y. split; [vm_compute; reflexivity|]. split; [vm_compute; reflexivity|].
  refine (proj1 (proj2 (proj2 (monotonize_separates_ties [y; x] x y _ _ _))) _ _ _ _).
  - by_evaluation.
  - right. left.
  - left.
  - reflexivity.
  - reflexivity.
  - reflexivity.
  - simpl. lia.
Defined.

(** The gaps of the cut events.  The state machine succeeds exactly when every
    command is a start or a stop, and then its gaps are the pairs of a start (or
    the beginning of the recording) and a stop right after it: a start repeated
    moves the beginning of the cut, a stop repeated changes nothing.  For events in
    order of time the gaps are ordered and do not overlap. *)
Theorem cut_events_to_gaps_correct (events : list Event) :
  cut_events_to_gaps events =
    (if forallb (fun e => is_start e || is_stop e) events
     then Ok (gap_pairs events) else Err (Bail "invalid cut event")) /\
  (StronglySorted (fun a b => event_occurred_at a <= event_occurred_at b) events ->
   (forall e, e ∈ events -> 0 <= event_occurred_at e) -> ranges_from 0 (gap_pairs events)).
Proof.
  split; [apply (cut_loop_spec (Started 0) [] events)|].
  intros Hs Hpos. apply pairs_from_ranges; [done|done|]. intros e He. specialize (Hpos e He). simpl. lia.
Qed.

Lemma cut_events_to_gaps_correct_witness :
  let event t c := MkEvent 1%N 1%N "stream" "stream" None None (cut c) t sample_agent t None t sample_agent false in
  let events := [event 5 "stop"%string; event 8 "start"%string; event 9 "start"%string; event 12 "stop"%string] in
  cut_events_to_gaps events = Ok [(0, 5); (9, 12)] /\ ranges_from 0 (gap_pairs events).
Proof.
  intros event events. split; [vm_compute; reflexivity|].
  apply (cut_events_to_gaps_correct events).
  - unfold events. repeat constructor; simpl; lia.
  - intros e He. rewrite list_elem_of_In in He. simpl in He.
    destruct He as [<-|[<-|[<-|[<-|[]]]]]; simpl; lia.
Defined.

(** *** The operation *)

Section Operation_properties.
Context `{Externals, EventCodec}.

(** The cloned events are of no other service's entity, nor are the cuts. *)
Lemma clones_no_entity c room rows i l news :
  CloneEvents.clones c room rows i l = Ok news -> Forall (fun new => ne_entity_type new = None) news.
Proof.
  revert i news. induction l as [|[e t] l IH]; intros i news; simpl; [by intros [= <-]|].
  intros (new & Hnew & (news' & Hnews & [= <-])%result_bind_Ok)%result_bind_Ok. constructor; [|by eapply IH].
  unfold CloneEvents.clone in Hnew. by repeat case_match; simplify_eq/=.
Qed.

Lemma no_entity_lasting news :
  Forall (fun new => ne_entity_type new = None) news -> lasting (InsertEvents news) = true.
Proof. simpl. induction 1 as [|new news Hn _ IH]; simpl; [done|]. by rewrite Hn. Qed.

Lemma stream_queries_no_entity room events qs :
  stream_queries room events = Ok qs -> Forall (fun q => EventDb.InsertQuery.iq_entity_type q = None) qs.
Proof.
  revert qs. induction events as [|event events IH]; intros qs; cbn [stream_queries]; [by intros [= <-]|].
  destruct (stream_data event) as [data|]; [|apply IH].
  intros (q & Hq%new_event_kind & (qs' & Hqs & [= <-])%result_bind_Ok)%result_bind_Ok. constructor; [done|by apply IH].
Qed.

Lemma add_stream_respects (R : relation database) `{!PreOrder R} room :
  (forall q, EventDb.InsertQuery.iq_entity_type q = None -> query_respects R (EventDb.InsertQuery.execute q)) ->
  respects R (add_stream_events room).
Proof.
  intros HR. unfold add_stream_events, list_kinds. apply bind_respects; [by_steps|]. intros events.
  apply (bind_respects_with R (Forall (fun q => EventDb.InsertQuery.iq_entity_type q = None))); [|by by_steps|].
  - unfold op_lift. destruct (stream_queries room events) as [qs|[]] eqn:E; [|done..]. by eapply stream_queries_no_entity.
  - intros qs Hqs. destruct qs as [|q qs]; [by by_steps|]. apply transaction_respects; [done|].
    apply for_each_respects. intros x Hx. apply (proj1 (Forall_forall _ _) Hqs) in Hx. by_steps.
Qed.

Lemma clone_execute_steps room gaps offset source :
  query_steps (CloneEvents.execute room gaps offset source).
Proof.
  intros c db. unfold CloneEvents.execute.
  destruct (CloneEvents.sub gaps offset source (db_events db)) as [rows|]; simpl; [|done].
  destruct (CloneEvents.clones c room rows 0 _) as [news|] eqn:En; simpl; [|done].
  destruct (insert_events (q_now c) news db) as [db'|] eqn:E; simpl; [|done].
  apply rtc_once. exists (InsertEvents news), c.
  split; [by eapply no_entity_lasting, clones_no_entity|]. simpl. by rewrite E.
Qed.

Lemma add_stream_steps room : steps (add_stream_events room).
Proof. apply add_stream_respects; [apply _|]. intros q Hq. apply event_insert_steps. by rewrite Hq. Qed.

#[local] Hint Resolve clone_execute_steps add_stream_steps : effects.

Lemma adjust_steps room started_at segments offset min :
  steps (call room started_at segments offset min).
Proof.
  unfold call. do 5 (apply bind_respects; [unfold close_room_time, op_lift, bail; by_steps|intros ?]).
  apply bind_respects; [apply add_stream_steps|intros ?].
  unfold derive_modified, opening_and_duration, segments_finish, clone_events, list_stream, create_room, op_lift, bail.
  by_steps.
Qed.

(** An adjustment, whatever its outcome and whatever fails on the way, changes
    the database by statements that keep its integrity. *)
Theorem adjust_keeps_integrity (room : Room) (started_at : Z) (segments : Segments) (offset min : Z)
    (n : env) (w : world) :
  integrity (w_db w) -> integrity (w_db (call room started_at segments offset min n w).2).
Proof.
  apply steps_keep_integrity, steps_any, adjust_steps.
Qed.

(** An adjustment without segments never succeeds, although [invert_segments]
    accepts an empty list. *)
Theorem adjust_without_segments (room : Room) (started_at offset min : Z) (n : env) (w : world) :
  is_ok (call room started_at [] offset min n w).1 = false.
Proof.
  destruct (call room started_at [] offset min n w) as [[out|] w'] eqn:E; [exfalso|done].
  unfold call in E. repeat (apply bind_Ok in E as (? & ? & ? & E)).
  match goal with E : exec (let '(_, _) := ?p in _) _ _ = _ |- _ => destruct p end.
  repeat (apply bind_Ok in E as (? & ? & ? & E)).
  match goal with E : exec (segments_finish ?l) _ _ = _, P : exec (op_lift (parse_segments [])) _ _ = _ |- _ =>
    apply lift_Ok in P as [P _]; simpl in P; simplify_eq; by apply fail_Ok in E end.
Qed.

(** *** What the two rooms are *)

(** No event is lost. *)
Definition grows (db db' : database) : Prop := db_events db ⊆ db_events db'.

#[export] Instance grows_preorder : PreOrder grows.
Proof. split; unfold grows; [intros db; done|]. intros a b c. set_solver. Qed.

Lemma insert_events_app t news db db' :
  insert_events t news db = Ok db' -> exists rows, db' = with_events (fun l => l ++ rows) db.
Proof.
  revert db. induction news as [|new news IH]; intros db; simpl.
  - intros [= <-]. exists []. destruct db. unfold with_events. simpl. by rewrite app_nil_r.
  - destruct (insert_event_cases t new db) as [(v & _ & ->)|(_ & ->)]; [done|].
    intros (rows & ->)%IH. eexists (_ :: rows). unfold with_events. simpl. by rewrite <-app_assoc.
Qed.

Lemma clone_execute_grows room gaps offset source :
  query_respects grows (CloneEvents.execute room gaps offset source).
Proof.
  intros c db. unfold CloneEvents.execute, grows. destruct (result_bind _ _) as [db'|] eqn:E; [|done].
  apply result_bind_Ok in E as (rows & _ & E). apply result_bind_Ok in E as (news & _ & (l & ->)%insert_events_app).
  simpl. set_solver.
Qed.

Lemma event_insert_grows q : query_respects grows (EventDb.InsertQuery.execute q).
Proof.
  intros c db. unfold EventDb.InsertQuery.execute, grows.
  destruct (insert_event_cases (q_now c) (InsertQuery.values (q_uuid c 0) q) db) as [(v & _ & ->)|(_ & ->)]; simpl; set_solver.
Qed.

Lemma room_insert_grows q : query_respects grows (RoomDb.InsertQuery.execute q).
Proof. intros c db. unfold RoomDb.InsertQuery.execute, grows. by case_match. Qed.

Lemma room_update_grows q : query_respects grows (RoomDb.UpdateQuery.execute q).
Proof. intros c db. unfold RoomDb.UpdateQuery.execute, grows. repeat case_match; done. Qed.

Lemma adjustment_insert_grows r t l o : query_respects grows (AdjustmentQueries.insert r t l o).
Proof. intros c db. unfold AdjustmentQueries.insert, grows. repeat case_match; done. Qed.

#[local] Hint Resolve clone_execute_grows event_insert_grows room_insert_grows room_update_grows
  adjustment_insert_grows : effects.

(** No event is lost and the integrity is kept. *)
Definition kept (db db' : database) : Prop := grows db db' /\ rtc lasting_step db db'.

#[export] Instance kept_preorder : PreOrder kept.
Proof.
  split; [by intros db; split|]. intros a b c [? ?] [? ?]. split; by etrans.
Qed.

Lemma kept_query {A} (q : query A) : query_respects grows q -> query_steps q -> query_respects kept q.
Proof. by split. Qed.

Lemma kept_integrity db db' : kept db db' -> integrity db -> integrity db'.
Proof.
  intros [_ Hs]. by apply steps_integrity, lasting_statement.
Qed.

Lemma kept_Ok {E A} (m : M E A) n w a w' :
  m n w = (Ok a, w') -> respects kept m -> kept (w_db w) (w_db w').
Proof. apply respects_Ok, _. Qed.

#[local] Hint Resolve kept_query : effects.

(** No room goes. *)
Lemma statement_room_ids s c db : (rr_id <$> db_rooms db) ⊆ (rr_id <$> db_rooms (run_statement s c db)).
Proof.
  destruct s as [q|q|q|news|r k|q|r a|i|q|i|a r|a r st|a r|a r x|a r|r t segs o]; simpl; try done.
  - unfold RoomDb.InsertQuery.execute. repeat (case_match; simpl; try done). rewrite fmap_app. intros x Hx. apply elem_of_app. by left.
  - unfold UpdateQuery.execute. repeat (case_match; simpl; try done). rewrite <-list_fmap_compose.
    erewrite list_fmap_ext; [done|]. intros i x _. simpl. by case_match.
  - unfold EventDb.InsertQuery.execute.
    by destruct (insert_event_cases (q_now c) (EventDb.InsertQuery.values (q_uuid c 0) q) db) as [(v & _ & ->)|(_ & ->)].
  - destruct (insert_events _ _ _) as [db'|] eqn:E; [|done]. by apply insert_events_app in E as (rows & ->).
  - unfold EditionQueries.insert. by repeat (case_match; simpl; try done).
  - unfold ChangeQueries.insert. by repeat (case_match; simpl; try done).
  - unfold AgentQueries.insert, AgentQueries.insert_as. by repeat (case_match; simpl; try done).
  - unfold AgentQueries.update. by repeat (case_match; simpl; try done).
  - unfold BanQueries.insert. by repeat (case_match; simpl; try done).
  - unfold AdjustmentQueries.insert. by repeat (case_match; simpl; try done).
Qed.

Lemma kept_room_ids db db' : kept db db' -> (rr_id <$> db_rooms db) ⊆ (rr_id <$> db_rooms db').
Proof.
  intros [_ Hs%lasting_statement]. induction Hs as [|db1 db2 db3 (s & c & ->) _ IH]; [done|].
  etrans; [apply statement_room_ids|exact IH].
Qed.

(** The rooms stay as they are; others may come. *)
Definition rooms_stay (db db' : database) : Prop := db_rooms db ⊆ db_rooms db'.

#[export] Instance rooms_stay_preorder : PreOrder rooms_stay.
Proof. split; unfold rooms_stay; [intros db; done|]. intros a b c. set_solver. Qed.

Lemma clone_execute_rooms room gaps offset source :
  query_respects rooms_stay (CloneEvents.execute room gaps offset source).
Proof.
  intros c db. unfold CloneEvents.execute, rooms_stay. destruct (result_bind _ _) as [db'|] eqn:E; [|done].
  apply result_bind_Ok in E as (rows & _ & E). by apply result_bind_Ok in E as (news & _ & (l & ->)%insert_events_app).
Qed.

Lemma delete_rooms room kind : query_respects rooms_stay (DeleteQuery.execute room kind).
Proof. intros c db. unfold rooms_stay. simpl. done. Qed.

Lemma room_insert_rooms q : query_respects rooms_stay (RoomDb.InsertQuery.execute q).
Proof. intros c db. unfold RoomDb.InsertQuery.execute, rooms_stay. case_match; simpl; [done|]. intros x Hx. apply elem_of_app. by left. Qed.

#[local] Hint Resolve clone_execute_rooms delete_rooms room_insert_rooms : effects.

(** The room is one of the database, as it is read. *)
Definition room_of (db : database) (r : Room) : Prop := exists row, row ∈ db_rooms db /\ try_from_db_object row = Ok r.

Lemma room_of_stays db db' r : rooms_stay db db' -> room_of db r -> room_of db' r.
Proof. intros Hs (row & Hrow & Hr). exists row. split; [by apply Hs|done]. Qed.

Lemma room_of_id db r : room_of db r -> room_id r ∈ (rr_id <$> db_rooms db).
Proof.
  intros (row & Hrow & Hr). unfold try_from_db_object in Hr. apply result_bind_Ok in Hr as (lt & _ & Hr).
  apply result_bind_Ok in Hr as (wa & _ & [= <-]). by apply (list_elem_of_fmap_2 rr_id).
Qed.

Lemma close_kept room t : respects kept (close_room_time room t).
Proof. unfold close_room_time, op_lift, bail. by_steps. Qed.

Lemma stream_kept room : respects kept (add_stream_events room).
Proof.
  apply add_stream_respects; [apply _|]. intros q Hq. apply kept_query; [apply event_insert_grows|].
  apply event_insert_steps. by rewrite Hq.
Qed.

(** A derived room: fresh, closed at the end of the recording, linked to its source. *)
Lemma create_room_Ok source t d n w r w' :
  create_room source t d n w = (Ok r, w') ->
  room_source_room_id r = Some (room_id source) /\ room_time r = (Included t, Excluded (t + d)) /\
  (room_id r ∉ (rr_id <$> db_rooms (w_db w))) /\ room_of (w_db w') r /\ db_events (w_db w') = db_events (w_db w).
Proof.
  unfold create_room. intros (c & E & _)%query_op_Ok. unfold RoomDb.InsertQuery.execute in E.
  set (q := match room_tags source with Some _ => _ | None => _ end) in E.
  assert (Hq : RoomDb.InsertQuery.iq_source_room_id q = Some (room_id source) /\
    RoomDb.InsertQuery.iq_time q = (Included t, Excluded (t + d))).
  { unfold q. by destruct (room_tags source). }
  destruct Hq as [Hsrc Htime]. unfold RoomDb.InsertQuery.violation in E.
  destruct (tstzrange_error _); [done|].
  destruct (existsb (fun x => bool_decide (rr_id x = _)) (db_rooms (w_db w))) eqn:Hfresh; [done|].
  destruct (sql_opt _ _); [|done].
  apply pair_equal_spec in E as [E <-]. pose proof E as Hrow. unfold try_from_db_object in E.
  apply result_bind_Ok in E as (lt & _ & E). apply result_bind_Ok in E as (wa & _ & [= <-]).
  simpl in *. split_and!; [done|done|by apply existsb_key_false| |done].
  eexists. split; [|exact Hrow]. simpl. apply elem_of_app. right. left.
Qed.

Lemma derive_modified_Ok room original nano t offset min rtc finish total n w out w' :
  integrity (w_db w) -> derive_modified room original nano t offset min rtc finish total n w = (Ok out, w') ->
  original_room out = original /\
  room_source_room_id (modified_room out) = Some (room_id original) /\
  room_time (modified_room out) = (Included t, Excluded (t + total)) /\
  (room_id (modified_room out) ∉ (rr_id <$> db_rooms (w_db w))) /\ room_of (w_db w') (modified_room out) /\
  rooms_stay (w_db w) (w_db w') /\ grows (w_db w) (w_db w') /\
  (forall e, e ∈ db_events (w_db w') -> er_room_id e = room_id (modified_room out) ->
     er_kind e = "stream"%string -> er_deleted_at e <> None).
Proof.
  intros Hi E. assert (Hrs : rooms_stay (w_db w) (w_db w')).
  { apply (respects_Ok rooms_stay _ _ _ _ _ E). unfold derive_modified, list_stream, op_lift, clone_events, create_room, bail. by_steps. }
  unfold derive_modified, list_stream, op_lift in E.
  apply bind_Ok in E as (ev1 & w1 & (c1 & Q1 & _)%query_op_Ok & E).
  apply bind_Ok in E as (gaps & w2 & [= _ <-] & E).
  apply bind_Ok in E as (ev2 & w3 & (c2 & Q2 & _)%query_op_Ok & E).
  apply bind_Ok in E as (segs & w4 & [= _ <-] & E).
  apply bind_Ok in E as (modified & w5 & Hcr & E).
  apply bind_Ok in E as (u1 & w6 & Hcl & E).
  apply bind_Ok in E as (u2 & w7 & (c3 & Q3 & _)%query_op_Ok & E).
  apply bind_Ok in E as (ms & w8 & [= _ <-] & [= <- <-]). simpl.
  unfold ListQuery.execute, select in Q1, Q2. injection Q1 as _ Q1. injection Q2 as _ Q2.
  rewrite <-Q1 in Q2. clear Q1.
  apply create_room_Ok in Hcr as (Hsrc & Htime & Hfresh & Hof & Hev). rewrite <-Q2 in Hfresh, Hev.
  assert (Hr6 : rooms_stay (w_db w5) (w_db w6)).
  { apply (respects_Ok rooms_stay _ _ _ _ _ Hcl). unfold clone_events, bail. by_steps. }
  assert (Hg : respects grows (clone_events modified gaps (offset * NANOSECONDS_IN_MILLISECOND)%i64)).
  { unfold clone_events, bail. by_steps. }
  apply (respects_Ok grows _ _ _ _ _ Hcl) in Hg.
  injection Q3 as _ Q3. rewrite <-Q3 in Hrs |- *.
  split_and!; [done|done|done|done|by apply (room_of_stays _ _ _ Hr6)|done| |].
  - intros e He. apply delete_events_elem. split; [apply Hg; by rewrite Hev|].
    unfold DeleteQuery.matches. rewrite !andb_false_iff. left. right. apply bool_decide_eq_false.
    intros Hroom. apply Hfresh. rewrite <-Hroom. by apply (ref_event_room _ Hi e).
  - intros e [_ He]%delete_events_elem Hroom Hkind Hlive. unfold DeleteQuery.matches in He.
    rewrite Hlive, Hroom, Hkind, !bool_decide_eq_true_2 in He by done. done.
Qed.

(** C3: what a successful adjustment produces.  Two rooms that are in the database
    and were not, the original derived from the real-time room and the modified
    derived from the original, both as long as the recording's segments together; no
    event of any room is lost; and the modified room has no live cut event left. *)
Theorem adjust_result (room : Room) (started_at : Z) (segments : Segments) (offset min : Z)
    (n : env) (w : world) (out : AdjustOutput) (w' : world) :
  integrity (w_db w) -> call room started_at segments offset min n w = (Ok out, w') ->
  exists parsed, parse_segments segments = Ok parsed /\
    let time := (Included started_at, Excluded (started_at + milliseconds (total_segments_millis parsed))) in
    let ids := rr_id <$> db_rooms (w_db w) in
    (room_id (original_room out) ∉ ids) /\ (room_id (modified_room out) ∉ ids) /\
    room_id (original_room out) <> room_id (modified_room out) /\
    room_of (w_db w') (original_room out) /\ room_of (w_db w') (modified_room out) /\
    room_source_room_id (original_room out) = Some (room_id room) /\
    room_source_room_id (modified_room out) = Some (room_id (original_room out)) /\
    room_time (original_room out) = time /\ room_time (modified_room out) = time /\
    db_events (w_db w) ⊆ db_events (w_db w') /\
    (forall e, e ∈ db_events (w_db w') -> er_room_id e = room_id (modified_room out) ->
       er_kind e = "stream"%string -> er_deleted_at e <> None).
Proof.
  intros Hi E. unfold call in E.
  apply bind_Ok in E as (st & w1 & [= <- <-] & E). apply bind_Ok in E as (parsed & w2 & P & E).
  apply lift_Ok in P as [P ->]. destruct (parse_segments segments) as [l|[]]; simplify_eq.
  exists parsed. split; [done|]. revert E Hi.
  change (w_db w) with (w_db (advance w)). generalize (t_now (e_tick n (w_tick w))).
  generalize (advance w). clear w. intros w start_timestamp E Hi.
  apply bind_Ok in E as (u1 & w1 & H1 & E).
  apply (kept_Ok (on_error OpSqlx acquire)) in H1; [|by by_steps].
  apply bind_Ok in E as (time & w2 & H2 & E). apply kept_Ok in H2; [|by apply close_kept].
  apply bind_Ok in E as (adj & w3 & H3 & E). apply kept_Ok in H3; [|by by_steps].
  apply bind_Ok in E as (u2 & w4 & H4 & E). apply kept_Ok in H4; [|by apply stream_kept].
  apply bind_Ok in E as ([opening d] & w5 & H5 & E).
  apply kept_Ok in H5; [|unfold opening_and_duration, bail; by by_steps].
  apply bind_Ok in E as (gaps & w6 & H6 & E). apply kept_Ok in H6; [|unfold op_lift; by by_steps].
  apply bind_Ok in E as (finish & w7 & H7 & E). apply kept_Ok in H7; [|unfold segments_finish; by by_steps].
  assert (Hk : kept (w_db w) (w_db w7)) by (do 7 (etrans; [eassumption|]); done).
  apply bind_Ok in E as (original & w8 & Hcr & E).
  apply bind_Ok in E as (u3 & w9 & Hcl & E).
  pose proof (create_room_Ok _ _ _ _ _ _ _ Hcr) as (Hsrc & Htime & Hfresh & Hof & _).
  pose proof (kept_room_ids _ _ Hk) as Hids.
  assert (Hr9 : rooms_stay (w_db w8) (w_db w9)).
  { apply (respects_Ok rooms_stay _ _ _ _ _ Hcl). unfold clone_events, bail. by_steps. }
  apply (room_of_stays _ _ _ Hr9) in Hof.
  apply kept_Ok in Hcr; [|unfold create_room; by by_steps].
  apply kept_Ok in Hcl; [|unfold clone_events, bail; by by_steps].
  assert (Hk9 : kept (w_db w) (w_db w9)) by (etrans; [exact Hk|]; by etrans).
  pose proof (kept_room_ids _ _ Hk9) as Hids9. pose proof (room_of_id _ _ Hof) as Hid.
  apply derive_modified_Ok in E as (-> & Hm & Hmt & Hmf & Hmo & Hrs & Hg & Hs); [|by apply (kept_integrity (w_db w))].
  apply (room_of_stays _ _ _ Hrs) in Hof. split_and!; try done.
  - intros Hin. by apply Hfresh, Hids.
  - intros Hin. by apply Hmf, Hids9.
  - intros Heq. by rewrite Heq in Hid.
  - destruct Hk9 as [Hg9 _]. unfold grows in *. by etrans.
Qed.
End Operation_properties.

(** A room opened at second 1 with a message at second 3 and a cut that stops at
    second 2; the recording of five seconds started at second 2. *)
Definition adjust_events : list event_row :=
  [sample_event 10%N None (3 * nanos_per_sec) 5;
   EventRow 11%N 1%N "stream" "stream" None None (Some (cut "stop")) None (2 * nanos_per_sec) sample_agent 6
     None (2 * nanos_per_sec) sample_agent false None None].

Definition adjust_world : world := World (with_events (fun _ => adjust_events) sample_db) 0 [] [].

Abbreviation adjust_sample :=
  (call sample_room (2 * nanos_per_sec) [(Included 0, Excluded 5000)] 0 0 sample_env adjust_world).

Lemma adjust_world_integrity : integrity (w_db adjust_world).
Proof.
  apply (rooms_events_integrity [sample_room_row] adjust_events); [by_evaluation|by_evaluation|by_evaluation|by repeat constructor|].
  repeat constructor; by_evaluation.
Qed.

Lemma adjust_keeps_integrity_witness :
  is_ok adjust_sample.1 = true /\ integrity (w_db adjust_sample.2).
Proof.
  split; [vm_compute; reflexivity|].
  exact (adjust_keeps_integrity sample_room (2 * nanos_per_sec) [(Included 0, Excluded 5000)] 0 0 sample_env
           adjust_world adjust_world_integrity).
Defined.

Lemma adjust_sample_run :
  exists out w', adjust_sample = (Ok out, w') /\ modified_segments out = [(Included 1000, Excluded 5000)].
Proof.
  assert (Hseg : match adjust_sample.1 with
    | Ok out => bool_decide (modified_segments out = [(Included 1000, Excluded 5000)])
    | Err _ => false end = true) by (vm_compute; reflexivity).
  destruct adjust_sample as [[out|] w']; [|discriminate Hseg].
  exists out, w'. split; [reflexivity|]. by apply bool_decide_eq_true in Hseg.
Qed.

Lemma adjust_result_witness :
  exists out w', adjust_sample = (Ok out, w') /\
    modified_segments out = [(Included 1000, Excluded 5000)] /\
    room_source_room_id (modified_room out) = Some (room_id (original_room out)).
Proof.
  destruct adjust_sample_run as (out & w' & Hrun & Hseg). exists out, w'.
  split; [exact Hrun|]. split; [exact Hseg|].
  destruct (adjust_result sample_room (2 * nanos_per_sec) [(Included 0, Excluded 5000)] 0 0 sample_env
              adjust_world out w' adjust_world_integrity Hrun) as (parsed & _ & _ & _ & _ & _ & _ & _ & Hm & _).
  exact Hm.
Defined.

(** With no segment the operation panics, and what it wrote stays. *)
Example adjust_empty_panics :
  let r := call sample_room (2 * nanos_per_sec) [] 0 0 sample_env adjust_world in
  r.1 = Err (OpPanic "called `Option::unwrap()` on a `None` value") /\ length (db_adjustments (w_db r.2)) = 1%nat.
Proof. split; vm_compute; reflexivity. Qed.
