(* ===== verification/CommitEdition.v ===== *)
(** * Committing an edition

    [src/src/app/operations/commit_edition.rs]: the operation behind
    [edition.commit].  In one transaction it derives a room from the source room,
    with the changes of the edition and its cuts applied. *)

From S2P Require Import Prelude Intervals Times Types Db Sample EventDb RoomDb EditionDb AgentDb Integrity Effects AdjustRoom.

(** ** Cuts *)

Inductive CutState : Type := CutStarted (start : Z) (nest_lvl : nat) | CutStopped.

Inductive EventOrChangeAtDur : Type :=
  | AtEvent (event : Event) (at_ : Z)
  | AtChange (change : Change) (at_ : Z).

Definition at_key (v : EventOrChangeAtDur) : Z :=
  match v with AtEvent _ k | AtChange _ k => k end.

(** [change.event_occurred_at().expect(..)] for every change. *)
Fixpoint at_changes (changes : list Change) : result failure (list EventOrChangeAtDur) :=
  match changes with
  | [] => Ok []
  | ch :: changes =>
    match change_event_occurred_at ch with
    | None => Err (Panic "must have occurred_at")
    | Some at_ => result_bind (at_changes changes) (fun l => Ok (AtChange ch at_ :: l))
    end
  end.

Definition cut_vec (cut_events : list Event) (cut_changes : list Change)
    : result failure (list EventOrChangeAtDur) :=
  result_bind (at_changes cut_changes) (fun changes =>
  Ok (sort_by (by_key at_key) (((fun ev => AtEvent ev (event_occurred_at ev)) <$> cut_events) ++ changes))).

Definition cut_command (c : EventOrChangeAtDur) : result failure (option string * Z) :=
  match c with
  | AtEvent event _ => Ok (json_get "cut" (event_data event) ≫= as_str, event_occurred_at event)
  | AtChange change _ =>
    match change_event_data change with
    | None => Err (Panic "must have event_data")
    | Some data =>
      match change_event_occurred_at change with
      | None => Err (Panic "must have occurred_at")
      | Some occurred_at => Ok (json_get "cut" data ≫= as_str, occurred_at)
      end
    end
  end.

(** One transition: the gap pushed, if any, and the next state. *)
Definition cut_transition (state : CutState) (command : option string) (occurred_at : Z)
    : result failure (list range * CutState) :=
  match command with
  | Some command =>
    if bool_decide (command = "start"%string) then
      match state with
      | CutStopped => Ok ([], CutStarted occurred_at 0)
      | CutStarted start nest_lvl => Ok ([], CutStarted start (S nest_lvl))
      end
    else if bool_decide (command = "stop"%string) then
      match state with
      | CutStarted start 0 => Ok ([(start, occurred_at)], CutStopped)
      | CutStarted start (S nest_lvl) => Ok ([], CutStarted start nest_lvl)
      | CutStopped => Err (Bail "invalid cut event")
      end
    else Err (Bail "invalid cut event")
  | None => Err (Bail "invalid cut event")
  end.

Fixpoint gaps_loop (state : CutState) (gaps : list range) (cuts : list EventOrChangeAtDur)
    : result failure (list range) :=
  match cuts with
  | [] => Ok gaps
  | cut :: cuts =>
    result_bind (cut_command cut) (fun '(command, occurred_at) =>
    result_bind (cut_transition state command occurred_at) (fun '(pushed, state) =>
    gaps_loop state (gaps ++ pushed) cuts))
  end.

Definition collect_gaps (cut_events : list Event) (cut_changes : list Change) : result failure (list range) :=
  result_bind (cut_vec cut_events cut_changes) (gaps_loop CutStopped []).

(** ** Cloning events *)

Module CloneEdited.

Definition is_kind (k : ChangeType) (c : Change) : bool := bool_decide (change_kind c = k).

(** [removed_sets]: the sets of the bulk removals, [NULL] included. *)
Definition removed_sets (edition_id : uuid) (changes : list Change) : list (option string) :=
  change_event_set <$> List.filter (fun c => bool_decide (change_edition_id c = edition_id) && is_kind BulkRemoval c) changes.

(** [event.set NOT IN (SELECT event_set FROM removed_sets)]: a [NULL] in the list
    makes the test [NULL], or false, for every event. *)
Definition not_in (set : string) (removed : list (option string)) : bool :=
  forallb (fun s => match s with Some s => negb (bool_decide (s = set)) | None => false end) removed.

Definition events (source_id edition_id : uuid) (db : database) : list event_row :=
  List.filter (fun e => bool_decide (er_room_id e = source_id) && is_none (er_deleted_at e)
                        && not_in (er_set e) (removed_sets edition_id (db_changes db))) (db_events db).

Definition changes (edition_id : uuid) (db : database) : list Change :=
  List.filter (fun c => bool_decide (change_edition_id c = edition_id) && negb (is_kind BulkRemoval c)) (db_changes db).

(** [FULL OUTER JOIN .. ON change.event_id = event.id]. *)
Definition joins (e : event_row) (c : Change) : bool := sql_eq (change_event_id c) (Some (er_id e)).

Definition full_join (evs : list event_row) (chs : list Change) : list (option event_row * option Change) :=
  (e ← evs; match List.filter (joins e) chs with
            | [] => [(Some e, None)]
            | l => (fun c => (Some e, Some c)) <$> l
            end)
  ++ ((fun c => (None, Some c)) <$> List.filter (fun c => negb (existsb (fun e => joins e c) evs)) chs).

(** The rows of the subquery, after its [WHERE]. *)
Definition rows (source_id edition_id : uuid) (db : database) : list (option event_row * option Change) :=
  List.filter (fun r => match r.2 with Some c => negb (is_kind Removal c) | None => true end)
    (full_join (events source_id edition_id db) (changes edition_id db)).

(** The [CASE] of a column: of the change for an addition, of the change or else
    the event for a modification, of the event otherwise. *)
Definition column {A} (of_change : Change -> option A) (of_event : event_row -> option A)
    (r : option event_row * option Change) : option A :=
  let ev := r.1 ≫= of_event in
  match r.2 with
  | Some c =>
    match change_kind c with
    | Addition => of_change c
    | Modification => coalesce (of_change c) ev
    | _ => ev
    end
  | None => ev
  end.

Definition row_kind := column change_event_kind (Some ∘ er_kind).
Definition row_label := column change_event_label er_label.
Definition row_data := column change_event_data er_data.

Definition row_set (r : option event_row * option Change) : option string :=
  match r.2 with
  | Some c =>
    match change_kind c with
    | Addition => coalesce (change_event_set c) (change_event_kind c)
    | Modification => coalesce (change_event_set c)
        (coalesce (er_set <$> r.1) (coalesce (change_event_kind c) (er_kind <$> r.1)))
    | _ => er_set <$> r.1
    end
  | None => er_set <$> r.1
  end.

(** The time the gaps remove: the unqualified [occurred_at] is the event's. *)
Fixpoint removed (gaps : list range) (occurred_at : Z) : option Z :=
  match gaps with
  | [] => Some 0
  | (start, stop) :: gaps =>
    if start <? occurred_at
    then match bigint (Z.min stop occurred_at - start), removed gaps occurred_at with
         | Some d, Some s => Some (d + s)
         | _, _ => None
         end
    else removed gaps occurred_at
  end.

(** The [occurred_at] of the subquery; [None] is an overflow. *)
Definition row_occurred_at (gaps : list range) (r : option event_row * option Change) : option (option Z) :=
  match match r.1 with Some e => removed gaps (er_occurred_at e) | None => Some 0 end with
  | Some s => Some ((fun t => t - s) <$> column change_event_occurred_at (Some ∘ er_occurred_at) r)
  | None => None
  end.

Definition row_created_by (r : option event_row * option Change) : option agent_id :=
  match r.2 with
  | Some c => if is_kind Addition c then change_event_created_by c else er_created_by <$> r.1
  | None => er_created_by <$> r.1
  end.

Definition row_created_at (now : Z) (r : option event_row * option Change) : Z :=
  default now (er_created_at <$> r.1).

(** A row with its time, and the identity of rows. *)
Abbreviation timed := ((option event_row * option Change) * option Z)%type.

Definition same_row (x y : timed) : bool :=
  bool_decide (er_id <$> x.1.1 = er_id <$> y.1.1) && bool_decide (change_id <$> x.1.2 = change_id <$> y.1.2).

Definition same_time (x y : timed) : bool := bool_decide (x.2 = y.2).

Fixpoint timed_rows (gaps : list range) (l : list (option event_row * option Change))
    : result sqlx_error (list timed) :=
  match l with
  | [] => Ok []
  | r :: l =>
    match row_occurred_at gaps r with
    | None => Err (DatabaseError "bigint_out_of_range")
    | Some t => result_bind (timed_rows gaps l) (fun l => Ok ((r, t) :: l))
    end
  end.

(** The order in which the window function hands the rows on: by the partition,
    [NULL] last, then by the time of creation. *)
Definition window_order (now : Z) (x y : timed) : bool :=
  let older := by_key (fun z : timed => row_created_at now z.1) x y in
  match x.2, y.2 with
  | Some a, Some b => (a <? b) || (a =? b) && older
  | Some _, None => true
  | None, Some _ => false
  | None, None => older
  end.

(** The row inserted, numbered [i]: [attribute] and [removed] are not among its
    columns; a [NULL] in a required one is an error. *)
Definition clone (c : qctx) (destination_id : uuid) (offset : Z) (all : list timed) (i : nat) (x : timed)
    : result sqlx_error new_event :=
  let '(r, t) := x in
  match row_kind r, row_set r, t, row_created_by r with
  | Some kind, Some set, Some t, Some created_by =>
    match bigint (t + row_number same_row same_time (by_key (fun y : timed => row_created_at (q_now c) y.1)) all x
                  - 1 + offset) with
    | None => Err (DatabaseError "bigint_out_of_range")
    | Some occurred_at =>
      Ok (NewEvent (q_uuid c i) destination_id kind set (row_label r) None (row_data r)
            (r.1 ≫= er_binary_data) occurred_at created_by (Some (row_created_at (q_now c) r)) false None None)
    end
  | _, _, _, _ => Err (DatabaseError "not_null_violation")
  end.

Fixpoint clones (c : qctx) (destination_id : uuid) (offset : Z) (all : list timed) (i : nat) (l : list timed)
    : result sqlx_error (list new_event) :=
  match l with
  | [] => Ok []
  | x :: l =>
    result_bind (clone c destination_id offset all i x) (fun n =>
    result_bind (clones c destination_id offset all (S i) l) (fun ns => Ok (n :: ns)))
  end.

Definition execute `{Externals} (source_id destination_id edition_id : uuid) (gaps : list range) (offset : Z)
    : query unit := fun c db =>
  match result_bind (timed_rows gaps (rows source_id edition_id db)) (fun all =>
        result_bind (clones c destination_id offset all 0 (sort_by (window_order (q_now c)) all)) (fun news => insert_events (q_now c) news db)) with
  | Ok db' => (Ok tt, db')
  | Err e => (Err e, db)
  end.

End CloneEdited.

Section Operation.
Context `{Externals, EventCodec}.

Definition clone_room (source : Room) : M op_error Room :=
  match RoomDb.time source with
  | Err _ => bail "invalid time for room"
  | Ok t =>
    let query := RoomDb.InsertQuery.new (room_audience source) (RoomTimeImpl.into_tuple t)
                   (room_classroom_id source) (room_kind source) in
    let query := RoomDb.InsertQuery.source_room_id (room_id source) query in
    let query := match room_tags source with
                 | Some tags => RoomDb.InsertQuery.tags tags query
                 | None => query
                 end in
    query_op (RoomDb.InsertQuery.execute query)
  end.

Definition duration (source : Room) : M op_error Z :=
  match RoomDb.time source with
  | Ok t => match rt_end t with
            | RtExcluded stop => ret (stop - rt_start t)
            | RtUnbounded => bail "invalid duration for room"
            end
  | Err _ => bail "invalid duration for room"
  end.

(** The body of the transaction. *)
Definition body (edition : Edition) (source : Room) (offset min_segment_length : Z)
    : M op_error (Room * Segments) :=
  room_duration <~ duration source;
  cut_events <~ list_stream (room_id source);
  cut_changes <~ query_op (ChangeQueries.list (ChangeQueries.list_kind "stream"
                              (ChangeQueries.list_new (edition_id edition))));
  cut_gaps <~ op_lift (collect_gaps cut_events cut_changes);
  destination <~ clone_room source;
  query_op (CloneEdited.execute (room_id source) (room_id destination) (edition_id edition) cut_gaps
              (offset * NANOSECONDS_IN_MILLISECOND)%i64);;
  query_op (DeleteQuery.execute (room_id destination) "stream");;
  modified_segments <~ op_lift (invert_segments cut_gaps room_duration min_segment_length);
  ret (destination, to_millis <$> modified_segments).

Definition call (edition : Edition) (source : Room) (offset min_segment_length : Z)
    : M op_error (Room * Segments) :=
  start_timestamp <~ now;
  transaction OpSqlx (body edition source offset min_segment_length).

End Operation.

(** ** Specification *)

(** A start opens a level, a stop closes one. *)
Definition cut_delta (c : EventOrChangeAtDur) : Z :=
  match cut_command c with
  | Ok (Some command, _) =>
    if bool_decide (command = "start"%string) then 1
    else if bool_decide (command = "stop"%string) then -1 else 0
  | _ => 0
  end.

(** How many cuts are open at [t]. *)
Definition depth (cuts : list EventOrChangeAtDur) (t : Z) : Z :=
  zsum ((fun c => if at_key c <=? t then cut_delta c else 0) <$> cuts).

Definition level (state : CutState) : Z :=
  match state with CutStarted _ n => Z.of_nat n + 1 | CutStopped => 0 end.

Definition opened_before (state : CutState) (t : Z) : Prop :=
  match state with CutStarted start _ => start <= t | CutStopped => True end.

(** The key a cut is sorted by is the time it carries. *)
Definition well_keyed (c : EventOrChangeAtDur) : Prop :=
  match c with
  | AtEvent e k => event_occurred_at e = k
  | AtChange ch k => change_event_occurred_at ch = Some k
  end.

(** ** Lemmas *)

Lemma cut_command_at c command occurred_at :
  well_keyed c -> cut_command c = Ok (command, occurred_at) -> occurred_at = at_key c.
Proof.
  unfold cut_command, well_keyed. destruct c as [e k|ch k]; simpl.
  - by intros <- [= <- <-].
  - intros ->. destruct (change_event_data ch); [|done]. by intros [= <- <-].
Qed.

Lemma depth_cons c cuts t :
  depth (c :: cuts) t = (if at_key c <=? t then cut_delta c else 0) + depth cuts t.
Proof. done. Qed.

Lemma depth_before cuts t : (forall c, c ∈ cuts -> t < at_key c) -> depth cuts t = 0.
Proof.
  induction cuts as [|c cuts IH]; intros Hk; [done|]. rewrite depth_cons, IH by (intros; apply Hk; by right).
  specialize (Hk c (list_elem_of_here _ _)). destruct (Z.leb_spec (at_key c) t); lia.
Qed.

(** What one transition does to the level. *)
Lemma cut_transition_level state c command t pushed state' :
  cut_command c = Ok (command, t) -> cut_transition state command t = Ok (pushed, state') ->
  level state' = level state + cut_delta c /\
  match state, state' with
  | CutStopped, CutStarted s _ => s = t /\ pushed = []
  | CutStarted s _, CutStarted s' _ => s' = s /\ pushed = []
  | CutStarted s _, CutStopped => pushed = [(s, t)]
  | CutStopped, CutStopped => False
  end.
Proof.
  unfold cut_transition, cut_delta. intros -> H. destruct command as [command|]; [|done].
  destruct (bool_decide (command = "start"%string)).
  - destruct state; simplify_eq/=; split; (lia || done).
  - destruct (bool_decide (command = "stop"%string)); [|done].
    destruct state as [s [|n]|]; simplify_eq/=; split; (lia || done).
Qed.

Lemma gaps_loop_spec state acc cuts gaps :
  gaps_loop state acc cuts = Ok gaps ->
  StronglySorted (fun a b => at_key a <= at_key b) cuts ->
  (forall c, c ∈ cuts -> well_keyed c /\ opened_before state (at_key c)) ->
  level state + zsum (cut_delta <$> cuts) = 0 ->
  exists out, gaps = acc ++ out /\
    (forall lo, (forall c, c ∈ cuts -> lo <= at_key c) ->
       match state with CutStarted s _ => lo <= s | CutStopped => True end -> ranges_from lo out) /\
    forall t, covers out t <-> opened_before state t /\ 0 < level state + depth cuts t.
Proof.
  revert state acc. induction cuts as [|c cuts IH]; intros state acc Hrun Hs Hk Hbal; simpl in Hrun.
  { injection Hrun as <-. exists []. rewrite app_nil_r. split_and!; [done|done|].
    intros t. unfold depth. simpl in *. pose proof (covers_nil t). intuition lia. }
  apply result_bind_Ok in Hrun as ([command at_] & Hc & Hrun).
  apply result_bind_Ok in Hrun as ([pushed state'] & Ht & Hrun).
  inversion Hs as [|? ? Hs' Hall]; subst. rewrite Forall_forall in Hall.
  destruct (Hk c) as [Hwk Hop]; [left|]. pose proof (cut_command_at c command at_ Hwk Hc) as ->.
  destruct (cut_transition_level _ _ _ _ _ _ Hc Ht) as [Hlvl Hst].
  assert (Hop' : forall c', c' ∈ cuts -> well_keyed c' /\ opened_before state' (at_key c')).
  { intros c' Hc'. destruct (Hk c') as [? Ho]; [by right|]. split; [done|]. specialize (Hall c' Hc').
    destruct state, state'; simpl in *; try done; destruct Hst; subst; lia. }
  destruct (IH state' (acc ++ pushed) Hrun Hs' Hop') as (out & -> & Hout & Hcov);
    [change (zsum (cut_delta <$> c :: cuts)) with (cut_delta c + zsum (cut_delta <$> cuts)) in Hbal; lia|].
  exists (pushed ++ out). rewrite app_assoc. split; [done|].
  assert (Hbefore : forall t, t < at_key c -> depth cuts t = 0).
  { intros t Hlt. apply depth_before. intros c' Hc'. specialize (Hall c' Hc'). lia. }
  split.
  - intros lo Hlo Hst'. assert (Hc' : lo <= at_key c) by (apply Hlo; left).
    destruct state as [s n|], state' as [s' n'|]; try done; simpl in Hop.
    + destruct Hst as [-> ->]. apply Hout; [intros; apply Hlo; by right|done].
    + subst pushed. simpl. split; [lia|]. apply Hout; [auto|done].
    + destruct Hst as [-> ->]. apply Hout; [intros; apply Hlo; by right|done].
  - intros t. rewrite covers_app, Hcov, depth_cons. specialize (Hbefore t).
    destruct state as [s n|], state' as [s' n'|]; try done; simpl in *.
    + destruct Hst as [-> ->]. pose proof (covers_nil t).
      destruct (Z.leb_spec (at_key c) t); intuition lia.
    + subst pushed. rewrite covers_one. destruct (Z.leb_spec (at_key c) t); intuition lia.
    + destruct Hst as [-> ->]. pose proof (covers_nil t).
      destruct (Z.leb_spec (at_key c) t); intuition lia.
Qed.

Lemma at_changes_keyed changes l c :
  at_changes changes = Ok l -> c ∈ l -> well_keyed c.
Proof.
  revert l. induction changes as [|ch changes IH]; intros l; simpl.
  - intros [= <-] Hc. by apply elem_of_nil in Hc.
  - destruct (change_event_occurred_at ch) as [k|] eqn:E; [|done].
    intros (l' & Hl & [= <-])%result_bind_Ok [->|Hc]%elem_of_cons; [done|]. by apply (IH l').
Qed.

Lemma cut_vec_spec events changes cuts :
  cut_vec events changes = Ok cuts ->
  StronglySorted (fun a b => at_key a <= at_key b) cuts /\ forall c, c ∈ cuts -> well_keyed c.
Proof.
  unfold cut_vec. intros (l & Hl & [= <-])%result_bind_Ok. split.
  - apply (StronglySorted_weaken (fun a b => by_key at_key a b = true)); [|apply sort_by_sorted, _].
    intros x y. unfold by_key. lia.
  - intros c Hc. rewrite elem_of_sort_by in Hc. apply elem_of_app in Hc as [(e & -> & _)%list_elem_of_fmap|Hc]; [done|].
    by apply (at_changes_keyed changes l).
Qed.

Section Lemmas.
Context `{Externals, EventCodec}.

Lemma edited_clones_no_entity c destination offset all i l news :
  CloneEdited.clones c destination offset all i l = Ok news -> Forall (fun new => ne_entity_type new = None) news.
Proof.
  revert i news. induction l as [|[r t] l IH]; intros i news; cbn [CloneEdited.clones]; [by intros [= <-]|].
  intros (new & Hnew & (news' & Hnews & [= <-])%result_bind_Ok)%result_bind_Ok. constructor; [|by eapply IH].
  unfold CloneEdited.clone in Hnew. by repeat case_match; simplify_eq/=.
Qed.

Lemma clone_edited_cases source destination edition gaps offset c db :
  let r := CloneEdited.execute source destination edition gaps offset c db in
  r.2 = db \/ exists news, r.2 = run_statement (InsertEvents news) c db /\ insert_events (q_now c) news db = Ok r.2 /\
    lasting (InsertEvents news) = true.
Proof.
  unfold CloneEdited.execute. cbv zeta.
  destruct (result_bind _ _) as [db'|] eqn:E; [|by left]. right.
  apply result_bind_Ok in E as (all & _ & E). apply result_bind_Ok in E as (news & Hnews & E).
  exists news. split_and!; [simpl; by rewrite E|done|]. by eapply no_entity_lasting, edited_clones_no_entity.
Qed.

Lemma clone_edited_kept source destination edition gaps offset :
  query_respects kept (CloneEdited.execute source destination edition gaps offset).
Proof.
  intros c db. destruct (clone_edited_cases source destination edition gaps offset c db) as [->|(news & Hr & Hi & Hl)];
    [reflexivity|].
  apply insert_events_app in Hi as (rows & Hi). split; [unfold grows; rewrite Hi; simpl; set_solver|].
  rewrite Hr. apply rtc_once. by exists (InsertEvents news), c.
Qed.

Lemma clone_edited_steps source destination edition gaps offset :
  query_steps (CloneEdited.execute source destination edition gaps offset).
Proof. intros c db. apply clone_edited_kept. Qed.

Lemma clone_edited_rooms source destination edition gaps offset :
  query_respects rooms_stay (CloneEdited.execute source destination edition gaps offset).
Proof.
  intros c db. unfold rooms_stay. destruct (clone_edited_cases source destination edition gaps offset c db) as [->|(news & _ & Hi & _)];
    [done|]. by apply insert_events_app in Hi as (rows & ->).
Qed.

#[local] Hint Resolve clone_edited_steps : effects.

Lemma body_steps edition source offset min : steps (body edition source offset min).
Proof. unfold body, duration, list_stream, clone_room, op_lift, bail. by_steps. Qed.

Lemma call_steps edition source offset min : steps (call edition source offset min).
Proof.
  apply bind_respects; [by_steps|]. intros _. apply transaction_respects; [apply _|apply body_steps].
Qed.

Lemma clone_room_Ok source n w r w' :
  clone_room source n w = (Ok r, w') ->
  room_source_room_id r = Some (room_id source) /\ room_time r = room_time source /\
  (room_id r ∉ (rr_id <$> db_rooms (w_db w))) /\ room_of (w_db w') r /\ db_events (w_db w') = db_events (w_db w).
Proof.
  unfold clone_room, RoomDb.time, RoomTimeImpl.try_from.
  destruct (RoomTimeImpl.new _) as [t|] eqn:Et; [|done].
  apply into_tuple_new in Et. rewrite Et.
  intros (c & E & _)%query_op_Ok. unfold RoomDb.InsertQuery.execute in E.
  set (q := match room_tags source with Some _ => _ | None => _ end) in E.
  assert (Hq : RoomDb.InsertQuery.iq_source_room_id q = Some (room_id source) /\
    RoomDb.InsertQuery.iq_time q = room_time source).
  { unfold q. destruct (room_tags source), (room_time source); done. }
  destruct Hq as [Hsrc Htime]. unfold RoomDb.InsertQuery.violation in E.
  destruct (tstzrange_error _); [done|].
  destruct (existsb (fun x => bool_decide (rr_id x = _)) (db_rooms (w_db w))) eqn:Hfresh; [done|].
  destruct (sql_opt _ _); [|done].
  apply pair_equal_spec in E as [E <-]. pose proof E as Hrow. unfold try_from_db_object in E.
  apply result_bind_Ok in E as (lt & _ & E). apply result_bind_Ok in E as (wa & _ & [= <-]).
  simpl in *. split_and!; [done|done|by apply existsb_key_false| |done].
  eexists. split; [|exact Hrow]. simpl. apply elem_of_app. right. left.
Qed.

End Lemmas.

(** *** The rows of the copy *)

Lemma timed_rows_elem gaps rows all :
  CloneEdited.timed_rows gaps rows = Ok all -> forall r t, (r, t) ∈ all -> CloneEdited.row_occurred_at gaps r = Some t.
Proof.
  revert all. induction rows as [|r0 rows IH]; intros all; cbn [CloneEdited.timed_rows].
  - intros [= <-] r t Hin. by apply elem_of_nil in Hin.
  - destruct (CloneEdited.row_occurred_at gaps r0) as [t0|] eqn:E; [|done].
    intros (l & Hl & [= <-])%result_bind_Ok r t [[= -> ->]|Hin]%elem_of_cons; [done|]. by apply (IH l).
Qed.

(** The place of a row among those that fall on its instant. *)
Lemma row_place c all r t :
  (r, t) ∈ all ->
  0 <= row_number CloneEdited.same_row CloneEdited.same_time
         (by_key (fun y : CloneEdited.timed => CloneEdited.row_created_at (q_now c) y.1)) all (r, t) - 1
    < Z.of_nat (length (List.filter (fun y : CloneEdited.timed => bool_decide (y.2 = t)) all)).
Proof.
  intros Hin. unfold row_number.
  assert (Hf : List.filter (CloneEdited.same_time (r, t)) all = List.filter (fun y => bool_decide (y.2 = t)) all).
  { apply lfilter_ext. intros y _. unfold CloneEdited.same_time. by apply bool_decide_ext. }
  rewrite Hf. match goal with |- context [position ?f (sort_by ?leb ?l)] =>
    pose proof (position_pos f (sort_by leb l)); pose proof (position_le f (sort_by leb l) (r, t)) as Hle end.
  rewrite length_sort_by, elem_of_sort_by, elem_of_lfilter, bool_decide_eq_true_2 in Hle by done.
  unfold CloneEdited.same_row at 1 in Hle. rewrite !bool_decide_eq_true_2 in Hle by done.
  specialize (Hle (conj Hin eq_refl) eq_refl). lia.
Qed.

Lemma filter_joins_nil e chs :
  List.filter (CloneEdited.joins e) chs = [] <-> forall c, c ∈ chs -> CloneEdited.joins e c = false.
Proof.
  split.
  - intros Hn c Hc. destruct (CloneEdited.joins e c) eqn:E; [|done]. exfalso.
    assert (c ∈ List.filter (CloneEdited.joins e) chs) as Hin by by apply elem_of_lfilter.
    rewrite Hn in Hin. by apply elem_of_nil in Hin.
  - intros Hf. by apply lfilter_nil.
Qed.

Lemma full_join_elem evs chs r :
  r ∈ CloneEdited.full_join evs chs <->
  match r with
  | (Some e, None) => e ∈ evs /\ forall c, c ∈ chs -> CloneEdited.joins e c = false
  | (Some e, Some c) => e ∈ evs /\ c ∈ chs /\ CloneEdited.joins e c = true
  | (None, Some c) => c ∈ chs /\ forall e, e ∈ evs -> CloneEdited.joins e c = false
  | (None, None) => False
  end.
Proof.
  unfold CloneEdited.full_join. rewrite elem_of_app, list_elem_of_bind. split.
  - intros [(e & Hr & He)|(c & -> & [Hc Hn%negb_true_iff]%elem_of_lfilter)%list_elem_of_fmap].
    + destruct (List.filter (CloneEdited.joins e) chs) as [|c0 l] eqn:E.
      * apply list_elem_of_singleton in Hr as ->. split; [done|]. by apply filter_joins_nil.
      * apply list_elem_of_fmap in Hr as (c & -> & Hc). rewrite <-E in Hc. apply elem_of_lfilter in Hc as [? ?]. done.
    + split; [done|]. intros e He. destruct (CloneEdited.joins e c) eqn:Ej; [|done].
      assert (existsb (fun e => CloneEdited.joins e c) evs = true) as Hex; [|congruence].
      apply existsb_exists. exists e. by rewrite <-list_elem_of_In.
  - destruct r as [[e|] [c|]]; [| | |done].
    + intros (He & Hc & Hj). left. exists e. split; [|done].
      assert (c ∈ List.filter (CloneEdited.joins e) chs) as Hin by by apply elem_of_lfilter.
      destruct (List.filter (CloneEdited.joins e) chs) as [|c0 l]; [by apply elem_of_nil in Hin|].
      by apply (list_elem_of_fmap_2 (fun c => (Some e, Some c))).
    + intros [He Hn]. left. exists e. split; [|done]. apply filter_joins_nil in Hn as ->. left.
    + intros [Hc Hn]. right. apply (list_elem_of_fmap_2 (fun c => (None, Some c))), elem_of_lfilter. split; [done|].
      apply negb_true_iff, not_true_is_false. intros (e & He%list_elem_of_In & Hj)%existsb_exists.
      by rewrite Hn in Hj.
Qed.

(** ** Properties *)

(** C23: the gaps of an edition.  With the cut events and the cut changes in order
    of time, a start opening a level and a stop closing one, the gaps of a
    successful collection are ordered, and when every level is closed in the end
    they contain exactly the instants at which some level is open: nested and
    overlapping cuts are merged. *)
Theorem collect_gaps_depth (events : list Event) (changes : list Change)
    (cuts : list EventOrChangeAtDur) (gaps : list range) :
  cut_vec events changes = Ok cuts -> collect_gaps events changes = Ok gaps ->
  zsum (cut_delta <$> cuts) = 0 -> (forall c, c ∈ cuts -> 0 <= at_key c) ->
  ranges_from 0 gaps /\ forall t, covers gaps t <-> 0 < depth cuts t.
Proof.
  intros Hv Hc Hbal Hpos. destruct (cut_vec_spec _ _ _ Hv) as [Hs Hk].
  unfold collect_gaps in Hc. rewrite Hv in Hc. simpl in Hc.
  destruct (gaps_loop_spec CutStopped [] cuts gaps Hc Hs) as (out & -> & Hr & Hcov);
    [intros c Hin; split; [auto|done]|done|].
  split; [by apply Hr|]. intros t. rewrite Hcov. simpl. intuition.
Qed.

Section Properties.
Context `{Externals, EventCodec}.

(** A commit is all or nothing: one that fails, at any statement, in the
    computation of the gaps (panics included) or at the end of the transaction,
    leaves the database as it was. *)
Theorem commit_atomic (edition : Edition) (source : Room) (offset min : Z) (n : env) (w w' : world) (e : op_error) :
  call edition source offset min n w = (Err e, w') -> w_db w' = w_db w.
Proof.
  intros Ht. apply bind_Err in Ht as [Ht|(t & w1 & [= <- <-] & Ht)]; [done|]. by apply transaction_atomic in Ht.
Qed.


(** C10: what a successful commit produces: a room that is in the database and was
    not, derived from the source, with the time of the source; the integrity of the database is kept, no event of any
    room is lost, and the new room has no live cut event. *)
Theorem commit_result (edition : Edition) (source : Room) (offset min : Z) (n : env) (w w' : world)
    (destination : Room) (segments : Segments) :
  integrity (w_db w) -> call edition source offset min n w = (Ok (destination, segments), w') ->
  integrity (w_db w') /\
  (room_id destination ∉ (rr_id <$> db_rooms (w_db w))) /\ room_of (w_db w') destination /\
  room_source_room_id destination = Some (room_id source) /\ room_time destination = room_time source /\
  db_events (w_db w) ⊆ db_events (w_db w') /\
  (forall e, e ∈ db_events (w_db w') -> er_room_id e = room_id destination ->
     er_kind e = "stream"%string -> er_deleted_at e <> None).
Proof.
  intros Hi E. split.
  { pose proof (steps_keep_integrity _ n w (steps_any _ (call_steps edition source offset min)) Hi) as Hs. by rewrite E in Hs. }
  apply bind_Ok in E as (st & w1 & [= _ <-] & E).
  destruct (transaction_Ok _ _ _ _ _ _ E) as (w2 & w3 & Hd2 & Hd3 & Hb). simpl in Hd2.
  rewrite Hd3, <-Hd2. rewrite <-Hd2 in Hi. clear E Hd2 Hd3. unfold body, list_stream in Hb.
  apply bind_Ok in Hb as (d & w4 & H4 & E). apply reads_Ok in H4; [|unfold duration, bail; by_steps].
  apply bind_Ok in E as (evs & w5 & H5 & E). apply reads_Ok in H5; [|by_steps].
  apply bind_Ok in E as (chs & w6 & H6 & E). apply reads_Ok in H6; [|by_steps].
  apply bind_Ok in E as (gaps & w7 & H7 & E). apply reads_Ok in H7; [|unfold op_lift; by_steps].
  apply bind_Ok in E as (dest & w8 & Hcr & E). apply clone_room_Ok in Hcr as (Hsrc & Htime & Hfresh & Hof & Hev).
  apply bind_Ok in E as (u1 & w9 & (c & Hcl & _)%query_op_Ok & E).
  apply bind_Ok in E as (u2 & w10 & (c' & Hdel & _)%query_op_Ok & E).
  apply bind_Ok in E as (ms & w11 & [= _ <-] & [= <- _ <-]).
  assert (Hw7 : w_db w7 = w_db w2) by congruence. rewrite Hw7 in Hfresh, Hev.
  pose proof (clone_edited_kept (room_id source) (room_id dest) (edition_id edition) gaps
    (wrap64 (offset * NANOSECONDS_IN_MILLISECOND)) c (w_db w8)) as [Hg _].
  pose proof (clone_edited_rooms (room_id source) (room_id dest) (edition_id edition) gaps
    (wrap64 (offset * NANOSECONDS_IN_MILLISECOND)) c (w_db w8)) as Hr.
  rewrite Hcl in Hg, Hr. simpl in Hg, Hr. injection Hdel as _ Hdel. rewrite <-Hdel.
  split_and!; [done|by apply (room_of_stays _ _ _ Hr)|done|done| |].
  - intros e He. apply delete_events_elem. split; [apply Hg; by rewrite Hev|].
    unfold DeleteQuery.matches. rewrite !andb_false_iff. left. right. apply bool_decide_eq_false.
    intros Hroom. apply Hfresh. rewrite <-Hroom. by apply (ref_event_room _ Hi e).
  - intros e [_ He]%delete_events_elem Hroom Hkind Hlive. unfold DeleteQuery.matches in He.
    rewrite Hlive, Hroom, Hkind, !bool_decide_eq_true_2 in He by done. done.
Qed.
End Properties.

(** Room 1 as a recording of ten seconds with a message and a cut; an edition of it
    adds a message. *)
Definition commit_room_row : room_row :=
  RoomRow 1%N "example.org" None (Included nanos_per_sec, Excluded (11 * nanos_per_sec)) None 0 true 7%N
    (JObject []) (JObject []) Webinar.

Definition commit_room : Room :=
  MkRoom 1%N "example.org" None (Included nanos_per_sec, Excluded (11 * nanos_per_sec)) None 0 true 7%N ∅ ∅ Webinar.

Definition commit_events : list event_row :=
  let stream id command t := EventRow id 1%N "stream" "stream" None None (Some (cut command)) None t sample_agent
    (Z.of_N id) None t sample_agent false None None in
  [sample_event 10%N (Some "m"%string) (7 * nanos_per_sec) 5; stream 11%N "start"%string (4 * nanos_per_sec);
   stream 12%N "stop"%string (6 * nanos_per_sec)].

Definition commit_edition : Edition := MkEdition 1000%N 1%N sample_agent (100 * nanos_per_sec).

Definition commit_addition : ChangeQueries.insert_query :=
  ChangeQueries.event_created_by sample_agent (ChangeQueries.event_occurred_at (2 * nanos_per_sec)
    (ChangeQueries.event_data (JString "added") (ChangeQueries.event_kind "message"
      (ChangeQueries.insert_new 1000%N Addition)))).

Definition commit_db : database :=
  run_statement (InsertChange commit_addition) sample_ctx
    (run_statement (InsertEdition 1%N sample_agent) sample_ctx
      (with_events (fun _ => commit_events) (with_rooms (fun _ => [commit_room_row]) empty_database))).

Definition commit_world : world := World commit_db 0 [] [].

Lemma commit_db_integrity : integrity commit_db.
Proof.
  unfold commit_db. do 2 apply run_statement_integrity.
  apply (rooms_events_integrity [commit_room_row] commit_events); [by_evaluation|by_evaluation|by_evaluation|by repeat constructor|].
  repeat constructor; by_evaluation.
Qed.

Abbreviation commit_sample := (call commit_edition commit_room 0 0 sample_env commit_world).

Lemma commit_sample_run :
  exists destination segments w', commit_sample = (Ok (destination, segments), w') /\
    segments = [(Included 0, Excluded 4000); (Included 6000, Excluded 10000)].
Proof.
  assert (Hok : match commit_sample.1 with
    | Ok r => bool_decide (r.2 = [(Included 0, Excluded 4000); (Included 6000, Excluded 10000)])
    | Err _ => false end = true) by (vm_compute; reflexivity).
  destruct commit_sample as [[[d s]|] w']; [|discriminate Hok].
  exists d, s, w'. split; [reflexivity|]. by apply bool_decide_eq_true in Hok.
Qed.

Lemma commit_result_witness :
  exists destination segments w', commit_sample = (Ok (destination, segments), w') /\
    segments = [(Included 0, Excluded 4000); (Included 6000, Excluded 10000)] /\
    room_source_room_id destination = Some 1%N.
Proof.
  destruct commit_sample_run as (d & s & w' & Hrun & Hseg). exists d, s, w'.
  split; [exact Hrun|]. split; [exact Hseg|].
  destruct (commit_result commit_edition commit_room 0 0 sample_env commit_world w' d s commit_db_integrity Hrun)
    as (_ & _ & _ & Hsrc & _). exact Hsrc.
Defined.

(** An endless room cannot be committed. *)
Lemma commit_atomic_witness :
  exists e w', call commit_edition (MkRoom 1%N "example.org" None (Unbounded, Unbounded) None 0 true 7%N ∅ ∅ Webinar)
    0 0 sample_env commit_world = (Err e, w') /\ w_db w' = w_db commit_world.
Proof.
  assert (Hrun : exists e w', call commit_edition
    (MkRoom 1%N "example.org" None (Unbounded, Unbounded) None 0 true 7%N ∅ ∅ Webinar)
    0 0 sample_env commit_world = (Err e, w')) by (eexists _, _; reflexivity).
  destruct Hrun as (e & w' & Hrun). exists e, w'. split; [exact Hrun|].
  exact (commit_atomic _ _ _ _ _ _ _ _ Hrun).
Defined.

Lemma collect_gaps_depth_witness :
  let event t c := MkEvent 1%N 1%N "stream" "stream" None None (cut c) t sample_agent t None t sample_agent false in
  let events := [event 5 "start"%string; event 8 "start"%string; event 9 "stop"%string; event 12 "stop"%string] in
  collect_gaps events [] = Ok [(5, 12)] /\
  forall t, covers [(5, 12)] t <-> 0 < depth ((fun ev => AtEvent ev (event_occurred_at ev)) <$> events) t.
Proof.
  intros event events. split; [vm_compute; reflexivity|].
  apply (collect_gaps_depth events [] _ [(5, 12)]); [vm_compute; reflexivity|vm_compute; reflexivity|
    vm_compute; reflexivity|].
  intros c Hc. rewrite list_elem_of_In in Hc. simpl in Hc.
  destruct Hc as [<-|[<-|[<-|[<-|[]]]]]; simpl; lia.
Defined.


(** The copies forget [attribute] and [removed], and are shifted by the gaps: the
    removed message comes back, the added one is not shifted. *)
Example commit_forgets_removed :
  let removed := EventRow 10%N 1%N "message" "messages" (Some "m"%string) (Some "pinned"%string) (Some JNull) None
    (7 * nanos_per_sec) sample_agent 5 None (7 * nanos_per_sec) sample_agent true None None in
  let db := with_events (fun _ => [removed]) (with_rooms (fun _ => [commit_room_row]) empty_database) in
  let r := CloneEdited.execute 1%N 2%N 1000%N [(0, 4 * nanos_per_sec)] 0 sample_ctx
             (with_rooms (fun l => l ++ [RoomRow 2%N "example.org" None (Unbounded, Unbounded) None 0 true 7%N
                (JObject []) (JObject []) Webinar]) db) in
  (fun e => (er_room_id e, er_occurred_at e, er_attribute e, er_removed e)) <$> db_events r.2
  = [(1%N, 7 * nanos_per_sec, Some "pinned"%string, true); (2%N, 3 * nanos_per_sec, None, false)].
Proof. vm_compute. reflexivity. Qed.

(** The added message falls on its own time although four seconds before it are cut. *)
Example commit_addition_not_shifted :
  let addition := ChangeQueries.event_occurred_at (9 * nanos_per_sec) commit_addition in
  let db := run_statement (InsertChange addition) sample_ctx
    (run_statement (InsertEdition 1%N sample_agent) sample_ctx
      (with_events (fun _ => commit_events) (with_rooms (fun _ => [commit_room_row]) empty_database))) in
  let r := call commit_edition commit_room 0 0 sample_env (World db 0 [] []) in
  (fun e => (er_kind e, er_occurred_at e)) <$> List.filter (fun e => negb (bool_decide (er_room_id e = 1%N))) (db_events (w_db r.2))
  = [("message"%string, 5 * nanos_per_sec); ("message"%string, 9 * nanos_per_sec)].
Proof. vm_compute. reflexivity. Qed.
