(* ===== verification/Service.v ===== *)
(** * Requests and responses

    What the handlers of [src/src/app/endpoint] share: the context and the
    parameters of a request, the response with its notifications and tasks
    ([service_utils.rs]), the lookup of a room ([helpers.rs]), authorization
    objects and the ban callback ([authz/mod.rs]), the connections of
    [context.rs] and the client of the broker ([broker_client.rs]).

    A response is its status, its payload and the messages it gives rise to; the
    timing properties of messages and the spans are left out, the metrics are apart.  A
    spawned task runs where it is spawned: its join handle is the message it
    returned, or nothing when it panicked. *)

From S2P Require Import Prelude Times Types Db Sample EventDb RoomDb EditionDb AgentDb Integrity Effects Errors.

(** ** Context *)

(** [config.rs], the part the handlers read. *)
Record VacuumConfig : Type := MkVacuumConfig {
  max_history_size : Z;
  max_history_lifetime : Z;
  max_deleted_lifetime : Z
}.

(** [VacuumConfig::default]: ten versions, a day. *)
Definition vacuum_config_default : VacuumConfig :=
  MkVacuumConfig 10 (86400 * nanos_per_sec) (86400 * nanos_per_sec).

Record Config : Type := MkConfig {
  broker_id : account_id;
  ban_duration_s : option Z;
  vacuum_config : VacuumConfig;
  payload_size : Z;
  min_segment_length : Z
}.

Definition DEFAULT_BAN_DUR_SECS : Z := 5 * 3600.
Definition ban_duration (c : Config) : Z := default DEFAULT_BAN_DUR_SECS (ban_duration_s c).

(** [Context]: the configuration, the service's own agent, and whether there is a
    client of the storage; the rest is in [env]. *)
Record Context : Type := MkContext {
  config : Config;
  ctx_agent_id : agent_id;
  s3_client : bool
}.

Definition get_conn : M ErrorKind unit := error DbConnAcquisitionFailed acquire.
Definition get_ro_conn : M ErrorKind unit := error DbConnAcquisitionFailed acquire.

(** A query whose failure is answered with [DbQueryFailed]. *)
Definition query_app {A} (q : query A) : M ErrorKind A := error DbQueryFailed (run q).
Definition query_ro {A} (q : query A) : M ErrorKind A := error DbQueryFailed (run_ro q).

(** [conn.begin()] .. [txn.commit()]. *)
Definition transaction_app {A} (m : M ErrorKind A) : M ErrorKind A := transaction (fun _ => DbQueryFailed) m.

(** [Uuid::new_v4()]. *)
Definition new_v4 {E} : M E uuid := once (fun n w => (Ok (q_uuid (t_ctx (e_tick n (w_tick w))) 0), advance w)).

(** ** [RequestParams] *)

Inductive RequestParams : Type :=
  | Http (agent : agent_id)
  | MqttParams (reqp_agent : agent_id).

Definition as_agent_id (reqp : RequestParams) : agent_id :=
  match reqp with Http a | MqttParams a => a end.
Definition as_account_id (reqp : RequestParams) : account_id := agent_account (as_agent_id reqp).

(** ** Payloads *)

Inductive StateValue : Type :=
  | HasNext (b : bool)
  | SingleEvent (e : Event)
  | Collection (l : list Event).

(** [RoomAdjustResult], [EditionCommitResult], [EventsDumpResult]. *)
Inductive RoomAdjustResult : Type :=
  | AdjustSuccess (original_room_id modified_room_id : uuid) (modified_segments cut_original_segments : Segments)
  | AdjustError (error : ErrorKind).
Inductive EditionCommitResult : Type :=
  | CommitSuccess (source_room_id committed_room_id : uuid) (modified_segments : Segments)
  | CommitError (error : ErrorKind).
Inductive EventsDumpResult : Type :=
  | DumpSuccess (room_id : uuid) (s3_uri : string)
  | DumpError (error : ErrorKind).

Definition adjust_status (r : RoomAdjustResult) : string :=
  match r with AdjustSuccess _ _ _ _ => "success" | AdjustError _ => "error" end.
Definition commit_status (r : EditionCommitResult) : string :=
  match r with CommitSuccess _ _ _ => "success" | CommitError _ => "error" end.
Definition dump_status (r : EventsDumpResult) : string :=
  match r with DumpSuccess _ _ => "success" | DumpError _ => "error" end.

Inductive Payload : Type :=
  | PEmpty
  | PEvent (event : Event)
  | PEvents (events : list Event)
  (** [TenantClaimNotification] *)
  | PClaim (event : Event) (classroom_id : uuid)
  | PState (state : gmap string StateValue)
  | PRoom (room : Room)
  | PAgents (agents : list AgentWithBan)
  | PBans (bans : list RoomBan)
  | PEdition (edition : Edition)
  | PEditions (editions : list Edition)
  | PChange (change : Change)
  | PChanges (changes : list Change)
  (** [TenantBanNotification], [BanNotification] *)
  | PTenantBan (room_id : uuid) (account_id banned_by : account_id) (banned : bool) (reason : option string)
      (classroom_id : uuid)
  | PBan (account_id : account_id) (banned : bool) (reason : option string)
  (** [RoomEnterEvent], [RoomLeaveEvent] *)
  | PRoomEnter (id : uuid) (agent_id : agent_id) (banned : bool) (agent : AgentWithBan)
  | PRoomLeave (id : uuid) (agent_id : agent_id)
  | PAdjust (room_id : uuid) (status : string) (tags : option json) (result : RoomAdjustResult)
  | PCommit (status : string) (tags : option json) (result : EditionCommitResult)
  | PDump (status : string) (tags : option json) (result : EventsDumpResult).

(** ** [Response] *)

(** A broadcast event: its label, the topic and the payload. *)
Record Notification : Type := MkNotification { n_label : string; n_path : string; n_payload : Payload }.

Record Response : Type := MkResponse {
  notifications : list Notification;
  resp_status : Z;
  authz_time : option Z;
  resp_payload : Payload;
  async_tasks : list (option Notification)
}.

Module Response.

Definition new (status : Z) (payload : Payload) (maybe_authz_time : option Z) : Response :=
  MkResponse [] status maybe_authz_time payload [].

Definition add_notification (label path : string) (payload : Payload) (r : Response) : Response :=
  MkResponse (notifications r ++ [MkNotification label path payload]) (resp_status r) (authz_time r)
    (resp_payload r) (async_tasks r).

Definition add_async_task (task : option Notification) (r : Response) : Response :=
  MkResponse (notifications r) (resp_status r) (authz_time r) (resp_payload r) (async_tasks r ++ [task]).

End Response.

Definition audience_topic (audience : string) : string := ("audiences/" ++ audience ++ "/events")%string.

(** ** Authorization *)

Record AuthzObject : Type := MkAuthzObject { to_vec : list string; to_ban_key : option (list string) }.

Definition authz_object_new (obj : list string) : AuthzObject :=
  MkAuthzObject obj
    match obj with
    | classrooms :: classroom_id :: events :: _ :: _ =>
      if bool_decide (classrooms = "classrooms"%string) && bool_decide (events = "events"%string)
      then Some ["classrooms"%string; classroom_id; "events"%string] else None
    | _ => None
    end.

Section Service.
Context `{Externals}.

Definition room_topic (id : uuid) : string := ("rooms/" ++ uuid_to_string id ++ "/events")%string.

(** [AuthzObject::room]. *)
Definition authz_object_room (room : Room) : AuthzObject := MkAuthzObject (authz_object room) None.

(** [authz().authorize(..).await?]: the time it took. *)
Definition authorize (audience : string) (subject : account_id) (object : AuthzObject) (action : string)
    : M ErrorKind Z := once (fun n w =>
  match e_authorize n (w_tick w) audience subject (to_vec object) action with
  | Ok d => (Ok d, advance w)
  | Err e => (Err (from_authz_error e), advance w)
  end).

(** [authz().ban(..)], whose failure is logged. *)
Definition authz_ban (audience : string) (subject : account_id) (object : AuthzObject) (value : bool)
    (seconds : Z) : M ErrorKind unit := once (fun _ w =>
  (Ok tt, trace (CacheBan audience subject (to_vec object) value seconds) (advance w))).

(** [db_ban_callback]: the errors of the database mean no ban. *)
Definition db_ban_callback {E} (account_id : account_id) (intent : AuthzObject) : M E bool :=
  match to_ban_key intent with
  | None => ret false
  | Some _ =>
    match to_vec intent with
    | obj :: classroom_id :: _ =>
      if bool_decide (obj = "classrooms"%string) then
        match uuid_parse classroom_id with
        | Some classroom_id =>
          conn <~ attempt acquire;
          match conn with
          | Err _ => ret false
          | Ok _ =>
            ban <~ attempt (run (BanQueries.classroom_find account_id classroom_id));
            match ban with
            | Ok maybe_ban => ret (negb (is_none maybe_ban))
            | Err _ => ret false
            end
          end
        | None => ret false
        end
      else ret false
    | _ => ret false
    end
  end.

(** ** [find_room] *)

Inductive RoomTimeRequirement : Type := Any | NotClosed | Open.

Definition find_room (id : uuid) (opening_requirement : RoomTimeRequirement) : M ErrorKind Room :=
  get_ro_conn;;
  found <~ query_ro (FindQuery.execute (FindQuery.by_id id));
  match found with
  | None => fail RoomNotFound
  | Some room =>
    match opening_requirement with
    | Any => ret room
    | NotClosed => now <~ now; if is_closed now room then fail RoomClosed else ret room
    | Open => now <~ now; if is_open now room then ret room else fail RoomClosed
    end
  end.

(** ** [HttpBrokerClient] *)

(** [SubscriptionRequest::room_events]. *)
Definition room_events (subject : agent_id) (room_id : uuid) : effect :=
  Subscribe subject ["rooms"%string; uuid_to_string room_id; "events"%string] "v1".

Definition enter_room (id : uuid) (subject : agent_id) : M unit unit := once (fun n w =>
  let w' := trace (room_events subject id) (advance w) in
  if e_broker n (w_tick w) then (Ok tt, w') else (Err tt, w')).

Definition enter_broadcast_room (id : uuid) (subject : agent_id) : M unit unit := ret tt.

(** [tokio::try_join!]: both requests are made; the first error is the result. *)
Definition try_join {E} (m1 m2 : M E unit) : M E unit :=
  r1 <~ attempt m1;
  r2 <~ attempt m2;
  match r1, r2 with
  | Err e, _ | _, Err e => fail e
  | Ok _, Ok _ => ret tt
  end.

End Service.

(** ** Specification *)

(** Nobody is allowed anything. *)
Definition denied_env (n : env) : Prop :=
  forall k audience subject object action, exists e, e_authorize n k audience subject object action = Err e.

(** The database and the requests made are the same. *)
Definition same_state (w w' : world) : Prop := w_db w' = w_db w /\ w_trace w' = w_trace w.

#[export] Instance same_state_refl : PreOrder same_state.
Proof. split; [done|]. intros x y z [? ?] [? ?]. split; congruence. Qed.

(** The computation changes nothing and asks nothing of the outside. *)
Abbreviation quiet := (uses same_state).

(** In the environment [n] the computation does nothing and fails, whatever the
    other computations do between its uses. *)
Abbreviation refused_in n := (within n same_state (fun r => is_ok r = false)).

(** The computation fails before it does anything in an environment that denies. *)
Definition refused {E A} (m : M E A) : Prop := forall n, denied_env n -> refused_in n m.

(** ** Lemmas *)

Section Respects.
Context (R : relation database) `{!PreOrder R} `{Externals}.

Lemma error_respects {E A} k (m : M E A) : respects R m -> respects R (error k m).
Proof. apply on_error_respects. Qed.

Lemma query_app_respects {A} (q : query A) : query_respects R q -> respects R (query_app q).
Proof. intros Hq. apply error_respects. by apply run_respects. Qed.

Lemma query_ro_respects {A} (q : query A) : respects R (query_ro q).
Proof. apply error_respects, run_ro_respects, _. Qed.

Lemma transaction_app_respects {A} (m : M ErrorKind A) : respects R m -> respects R (transaction_app m).
Proof. by apply transaction_respects. Qed.

Lemma conn_respects : respects R get_conn.
Proof. apply error_respects, acquire_respects, _. Qed.

Lemma new_v4_respects {E} : respects R (new_v4 (E := E)).
Proof. apply uses_once. intros n w. simpl. reflexivity. Qed.

Lemma authorize_respects audience subject object action : respects R (authorize audience subject object action).
Proof. apply uses_once. intros n w. simpl. by destruct (e_authorize _ _ _ _ _ _). Qed.

Lemma authz_ban_respects audience subject object value seconds :
  respects R (authz_ban audience subject object value seconds).
Proof. apply uses_once. intros n w. simpl. reflexivity. Qed.

Lemma enter_room_respects id subject : respects R (enter_room id subject).
Proof. apply uses_once. intros n w. simpl. by destruct (e_broker _ _). Qed.
End Respects.

(** Walk through a handler. *)
Ltac by_handler :=
  repeat first
    [ solve [eauto with effects]
    | apply error_respects
    | apply attempt_respects
    | apply query_ro_respects; try apply _
    | apply query_app_respects; try apply _
    | apply transaction_app_respects; try apply _
    | apply conn_respects; try apply _
    | apply new_v4_respects; apply _
    | apply authorize_respects; try apply _
    | apply authz_ban_respects; try apply _
    | apply enter_room_respects; try apply _
    | progress by_steps ].

Section Composites.
Context (R : relation database) `{!PreOrder R} `{Externals}.

Lemma find_room_respects id req : respects R (find_room id req).
Proof. unfold find_room. by_handler. Qed.

Lemma try_join_respects {E} (m1 m2 : M E unit) : respects R m1 -> respects R m2 -> respects R (try_join m1 m2).
Proof. intros. unfold try_join. by_handler; done. Qed.
End Composites.

Section Quiet.
Context `{Externals}.

Lemma quiet_ret {E A} (a : A) : quiet (ret (E := E) a).
Proof. done. Qed.
Lemma quiet_fail {E A} (e : E) : quiet (fail (A := A) e).
Proof. done. Qed.
Lemma quiet_now {E} : quiet (now (E := E)).
Proof. by apply uses_once. Qed.
Lemma quiet_conn : quiet get_conn.
Proof. apply uses_on_error, uses_once. intros n w. by destruct (t_fault _). Qed.
Lemma quiet_ro {A} (q : query A) : quiet (query_ro q).
Proof. apply uses_on_error, uses_once. intros n w. simpl. by destruct (t_fault _). Qed.

Lemma quiet_find_room id req : quiet (find_room id req).
Proof.
  unfold find_room. apply uses_bind; [apply quiet_conn|]. intros _. apply uses_bind; [apply quiet_ro|].
  intros [room|]; [|apply quiet_fail]. destruct req; [apply quiet_ret|..];
    (apply uses_bind; [apply quiet_now|]; intros t; by case_match).
Qed.

Lemma refused_authorize audience subject object action : refused (authorize audience subject object action).
Proof.
  intros n Hd w. destruct (Hd (w_tick w) audience subject (to_vec object) action) as [e He]. by rewrite He.
Qed.

Lemma refused_fail {E A} (e : E) : refused (fail (A := A) e).
Proof. done. Qed.

Lemma refused_bind {E A B} (m : M E A) (f : A -> M E B) : refused m -> refused (bind m f).
Proof. intros Hm n Hd. apply (within_continue _ _ _ _ _ _ (Hm n Hd)). by intros [a|e]. Qed.

Lemma refused_after {E A B} (m : M E A) (f : A -> M E B) :
  quiet m -> (forall a, refused (f a)) -> refused (bind m f).
Proof.
  intros Hq Hf n Hd. apply (within_continue _ _ _ _ (fun _ => True)); [by apply within_uses|].
  intros [a|e] _; [by apply Hf|done].
Qed.

(** What a refused computation alone does. *)
Lemma refused_exec n {E A} (m : M E A) w : refused_in n m -> (exists e, (m n w).1 = Err e) /\ same_state w (m n w).2.
Proof. intros [Hr Hs]%(within_exec n same_state _ m w). split; [|done]. destruct (m n w).1 as [a|e]; [done|eauto]. Qed.

Lemma returns_bind {E A B} (P : B -> Prop) (m : M E A) (f : A -> M E B) :
  (forall a, returns P (f a)) -> returns P (bind m f).
Proof. intros Hf. unfold bind. induction m as [[a|e]|C use k IH]; cbn; [apply Hf|done|eauto]. Qed.

Lemma returns_bind_with {E A B} (Q : A -> Prop) (P : B -> Prop) (m : M E A) (f : A -> M E B) :
  returns Q m -> (forall a, Q a -> returns P (f a)) -> returns P (bind m f).
Proof. intros Hm Hf. unfold bind. induction m as [[a|e]|C use k IH]; cbn in *; [by apply Hf|done|]. intros b. apply IH, Hm. Qed.

Lemma returns_attempt {E F A} (P : A -> Prop) (m : M E A) :
  returns P m -> returns (fun r => match r with Ok a => P a | Err _ => True end) (attempt (F := F) m).
Proof. unfold attempt. induction m as [[a|e]|C use k IH]; cbn in *; [done|done|]. intros Hm c. apply IH, Hm. Qed.

Lemma returns_ret {E A} (P : A -> Prop) (a : A) : P a -> returns P (ret (E := E) a).
Proof. done. Qed.

Lemma returns_fail {E A} (P : A -> Prop) (e : E) : returns P (fail (A := A) e).
Proof. done. Qed.

Lemma returns_exec {E A} (P : A -> Prop) (m : M E A) n w a w' : returns P m -> m n w = (Ok a, w') -> P a.
Proof.
  revert w. induction m as [[b|e]|C use k IH]; cbn; intros w Hm.
  - by intros [= <- _].
  - done.
  - rewrite exec_use. destruct (use n w) as [b w1]. by apply IH.
Qed.
End Quiet.

(** ** What a successful computation tells *)

Section Success.
Context `{Externals}.

Lemma quiet_Ok {E A} (m : M E A) n w r w' : m n w = (r, w') -> quiet m -> same_state w w'.
Proof. intros Hm Hq%(uses_exec same_state m n w). by rewrite Hm in Hq. Qed.

Lemma conn_Ok n w u w' : get_conn n w = (Ok u, w') -> same_state w w'.
Proof. intros E. by apply (quiet_Ok _ _ _ _ _ E), quiet_conn. Qed.

Lemma now_Ok {E} n w t w' : now (E := E) n w = (Ok t, w') -> (exists k, t = t_now (e_tick n k)) /\ same_state w w'.
Proof. intros [= <- <-]. split; [eauto|done]. Qed.

Lemma query_ro_Ok {A} (q : query A) n w a w' :
  query_ro q n w = (Ok a, w') ->
  (exists k, (q (t_ctx (e_tick n k)) (served n k (w_db w))).1 = Ok a) /\ same_state w w'.
Proof.
  unfold query_ro. intros E. split; [|by apply (quiet_Ok (query_ro q) n w (Ok a)), quiet_ro].
  apply error_Ok in E. rewrite run_ro_exec in E. destruct (t_fault _); [done|]. injection E as E _.
  exists (w_tick w). exact E.
Qed.

Lemma query_app_Ok {A} (q : query A) n w a w' :
  query_app q n w = (Ok a, w') ->
  exists k, q (t_ctx (e_tick n k)) (w_db w) = (Ok a, w_db w') /\ w_trace w' = w_trace w.
Proof.
  unfold query_app. intros E%error_Ok. rewrite run_exec in E. destruct (t_fault _); [done|].
  destruct (q _ _) as [r db'] eqn:Eq. injection E as -> <-. eauto.
Qed.

Lemma authorize_Err audience subject object action n w e w' :
  authorize audience subject object action n w = (Err e, w') -> same_state w w'.
Proof. unfold authorize. rewrite once_exec. destruct (e_authorize _ _ _ _ _ _); [done|]. by intros [= _ <-]. Qed.

Lemma authorize_Ok audience subject object action n w d w' :
  authorize audience subject object action n w = (Ok d, w') ->
  (exists k, e_authorize n k audience subject (to_vec object) action = Ok d) /\ same_state w w'.
Proof.
  unfold authorize. rewrite once_exec. destruct (e_authorize _ _ _ _ _ _) eqn:E; [|done]. intros [= <- <-]. split; [eauto|done].
Qed.

Lemma run_op_Ok {A} (q : qctx -> database -> result op_error A * database) n w a w' :
  run_op q n w = (Ok a, w') ->
  exists k, q (t_ctx (e_tick n k)) (w_db w) = (Ok a, w_db w') /\ w_trace w' = w_trace w.
Proof.
  rewrite run_op_exec. destruct (t_fault _); [done|]. destruct (q _ _) as [r db'] eqn:Eq. intros [= -> <-]. eauto.
Qed.

(** The room was read from a row the reads are served from, at a time that meets
    the requirement. *)
Definition found_room (n : env) (db : database) (id : uuid) (req : RoomTimeRequirement) (room : Room) : Prop :=
  (exists k row, row ∈ db_rooms (served n k db) /\ rr_id row = id /\ try_from_db_object row = Ok room) /\
  match req with
  | Any => True
  | NotClosed => exists k, is_closed (t_now (e_tick n k)) room = false
  | Open => exists k, is_open (t_now (e_tick n k)) room = true
  end.

Lemma try_from_db_object_id row room : try_from_db_object row = Ok room -> room_id room = rr_id row.
Proof.
  unfold try_from_db_object. intros (lt & _ & (wa & _ & [= <-])%result_bind_Ok)%result_bind_Ok. done.
Qed.

Lemma found_room_id n db id req room : found_room n db id req room -> room_id room = id.
Proof. intros [(k & row & _ & <- & Hrow) _]. by apply try_from_db_object_id. Qed.

Lemma find_room_Ok id req n w room w' :
  find_room id req n w = (Ok room, w') -> found_room n (w_db w) id req room /\ same_state w w'.
Proof.
  intros E. split; [|by apply (quiet_Ok _ _ _ _ _ E), quiet_find_room].
  unfold find_room in E. apply bind_Ok in E as (u & w1 & [Hd _]%conn_Ok & E).
  apply bind_Ok in E as (found & w2 & ([k Hq] & _)%query_ro_Ok & E). rewrite Hd in Hq.
  destruct found as [r|]; [|done]. unfold FindQuery.execute, select in Hq. simpl in Hq.
  destruct (list_first _ _) as [row|] eqn:Ef; [|done].
  apply list_first_Some in Ef as (Hrow & Hid). unfold FindQuery.matches in Hid. simpl in Hid. bool_prop.
  apply result_bind_Ok in Hq as (room' & Hroom & [= ->]).
  assert (r = room /\ match req with
     | Any => True
     | NotClosed => exists k, is_closed (t_now (e_tick n k)) room = false
     | Open => exists k, is_open (t_now (e_tick n k)) room = true end) as [-> Hreq].
  { destruct req.
    - by injection E as -> _.
    - apply bind_Ok in E as (t & w3 & ((j & ->) & _)%now_Ok & E).
      case_match; [done|]. apply ret_Ok in E as [-> _]. eauto.
    - apply bind_Ok in E as (t & w3 & ((j & ->) & _)%now_Ok & E).
      case_match; [|done]. apply ret_Ok in E as [-> _]. eauto. }
  split; [|done]. eauto 10.
Qed.
End Success.

#[export] Hint Resolve find_room_respects quiet_conn quiet_ro quiet_now quiet_ret quiet_fail quiet_find_room
  refused_authorize refused_fail : effects.

(** Walk to the authorization of a handler. *)
Ltac by_refusal :=
  repeat first
    [ progress intros
    | solve [eauto with effects]
    | apply refused_after; [solve [eauto with effects]|]
    | apply refused_bind; solve [eauto with effects]
    | case_match ].

(** Walk to what a handler returns. *)
Ltac by_returns :=
  repeat first
    [ progress intros
    | apply returns_bind
    | apply returns_ret
    | apply returns_fail
    | case_match ].

(** ** A sample context *)

Definition sample_context : Context :=
  MkContext (MkConfig (AccountId "broker" "svc.example.org") None (MkVacuumConfig 10 86400000000000 86400000000000)
               102400 nanos_per_sec) sample_agent true.
