(* ===== verification/NatsConsumer.v ===== *)
(** * Consumer of the NATS stream

    [src/src/app/nats_consumer.rs]: a message of the stream becomes an event of
    the room of its classroom ([handle_message]); the loop over a stream
    ([handle_stream]) acknowledges, returns or terminates it and suspends itself
    while the database gives no connection; the task ([run]) resubscribes until
    the shutdown.

    The loops are functions of what they are offered, a list of turns of
    [tokio::select!] and a list of subscriptions: a list that ends without the
    loop ending is a run still going on.  The effects on the stream and the reports
    to Sentry are a log, in order. *)

From S2P Require Import Prelude Times Types Db Sample EventDb RoomDb Integrity Effects Errors Service.
From S2P Require Schema CompactEvent.

(** ** The crates *)

(** [svc_conference_events]: what is read of an [Event]. *)
Record VideoGroupEvent : Type := MkVideoGroupEvent { as_label : string; vg_created_at : Z }.

(** [svc_nats_client]: what is read of a [Subject] and of the [Headers]. *)
Record Subject : Type := MkSubject { entity_type : string; classroom_id : uuid }.
Record Headers : Type := MkHeaders { sender_id : agent_id; sequence_id : Z }.

Class NatsCrates : Type := {
  HeaderMap : Type;
  no_headers : HeaderMap;
  subject_from_str : string -> option Subject;
  event_from_slice : bytes -> option VideoGroupEvent;
  headers_try_from : HeaderMap -> option Headers
}.

Record Message `{NatsCrates} : Type := MkMessage {
  subject : string;
  payload : bytes;
  headers : option HeaderMap
}.
Arguments MkMessage {_} _ _ _.

(** [config::NatsConsumer]: durations in nanoseconds. *)
Record Config : Type := MkConfig {
  suspend_interval : Z;
  max_suspend_interval : Z;
  suspend_sentry_interval : Z;
  resubscribe_interval : Z
}.

(** [Duration::as_secs], [Duration::from_secs]. *)
Definition as_secs (d : Z) : Z := d / nanos_per_sec.
Definition from_secs (s : Z) : Z := s * nanos_per_sec.

(** The arithmetic of [u32] and [u64] wraps around. *)
Definition wrap_u32 (z : Z) : Z := z mod 2 ^ 32.
Definition wrap_u64 (z : Z) : Z := z mod 2 ^ 64.

Definition next_suspend_interval (retry_count : Z) (cfg : Config) : Z :=
  from_secs (Z.min (wrap_u64 (as_secs (suspend_interval cfg) * wrap_u64 (2 ^ retry_count)))
                   (as_secs (max_suspend_interval cfg))).

(** ** [handle_message] *)

Inductive HandleMessageError : Type :=
  | NoConnection
  | Other (msg : string).

Section Handle.
Context `{Externals, EventCodec, NatsCrates}.

Definition context {E A} (msg : string) (m : M E A) : M HandleMessageError A := on_error (fun _ => Other msg) m.
Definition parsed {A} (o : option A) (msg : string) : M HandleMessageError A := lift (ok_or o (Other msg)).
Definition get_conn : M HandleMessageError unit := on_error (fun _ => NoConnection) acquire.

(** The chain of setters of the insertion. *)
Definition insert_query (subject : Subject) (event : VideoGroupEvent) (room : Room) (headers : Headers)
    (opened_at : Z) : result failure EventDb.InsertQuery.t :=
  result_bind
    (EventDb.InsertQuery.new (room_id room) (entity_type subject)
       (JObject [(entity_type subject, JString (as_label event))])
       (since_opening (vg_created_at event) opened_at) (sender_id headers)) (fun q =>
  Ok (EventDb.InsertQuery.entity_event_id (sequence_id headers)
        (EventDb.InsertQuery.entity_type (entity_type subject) q))).

(** The outcome of the insertion: a duplicate is a message handled before. *)
Definition settle {A} (result : result sqlx_error A) : M HandleMessageError unit :=
  match result with
  | Ok _ => ret tt
  | Err (DatabaseError c) =>
    if bool_decide (c = "uniq_entity_type_entity_event_id"%string) then ret tt
    else fail (Other "failed to create event from nats")
  | Err _ => fail (Other "failed to create event from nats")
  end.

Definition handle_message (message : Message) : M HandleMessageError unit :=
  subject <~ parsed (subject_from_str (subject message)) "parse nats subject";
  event <~ parsed (event_from_slice (payload message)) "parse nats payload";
  get_conn;;
  found <~ context "find room by classroom_id"
    (run (FindQuery.execute (FindQuery.by_classroom_id (classroom_id subject))));
  room <~ parsed found "failed to get room by classroom_id";
  headers <~ parsed (headers_try_from (default no_headers (headers message))) "parse nats headers";
  opened_at <~ parsed (room_opening room) "invalid room time";
  get_conn;;
  query <~ context "invalid event data" (lift (insert_query subject event room headers opened_at));
  result <~ attempt (run (EventDb.InsertQuery.execute query));
  settle result.

(** ** [handle_stream] *)

(** What an iteration of the loop does, and whether the acknowledgement of a
    message goes through. *)
Inductive action : Type :=
  | Sleep (duration : Z)
  | Ack (message : Message) (sent : bool)
  | Nak (message : Message) (sent : bool)
  | Terminate (message : Message) (sent : bool)
  | NotifySentry (kind : ErrorKind).

(** The branch [tokio::select!] takes: the next of the stream, or the shutdown. *)
Inductive turn : Type :=
  | Next (message : Message) (sent : bool)
  | NextError
  | Closed
  | ShutdownChanged.

Inductive CompletionReason : Type := Shutdown | StreamClosed.

(** The local variables of the loop. *)
Record stream_state : Type := MkStream { retry_count : Z; suspend : option Z }.
Definition stream_start : stream_state := MkStream 0 None.

(** A failure to answer the stream is reported. *)
Definition published (sent : bool) : list action := if sent then [] else [NotifySentry NatsPublishFailed].

(** The [match result] of the loop. *)
Definition handle_result (cfg : Config) (message : Message) (sent : bool) (retry_count : Z)
    (result : result HandleMessageError unit) : stream_state * list action :=
  match result with
  | Ok _ => (MkStream 0 None, Ack message sent :: published sent)
  | Err NoConnection =>
    let retry_count := wrap_u32 (retry_count + 1) in
    (MkStream retry_count (Some (next_suspend_interval retry_count cfg)),
     NotifySentry DbConnAcquisitionFailed :: Nak message sent :: published sent)
  | Err (Other _) =>
    (MkStream retry_count None,
     NotifySentry NatsMessageHandlingFailed :: Terminate message sent :: published sent)
  end.

(** One iteration: the next state, or the end of the loop. *)
Definition handle_turn (cfg : Config) (s : stream_state) (t : turn)
    : M Empty_set ((CompletionReason + stream_state) * list action) :=
  let slept := match suspend s with Some interval => [Sleep interval] | None => [] end in
  match t with
  | Next message sent =>
    r <~ attempt (handle_message message);
    let '(s', log) := handle_result cfg message sent (retry_count s) r in
    ret (inr s', slept ++ log)
  | NextError => ret (inr (MkStream (retry_count s) None), slept ++ [NotifySentry InternalNatsError])
  | Closed => ret (inl StreamClosed, slept)
  | ShutdownChanged => ret (inl Shutdown, slept)
  end.

Fixpoint handle_turns (cfg : Config) (turns : list turn) (s : stream_state)
    : M Empty_set (option CompletionReason * list action) :=
  match turns with
  | [] => ret (None, [])
  | t :: turns =>
    step <~ handle_turn cfg s t;
    match step.1 with
    | inl reason => ret (Some reason, step.2)
    | inr s' => rest <~ handle_turns cfg turns s'; ret (rest.1, step.2 ++ rest.2)
    end
  end.

Definition handle_stream (cfg : Config) (messages : list turn) : M Empty_set (option CompletionReason * list action) :=
  handle_turns cfg messages stream_start.

(** ** [run] *)

(** A round of the task: the outcome of [subscribe()], and the readings of the
    monotone clock by [elapsed()] and [Instant::now()] when the round fails. *)
Record round : Type := Round {
  subscribed : option (list turn);
  checked_at : Z;
  sent_at : Z
}.

(** What the task does: what the loop over a stream does, or its own. *)
Inductive task_action : Type :=
  | Streamed (a : action)
  | NotifySubscription (at_ : Z)
  | Resubscribe (after : Z).

(** A failure of the subscription, reported at most once in an interval:
    [elapsed()] is zero at the earliest. *)
Definition report (cfg : Config) (rd : round) (sentry_last_sent : Z) : Z * list task_action :=
  if suspend_sentry_interval cfg <=? Z.max 0 (checked_at rd - sentry_last_sent)
  then (sent_at rd, [NotifySubscription (checked_at rd)])
  else (sentry_last_sent, []).

(** The loop; the boolean tells whether the task has completed. *)
Fixpoint run_loop (cfg : Config) (rounds : list round) (sentry_last_sent : Z)
    : M Empty_set (bool * list task_action) :=
  match rounds with
  | [] => ret (false, [])
  | rd :: rounds =>
    let again log :=
      let '(last, reported) := report cfg rd sentry_last_sent in
      rest <~ run_loop cfg rounds last;
      ret (rest.1, log ++ reported ++ Resubscribe (resubscribe_interval cfg) :: rest.2) in
    match subscribed rd with
    | None => again []
    | Some messages =>
      stream <~ handle_stream cfg messages;
      let log := Streamed <$> stream.2 in
      match stream.1 with
      | None => ret (false, log)
      | Some Shutdown => ret (true, log)
      | Some StreamClosed => again log
      end
    end
  end.

(** [started_at] is the reading of the clock the task starts with. *)
Definition run (cfg : Config) (rounds : list round) (started_at : Z) : M Empty_set (bool * list task_action) :=
  run_loop cfg rounds (started_at - suspend_sentry_interval cfg).

End Handle.

(** ** Specification *)

Section Specification.
Context `{Externals, EventCodec, NatsCrates}.

(** The entity a message tells of: what makes two messages the same. *)
Definition message_entity (m : Message) : option (string * Z) :=
  s ← subject_from_str (subject m);
  h ← headers_try_from (default no_headers (headers m));
  Some (entity_type s, sequence_id h).

(** The entities the database has an event of. *)
Definition entities (db : database) : gset (string * Z) := list_to_set (omap entity_key (db_events db)).

(** The event of a message in a room opened at [opened_at]. *)
Definition records (m : Message) (room : Room) (opened_at : Z) (row : event_row) : Prop :=
  exists s e h, subject_from_str (subject m) = Some s /\ event_from_slice (payload m) = Some e /\
    headers_try_from (default no_headers (headers m)) = Some h /\
    room_classroom_id room = classroom_id s /\ er_room_id row = room_id room /\
    er_kind row = entity_type s /\ er_set row = entity_type s /\ er_label row = None /\
    er_data row = Some (JObject [(entity_type s, JString (as_label e))]) /\
    er_occurred_at row = since_opening (vg_created_at e) opened_at /\ er_created_by row = sender_id h /\
    entity_key row = Some (entity_type s, sequence_id h) /\ er_deleted_at row = None.

(** An abstract recorder of entities: an acknowledged message has its entity
    recorded, and nothing else changes what is recorded. *)
Inductive recorder_step : gset (string * Z) -> action -> gset (string * Z) -> Prop :=
  | recorder_ack S m sent k : message_entity m = Some k -> recorder_step S (Ack m sent) ({[k]} ∪ S)
  | recorder_idle S a : (forall m sent, a <> Ack m sent) -> recorder_step S a S.

Inductive recorder : gset (string * Z) -> list action -> gset (string * Z) -> Prop :=
  | recorder_done S : recorder S [] S
  | recorder_more S1 S2 S3 a log : recorder_step S1 a S2 -> recorder S2 log S3 -> recorder S1 (a :: log) S3.

(** The messages of a log that were answered, and how. *)
Definition answered (a : action) : option Message :=
  match a with Ack m _ | Nak m _ | Terminate m _ => Some m | _ => None end.

(** The turns up to the one that ends the loop, and how it ends. *)
Fixpoint ending (turns : list turn) : option CompletionReason :=
  match turns with
  | [] => None
  | Closed :: _ => Some StreamClosed
  | ShutdownChanged :: _ => Some Shutdown
  | _ :: turns => ending turns
  end.
Fixpoint delivered (turns : list turn) : list Message :=
  match turns with
  | [] | Closed :: _ | ShutdownChanged :: _ => []
  | Next m _ :: turns => m :: delivered turns
  | NextError :: turns => delivered turns
  end.

(** New events, each of an entity that had none. *)
Definition grows (db db' : database) : Prop :=
  exists rows, db' = with_events (fun l => l ++ rows) db /\ NoDup (omap entity_key rows) /\
    Forall (fun row => exists k, entity_key row = Some k /\ k ∉ entities db) rows.

(** The messages of a log that are returned to the stream. *)
Definition returned (a : action) : option Message := match a with Nak m _ => Some m | _ => None end.

(** The sleeps of a log. *)
Definition slept (a : action) : option Z := match a with Sleep d => Some d | _ => None end.

(** The reports of the subscription. *)
Definition notified (a : task_action) : option Z := match a with NotifySubscription t => Some t | _ => None end.

(** How a round ends: the task goes on when it is over without a shutdown. *)
Definition round_failed (rd : round) : Prop :=
  match subscribed rd with None => True | Some messages => ending messages = Some StreamClosed end.
Definition round_shutdown (rd : round) : Prop :=
  exists messages, subscribed rd = Some messages /\ ending messages = Some Shutdown.

(** The readings of the clock follow one another. *)
Fixpoint clock_runs (t : Z) (rounds : list round) : Prop :=
  match rounds with
  | [] => True
  | rd :: rounds => t <= checked_at rd <= sent_at rd /\ clock_runs (sent_at rd) rounds
  end.

(** No connection to the database. *)
Definition no_connection (n : env) : Prop := forall k, is_Some (t_fault (e_tick n k)).

(** The parts of a message read before a connection is asked for. *)
Definition readable (t : turn) : Prop :=
  match t with
  | Next m _ => is_Some (subject_from_str (subject m)) /\ is_Some (event_from_slice (payload m))
  | _ => False
  end.

(** What handling [m] may do to the world, by its result. *)
Definition handled (m : Message) (n : env) (w : world) (r : result HandleMessageError unit) (w' : world) : Prop :=
  w_trace w' = w_trace w /\
  match r with
  | Ok _ =>
    exists k rr room opened_at, message_entity m = Some k /\ rr ∈ db_rooms (w_db w) /\
      try_from_db_object rr = Ok room /\ room_opening room = Some opened_at /\
      ((k ∈ entities (w_db w) /\ w_db w' = w_db w) \/
       ((k ∉ entities (w_db w)) /\ exists row, records m room opened_at row /\
          w_db w' = with_events (fun l => l ++ [row]) (w_db w)))
  | Err NoConnection => w_db w' = w_db w /\ exists k e, t_fault (e_tick n k) = Some e
  | Err (Other _) => w_db w' = w_db w
  end.

End Specification.

(** What the environment answers with when a connection is lost is not an error
    of the database. *)
Definition plain_faults (n : env) : Prop := forall k c, t_fault (e_tick n k) <> Some (DatabaseError c).

(** The payload the consumer writes is not a drawing: a drawing has more fields. *)
Class DrawRefused `{codec : EventCodec} : Prop :=
  draw_refused : forall label, from_json (JObject [("draw"%string, JString label)]) = None.

(** ** Lemmas *)

Section Lemmas.
Context `{Externals, EventCodec, NatsCrates}.

Lemma recorder_app S1 S2 S3 log1 log2 :
  recorder S1 log1 S2 -> recorder S2 log2 S3 -> recorder S1 (log1 ++ log2) S3.
Proof. induction 1; simpl; [done|]. intros. econstructor; eauto. Qed.

Lemma recorder_idle_log S log : Forall (fun a => forall m sent, a <> Ack m sent) log -> recorder S log S.
Proof. induction 1; econstructor; [by constructor|done]. Qed.

Lemma uniq_entity_violation db row :
  event_violation db row = Some "uniq_entity_type_entity_event_id"%string ->
  exists k, entity_key row = Some k /\ k ∈ entities db.
Proof.
  unfold event_violation. repeat (case_match; [done|]).
  destruct (existsb (fun e => sql_eq (er_entity_type e) _ && _) _) eqn:E; [|by case_match].
  intros _. apply existsb_exists in E as (e & He%list_elem_of_In & Hs). bool_prop.
  unfold entities, entity_key. setoid_rewrite elem_of_list_to_set. setoid_rewrite list_elem_of_omap.
  destruct (er_entity_type e) as [t|] eqn:Et, (er_entity_type row); try done.
  destruct (er_entity_event_id e) as [i|] eqn:Ei, (er_entity_event_id row); try done. simpl in *. bool_prop.
  subst. eexists. split; [done|]. exists e. split; [done|]. unfold entity_key. by rewrite Et, Ei.
Qed.

Lemma insert_query_fields s e room h opened_at q :
  insert_query s e room h opened_at = Ok q ->
  EventDb.InsertQuery.iq_room_id q = room_id room /\ EventDb.InsertQuery.iq_kind q = entity_type s /\
  EventDb.InsertQuery.iq_set q = entity_type s /\ EventDb.InsertQuery.iq_label q = None /\
  EventDb.InsertQuery.iq_occurred_at q = since_opening (vg_created_at e) opened_at /\
  EventDb.InsertQuery.iq_created_by q = sender_id h /\
  EventDb.InsertQuery.iq_entity_type q = Some (entity_type s) /\
  EventDb.InsertQuery.iq_entity_event_id q = Some (sequence_id h).
Proof.
  unfold insert_query, EventDb.InsertQuery.new.
  destruct (if bool_decide _ then _ else _) as [[d b]|]; simpl; [|done]. by intros [= <-].
Qed.

Lemma insert_query_data `{!DrawRefused} s e room h opened_at q :
  insert_query s e room h opened_at = Ok q ->
  EventDb.InsertQuery.iq_data q = Some (JObject [(entity_type s, JString (as_label e))]) /\
  EventDb.InsertQuery.iq_binary_data q = None.
Proof.
  unfold insert_query, EventDb.InsertQuery.new.
  destruct (bool_decide _) eqn:E; simpl; [|by intros [= <-]].
  apply bool_decide_eq_true in E. by rewrite E, draw_refused.
Qed.

(** What the insertion of a message does. *)
Lemma insertion_cases `{!DrawRefused} s e room h opened_at q c db :
  insert_query s e room h opened_at = Ok q ->
  (exists row ev, EventDb.InsertQuery.execute q c db = (Ok ev, with_events (fun l => l ++ [row]) db) /\
     event_violation db row = None /\
     row = on_event_insert (q_now c) (db_events db) (EventDb.InsertQuery.values (q_uuid c 0) q)) \/
  (exists v row, EventDb.InsertQuery.execute q c db = (Err (DatabaseError v), db) /\
     event_violation db row = Some v /\ entity_key row = Some (entity_type s, sequence_id h)).
Proof.
  intros Hq. pose proof (insert_query_fields _ _ _ _ _ _ Hq) as Hf. split_and_all.
  apply insert_query_data in Hq as [Hd Hb].
  pose proof (insert_event_cases (q_now c) (EventDb.InsertQuery.values (q_uuid c 0) q) db) as Hcases.
  cbv zeta in Hcases. unfold EventDb.InsertQuery.execute. destruct Hcases as [(v & Hv & ->)|(Hv & ->)].
  - right. eexists _, _. split_and!; [done|exact Hv|]. unfold entity_key. simpl.
    repeat match goal with E : EventDb.InsertQuery.iq_entity_type _ = _ |- _ => rewrite E; clear E
    | E : EventDb.InsertQuery.iq_entity_event_id _ = _ |- _ => rewrite E; clear E end. done.
  - left. unfold try_from_raw. cbn [er_binary_data er_data on_event_insert EventDb.InsertQuery.values].
    eexists _, _. split_and!; [|exact Hv|reflexivity].
    simpl. rewrite Hd, Hb. simpl. reflexivity.
Qed.

Lemma not_recorded db row k :
  event_violation db row = None -> entity_key row = Some k -> k ∉ entities db.
Proof. unfold entities. rewrite elem_of_list_to_set. apply event_violation_entity. Qed.

Lemma find_by_classroom_Ok cid c db found :
  (FindQuery.execute (FindQuery.by_classroom_id cid) c db).1 = Ok (Some found) ->
  exists rr, rr ∈ db_rooms db /\ try_from_db_object rr = Ok found /\ room_classroom_id found = cid.
Proof.
  unfold FindQuery.execute, select. simpl. destruct (list_first _ _) as [rr|] eqn:E; [|done].
  apply list_first_Some in E as [Hin Hm]. unfold FindQuery.matches in Hm. simpl in Hm. bool_prop.
  destruct (try_from_db_object rr) as [room|] eqn:Er; simpl; [|done]. intros [= <-].
  exists rr. split_and!; [done|done|].
  by apply result_bind_Ok in Er as (lt & _ & (wa & _ & [= <-])%result_bind_Ok).
Qed.
End Lemmas.

Section Loops.
Context `{Externals, EventCodec, NatsCrates}.

(** The loops as functions of the world. *)

Lemma handle_turn_total cfg s t n w :
  total (handle_turn cfg s t) n w =
  let slept := match suspend s with Some interval => [Sleep interval] | None => [] end in
  match t with
  | Next message sent =>
    let '(r, w') := handle_message message n w in
    let '(s', log) := handle_result cfg message sent (retry_count s) r in
    (inr s', slept ++ log, w')
  | NextError => (inr (MkStream (retry_count s) None), slept ++ [NotifySentry InternalNatsError], w)
  | Closed => (inl StreamClosed, slept, w)
  | ShutdownChanged => (inl Shutdown, slept, w)
  end.
Proof.
  destruct t; [|done..]. unfold handle_turn. rewrite total_bind, total_attempt.
  destruct (handle_message _ n w) as [r w']. cbn [fst snd]. by destruct (handle_result _ _ _ _ r).
Qed.

Lemma handle_turns_cons cfg t turns s n w :
  total (handle_turns cfg (t :: turns) s) n w =
  let '(next, log, w1) := total (handle_turn cfg s t) n w in
  match next with
  | inl reason => (Some reason, log, w1)
  | inr s' => let '(reason, log', w2) := total (handle_turns cfg turns s') n w1 in (reason, log ++ log', w2)
  end.
Proof.
  cbn [handle_turns]. rewrite total_bind. destruct (total (handle_turn cfg s t) n w) as [[[reason|s'] log] w1]; [done|].
  cbn [fst snd]. rewrite total_bind. by destruct (total (handle_turns cfg turns s') n w1) as [[reason log'] w2].
Qed.

Lemma run_loop_cons cfg rd rounds last n w :
  total (run_loop cfg (rd :: rounds) last) n w =
  let again log w :=
    let '(last, reported) := report cfg rd last in
    let '(completed, log', w') := total (run_loop cfg rounds last) n w in
    (completed, log ++ reported ++ Resubscribe (resubscribe_interval cfg) :: log', w') in
  match subscribed rd with
  | None => again [] w
  | Some messages =>
    let '(reason, log, w1) := total (handle_stream cfg messages) n w in
    match reason with
    | None => (false, Streamed <$> log, w1)
    | Some Shutdown => (true, Streamed <$> log, w1)
    | Some StreamClosed => again (Streamed <$> log) w1
    end
  end.
Proof.
  cbn [run_loop]. destruct (subscribed rd) as [messages|].
  - rewrite total_bind. destruct (total (handle_stream cfg messages) n w) as [[reason log] w1]. cbn [fst snd].
    destruct reason as [[|]|]; [done| |done]. destruct (report cfg rd last) as [last' reported].
    rewrite total_bind. by destruct (total (run_loop cfg rounds last') n w1) as [[completed log'] w'].
  - destruct (report cfg rd last) as [last' reported].
    rewrite total_bind. by destruct (total (run_loop cfg rounds last') n w) as [[completed log'] w'].
Qed.

Lemma entities_app db rows :
  entities (with_events (fun l => l ++ rows) db) = entities db ∪ list_to_set (omap entity_key rows).
Proof. unfold entities. simpl. by rewrite omap_app, list_to_set_app_L. Qed.

#[export] Instance grows_preorder : PreOrder grows.
Proof.
  split.
  - intros db. exists []. split_and!; [|apply NoDup_nil_2|constructor].
    destruct db. unfold with_events. simpl. by rewrite app_nil_r.
  - intros db1 db2 db3 (rows1 & -> & Hn1 & Hf1) (rows2 & -> & Hn2 & Hf2). exists (rows1 ++ rows2).
    rewrite Forall_forall in Hf2. setoid_rewrite entities_app in Hf2. split_and!.
    + unfold with_events. simpl. by rewrite app_assoc.
    + rewrite omap_app. apply NoDup_app. split_and!; [done| |done].
      intros k Hk1 (row & Hrow & Hk)%list_elem_of_omap. destruct (Hf2 row Hrow) as (k' & Hk' & Hn).
      assert (k' = k) as -> by congruence. set_solver.
    + apply Forall_app. split; [done|]. apply Forall_forall. intros row Hrow.
      destruct (Hf2 row Hrow) as (k & Hk & Hn). exists k. split; [done|]. set_solver.
Qed.

Lemma grows_one db row k : entity_key row = Some k -> k ∉ entities db ->
  grows db (with_events (fun l => l ++ [row]) db).
Proof.
  intros Hk Hn. exists [row]. split_and!; [done| |by repeat econstructor].
  simpl. rewrite Hk. apply NoDup_singleton.
Qed.

Lemma published_quiet sent : Forall (fun a => forall m b, a <> Ack m b) (published sent).
Proof. destruct sent; repeat constructor; done. Qed.

Lemma published_answered sent : omap answered (published sent) = [].
Proof. by destruct sent. Qed.

Lemma handle_turn_reason cfg s t n w :
  let '(next, log, _) := total (handle_turn cfg s t) n w in
  omap answered log = match t with Next m _ => [m] | _ => [] end /\
  match t with
  | Closed => next = inl StreamClosed
  | ShutdownChanged => next = inl Shutdown
  | _ => exists s', next = inr s'
  end.
Proof.
  rewrite handle_turn_total. cbv zeta. destruct t as [m sent| | |]; try (by destruct (suspend s)); [|by destruct (suspend s); eauto].
  destruct (handle_message m n w) as [r w']. destruct (handle_result cfg m sent (retry_count s) r) as [s' log] eqn:E.
  split; [|eauto]. rewrite omap_app.
  assert (omap answered match suspend s with Some interval => [Sleep interval] | None => [] end = []) as ->
    by (by destruct (suspend s)).
  unfold handle_result in E. destruct r as [[]|[]]; injection E as <- <-; csimpl; by rewrite published_answered.
Qed.

Lemma handle_turns_ending cfg turns s n w :
  let '(reason, log, _) := total (handle_turns cfg turns s) n w in
  reason = ending turns /\ omap answered log = delivered turns.
Proof.
  revert s w. induction turns as [|t turns IH]; intros s w; [done|]. rewrite handle_turns_cons.
  pose proof (handle_turn_reason cfg s t n w) as Ht. destruct (total (handle_turn cfg s t) n w) as [[next log] w1].
  destruct Ht as [Hlog Hnext]. destruct t as [m sent| | |]; try (subst next; by rewrite Hlog).
  - destruct Hnext as [s' ->]. specialize (IH s' w1). destruct (total (handle_turns cfg turns s') n w1) as [[reason log'] w2].
    destruct IH as [-> Hd]. by rewrite omap_app, Hlog, Hd.
  - destruct Hnext as [s' ->]. specialize (IH s' w1). destruct (total (handle_turns cfg turns s') n w1) as [[reason log'] w2].
    destruct IH as [-> Hd]. by rewrite omap_app, Hlog, Hd.
Qed.
End Loops.

Section Message.
Context `{Externals, EventCodec, NatsCrates, !DrawRefused}.

Lemma handle_message_handled (m : Message) (n : env) (w : world) :
  plain_faults n -> let '(r, w') := handle_message m n w in handled m n w r w'.
Proof.
  intros Hf. unfold handled, handle_message, message_entity, parsed, context, get_conn.
  rewrite bind_exec, lift_exec.
  destruct (subject_from_str (subject m)) as [s|] eqn:Es; [|by simpl]; cbn [ok_or mbind option_bind].
  rewrite bind_exec, lift_exec.
  destruct (event_from_slice (payload m)) as [e|] eqn:Ee; [|by simpl]; cbn [ok_or mbind option_bind].
  rewrite bind_exec, on_error_exec, acquire_exec.
  destruct (t_fault (e_tick n (w_tick w))) eqn:F1; [simpl; by eauto|].
  rewrite bind_exec, on_error_exec, run_exec.
  destruct (t_fault (e_tick n (w_tick (advance w)))) eqn:F2; [by simpl|].
  destruct (FindQuery.execute _ _ _) as [found db1] eqn:Ef.
  assert (db1 = w_db w) as -> by (unfold FindQuery.execute, select in Ef; by injection Ef as _ <-).
  destruct found as [found|]; [|by simpl]. rewrite bind_exec, lift_exec. cbn [ok_or]. destruct found as [room|]; [|by simpl]; cbn [ok_or].
  destruct (find_by_classroom_Ok (classroom_id s) (t_ctx (e_tick n (w_tick (advance w)))) (w_db (advance w)) room)
    as (rr & Hrr & Hroom & Hcid); [by rewrite Ef|].
  rewrite bind_exec, lift_exec.
  destruct (headers_try_from _) as [h|] eqn:Eh; [|by simpl]; cbn [ok_or mbind option_bind].
  rewrite bind_exec, lift_exec.
  destruct (room_opening room) as [opened_at|] eqn:Eo; [|by simpl]; cbn [ok_or].
  rewrite bind_exec, on_error_exec, acquire_exec. cbn [w_tick advance with_db].
  destruct (t_fault (e_tick n (S (S (w_tick w))))) eqn:F3; [simpl; by eauto|].
  rewrite bind_exec, on_error_exec, lift_exec.
  destruct (insert_query s e room h opened_at) as [q|] eqn:Eq; [|by simpl].
  rewrite bind_exec, attempt_exec, run_exec. cbn [w_tick advance with_db].
  destruct (t_fault (e_tick n (S (S (S (w_tick w)))))) as [er|] eqn:F4.
  - simpl. destruct er; try done. exfalso. by eapply Hf.
  - match goal with |- context [EventDb.InsertQuery.execute q ?c ?db] =>
      destruct (insertion_cases s e room h opened_at q c db Eq)
        as [(row & ev & -> & Hv & Hrow)|(v & row & -> & Hv & Hk)] end; simpl in *.
    + split; [done|]. exists (entity_type s, sequence_id h), rr, room, opened_at. split_and!; [done..|]. right.
      pose proof (insert_query_fields _ _ _ _ _ _ Eq) as Hq. apply insert_query_data in Eq as [Hd _]. split_and_all.
      assert (records m room opened_at row) as Hr.
      { exists s, e, h. rewrite Hrow. unfold entity_key. simpl. split_and!; try done; try congruence.
        repeat match goal with E : EventDb.InsertQuery.iq_entity_type _ = _ |- _ => rewrite E; clear E
        | E : EventDb.InsertQuery.iq_entity_event_id _ = _ |- _ => rewrite E; clear E end. done. }
      split; [|eauto]. eapply not_recorded; [exact Hv|]. destruct Hr as (? & ? & ? & ? & ? & ? & Hr). split_and_all. congruence.
    + unfold settle. case_bool_decide as Ev; simpl; [|done]. split; [done|]. subst v.
      apply uniq_entity_violation in Hv as (k & Hk' & Hin).
      exists k, rr, room, opened_at. split_and!; try done; [congruence|by left].
Qed.

Lemma handle_message_grows (m : Message) (n : env) (w : world) :
  plain_faults n ->
  let '(r, w') := handle_message m n w in
  grows (w_db w) (w_db w') /\ w_trace w' = w_trace w /\
  match r with
  | Ok _ => exists k, message_entity m = Some k /\ entities (w_db w') = {[k]} ∪ entities (w_db w)
  | Err _ => w_db w' = w_db w
  end.
Proof.
  intros Hf. pose proof (handle_message_handled m n w Hf) as Hh.
  destruct (handle_message m n w) as [[u|[|msg]] w']; destruct Hh as [Ht Hh].
  - destruct Hh as (k & rr & room & opened_at & Hk & _ & _ & _ & [[Hin Hdb]|(Hn & row & Hr & Hdb)]); rewrite Hdb.
    + split_and!; [done|done|]. exists k. split; [done|].
      symmetry. by apply subseteq_union_1_L, singleton_subseteq_l.
    + assert (entity_key row = Some k) as Hkey.
      { destruct Hr as (s & e & h & Hs & _ & Hh & _ & _ & _ & _ & _ & _ & _ & _ & -> & _).
        unfold message_entity in Hk. by rewrite Hs, Hh in Hk. }
      split_and!; [by apply (grows_one _ _ k)|done|]. exists k. split; [done|].
      rewrite entities_app. simpl. rewrite Hkey. simpl. by rewrite (right_id_L ∅ (∪)), union_comm_L.
  - destruct Hh as [-> _]. done.
  - by rewrite Hh.
Qed.

Lemma handle_turn_recorder cfg s t n w :
  plain_faults n ->
  let '(_, log, w') := total (handle_turn cfg s t) n w in
  recorder (entities (w_db w)) log (entities (w_db w')) /\ grows (w_db w) (w_db w') /\ w_trace w' = w_trace w.
Proof.
  intros Hf. rewrite handle_turn_total. cbv zeta.
  set (sl := match suspend s with Some interval => [Sleep interval] | None => [] end).
  assert (forall S, recorder S sl S) as Hsl
    by (intros S; apply recorder_idle_log; unfold sl; destruct (suspend s); repeat constructor; done).
  destruct t as [m sent| | |]; try done; [|split_and!; [|done|done]].
  - pose proof (handle_message_grows m n w Hf) as Hm. destruct (handle_message m n w) as [r w'].
    destruct (handle_result cfg m sent (retry_count s) r) as [s' log] eqn:E. destruct Hm as (Hg & Ht & Hr).
    split_and!; [|done|done]. apply (recorder_app _ (entities (w_db w))); [apply Hsl|].
    unfold handle_result in E. destruct r as [u|[|msg]]; injection E as _ <-.
    + destruct Hr as (k & Hk & ->). econstructor; [by constructor|]. apply recorder_idle_log, published_quiet.
    + rewrite Hr. apply recorder_idle_log. repeat constructor; try done. apply published_quiet.
    + rewrite Hr. apply recorder_idle_log. repeat constructor; try done. apply published_quiet.
  - apply (recorder_app _ (entities (w_db w))); [apply Hsl|]. apply recorder_idle_log. by repeat constructor.
Qed.

Lemma handle_turns_recorder cfg turns s n w :
  plain_faults n ->
  let '(_, log, w') := total (handle_turns cfg turns s) n w in
  recorder (entities (w_db w)) log (entities (w_db w')) /\ grows (w_db w) (w_db w') /\ w_trace w' = w_trace w.
Proof.
  intros Hf. revert s w. induction turns as [|t turns IH]; intros s w; [split_and!; [constructor|done|done]|].
  rewrite handle_turns_cons. pose proof (handle_turn_recorder cfg s t n w Hf) as Ht.
  destruct (total (handle_turn cfg s t) n w) as [[[reason|s'] log] w1]; [done|]. destruct Ht as (Hr & Hg & Ht).
  specialize (IH s' w1). destruct (total (handle_turns cfg turns s') n w1) as [[reason log'] w2].
  destruct IH as (Hr' & Hg' & Ht'). split_and!; [by eapply recorder_app|by etrans|congruence].
Qed.
End Message.

Section Steps.
Context `{Externals, EventCodec, NatsCrates}.

Lemma handle_message_steps m : steps (handle_message m).
Proof.
  unfold handle_message, parsed, context, get_conn.
  do 8 (apply bind_respects; [by by_handler|intros ?]).
  apply (bind_respects_with _ (fun q =>
    EventDb.InsertQuery.iq_entity_type q = Some (EventDb.InsertQuery.iq_kind q))); [|by by_handler|].
  - destruct (insert_query _ _ _ _ _) as [q|] eqn:Eq; [|done]. apply insert_query_fields in Eq. split_and_all.
    simpl. congruence.
  - intros q Hq. assert (query_steps (EventDb.InsertQuery.execute q)) as Hs.
    { apply event_insert_steps. rewrite Hq. by apply bool_decide_eq_true. }
    unfold settle. by_handler; repeat case_match; by_handler.
Qed.

Lemma handle_turn_steps cfg s t : steps (handle_turn cfg s t).
Proof. pose proof handle_message_steps. unfold handle_turn. by_handler. Qed.

Lemma handle_turns_steps cfg turns s : steps (handle_turns cfg turns s).
Proof.
  revert s. induction turns as [|t turns IH]; intros s; simpl; [done|].
  apply bind_respects; [apply handle_turn_steps|]. intros [[reason|s'] log]; [done|].
  apply bind_respects; [apply IH|done].
Qed.
End Steps.

Section Intervals.
Context `{Externals, EventCodec, NatsCrates}.

(** Without a connection a readable message is returned to the stream. *)
Lemma handle_message_no_connection m sent n w :
  no_connection n -> readable (Next m sent) -> handle_message m n w = (Err NoConnection, advance w).
Proof.
  intros Hn [[s Hs] [e He]]. unfold handle_message, parsed, get_conn.
  rewrite bind_exec, lift_exec, Hs. cbn [ok_or]. rewrite bind_exec, lift_exec, He. cbn [ok_or].
  rewrite bind_exec, on_error_exec, acquire_exec. by destruct (Hn (w_tick w)) as [er ->].
Qed.

Lemma published_silent sent :
  omap slept (published sent) = [] /\ omap returned (published sent) = [] /\
  Forall (fun a => forall m b, a <> Ack m b /\ a <> Terminate m b) (published sent).
Proof. destruct sent; split; repeat constructor; done. Qed.

Lemma handle_turns_no_connection cfg turns k susp n w :
  no_connection n -> Forall readable turns -> 0 <= k -> k + Z.of_nat (length turns) < 2 ^ 32 ->
  let '(reason, log, w') := total (handle_turns cfg turns (MkStream k susp)) n w in
  reason = None /\ w_db w' = w_db w /\
  omap slept log = match turns with
                   | [] => []
                   | _ => option_list susp ++
                          ((fun i => next_suspend_interval i cfg) <$> seqZ (k + 1) (Z.of_nat (length turns) - 1))
                   end /\
  omap returned log = delivered turns /\
  Forall (fun a => forall m sent, a <> Ack m sent /\ a <> Terminate m sent) log.
Proof.
  intros Hn Hm. revert k susp w. induction Hm as [|t turns Ht Hm IH]; intros k susp w Hk Hlen; [by split_and!|].
  destruct t as [m sent| | |]; try done. rewrite handle_turns_cons, handle_turn_total. cbn [suspend retry_count].
  rewrite (handle_message_no_connection m sent n w Hn Ht). cbn [handle_result]. cbn [length] in *.
  assert (wrap_u32 (k + 1) = k + 1) as -> by (unfold wrap_u32; rewrite Z.mod_small; lia).
  specialize (IH (k + 1) (Some (next_suspend_interval (k + 1) cfg)) (advance w) ltac:(lia) ltac:(lia)).
  destruct (total (handle_turns cfg turns _) n (advance w)) as [[reason log] w'].
  destruct IH as (-> & Hdb & Hs & Hr & Hf). destruct (published_silent sent) as (Hp1 & Hp0 & Hp2). split_and!; [done|done|..].
  - rewrite !omap_app. cbn [omap list_omap]. rewrite Hp1, Hs. cbn [slept app].
    assert (omap slept match susp with Some interval => [Sleep interval] | None => [] end = option_list susp) as ->
      by (by destruct susp).
    rewrite app_nil_r. f_equal. destruct turns as [|t turns]; [done|]. cbn [length].
    rewrite (seqZ_cons (k + 1)) by lia. csimpl. do 3 f_equal; lia.
  - rewrite !omap_app. cbn [omap list_omap delivered]. rewrite Hp0, Hr. cbn [returned app]. by destruct susp.
  - repeat (apply Forall_app; split); try done; [destruct susp|]; repeat constructor; try done.
Qed.

Lemma wrap_pow z retry_count : 0 <= z -> 0 <= retry_count ->
  wrap_u64 (z * wrap_u64 (2 ^ retry_count)) = (z * 2 ^ retry_count) mod 2 ^ 64.
Proof. intros. unfold wrap_u64. by rewrite Z.mul_mod_idemp_r by done. Qed.

Lemma report_spec cfg rd last t :
  0 <= suspend_sentry_interval cfg -> last <= t -> t <= checked_at rd <= sent_at rd ->
  let '(last', log) := report cfg rd last in
  last' <= sent_at rd /\
  ((last' = last /\ omap notified log = []) \/
   (last' = sent_at rd /\ omap notified log = [checked_at rd] /\ last + suspend_sentry_interval cfg <= checked_at rd)).
Proof.
  intros Hi Hl Hc. unfold report. destruct (Z.leb_spec (suspend_sentry_interval cfg) (Z.max 0 (checked_at rd - last))).
  - split; [done|]. right. split_and!; [done|done|lia].
  - split; [lia|]. by left.
Qed.

Lemma notified_streamed (log : list action) : omap notified (Streamed <$> log) = [].
Proof. by induction log. Qed.

Lemma run_loop_throttled cfg rounds last t n w :
  0 <= suspend_sentry_interval cfg -> last <= t -> clock_runs t rounds ->
  let '(_, log, _) := total (run_loop cfg rounds last) n w in
  Forall (fun b => last + suspend_sentry_interval cfg <= b) (omap notified log) /\
  StronglySorted (fun a b => a + suspend_sentry_interval cfg <= b) (omap notified log).
Proof.
  intros Hi. revert last t w. induction rounds as [|rd rounds IH]; intros last t w Hl Hc;
    [split; constructor|]. destruct Hc as [Ht Hc]. rewrite run_loop_cons. cbv zeta.
  pose proof (report_spec cfg rd last t Hi Hl Ht) as Hr. destruct (report cfg rd last) as [last' reported].
  destruct Hr as [Hl' Hr].
  assert (forall (pre : list action) w, let '(_, log, _) :=
      (let '(completed, log', w') := total (run_loop cfg rounds last') n w in
       (completed, (Streamed <$> pre) ++ reported ++ Resubscribe (resubscribe_interval cfg) :: log', w')) in
      Forall (fun b => last + suspend_sentry_interval cfg <= b) (omap notified log) /\
      StronglySorted (fun a b => a + suspend_sentry_interval cfg <= b) (omap notified log)) as Hgo.
  { intros pre w'. specialize (IH last' (sent_at rd) w' Hl' Hc).
    destruct (total (run_loop cfg rounds last') n w') as [[completed log'] w'']. destruct IH as [Hf Hs].
    rewrite !omap_app, notified_streamed. simpl. destruct Hr as [[-> ->]|(-> & -> & Hge)]; simpl; [done|].
    split; [constructor; [done|]|constructor; [done|]]; (eapply Forall_impl; [exact Hf|]); simpl; intros; lia. }
  destruct (subscribed rd) as [messages|]; [|apply (Hgo [])].
  destruct (total (handle_stream cfg messages) n w) as [[reason log] w1]. destruct reason as [[|]|]; [|apply Hgo|];
    cbv iota; rewrite notified_streamed; split; constructor.
Qed.
End Intervals.

(** ** Properties *)

Section Properties.
Context `{Externals, EventCodec, NatsCrates}.

(** C20: what handling a message does.  It is acknowledged when its room is found
    and its entity recorded: by one new event with the entity's payload, placed on
    the timeline of the room and attributed to the sender, or by an event that was
    there before, in which case nothing changes.  A message that fails changes
    nothing, and is returned to the stream only when a connection was missing. *)
Theorem handle_message_correct `{!DrawRefused} (m : Message) (n : env) (w : world) :
  plain_faults n -> let '(r, w') := handle_message m n w in handled m n w r w'.
Proof. apply handle_message_handled. Qed.

(** C4: the consumer implements a recorder of entities: whatever the stream
    delivers and in whatever order, with repetitions and with failures of the
    database and of the stream, the log of its answers is a run of the recorder on
    the entities the database has events of: an entity is recorded when its message
    is acknowledged and not otherwise.  A message delivered again is acknowledged
    without a second event: every new event is of an entity that had none, and no
    two are of the same.  The integrity of the database is kept. *)
Theorem consumer_refines_recorder `{!DrawRefused} (cfg : Config) (messages : list turn) (n : env) (w : world) :
  plain_faults n ->
  let '(_, log, w') := total (handle_stream cfg messages) n w in
  recorder (entities (w_db w)) log (entities (w_db w')) /\ grows (w_db w) (w_db w') /\ w_trace w' = w_trace w /\
  (integrity (w_db w) -> integrity (w_db w')).
Proof.
  intros Hf. pose proof (handle_turns_recorder cfg messages stream_start n w Hf) as Hr.
  pose proof (steps_keep_integrity _ n w (steps_any _ (handle_turns_steps cfg messages stream_start))) as Hs.
  rewrite total_exec in Hs. unfold handle_stream.
  destruct (total (handle_turns cfg messages stream_start) n w) as [[reason log] w']. destruct Hr as (? & ? & ?).
  by split_and!.
Qed.

(** The loop over a stream ends at the first closing of the stream or
    shutdown it is offered, and at nothing else: no message, no error of the
    stream and no failure of the database stops it; until then each message is
    answered, once and in order. *)
Theorem handle_stream_ends (cfg : Config) (messages : list turn) (n : env) (w : world) :
  let '(reason, log, _) := total (handle_stream cfg messages) n w in
  reason = ending messages /\ omap answered log = delivered messages.
Proof. apply handle_turns_ending. Qed.

(** C17: the task completes exactly when a stream it is subscribed to is told of
    the shutdown, all rounds before having failed: an unavailable NATS, a closed
    stream, a message or a database never end it. *)
Theorem run_completes (cfg : Config) (rounds : list round) (started_at : Z) (n : env) (w : world) :
  (total (run cfg rounds started_at) n w).1.1 = true <->
  exists before rd after, rounds = before ++ rd :: after /\ Forall round_failed before /\ round_shutdown rd.
Proof.
  unfold run. generalize (started_at - suspend_sentry_interval cfg) as last. revert w.
  induction rounds as [|rd rounds IH]; intros w last.
  { split; [done|]. by intros ([|? ?] & ? & ? & ? & _). }
  assert (forall last w, round_failed rd -> (total (run_loop cfg rounds last) n w).1.1 = true <->
    exists before rd' after, rd :: rounds = before ++ rd' :: after /\ Forall round_failed before /\ round_shutdown rd')
    as Hgo.
  { intros last' w' Hrd. rewrite IH. split.
    - intros (before & rd' & after & -> & Hb & Hs). exists (rd :: before), rd', after. by repeat constructor.
    - intros ([|rd0 before] & rd' & after & [= <- ->] & Hb & Hs).
      + exfalso. unfold round_failed, round_shutdown in *. destruct Hs as (msgs & Hs & He). rewrite Hs in Hrd. congruence.
      + apply Forall_cons in Hb as [_ Hb]. eauto 10. }
  rewrite run_loop_cons. cbv zeta. destruct (subscribed rd) as [messages|] eqn:Esub.
  - pose proof (handle_turns_ending cfg messages stream_start n w) as He. unfold handle_stream.
    destruct (total (handle_turns cfg messages stream_start) n w) as [[reason log] w1]. destruct He as [-> _].
    destruct (ending messages) as [[|]|] eqn:Ee; simpl.
    + split; [|done]. intros _. exists [], rd, rounds. split_and!; [done|constructor|]. by exists messages.
    + destruct (report cfg rd last) as [last' reported]. rewrite <-(Hgo last' w1) by (unfold round_failed; by rewrite Esub).
      by destruct (total (run_loop cfg rounds last') n w1) as [[completed log'] w'].
    + split; [done|]. intros ([|rd0 before] & rd' & after & [= <- ->] & Hb & (msgs & Hs & He)); [congruence|].
      apply Forall_cons in Hb as [Hf _]. unfold round_failed in Hf. rewrite Esub in Hf. congruence.
  - destruct (report cfg rd last) as [last' reported]. rewrite <-(Hgo last' w) by (unfold round_failed; by rewrite Esub).
    by destruct (total (run_loop cfg rounds last') n w) as [[completed log'] w'].
Qed.

(** C29: the suspension after the [retry_count]th failure in a row is the
    configured interval, doubled each time, up to the configured maximum, as long
    as the product fits 64 bits; it never exceeds the maximum; and it wraps around:
    from the 64th failure on there is none. *)
Theorem suspend_interval_bounds (retry_count : Z) (cfg : Config) :
  0 <= retry_count -> 0 <= suspend_interval cfg -> 0 <= max_suspend_interval cfg ->
  let interval := next_suspend_interval retry_count cfg in
  0 <= interval <= max_suspend_interval cfg /\
  (as_secs (suspend_interval cfg) * 2 ^ retry_count < 2 ^ 64 ->
   interval = from_secs (Z.min (as_secs (suspend_interval cfg) * 2 ^ retry_count) (as_secs (max_suspend_interval cfg)))) /\
  (64 <= retry_count -> interval = 0).
Proof.
  intros Hr Hs Hm. unfold next_suspend_interval, from_secs.
  assert (0 <= as_secs (suspend_interval cfg)) as Hs' by (apply Z.div_pos; [done|reflexivity]).
  assert (0 <= as_secs (max_suspend_interval cfg)) as Hm' by (apply Z.div_pos; [done|reflexivity]).
  assert (as_secs (max_suspend_interval cfg) * nanos_per_sec <= max_suspend_interval cfg) as Hd.
  { unfold as_secs. rewrite Z.mul_comm. by apply Z.mul_div_le. }
  rewrite wrap_pow by done. pose proof (Z.mod_pos_bound (as_secs (suspend_interval cfg) * 2 ^ retry_count) (2 ^ 64) ltac:(lia)).
  assert (0 < nanos_per_sec) by reflexivity. split_and!; [nia|nia|..].
  - intros Hlt. rewrite Z.mod_small; [done|]. split; [|done]. apply Z.mul_nonneg_nonneg; [done|by apply Z.pow_nonneg].
  - intros H64. replace (2 ^ retry_count) with (2 ^ (retry_count - 64) * 2 ^ 64) by (rewrite <-Z.pow_add_r by lia; f_equal; lia).
    rewrite Z.mul_assoc, Z.mod_mul by lia. rewrite Z.min_l by done. done.
Qed.

(** C37: while no connection to the database can be had, nothing is lost: of fewer
    than 2^32 messages in a row whose subject and payload can be read, each is
    returned to the stream, in order, none is acknowledged or terminated, the
    database is left alone and the loop goes on; and it sleeps once less often than
    there are messages, the first time for the interval of one failure, then of
    two, and so on. *)
Theorem stream_backs_off (cfg : Config) (messages : list turn) (n : env) (w : world) :
  no_connection n -> Forall readable messages -> Z.of_nat (length messages) < 2 ^ 32 ->
  let '(reason, log, w') := total (handle_stream cfg messages) n w in
  reason = None /\ w_db w' = w_db w /\
  omap slept log = (fun i => next_suspend_interval i cfg) <$> seqZ 1 (Z.of_nat (length messages) - 1) /\
  omap returned log = delivered messages /\
  Forall (fun a => forall m sent, a <> Ack m sent /\ a <> Terminate m sent) log.
Proof.
  intros Hn Hm Hlen. unfold handle_stream, stream_start.
  pose proof (handle_turns_no_connection cfg messages 0 None n w Hn Hm ltac:(lia) ltac:(lia)) as Hb.
  destruct (total (handle_turns cfg messages (MkStream 0 None)) n w) as [[reason log] w'].
  destruct Hb as (-> & Hdb & -> & Hr & Hf). split_and!; [done|done| |done|done]. by destruct messages.
Qed.

(** C38: the failures of the subscription do not flood Sentry: however the rounds
    follow one another, on a monotone clock and with an interval that is not
    negative, two reports of the task are at least [suspend_sentry_interval] apart,
    and a task that cannot subscribe from the start reports it at once. *)
Theorem subscription_reports_throttled (cfg : Config) (rounds : list round) (started_at : Z) (n : env) (w : world) :
  0 <= suspend_sentry_interval cfg -> clock_runs started_at rounds ->
  let '(_, log, _) := total (run cfg rounds started_at) n w in
  StronglySorted (fun a b => a + suspend_sentry_interval cfg <= b) (omap notified log) /\
  match rounds with
  | rd :: _ => subscribed rd = None -> head (omap notified log) = Some (checked_at rd)
  | [] => True
  end.
Proof.
  intros Hi Hc. unfold run. set (last := started_at - suspend_sentry_interval cfg).
  pose proof (run_loop_throttled cfg rounds last started_at n w Hi ltac:(lia) Hc) as Hs.
  destruct (total (run_loop cfg rounds last) n w) as [[completed log] w'] eqn:E. destruct Hs as [_ Hs]. split; [done|].
  destruct rounds as [|rd rounds]; [done|]. intros Hsub. destruct Hc as [Ht Hc].
  rewrite run_loop_cons in E. rewrite Hsub in E. unfold report in E. rewrite (proj2 (Z.leb_le _ _)) in E by lia.
  destruct (total (run_loop cfg rounds (sent_at rd)) n w) as [[c l] w1]. by injection E as _ <- _.
Qed.
End Properties.

(** ** Samples and witnesses *)

(** The payload of the consumer is not a drawing of [schema.rs]. *)
#[export] Instance schema_draw_refused `{Externals, Schema.JsonParser, CompactEvent.Postcard CompactEvent.schema.CompactEvent} :
  DrawRefused (codec := CompactEvent.schema_codec).
Proof. intros label. reflexivity. Qed.

#[export] Instance sample_draw_refused : DrawRefused (codec := sample_codec).
Proof. done. Qed.

(** Headers are the sequence number of the entity. *)
#[export] Instance sample_nats : NatsCrates := {
  HeaderMap := Z;
  no_headers := 0;
  subject_from_str s := if bool_decide (s = EmptyString) then None else Some (MkSubject s 7%N);
  event_from_slice b := match b with [] => None | _ => Some (MkVideoGroupEvent "created" (3 * nanos_per_sec)) end;
  headers_try_from h := if h =? 0 then None else Some (MkHeaders sample_agent h)
}.

Definition sample_message (sequence_id : Z) : Message :=
  MkMessage "video_group"%string [Byte.x00] (Some sequence_id).

(** A message, the same again, another, one without headers, the shutdown. *)
Definition sample_stream : list turn :=
  [Next (sample_message 5) true; Next (sample_message 5) true; Next (sample_message 6) false;
   Next (MkMessage "video_group"%string [Byte.x00] None) true; ShutdownChanged].

Definition sample_config : Config :=
  MkConfig (5 * nanos_per_sec) (60 * nanos_per_sec) (3600 * nanos_per_sec) nanos_per_sec.

Lemma sample_plain_faults : plain_faults sample_env.
Proof. done. Qed.

Example sample_stream_log :
  let '(reason, log, w') := total (handle_stream sample_config sample_stream) sample_env sample_world in
  reason = Some Shutdown /\
  log = [Ack (sample_message 5) true; Ack (sample_message 5) true; Ack (sample_message 6) false;
         NotifySentry NatsPublishFailed; NotifySentry NatsMessageHandlingFailed;
         Terminate (MkMessage "video_group"%string [Byte.x00] None) true] /\
  length (db_events (w_db w')) = 2%nat.
Proof. vm_compute. done. Qed.

Lemma handle_message_correct_witness :
  is_ok (handle_message (sample_message 5) sample_env sample_world).1 = true /\
  let '(r, w') := handle_message (sample_message 5) sample_env sample_world in
  handled (sample_message 5) sample_env sample_world r w'.
Proof.
  split; [vm_compute; reflexivity|].
  exact (handle_message_correct (sample_message 5) sample_env sample_world sample_plain_faults).
Defined.

Lemma consumer_refines_recorder_witness :
  let '(_, log, w') := total (handle_stream sample_config sample_stream) sample_env sample_world in
  recorder (entities sample_db) log (entities (w_db w')) /\ integrity (w_db w').
Proof.
  pose proof (consumer_refines_recorder sample_config sample_stream sample_env sample_world sample_plain_faults) as Hr.
  destruct (total (handle_stream sample_config sample_stream) sample_env sample_world) as [[reason log] w'].
  destruct Hr as (Hr & _ & _ & Hi). split; [exact Hr|]. apply Hi, sample_db_integrity.
Defined.

Lemma suspend_interval_bounds_witness :
  next_suspend_interval 2 sample_config = 20 * nanos_per_sec /\ next_suspend_interval 10 sample_config = 60 * nanos_per_sec /\
  next_suspend_interval 64 sample_config = 0.
Proof.
  split; [reflexivity|]. split; [reflexivity|].
  apply (suspend_interval_bounds 64 sample_config); vm_compute; done.
Defined.

(** The same environment without a database. *)
Definition sample_outage : env :=
  Env (fun k => Tick (t_now (e_tick sample_env k)) (t_ctx (e_tick sample_env k)) (Some ConnectionError))
    (e_authorize sample_env) None (e_broker sample_env) (e_storage sample_env).

Lemma stream_backs_off_witness :
  let '(_, log, _) :=
    total (handle_stream sample_config (replicate 6 (Next (sample_message 5) true))) sample_outage sample_world in
  omap slept log = [10 * nanos_per_sec; 20 * nanos_per_sec; 40 * nanos_per_sec; 60 * nanos_per_sec; 60 * nanos_per_sec] /\
  omap returned log = replicate 6 (sample_message 5).
Proof.
  pose proof (stream_backs_off sample_config (replicate 6 (Next (sample_message 5) true)) sample_outage sample_world) as Hb.
  destruct (total (handle_stream sample_config _) sample_outage sample_world) as [[reason log] w'].
  destruct Hb as (_ & _ & -> & -> & _); [by intros k; eexists| |done|split; reflexivity].
  simpl. repeat constructor; by eexists.
Defined.

(** Three failures: the second comes too soon to be reported. *)
Definition sample_rounds : list round :=
  [Round None 10 10; Round (Some [Closed]) (1800 * nanos_per_sec) (1800 * nanos_per_sec);
   Round None (3700 * nanos_per_sec) (3700 * nanos_per_sec)].

Lemma subscription_reports_throttled_witness :
  let '(_, log, _) := total (run sample_config sample_rounds 0) sample_env sample_world in
  omap notified log = [10; 3700 * nanos_per_sec] /\ head (omap notified log) = Some 10.
Proof.
  pose proof (subscription_reports_throttled sample_config sample_rounds 0 sample_env sample_world) as Hr.
  assert (omap notified (total (run sample_config sample_rounds 0) sample_env sample_world).1.2 = [10; 3700 * nanos_per_sec]) as Hl
    by (vm_compute; reflexivity).
  destruct (total (run sample_config sample_rounds 0) sample_env sample_world) as [[completed log] w'].
  split; [exact Hl|]. apply Hr; [vm_compute; done| |reflexivity]. vm_compute. split_and!; done.
Defined.

(** A NATS that stays unavailable is never asked about the shutdown. *)
Example shutdown_unnoticed n w k :
  (total (run sample_config (replicate k (Round None 0 0)) 0) n w).1.1 = false.
Proof.
  unfold run. generalize (0 - suspend_sentry_interval sample_config). revert w.
  induction k as [|k IH]; intros w last; [done|]. cbn [replicate]. rewrite run_loop_cons. cbv zeta. cbn [subscribed].
  destruct (report _ _ _) as [last' r].
  specialize (IH w last'). by destruct (total (run_loop _ _ _) _ _) as [[c l] w'].
Qed.
