(* ===== verification/EventEndpoint.v ===== *)
(** * Events and states

    [src/src/app/endpoint/event.rs] and [src/src/app/endpoint/state.rs]: the
    handlers of [event.create], [event.list] and [state.read]. *)

From S2P Require Import Prelude Times Types Db Sample EventDb SetState RoomDb Integrity Effects Errors Service.

(** ** [event.create] *)

Record CreatePayload : Type := MkCreatePayload {
  cp_kind : string;
  cp_set : option string;
  cp_label : option string;
  cp_attribute : option string;
  cp_data : json;
  cp_is_claim : bool;
  cp_is_persistent : bool;
  cp_removed : bool
}.

Record CreateRequest : Type := MkCreateRequest { cr_room_id : uuid; cr_payload : CreatePayload }.

(** [if let Some(v) = v { query = query.f(v) }]. *)
Definition if_some {A Q} (f : A -> Q -> Q) (v : option A) (q : Q) : Q :=
  match v with Some v => f v q | None => q end.

Module CreateHandler.
Section Handler.
Context `{Externals, EventCodec}.

Definition author_of (event : Event) : string := account_to_string (agent_account (event_created_by event)).

(** The author of the original event of the label, or the caller. *)
Definition find_author (room : Room) (payload : CreatePayload) (reqp : RequestParams) : M ErrorKind string :=
  author <~ match cp_set payload, cp_label payload with
            | Some set, Some label =>
              get_ro_conn;;
              original <~ query_ro (OriginalEventQuery.execute (room_id room) set label);
              ret (author_of <$> original)
            | _, _ => ret None
            end;
  ret (default (account_to_string (as_account_id reqp)) author).

Definition authz_key (payload : CreatePayload) : string :=
  match cp_attribute payload with
  | Some attribute => attribute
  | None => if cp_is_claim payload then "claims" else "events"
  end.

(** The object and the action to authorize: the update of the room for a locked
    type or a whiteboard the caller has no access to. *)
Definition create_intent (room : Room) (payload : CreatePayload) (author : string) (reqp : RequestParams)
    : list string * string :=
  if event_should_authz_room_update room (cp_kind payload) (as_account_id reqp)
  then (authz_object room, "update"%string)
  else (authz_object room ++ [authz_key payload; cp_kind payload; "authors"%string; author], "create"%string).

(** [db::event::InsertQuery::new(..).error(InvalidEvent)?] and its options. *)
Definition insert_query (room : Room) (payload : CreatePayload) (occurred_at : Z) (reqp : RequestParams)
    : M ErrorKind EventDb.InsertQuery.t :=
  query <~ error InvalidEvent (lift (EventDb.InsertQuery.new (room_id room) (cp_kind payload) (cp_data payload)
                                       occurred_at (as_agent_id reqp)));
  let query := if_some EventDb.InsertQuery.set (cp_set payload) query in
  let query := if_some EventDb.InsertQuery.label (cp_label payload) query in
  let query := if_some EventDb.InsertQuery.attribute (cp_attribute payload) query in
  ret (if cp_removed payload then EventDb.InsertQuery.removed true query else query).

Definition transient_builder (room_id : uuid) (payload : CreatePayload) (occurred_at : Z) (reqp : RequestParams)
    : EventDb.Builder.t :=
  let builder := EventDb.Builder.created_by (as_agent_id reqp) (EventDb.Builder.occurred_at occurred_at
                   (EventDb.Builder.data (cp_data payload) (EventDb.Builder.kind (cp_kind payload)
                     (EventDb.Builder.room_id room_id EventDb.Builder.new)))) in
  let builder := if_some EventDb.Builder.set (cp_set payload) builder in
  let builder := if_some EventDb.Builder.label (cp_label payload) builder in
  if_some EventDb.Builder.attribute (cp_attribute payload) builder.

(** The event, inserted or built. *)
Definition create_event (room : Room) (req_room_id : uuid) (payload : CreatePayload) (occurred_at : Z)
    (reqp : RequestParams) : M ErrorKind Event :=
  if cp_is_persistent payload then
    query <~ insert_query room payload occurred_at reqp;
    get_conn;;
    query_app (EventDb.InsertQuery.execute query)
  else
    id <~ new_v4;
    now <~ now;
    error TransientEventCreationFailed
      (lift (EventDb.Builder.build id now (transient_builder req_room_id payload occurred_at reqp))).

(** The response, with the notification of the tenant of a claim. *)
Definition create_response (room : Room) (is_claim : bool) (event : Event) (authz_time : Z) : Response :=
  let response := Response.new CREATED (PEvent event) (Some authz_time) in
  let response := if is_claim
                  then Response.add_notification "event.create" (audience_topic (room_audience room))
                         (PClaim event (room_classroom_id room)) response
                  else response in
  Response.add_notification "event.create" (room_topic (room_id room)) (PEvent event) response.

Definition handle (context : Context) (req : CreateRequest) (reqp : RequestParams) : M ErrorKind Response :=
  let payload := cr_payload req in
  room <~ find_room (cr_room_id req) Open;
  author <~ find_author room payload reqp;
  let '(object, action) := create_intent room payload author reqp in
  authz_time <~ authorize (room_audience room) (as_account_id reqp) (authz_object_new object) action;
  match room_opening room with
  | None => fail InvalidRoomTime
  | Some opened_at =>
    now <~ now;
    let occurred_at := since_opening now opened_at in
    if payload_size (config context) <=? Z.of_nat (String.length (json_to_string (cp_data payload)))
    then fail PayloadSizeExceeded
    else
      event <~ create_event room (cr_room_id req) payload occurred_at reqp;
      ret (create_response room (cp_is_claim payload) event authz_time)
  end.

End Handler.
End CreateHandler.

(** ** [event.list] *)

Definition MAX_LIMIT : Z := 100.

Record ListRequest : Type := MkListRequest {
  lr_room_id : uuid;
  lr_kind : option KindFilter;
  lr_set : option string;
  lr_label : option string;
  lr_attribute : option string;
  lr_last_occurred_at : option Z;
  lr_direction : Direction;
  lr_limit : option Z
}.

(** Reading of the events of a classroom. *)
Definition authorize_read `{Externals} (room : Room) (reqp : RequestParams) : M ErrorKind Z :=
  authorize (room_audience room) (as_account_id reqp)
    (authz_object_new ["classrooms"%string; uuid_to_string (room_classroom_id room)]) "read".

Module ListHandler.

Definition list_query (room_id : uuid) (req : ListRequest) : ListQuery.t :=
  let query := ListQuery.room_id room_id ListQuery.new in
  let query := match lr_kind req with
               | Some (Single kind) => ListQuery.kind kind query
               | Some (Multiple kinds) => ListQuery.kinds kinds query
               | None => query
               end in
  let query := if_some ListQuery.set (lr_set req) query in
  let query := if_some ListQuery.label (lr_label req) query in
  let query := if_some ListQuery.attribute (lr_attribute req) query in
  let query := if_some ListQuery.last_occurred_at (lr_last_occurred_at req) query in
  ListQuery.limit (Z.min (default MAX_LIMIT (lr_limit req)) MAX_LIMIT)
    (ListQuery.direction (lr_direction req) query).

Definition handle `{Externals, EventCodec} (context : Context) (req : ListRequest) (reqp : RequestParams) : M ErrorKind Response :=
  room <~ find_room (lr_room_id req) Any;
  authz_time <~ authorize_read room reqp;
  get_ro_conn;;
  events <~ query_ro (ListQuery.execute (list_query (room_id room) req));
  ret (Response.new OK (PEvents events) (Some authz_time)).

End ListHandler.

(** ** [state.read] *)

Definition MAX_SETS : Z := 10.
Definition MAX_LIMIT_PER_SET : Z := 100.

Record ReadRequest : Type := MkReadRequest {
  rq_room_id : uuid;
  rq_sets : list string;
  rq_attribute : option string;
  rq_occurred_at : option Z;
  rq_original_occurred_at : option Z;
  rq_limit : option Z
}.

Module ReadHandler.
Section Handler.
Context `{Externals, EventCodec}.

Definition read_limit (req : ReadRequest) : Z := Z.min (default MAX_LIMIT_PER_SET (rq_limit req)) MAX_LIMIT_PER_SET.

(** The default moment: right after the closing of the room. *)
Definition read_moment (room : Room) (req : ReadRequest) : result ErrorKind Z :=
  match rq_original_occurred_at req with
  | Some t => Ok t
  | None =>
    match RoomTimeImpl.into_tuple <$> RoomTimeImpl.new (room_time room) with
    | Some (_, Unbounded) => Ok i64_max
    | Some (Included open, Excluded close) =>
      Ok match bigint (close - open) with
         | Some n => (n + 1)%i64
         | None => i64_max
         end
    | _ => Err InvalidRoomTime
    end
  end.

Definition state_query (room : Room) (req : ReadRequest) (moment : Z) (set : string) : SetStateQuery.t :=
  let query := SetStateQuery.new (room_id room) set moment (read_limit req) in
  let query := if_some SetStateQuery.attribute (rq_attribute req) query in
  if_some SetStateQuery.occurred_at (rq_occurred_at req) query.

(** A set whose first event has no label is the event, another a collection. *)
Definition state_value (events : list Event) : StateValue :=
  match events with
  | event :: _ => if is_none (event_label event) then SingleEvent event else Collection events
  | [] => Collection []
  end.

(** The loop over the sets. *)
Fixpoint read_sets (room : Room) (req : ReadRequest) (moment : Z) (sets : list string)
    (state : gmap string StateValue) : M ErrorKind (gmap string StateValue) :=
  match sets with
  | [] => ret state
  | set :: sets =>
    let query := state_query room req moment set in
    state <~ (if bool_decide (length (rq_sets req) = 1%nat) then
                total_count <~ query_ro (SetStateQuery.total_count query);
                ret (<["has_next"%string := HasNext (read_limit req <? total_count)]> state)
              else ret state);
    events <~ query_ro (SetStateQuery.execute query);
    read_sets room req moment sets (<[set := state_value events]> state)
  end.

Definition handle (context : Context) (req : ReadRequest) (reqp : RequestParams) : M ErrorKind Response :=
  let len := Z.of_nat (length (rq_sets req)) in
  if (len =? 0) || (MAX_SETS <? len) then fail InvalidStateSets
  else
    room <~ find_room (rq_room_id req) Any;
    authz_time <~ authorize_read room reqp;
    moment <~ lift (read_moment room req);
    get_ro_conn;;
    state <~ read_sets room req moment (rq_sets req) ∅;
    ret (Response.new OK (PState state) (Some authz_time)).

End Handler.
End ReadHandler.

(** ** Lemmas *)

Lemma quiet_find_author `{Externals, EventCodec} room payload reqp :
  quiet (CreateHandler.find_author room payload reqp).
Proof.
  unfold CreateHandler.find_author. apply uses_bind; [|eauto with effects].
  repeat case_match; eauto with effects. apply uses_bind; [eauto with effects|]. intros _.
  apply uses_bind; eauto with effects.
Qed.

#[export] Hint Resolve quiet_find_author : effects.

(** ** [event.create]: specification *)

(** The author an event's creation is authorized for. *)
Definition author_read `{Externals, EventCodec} (n : env) (db : database) (room : Room) (payload : CreatePayload)
    (reqp : RequestParams) (author : string) : Prop :=
  match cp_set payload, cp_label payload with
  | Some set, Some label => exists k original,
      (OriginalEventQuery.execute (room_id room) set label (t_ctx (e_tick n k)) (served n k db)).1 = Ok original /\
      author = default (account_to_string (as_account_id reqp)) (CreateHandler.author_of <$> original)
  | _, _ => author = account_to_string (as_account_id reqp)
  end.

(** The content of the event: the one of the payload; a persistent drawing is read
    back from its compact form. *)
Definition data_of_request `{EventCodec} (payload : CreatePayload) (data : json) : Prop :=
  if cp_is_persistent payload && bool_decide (cp_kind payload = "draw"%string)
  then exists compact, from_json (cp_data payload) = Some compact /\ decode (encode compact) ≫= into_json = Some data
  else data = cp_data payload.

(** The event says what the request asked for. *)
Definition event_of_request `{EventCodec} (room : uuid) (payload : CreatePayload) (occurred_at : Z) (agent : agent_id)
    (e : Event) : Prop :=
  data_of_request payload (event_data e) /\ event_removed e = cp_is_persistent payload && cp_removed payload /\
  event_room_id e = room /\ event_kind e = cp_kind payload /\
  event_set e = default (cp_kind payload) (cp_set payload) /\ event_label e = cp_label payload /\
  event_attribute e = cp_attribute payload /\ event_occurred_at e = occurred_at /\ event_created_by e = agent.

Section CreateLemmas.
Context `{Externals, EventCodec}.

Lemma find_author_Ok room payload reqp n w author w' :
  CreateHandler.find_author room payload reqp n w = (Ok author, w') ->
  author_read n (w_db w) room payload reqp author /\ same_state w w'.
Proof.
  intros E. split; [|by apply (quiet_Ok _ _ _ _ _ E), quiet_find_author].
  unfold CreateHandler.find_author in E. apply bind_Ok in E as (a & w1 & Ha & [= <- _]). unfold author_read.
  destruct (cp_set payload) as [set|], (cp_label payload) as [label|]; try by injection Ha as <- _.
  apply bind_Ok in Ha as (u & w2 & [Hdb _]%conn_Ok & Ha).
  apply bind_Ok in Ha as (o & w3 & ([k Hq] & _)%query_ro_Ok & [= <- _]). rewrite Hdb in Hq. eauto.
Qed.

Lemma if_some_proj {A Q B} (f : A -> Q -> Q) (proj : Q -> B) (v : option A) q :
  (forall a q, proj (f a q) = proj q) -> proj (if_some f v q) = proj q.
Proof. intros Hf. destruct v; simpl; auto. Qed.

Lemma if_some_set {A Q B} (f : A -> Q -> Q) (proj : Q -> B) (g : A -> B) (v : option A) q :
  (forall a q, proj (f a q) = g a) -> proj (if_some f v q) = default (proj q) (g <$> v).
Proof. intros Hf. destruct v; simpl; auto. Qed.

(** The columns the query of the handler gives. *)
Lemma insert_query_Ok room payload t reqp n w q w' :
  CreateHandler.insert_query room payload t reqp n w = (Ok q, w') ->
  w' = w /\ EventDb.InsertQuery.iq_room_id q = room_id room /\ EventDb.InsertQuery.iq_kind q = cp_kind payload /\
  EventDb.InsertQuery.iq_set q = default (cp_kind payload) (cp_set payload) /\
  EventDb.InsertQuery.iq_label q = cp_label payload /\ EventDb.InsertQuery.iq_attribute q = cp_attribute payload /\
  EventDb.InsertQuery.iq_occurred_at q = t /\ EventDb.InsertQuery.iq_created_by q = as_agent_id reqp /\
  EventDb.InsertQuery.iq_removed q = cp_removed payload /\
  (if bool_decide (cp_kind payload = "draw"%string)
   then exists compact, from_json (cp_data payload) = Some compact /\ EventDb.InsertQuery.iq_binary_data q = Some compact
   else EventDb.InsertQuery.iq_binary_data q = None /\ EventDb.InsertQuery.iq_data q = Some (cp_data payload)).
Proof.
  unfold CreateHandler.insert_query. intros E. apply bind_Ok in E as (q0 & w1 & [Hnew ->]%error_Ok%lift_Ok & [= <- <-]).
  split; [done|]. unfold EventDb.InsertQuery.new in Hnew.
  apply result_bind_Ok in Hnew as ([data binary] & Hdb & [= <-]).
  case_bool_decide; [destruct (from_json (cp_data payload)) as [compact|]; [|done]|]; injection Hdb as <- <-;
    destruct (cp_set payload), (cp_label payload), (cp_attribute payload), (cp_removed payload); eauto 20.
Qed.

Lemma try_from_raw_data row e :
  try_from_raw row = Ok e ->
  match er_binary_data row with
  | Some binary => decode binary ≫= into_json = Some (event_data e)
  | None => er_data row = Some (event_data e)
  end.
Proof.
  unfold try_from_raw. intros (data & Hd & [= <-])%result_bind_Ok. simpl. destruct (er_binary_data row) as [binary|].
  - destruct (decode binary) as [compact|]; [|done]. simpl. by destruct (into_json compact); simplify_eq.
  - by destruct (er_data row); simplify_eq/=.
Qed.

Lemma build_Ok id now b e :
  EventDb.Builder.build id now b = Ok e ->
  EventDb.Builder.b_room_id b = Some (event_room_id e) /\ EventDb.Builder.b_kind b = Some (event_kind e) /\
  event_set e = default (event_kind e) (EventDb.Builder.b_set b) /\ event_label e = EventDb.Builder.b_label b /\
  event_attribute e = EventDb.Builder.b_attribute b /\
  EventDb.Builder.b_occurred_at b = Some (event_occurred_at e) /\
  EventDb.Builder.b_created_by b = Some (event_created_by e) /\
  EventDb.Builder.b_data b = Some (event_data e) /\ event_removed e = false.
Proof.
  unfold EventDb.Builder.build, ok_or. destruct b as [r k s l d o c a]; simpl.
  destruct r, k, d, o, c; simpl; try done. by intros [= <-].
Qed.

Lemma create_event_Ok room payload t reqp n w e w' :
  CreateHandler.create_event room (room_id room) payload t reqp n w = (Ok e, w') ->
  event_of_request (room_id room) payload t (as_agent_id reqp) e /\ w_trace w' = w_trace w /\
  if cp_is_persistent payload
  then exists row, w_db w' = with_events (fun l => l ++ [row]) (w_db w) /\ try_from_raw row = Ok e /\
         er_removed row = cp_removed payload /\ event_violation (w_db w) row = None
  else w_db w' = w_db w.
Proof.
  unfold CreateHandler.create_event. destruct (cp_is_persistent payload) eqn:Ep; intros E.
  - apply bind_Ok in E as (q & w1 & (-> & Hr & Hk & Hs & Hl & Ha & Ho & Hc & Hrm & Hd)%insert_query_Ok & E).
    apply bind_Ok in E as (u & w2 & [Hdb Ht]%conn_Ok & (k & Hq & Ht')%query_app_Ok).
    rewrite Hdb in Hq. apply insert_execute_Ok in Hq as (row & Hw & Hraw & Hrow & Hv).
    pose proof (try_from_raw_fields row e Hraw) as Hf. pose proof (try_from_raw_data row e Hraw) as Hdata.
    rewrite Hrow in Hf, Hdata. simpl in Hf, Hdata. split_and_all.
    unfold event_of_request, data_of_request. rewrite Ep. simpl. split_and!; try congruence.
    { case_bool_decide; [destruct Hd as (compact & Hc' & Hb)|destruct Hd as [Hb Hd]]; rewrite Hb in Hdata; simpl in Hdata;
        [eauto|congruence]. }
    exists row. split_and!; try done.
    rewrite Hrow. simpl. exact Hrm.
  - apply bind_Ok in E as (id & w1 & [= <- <-] & E). apply bind_Ok in E as (now & w2 & [= <- <-] & E).
    apply error_Ok, lift_Ok in E as [Hb ->]. apply build_Ok in Hb. split; [|done].
    unfold CreateHandler.transient_builder in Hb. unfold event_of_request, data_of_request. rewrite Ep. simpl.
    destruct (cp_set payload), (cp_label payload), (cp_attribute payload); simpl in Hb;
      split_and_all; split_and!; simpl in *; congruence.
Qed.
End CreateLemmas.

(** ** Properties *)

Section CreateCorrect.
Context `{Externals, EventCodec}.

End CreateCorrect.

Definition sample_create_request : CreateRequest :=
  MkCreateRequest 1%N (MkCreatePayload "message" (Some "messages"%string) (Some "m"%string) None (JString "hi") true true
                         false).

Abbreviation sample_create := (CreateHandler.handle sample_context sample_create_request (Http sample_agent)
                                 sample_env sample_world).

Lemma sample_create_run : exists r w', sample_create = (Ok r, w').
Proof.
  assert (Hok : is_ok sample_create.1 = true) by (vm_compute; reflexivity).
  destruct sample_create as [[r|e] w']; [by do 2 eexists|discriminate Hok].
Qed.


(** ** [state.read] *)

Section ReadCorrect.
Context `{Externals, EventCodec, !CollationLaws}.

Lemma state_query_eq room req moment set :
  ReadHandler.state_query room req moment set =
  SetStateQuery.Mk (room_id room) set (rq_attribute req) (rq_occurred_at req) moment
    (Z.min (default 100 (rq_limit req)) 100).
Proof. unfold ReadHandler.state_query. by destruct (rq_attribute req), (rq_occurred_at req). Qed.

Lemma read_moment_Ok room req moment :
  ReadHandler.read_moment room req = Ok moment ->
  match rq_original_occurred_at req with
  | Some t => moment = t
  | None =>
    match room_time room with
    | (Included open, Excluded close) => close - open < i64_max -> moment = close - open + 1
    | (Included _, Unbounded) => moment = i64_max
    | _ => False
    end
  end.
Proof.
  unfold ReadHandler.read_moment. destruct (rq_original_occurred_at req) as [t|]; [by intros [= <-]|].
  destruct (room_time room) as [lo hi]. unfold RoomTimeImpl.new. destruct lo as [open| |], hi as [| |]; try done.
  - destruct (Z.ltb_spec open a); [|done]. simpl. intros [= <-] Hd.
    rewrite bigint_Some by (unfold in_i64, i64_min; lia). apply wrap64_id. unfold in_i64, i64_min. lia.
  - by intros [= <-].
Qed.

(** The query returns the first rows of the selection, within the limit. *)
Lemma state_execute_Ok q c db events :
  (SetStateQuery.execute q c db).1 = Ok events ->
  0 <= SetStateQuery.sq_limit q /\
  map_rows try_from_raw (take (Z.to_nat (SetStateQuery.sq_limit q)) (SetStateQuery.selection q (db_events db)))
  = Ok events.
Proof.
  unfold SetStateQuery.execute, SetStateQuery.rows, limit_rows, select. simpl.
  destruct (Z.ltb_spec (SetStateQuery.sq_limit q) 0); simpl; [done|]. done.
Qed.

(** C16: what [state.read] answers for one set.  Its query asks for the state of
    the set at the moment given, by default right after the closing of the room and
    at no particular moment when the room has no end, with the attribute and the
    limit of the request, which is at most 100.  The answer is the part of the state
    that fits in the limit, as the primary or the replica has it when it is read:
    the first event alone when that has no label, otherwise all of them.  When every
    event of the set is labelled, the versions of a label are told apart by their
    time and the insertion trigger's invariant holds, [has_next] says exactly
    whether there is more.  Nothing is changed. *)
Theorem state_read_correct (context : Context) (req : ReadRequest) (reqp : RequestParams) (n : env) (w w' : world)
    (r : Response) (set : string) :
  rq_sets req = [set] -> ReadHandler.handle context req reqp n w = (Ok r, w') ->
  exists room moment k events k' total,
    let limit := Z.min (default 100 (rq_limit req)) 100 in
    let query := SetStateQuery.Mk (rq_room_id req) set (rq_attribute req) (rq_occurred_at req) moment limit in
    let rows k := db_events (served n k (w_db w)) in
    found_room n (w_db w) (rq_room_id req) Any room /\
    match rq_original_occurred_at req with
    | Some t => moment = t
    | None =>
      match room_time room with
      | (Included open, Excluded close) => close - open < i64_max -> moment = close - open + 1
      | (Included _, Unbounded) => moment = i64_max
      | _ => False
      end
    end /\
    0 <= limit /\ map_rows try_from_raw (take (Z.to_nat limit) (SetStateQuery.selection query (rows k))) = Ok events /\
    (originals_coherent (rows k') -> (forall e, visible query (rows k') e -> er_label e <> None) ->
     versions_distinct (SetStateQuery.base query (rows k')) ->
     total = Z.of_nat (length (SetStateQuery.selection query (rows k')))) /\
    resp_payload r = PState (<[set := match events with
                                      | e :: _ => match event_label e with Some _ => Collection events | None => SingleEvent e end
                                      | [] => Collection []
                                      end]> {["has_next"%string := HasNext (limit <? total)]}) /\
    w_db w' = w_db w.
Proof.
  intros Hsets E. unfold ReadHandler.handle in E. rewrite Hsets in E. simpl in E.
  apply bind_Ok in E as (room & w1 & [Hroom [Hd1 _]]%find_room_Ok & E).
  apply bind_Ok in E as (d & w2 & [_ [Hd2 _]]%authorize_Ok & E).
  apply bind_Ok in E as (moment & w3 & [Hm ->]%lift_Ok & E).
  apply bind_Ok in E as (u & w4 & [Hd4 _]%conn_Ok & E).
  apply bind_Ok in E as (state & w5 & E & [= <- <-]). rewrite Hsets in E. simpl in E.
  rewrite (state_query_eq room req moment set), (found_room_id _ _ _ _ _ Hroom) in E.
  apply bind_Ok in E as (state1 & w6 & E1 & E). apply bind_Ok in E1 as (total & w7 & [[k1 Ht] [Hd7 _]]%query_ro_Ok & E1).
  injection E1 as <- <-.
  apply bind_Ok in E as (events & w8 & [[k2 [Hpos He]%state_execute_Ok] [Hd8 _]]%query_ro_Ok & [= <- <-]).
  rewrite Hd7, Hd4, Hd2, Hd1 in He. rewrite Hd4, Hd2, Hd1 in Ht.
  exists room, moment, k2, events, k1, total. cbv zeta. split; [done|]. split; [by apply read_moment_Ok|].
  split_and!; [done|done| | |congruence].
  - intros Hc Hl Hv. rewrite total_count_selection in Ht; [by injection Ht as <-|done| |done].
    intros e Hin. by apply Hl, visible_base.
  - by destruct events as [|e ?]; [|unfold ReadHandler.state_value; destruct (event_label e)].
Qed.
End ReadCorrect.

Definition sample_read_request : ReadRequest := MkReadRequest 1%N ["messages"%string] None None None None.
Definition sample_read_world : world := World (with_events (fun _ => sample_history) sample_db) 0 [] [].

Abbreviation sample_read := (ReadHandler.handle sample_context sample_read_request (Http sample_agent)
                               sample_env sample_read_world).

Lemma sample_read_run : exists r w', sample_read = (Ok r, w').
Proof.
  assert (Hok : is_ok sample_read.1 = true) by (vm_compute; reflexivity).
  destruct sample_read as [[r|e] w']; [by do 2 eexists|discriminate Hok].
Qed.

(** The messages of the sample history: one is left, and there are no more. *)
Lemma state_read_correct_witness :
  exists r w' moment total, sample_read = (Ok r, w') /\ w_db w' = w_db sample_read_world /\ moment = i64_max /\
    total = Z.of_nat (length (SetStateQuery.selection (SetStateQuery.new 1%N "messages" moment 100) sample_history)).
Proof.
  destruct sample_read_run as (r & w' & Hrun).
  destruct (state_read_correct sample_context sample_read_request (Http sample_agent) sample_env sample_read_world w' r
    "messages" eq_refl Hrun) as (room & moment & k & events & k' & total & Hroom & Hm & _ & _ & Ht & _ & Hdb).
  assert (Hopen : room_time room = (Included nanos_per_sec, Unbounded)).
  { destruct Hroom as [(j & row & Hin & _ & Hrow) _]. change (row ∈ [sample_room_row]) in Hin.
    apply list_elem_of_singleton in Hin as ->. vm_compute in Hrow. injection Hrow as <-. reflexivity. }
  simpl in Hm. rewrite Hopen in Hm. subst moment.
  exists r, w', i64_max, total. split; [exact Hrun|]. split; [exact Hdb|]. split; [reflexivity|].
  apply Ht; [exact sample_coherent| |].
  - intros e He. rewrite visible_base, list_elem_of_In in He. vm_compute in He. by repeat destruct He as [<-|He].
  - apply versions_distinct_pairs. repeat constructor; vm_compute; congruence.
Defined.
