(* ===== verification/AgentEndpoint.v ===== *)
(** * Agents, bans and subscriptions

    [src/src/app/endpoint/agent.rs], [src/src/app/endpoint/ban.rs] and
    [src/src/app/endpoint/subscription.rs]: the handlers of [agent.list],
    [agent.update], [ban.list], and of the events the broker sends when a
    subscription ends. *)

From S2P Require Import Prelude Times Types Db Sample EventDb RoomDb EditionDb AgentDb Integrity Effects Errors Service.

(** ** [agent.list] *)

Module AgentListHandler.

Definition MAX_LIMIT : Z := 25.

Record ListRequest : Type := MkListRequest { lr_room_id : uuid; lr_offset : option Z; lr_limit : option Z }.

Definition handle `{Externals, EventCodec} (context : Context) (req : ListRequest) (reqp : RequestParams)
    : M ErrorKind Response :=
  room <~ find_room (lr_room_id req) Open;
  authz_time <~ authorize (room_audience room) (as_account_id reqp) (authz_object_new (authz_object room)) "read";
  get_ro_conn;;
  agents <~ query_ro (AgentQueries.list_with_bans (lr_room_id req) Ready (default 0 (lr_offset req))
                        (Z.min (default MAX_LIMIT (lr_limit req)) MAX_LIMIT));
  ret (Response.new OK (PAgents agents) (Some authz_time)).

End AgentListHandler.

(** ** [agent.update] *)

Module AgentUpdateHandler.

Record UpdateRequest : Type := MkUpdateRequest {
  ur_room_id : uuid;
  ur_account_id : account_id;
  ur_value : bool;
  ur_reason : option string
}.

Section Handler.
Context `{Externals, EventCodec}.

(** The ban or its removal, and the event that records it, in one transaction. *)
Definition write_ban (room : Room) (req : UpdateRequest) (reqp : RequestParams) : M ErrorKind unit :=
  transaction_app
    ((if ur_value req
      then query_app (BanQueries.insert (ur_account_id req) (ur_room_id req) (ur_reason req));; ret tt
      else query_app (BanQueries.delete (ur_account_id req) (ur_room_id req));; ret tt);;
     now <~ now;
     error DbQueryFailed (run_op (insert_account_ban_event now room (ur_account_id req) (ur_value req)
                                    (ur_reason req) (as_agent_id reqp)))).

Definition ban_response (room : Room) (req : UpdateRequest) (reqp : RequestParams) (authz_time : Z) : Response :=
  let response := Response.new OK PEmpty (Some authz_time) in
  let response := Response.add_notification "agent.ban" (audience_topic (room_audience room))
                    (PTenantBan (room_id room) (ur_account_id req) (as_account_id reqp) (ur_value req)
                       (ur_reason req) (room_classroom_id room)) response in
  Response.add_notification "agent.update" (room_topic (room_id room))
    (PBan (ur_account_id req) (ur_value req) (ur_reason req)) response.

Definition handle (context : Context) (req : UpdateRequest) (reqp : RequestParams) : M ErrorKind Response :=
  room <~ find_room (ur_room_id req) Open;
  let author := account_to_string (as_account_id reqp) in
  let object := authz_object_new (authz_object room ++ ["claims"; "role"; "authors"; author]%string) in
  authz_time <~ authorize (room_audience room) (as_account_id reqp) object "create";
  let object := authz_object_new (authz_object room ++ ["events"%string]) in
  get_conn;;
  write_ban room req reqp;;
  authz_ban (room_audience room) (ur_account_id req) object (ur_value req) (ban_duration (config context));;
  ret (ban_response room req reqp authz_time).

End Handler.
End AgentUpdateHandler.

(** ** [ban.list] *)

Module BanListHandler.

Definition handle `{Externals, EventCodec} (context : Context) (room_id : uuid) (reqp : RequestParams)
    : M ErrorKind Response :=
  room <~ find_room room_id Open;
  authz_time <~ authorize (room_audience room) (as_account_id reqp) (authz_object_new (authz_object room)) "update";
  get_ro_conn;;
  agents <~ query_ro (BanQueries.list room_id);
  ret (Response.new OK (PBans agents) (Some authz_time)).

End BanListHandler.

(** ** The end of a subscription *)

Record DeleteEventPayload : Type := MkDeleteEventPayload { dp_subject : agent_id; dp_object : list string }.

Section Subscriptions.
Context `{Externals, EventCodec}.

Definition try_room_id (object : list string) : result ErrorKind uuid :=
  match object with
  | [rooms; room_id; events] =>
    if bool_decide (rooms = "rooms"%string) && bool_decide (events = "events"%string)
    then ok_or (uuid_parse room_id) InvalidSubscriptionObject
    else Err InvalidSubscriptionObject
  | _ => Err InvalidSubscriptionObject
  end.

(** [DeleteEventHandler]: [evp] is the account that sent the event. *)
Definition subscription_delete (context : Context) (payload : DeleteEventPayload) (evp : account_id)
    : M ErrorKind (list Notification) :=
  if bool_decide (evp = broker_id (config context)) then
    room_id <~ lift (try_room_id (dp_object payload));
    get_conn;;
    row_count <~ query_app (AgentQueries.delete (dp_subject payload) room_id);
    if row_count =? 1 then
      get_conn;;
      room <~ query_app (FindQuery.execute (FindQuery.by_id room_id));
      match room with
      | Some room =>
        now <~ now;
        error DbQueryFailed (run_op (insert_agent_action now room Left (dp_subject payload)))
      | None => ret tt
      end;;
      ret [MkNotification "room.leave" (room_topic room_id) (PRoomLeave room_id (dp_subject payload))]
    else ret []
  else fail AccessDenied.

(** [BroadcastDeleteEventHandler]. *)
Definition broadcast_subscription_delete (context : Context) (payload : DeleteEventPayload) (evp : account_id)
    : M ErrorKind (list Notification) :=
  if bool_decide (evp = broker_id (config context)) then
    room_id <~ lift (try_room_id (dp_object payload));
    ret []
  else fail AccessDenied.

End Subscriptions.

(** ** Properties *)

Section SubscriptionCorrect.
Context `{Externals, EventCodec}.

Lemma agents_of db a agent room :
  integrity db -> a ∈ db_agents db -> AgentQueries.is_agent agent room a = true ->
  List.filter (AgentQueries.is_agent agent room) (db_agents db) = [a].
Proof.
  intros Hi Ha Hp. apply (lfilter_key agent_key); [apply (key_agent_room _ Hi)| |done|done].
  unfold AgentQueries.is_agent, agent_key. intros y z Hy Hz. bool_prop. congruence.
Qed.

(** The query finds the room of the integrity's reference. *)
Lemma find_by_id_Some c id db r row :
  row ∈ db_rooms db -> rr_id row = id -> (FindQuery.execute (FindQuery.by_id id) c db).1 = Ok r -> exists room, r = Some room /\ room_id room = id.
Proof.
  intros Hrow Hid. unfold FindQuery.execute, select. simpl.
  destruct (list_first _ _) as [row'|] eqn:E.
  - apply list_first_Some in E as [_ Hm]. unfold FindQuery.matches in Hm. simpl in Hm. bool_prop.
    intros (room & Hroom & [= <-])%result_bind_Ok. exists room. split; [done|].
    rewrite (try_from_db_object_id _ _ Hroom). done.
  - apply list_first_None in E. rewrite Forall_forall in E. specialize (E row Hrow).
    unfold FindQuery.matches in E. simpl in E. by rewrite bool_decide_eq_true_2 in E.
Qed.

(** C22: what the handling of the end of a subscription does when it succeeds, on a
    database that keeps the constraints of its schema.  Only the broker may announce
    it, for the events of a room; afterwards the agent is not in the room and the other
    agents are untouched.  An agent that was in the room is recorded to have left,
    by one event appended, and the room is notified; for another one nothing else
    happens. *)
Theorem subscription_delete_correct (context : Context) (payload : DeleteEventPayload) (evp : account_id)
    (n : env) (w w' : world) (messages : list Notification) :
  integrity (w_db w) -> subscription_delete context payload evp n w = (Ok messages, w') ->
  evp = broker_id (config context) /\
  exists id, try_room_id (dp_object payload) = Ok id /\
    (forall a, a ∈ db_agents (w_db w') <->
       a ∈ db_agents (w_db w) /\ AgentQueries.is_agent (dp_subject payload) id a = false) /\
    ((exists a, a ∈ db_agents (w_db w) /\ AgentQueries.is_agent (dp_subject payload) id a = true) ->
       messages = [MkNotification "room.leave" (room_topic id) (PRoomLeave id (dp_subject payload))] /\
       exists row, db_events (w_db w') = db_events (w_db w) ++ [row] /\ er_kind row = "agent_left"%string /\
         er_room_id row = id /\ er_created_by row = dp_subject payload) /\
    ((forall a, a ∈ db_agents (w_db w) -> AgentQueries.is_agent (dp_subject payload) id a = false) ->
       messages = [] /\ w_db w' = w_db w).
Proof.
  intros Hi E. unfold subscription_delete in E. case_bool_decide as Hevp; [|done]. split; [done|].
  apply bind_Ok in E as (id & w1 & [Hid ->]%lift_Ok & E). exists id. split; [done|].
  apply bind_Ok in E as (u1 & w2 & [Hd2 _]%conn_Ok & E).
  apply bind_Ok in E as (count & w3 & (k & Hq & _)%query_app_Ok & E). rewrite Hd2 in Hq.
  unfold AgentQueries.delete in Hq. injection Hq as Hcount Hdb3. subst count.
  assert (Hag : forall db, db_agents db = db_agents (w_db w3) -> forall a, a ∈ db_agents db <->
    a ∈ db_agents (w_db w) /\ AgentQueries.is_agent (dp_subject payload) id a = false).
  { intros db -> a. rewrite <-Hdb3. simpl. rewrite elem_of_lfilter, negb_true_iff. done. }
  destruct (decide (Exists (fun a => AgentQueries.is_agent (dp_subject payload) id a = true) (db_agents (w_db w))))
    as [(a & Ha & Hp)%Exists_exists|Hnone].
  - rewrite (agents_of _ a) in E by done. simpl in E.
    apply bind_Ok in E as (u2 & w4 & [Hd4 _]%conn_Ok & E).
    apply bind_Ok in E as (found & w5 & (k2 & Hq & _)%query_app_Ok & E). rewrite Hd4, <-Hdb3 in Hq.
    assert (id ∈ (rr_id <$> db_rooms (w_db w))) as (row & Hrow & Hin)%list_elem_of_fmap.
    { apply (ref_agent_room _ Hi a id Ha). unfold AgentQueries.is_agent in Hp. bool_prop. simpl. congruence. }
    destruct (find_by_id_Some (t_ctx (e_tick n k2)) id (w_db w3) found row) as (room & -> & Hroom);
      [by rewrite <-Hdb3|done|by rewrite <-Hdb3, Hq|].
    apply bind_Ok in E as (u3 & w6 & E1 & [= <- <-]). apply bind_Ok in E1 as (t & w7 & [_ [Hd7 _]]%now_Ok & E1).
    apply error_Ok, run_op_Ok in E1 as (k3 & (opened_at & _ & new & Hdb & Hnr & Hnk & Hnc & _)%insert_agent_action_Ok & _).
    unfold FindQuery.execute, select in Hq. injection Hq as _ Hd5. rewrite Hd7, <-Hd5 in Hdb.
    split; [apply Hag; by rewrite Hdb, <-Hdb3|]. split; [|intros Hno; by rewrite (Hno a Ha) in Hp].
    intros _. split; [done|]. exists new. rewrite Hdb. simpl. rewrite Hroom in Hnr. done.
  - assert (Hno : forall a, a ∈ db_agents (w_db w) -> AgentQueries.is_agent (dp_subject payload) id a = false).
    { intros a Ha. apply not_true_iff_false. intros Hp. apply Hnone, Exists_exists. eauto. }
    rewrite lfilter_nil in E by done. injection E as <- <-. split; [by apply Hag|].
    split; [intros (a & Ha & Hp); by rewrite (Hno a Ha) in Hp|]. intros _. split; [done|].
    rewrite <-Hdb3. unfold with_agents. rewrite lfilter_all by (intros a Ha; by rewrite (Hno a Ha)).
    by destruct (w_db w).
Qed.
End SubscriptionCorrect.

(** The agent of the sample in room 1, and the room as the broker names it. *)
Definition sample_agent_world : world :=
  World (run_statement (InsertAgent sample_agent 1%N) sample_ctx sample_db) 0 [] [].
Definition sample_delete : DeleteEventPayload := MkDeleteEventPayload sample_agent ["rooms"; "1"; "events"]%string.

Abbreviation sample_subscription_delete :=
  (subscription_delete sample_context sample_delete (broker_id (config sample_context)) sample_env sample_agent_world).

Lemma sample_subscription_run : exists m w', sample_subscription_delete = (Ok m, w').
Proof.
  assert (Hok : is_ok sample_subscription_delete.1 = true) by (vm_compute; reflexivity).
  destruct sample_subscription_delete as [[m|e] w']; [by do 2 eexists|discriminate Hok].
Qed.

Lemma subscription_delete_correct_witness :
  exists m w' id, sample_subscription_delete = (Ok m, w') /\ try_room_id (dp_object sample_delete) = Ok id /\
    forall a, a ∈ db_agents (w_db w') <->
      a ∈ db_agents (w_db sample_agent_world) /\ AgentQueries.is_agent sample_agent id a = false.
Proof.
  destruct sample_subscription_run as (m & w' & Hrun).
  destruct (subscription_delete_correct sample_context sample_delete (broker_id (config sample_context)) sample_env
    sample_agent_world w' m) as (_ & id & Hid & Hag & _).
  - apply run_statement_integrity, sample_db_integrity.
  - exact Hrun.
  - exists m, w', id. split; [exact Hrun|]. split; [exact Hid|exact Hag].
Defined.
