(* ===== verification/EditionEndpoint.v ===== *)
(** * Editions and changes

    [src/src/app/endpoint/edition] and [src/src/app/endpoint/change]: the handlers
    of [edition.*] and [change.*]. *)

From S2P Require Import Prelude Times Types Db Sample EventDb RoomDb EditionDb AgentDb Integrity Effects AdjustRoom CommitEdition Errors Service.

(** The permission to update the room, which every handler asks for. *)
Definition authorize_update `{Externals} (room : Room) (reqp : RequestParams) : M ErrorKind Z :=
  authorize (room_audience room) (as_account_id reqp) (authz_object_room room) "update".

(** The edition and its source room. *)
Definition find_edition `{Externals} (id : uuid) : M ErrorKind (Edition * Room) :=
  get_ro_conn;;
  maybe_edition <~ query_ro (EditionQueries.find_with_room id);
  match maybe_edition with
  | Some edition_with_room => ret edition_with_room
  | None => fail EditionNotFound
  end.

(** ** [edition.create] *)

Module EditionCreateHandler.

Definition handle `{Externals, EventCodec} (context : Context) (req_room_id : uuid) (reqp : RequestParams)
    : M ErrorKind Response :=
  room <~ find_room req_room_id Any;
  authz_time <~ authorize (room_audience room) (as_account_id reqp) (authz_object_new (authz_object room)) "update";
  get_conn;;
  edition <~ query_app (EditionQueries.insert req_room_id (as_agent_id reqp));
  ret (Response.add_notification "edition.create" ("rooms/" ++ uuid_to_string req_room_id ++ "/editions")
         (PEdition edition) (Response.new CREATED (PEdition edition) (Some authz_time))).

End EditionCreateHandler.

(** ** [edition.list] *)

Module EditionListHandler.

Record ListRequest : Type := MkListRequest {
  lr_room_id : uuid;
  lr_last_created_at : option Z;
  lr_limit : option Z
}.

Definition list_query (room_id : uuid) (req : ListRequest) : EditionQueries.list_query :=
  let query := EditionQueries.list_new room_id in
  let query := match lr_last_created_at req with
               | Some t => EditionQueries.list_last_created_at t query
               | None => query
               end in
  match lr_limit req with
  | Some limit => EditionQueries.list_limit limit query
  | None => query
  end.

Definition handle `{Externals, EventCodec} (context : Context) (req : ListRequest) (reqp : RequestParams)
    : M ErrorKind Response :=
  room <~ find_room (lr_room_id req) Any;
  authz_time <~ authorize_update room reqp;
  get_ro_conn;;
  editions <~ query_ro (EditionQueries.list (list_query (room_id room) req));
  ret (Response.new OK (PEditions editions) (Some authz_time)).

End EditionListHandler.

(** ** [edition.delete] *)

Module EditionDeleteHandler.

Definition handle `{Externals, EventCodec} (context : Context) (id : uuid) (reqp : RequestParams)
    : M ErrorKind Response :=
  found <~ find_edition id;
  let '(edition, room) := found in
  authz_time <~ authorize_update room reqp;
  get_conn;;
  query_app (EditionQueries.delete (edition_id edition));;
  ret (Response.new OK (PEdition edition) (Some authz_time)).

End EditionDeleteHandler.

(** ** [edition.commit] *)

Module EditionCommitHandler.

Record CommitRequest : Type := MkCommitRequest { cr_id : uuid; cr_offset : Z }.

Section Handler.
Context `{Externals, EventCodec}.

Definition commit_result (edition : Edition) (r : result op_error (Room * Segments)) : EditionCommitResult :=
  match r with
  | Ok (destination, modified_segments) =>
    CommitSuccess (edition_source_room_id edition) (room_id destination) modified_segments
  | Err _ => CommitError EditionCommitTaskFailed
  end.

(** The task: a panic ends it without a message. *)
Definition task (context : Context) (edition : Edition) (room : Room) (offset : Z)
    : M ErrorKind (option Notification) :=
  r <~ attempt (CommitEdition.call edition room offset (min_segment_length (config context)));
  match r with
  | Err (OpPanic _) => ret None
  | _ =>
    notify_failure EditionCommitTaskFailed r;;
    let result := commit_result edition r in
    ret (Some (MkNotification "edition.commit" (audience_topic (room_audience room))
                 (PCommit (commit_status result) (room_tags room) result)))
  end.

Definition handle (context : Context) (req : CommitRequest) (reqp : RequestParams) : M ErrorKind Response :=
  found <~ find_edition (cr_id req);
  let '(edition, room) := found in
  authz_time <~ authorize_update room reqp;
  notification <~ task context edition room (cr_offset req);
  ret (Response.add_async_task notification (Response.new ACCEPTED PEmpty (Some authz_time))).

End Handler.
End EditionCommitHandler.

(** ** [change.create] *)

Record AdditionData : Type := MkAdditionData {
  ad_kind : string;
  ad_data : json;
  ad_set : option string;
  ad_label : option string;
  ad_occurred_at : Z;
  ad_created_by : agent_id
}.

Record ModificationData : Type := MkModificationData {
  md_event_id : uuid;
  md_kind : option string;
  md_data : option json;
  md_set : option string;
  md_label : option string;
  md_occurred_at : option Z;
  md_created_by : option agent_id
}.

Inductive Changeset : Type :=
  | AdditionSet (data : AdditionData)
  | ModificationSet (data : ModificationData)
  | RemovalSet (event_id : uuid)
  | BulkRemovalSet (set : string).

Definition as_changetype (c : Changeset) : ChangeType :=
  match c with
  | AdditionSet _ => Addition
  | ModificationSet _ => Modification
  | RemovalSet _ => Removal
  | BulkRemovalSet _ => BulkRemoval
  end.

Module ChangeCreateHandler.

Record CreateRequest : Type := MkCreateRequest { cr_edition_id : uuid; cr_changeset : Changeset }.

Definition insert_query (req : CreateRequest) : ChangeQueries.insert_query :=
  let query := ChangeQueries.insert_new (cr_edition_id req) (as_changetype (cr_changeset req)) in
  match cr_changeset req with
  | AdditionSet event =>
    let query := ChangeQueries.event_kind (ad_kind event) query in
    let query := ChangeQueries.event_set (ad_set event) query in
    let query := ChangeQueries.event_label (ad_label event) query in
    let query := ChangeQueries.event_data (ad_data event) query in
    let query := ChangeQueries.event_occurred_at (ad_occurred_at event) query in
    ChangeQueries.event_created_by (ad_created_by event) query
  | ModificationSet event =>
    let query := ChangeQueries.event_id (md_event_id event) query in
    let query := match md_kind event with Some kind => ChangeQueries.event_kind kind query | None => query end in
    let query := ChangeQueries.event_set (md_set event) query in
    let query := ChangeQueries.event_label (md_label event) query in
    let query := match md_data event with Some data => ChangeQueries.event_data data query | None => query end in
    let query := match md_occurred_at event with
                 | Some v => ChangeQueries.event_occurred_at v query
                 | None => query
                 end in
    match md_created_by event with
    | Some agent_id => ChangeQueries.event_created_by agent_id query
    | None => query
    end
  | RemovalSet event_id => ChangeQueries.event_id event_id query
  | BulkRemovalSet set => ChangeQueries.event_set (Some set) query
  end.

Definition handle `{Externals, EventCodec} (context : Context) (req : CreateRequest) (reqp : RequestParams)
    : M ErrorKind Response :=
  found <~ find_edition (cr_edition_id req);
  authz_time <~ authorize_update found.2 reqp;
  get_conn;;
  change <~ query_app (ChangeQueries.insert (insert_query req));
  ret (Response.new CREATED (PChange change) (Some authz_time)).

End ChangeCreateHandler.

(** ** [change.list] *)

Module ChangeListHandler.

Record ListRequest : Type := MkListRequest {
  lr_id : uuid;
  lr_last_created_at : option Z;
  lr_limit : option Z
}.

Definition list_query (edition_id : uuid) (req : ListRequest) : ChangeQueries.list_query :=
  let query := ChangeQueries.list_new edition_id in
  let query := match lr_last_created_at req with
               | Some t => ChangeQueries.list_last_created_at t query
               | None => query
               end in
  match lr_limit req with
  | Some limit => ChangeQueries.list_limit limit query
  | None => query
  end.

Definition handle `{Externals, EventCodec} (context : Context) (req : ListRequest) (reqp : RequestParams)
    : M ErrorKind Response :=
  found <~ find_edition (lr_id req);
  let '(edition, room) := found in
  authz_time <~ authorize_update room reqp;
  get_ro_conn;;
  changes <~ query_ro (ChangeQueries.list (list_query (edition_id edition) req));
  ret (Response.new OK (PChanges changes) (Some authz_time)).

End ChangeListHandler.

(** ** [change.delete] *)

Module ChangeDeleteHandler.

Definition handle `{Externals, EventCodec} (context : Context) (id : uuid) (reqp : RequestParams)
    : M ErrorKind Response :=
  get_ro_conn;;
  maybe_change <~ query_ro (ChangeQueries.find_with_room id);
  match maybe_change with
  | None => fail ChangeNotFound
  | Some (change, room) =>
    authz_time <~ authorize_update room reqp;
    get_conn;;
    query_app (ChangeQueries.delete (change_id change));;
    ret (Response.new OK (PChange change) (Some authz_time))
  end.

End ChangeDeleteHandler.

(** ** Lemmas *)

Lemma quiet_find_edition `{Externals} id : quiet (find_edition id).
Proof.
  unfold find_edition. apply uses_bind; [eauto with effects|]. intros _.
  apply uses_bind; [eauto with effects|]. intros [?|]; eauto with effects.
Qed.

#[export] Hint Resolve quiet_find_edition : effects.

(** ** Properties *)

(** The change a request describes. *)
Definition change_of (id : uuid) (now : Z) (req : ChangeCreateHandler.CreateRequest) : Change :=
  let edition := ChangeCreateHandler.cr_edition_id req in
  match ChangeCreateHandler.cr_changeset req with
  | AdditionSet d =>
    MkChange id edition Addition None (Some (ad_kind d)) (ad_set d) (ad_label d) (Some (ad_data d))
      (Some (ad_occurred_at d)) (Some (ad_created_by d)) now
  | ModificationSet d =>
    MkChange id edition Modification (Some (md_event_id d)) (md_kind d) (md_set d) (md_label d) (md_data d)
      (md_occurred_at d) (md_created_by d) now
  | RemovalSet event => MkChange id edition Removal (Some event) None None None None None None now
  | BulkRemovalSet set => MkChange id edition BulkRemoval None None (Some set) None None None None now
  end.

(** A modification that modifies nothing. *)
Definition empty_modification (c : Changeset) : Prop :=
  match c with
  | ModificationSet d => md_kind d = None /\ md_data d = None /\ md_set d = None /\ md_label d = None /\
                         md_occurred_at d = None /\ md_created_by d = None
  | _ => False
  end.

Section ChangeCorrect.
Context `{Externals, EventCodec}.

Lemma find_edition_Ok id n w found w' :
  find_edition id n w = (Ok found, w') ->
  same_state w w' /\ exists k row, let db := served n k (w_db w) in
    found.1 ∈ db_editions db /\ edition_id found.1 = id /\ row ∈ db_rooms db /\
    rr_id row = edition_source_room_id found.1 /\ EditionQueries.room_of row = Ok found.2.
Proof.
  intros E. split; [by apply (quiet_Ok _ _ _ _ _ E), quiet_find_edition|].
  unfold find_edition in E. apply bind_Ok in E as (u & w1 & [Hd _]%conn_Ok & E).
  apply bind_Ok in E as (o & w2 & [[k Hq] _]%query_ro_Ok & E). rewrite Hd in Hq. exists k.
  unfold EditionQueries.find_with_room, select in Hq. simpl in Hq.
  destruct (list_first _ _) as [[e row]|] eqn:Ef; [|by injection Hq as <-].
  injection Hq as <-. injection E as <- _. simpl.
  apply list_first_Some in Ef as [Hin Hid]. simpl in Hid. bool_prop.
  apply list_elem_of_bind in Hin as (e' & (row' & Heq & [Hrow Hrid]%elem_of_lfilter)%list_elem_of_bind & He').
  apply list_elem_of_singleton in Heq as [= -> ->]. bool_prop. exists row'. done.
Qed.

Lemma insert_query_row req c : ChangeQueries.row c (ChangeCreateHandler.insert_query req) = change_of (q_uuid c 0) (q_now c) req.
Proof.
  unfold ChangeCreateHandler.insert_query, change_of. destruct req as [edition [d|d|e|s]]; simpl; try done.
  destruct d as [e [k|] [x|] s l [o|] [b|]]; done.
Qed.

Lemma check_presence_change_of id now req :
  ChangeQueries.check_presence (change_of id now req) = false <->
  empty_modification (ChangeCreateHandler.cr_changeset req).
Proof.
  destruct req as [edition [d|d|e|s]]; simpl; try done.
  destruct d as [e [k|] [x|] [s|] [l|] [o|] [b|]]; simpl; intuition (congruence || done).
Qed.

(** The check of the table refuses a change that says nothing, and no other; whatever
    else it may be refused for, the change is then refused for that. *)
Lemma insert_refused_by_check req c db :
  (ChangeQueries.insert (ChangeCreateHandler.insert_query req) c db).1
  = Err (DatabaseError "event_data_and_event_id_present") <->
  empty_modification (ChangeCreateHandler.cr_changeset req).
Proof.
  rewrite <-(check_presence_change_of (q_uuid c 0) (q_now c)). unfold ChangeQueries.insert. rewrite insert_query_row.
  unfold ChangeQueries.violation. destruct (ChangeQueries.check_presence _); simpl; [|done].
  repeat case_match; simpl in *; simplify_eq; done.
Qed.

Lemma insert_Err q c db e db' : ChangeQueries.insert q c db = (Err e, db') -> db' = db.
Proof. unfold ChangeQueries.insert. case_match; [by intros [= _ <-]|done]. Qed.

Lemma change_create_fails context req reqp n w e w' :
  ChangeCreateHandler.handle context req reqp n w = (Err e, w') -> same_state w w'.
Proof.
  unfold ChangeCreateHandler.handle. intros [E|(found & w1 & E1 & E)]%bind_Err;
    [by apply (quiet_Ok _ _ _ _ _ E), quiet_find_edition|]. apply (quiet_Ok _ _ _ _ _) in E1; [|apply quiet_find_edition].
  apply bind_Err in E as [E|(d & w2 & [_ E2]%authorize_Ok & E)]; [etrans; [exact E1|]; by apply authorize_Err in E|].
  apply bind_Err in E as [E|(u & w3 & E3%conn_Ok & E)];
    [etrans; [exact E1|]; etrans; [exact E2|]; by apply (quiet_Ok _ _ _ _ _ E), quiet_conn|].
  apply bind_Err in E as [E|(change & w4 & _ & E)]; [|done].
  etrans; [exact E1|]. etrans; [exact E2|]. etrans; [exact E3|].
  unfold query_app, error in E. rewrite on_error_exec, run_exec in E.
  destruct (t_fault _); [by injection E as _ <-|].
  destruct (ChangeQueries.insert _ _ _) as [[x|x] db'] eqn:Eq; [done|]. injection E as _ <-.
  apply insert_Err in Eq as ->. done.
Qed.

(** C30: what a request to change an edition does.  One that succeeds was allowed to
    update the source room of the edition, and appends to the database, and
    answers, exactly the change the request describes.  One that fails changes
    nothing, and a request that describes a modification of nothing always fails:
    that is what the check of the table refuses, whatever the database, and it
    refuses nothing else. *)
Theorem change_create_correct (context : Context) (req : ChangeCreateHandler.CreateRequest) (reqp : RequestParams)
    (n : env) (w : world) :
  let '(result, w') := ChangeCreateHandler.handle context req reqp n w in
  let nothing := empty_modification (ChangeCreateHandler.cr_changeset req) in
  match result with
  | Ok r =>
    ~ nothing /\
    (exists k j edition row room d, let db := served n k (w_db w) in
      edition ∈ db_editions db /\ edition_id edition = ChangeCreateHandler.cr_edition_id req /\ row ∈ db_rooms db /\
      rr_id row = edition_source_room_id edition /\ EditionQueries.room_of row = Ok room /\
      e_authorize n j (room_audience room) (as_account_id reqp) (authz_object room) "update" = Ok d) /\
    exists id now, let change := change_of id now req in
      w_db w' = with_changes (fun l => l ++ [change]) (w_db w) /\ resp_status r = CREATED /\
      resp_payload r = PChange change
  | Err _ => w_db w' = w_db w /\ w_trace w' = w_trace w
  end /\
  forall c db, (ChangeQueries.insert (ChangeCreateHandler.insert_query req) c db).1
               = Err (DatabaseError "event_data_and_event_id_present") <-> nothing.
Proof.
  destruct (ChangeCreateHandler.handle context req reqp n w) as [[r|e] w'] eqn:E; (split; [|intros; apply insert_refused_by_check]);
    [|by apply change_create_fails in E].
  unfold ChangeCreateHandler.handle in E.
  apply bind_Ok in E as (found & w1 & [[Hd1 _] (k & row & He & Hid & Hrow & Hrid & Hroom)]%find_edition_Ok & E).
  apply bind_Ok in E as (d & w2 & [[j Hauth] [Hd2 _]]%authorize_Ok & E).
  apply bind_Ok in E as (u & w3 & [Hd3 _]%conn_Ok & E).
  apply bind_Ok in E as (change & w4 & (k4 & Hq & _)%query_app_Ok & [= <- <-]).
  split; [intros Hn; apply (insert_refused_by_check req (t_ctx (e_tick n k4)) (w_db w3)) in Hn; by rewrite Hq in Hn|].
  split; [exists k, j, found.1, row, found.2, d; done|].
  unfold ChangeQueries.insert in Hq. rewrite insert_query_row in Hq.
  destruct (ChangeQueries.violation _ _); [done|]. injection Hq as <- <-. do 2 eexists. split; [|done].
  congruence.
Qed.
End ChangeCorrect.

(** The removal of a set in edition 1000 of room 1. *)
Definition sample_edition_world : world :=
  World (run_statement (InsertEdition 1%N sample_agent) sample_ctx sample_db) 0 [] [].
Definition sample_change_request : ChangeCreateHandler.CreateRequest :=
  ChangeCreateHandler.MkCreateRequest 1000%N (BulkRemovalSet "messages").

Abbreviation sample_change_create := (ChangeCreateHandler.handle sample_context sample_change_request (Http sample_agent)
                                        sample_env sample_edition_world).

Lemma sample_change_run : exists r w', sample_change_create = (Ok r, w').
Proof.
  assert (Hok : is_ok sample_change_create.1 = true) by (vm_compute; reflexivity).
  destruct sample_change_create as [[r|e] w']; [by do 2 eexists|discriminate Hok].
Qed.

Lemma change_create_correct_witness :
  exists r w' id now, sample_change_create = (Ok r, w') /\
    w_db w' = with_changes (fun l => l ++ [change_of id now sample_change_request]) (w_db sample_edition_world).
Proof.
  destruct sample_change_run as (r & w' & Hrun).
  pose proof (change_create_correct sample_context sample_change_request (Http sample_agent) sample_env
    sample_edition_world) as Hc. rewrite Hrun in Hc. destruct Hc as [(_ & _ & id & now & Hdb & _) _].
  exists r, w', id, now. split; [exact Hrun|exact Hdb].
Defined.
