(* ===== verification/RoomEndpoint.v ===== *)
(** * Rooms, and the maintenance of their events

    [src/src/app/endpoint/room.rs], [src/src/app/endpoint/room/dump_events.rs] and
    [src/src/app/endpoint/system.rs], with the operations they start
    ([src/src/app/operations/dump_events_to_s3.rs],
    [src/src/app/operations/vacuum.rs]). *)

From S2P Require Import Prelude Times Types Db Sample EventDb RoomDb EditionDb AgentDb Integrity Effects AdjustRoom Errors Service.

(** ** [room.create] *)

Module RoomCreateHandler.

Record CreateRequest : Type := MkCreateRequest {
  cr_audience : string;
  cr_time : BoundedDateTimeTuple;
  cr_tags : option json;
  cr_preserve_history : option bool;
  cr_classroom_id : uuid;
  cr_kind : ClassType
}.

Definition insert_query (req : CreateRequest) : RoomDb.InsertQuery.t :=
  let query := RoomDb.InsertQuery.new (cr_audience req) (cr_time req) (cr_classroom_id req) (cr_kind req) in
  let query := match cr_tags req with Some tags => RoomDb.InsertQuery.tags tags query | None => query end in
  match cr_preserve_history req with
  | Some preserve_history => RoomDb.InsertQuery.preserve_history preserve_history query
  | None => query
  end.

Definition handle `{Externals, EventCodec} (context : Context) (req : CreateRequest) (reqp : RequestParams)
    : M ErrorKind Response :=
  match RoomTimeImpl.new (cr_time req) with
  | None => fail InvalidRoomTime
  | Some _ =>
    authz_time <~ authorize (cr_audience req) (as_account_id reqp) (authz_object_new ["classrooms"%string]) "create";
    get_conn;;
    room <~ query_app (RoomDb.InsertQuery.execute (insert_query req));
    ret (Response.add_notification "room.create" (audience_topic (cr_audience req)) (PRoom room)
           (Response.new CREATED (PRoom room) (Some authz_time)))
  end.

End RoomCreateHandler.

(** ** [room.read] *)

Module RoomReadHandler.

Definition handle `{Externals, EventCodec} (context : Context) (id : uuid) (reqp : RequestParams)
    : M ErrorKind Response :=
  room <~ find_room id Any;
  authz_time <~ authorize (room_audience room) (as_account_id reqp) (authz_object_room room) "read";
  ret (Response.new OK (PRoom room) (Some authz_time)).

End RoomReadHandler.

(** ** [room.update] *)

Module RoomUpdateHandler.

Record UpdateRequest : Type := MkUpdateRequest {
  ur_id : uuid;
  ur_time : option BoundedDateTimeTuple;
  ur_tags : option json;
  ur_classroom_id : option uuid
}.

Section Handler.
Context `{Externals, EventCodec}.

(** The time to write, when the request has one. *)
Definition new_time (room : Room) (req : UpdateRequest) : M ErrorKind (option BoundedDateTimeTuple) :=
  match ur_time req with
  | Some new_time =>
    room_time <~ error InvalidRoomTime (lift (RoomDb.time room));
    now <~ now;
    match RoomTimeImpl.update now room_time new_time with
    | Some nt => ret (Some (RoomTimeImpl.into_tuple nt))
    | None => fail InvalidRoomTime
    end
  | None => ret None
  end.

(** Whether the request has closed the room. *)
Definition has_closed (now : Z) (req : UpdateRequest) : bool :=
  match ur_time req with
  | Some (_, Included t) => t <? now
  | Some (_, Excluded t) => t <=? now
  | _ => false
  end.

Definition handle (context : Context) (req : UpdateRequest) (reqp : RequestParams) : M ErrorKind Response :=
  let time_requirement := match ur_time req with Some _ => NotClosed | None => Any end in
  room <~ find_room (ur_id req) time_requirement;
  authz_time <~ authorize (room_audience room) (as_account_id reqp) (authz_object_room room) "update";
  time <~ new_time room req;
  now1 <~ now;
  let room_was_open := negb (is_closed now1 room) in
  let query := RoomDb.UpdateQuery.classroom_id (ur_classroom_id req)
                 (RoomDb.UpdateQuery.tags (ur_tags req)
                   (RoomDb.UpdateQuery.time time (RoomDb.UpdateQuery.new (room_id room)))) in
  get_conn;;
  room <~ query_app (RoomDb.UpdateQuery.execute query);
  let response := Response.add_notification "room.update" (audience_topic (room_audience room)) (PRoom room)
                    (Response.new OK (PRoom room) (Some authz_time)) in
  now2 <~ now;
  ret (if room_was_open && has_closed now2 req
       then Response.add_notification "room.close" (room_topic (room_id room)) (PRoom room) response
       else response).

End Handler.
End RoomUpdateHandler.

(** ** [room.enter] *)

Module RoomEnterHandler.
Section Handler.
Context `{Externals, EventCodec}.

(** The agent in progress, and the event that records it. *)
Definition register (room : Room) (reqp : RequestParams) : M ErrorKind unit :=
  get_conn;;
  query_app (AgentQueries.insert (as_agent_id reqp) (room_id room));;
  now <~ now;
  error DbQueryFailed (run_op (insert_agent_action now room Enter (as_agent_id reqp))).

(** The agent ready, with its ban. *)
Definition make_ready (room : Room) (reqp : RequestParams) : M ErrorKind AgentWithBan :=
  find_room (room_id room) Open;;
  get_conn;;
  query_app (AgentQueries.update (as_agent_id reqp) (room_id room) (Some Ready));;
  found <~ query_app (AgentQueries.find_with_ban (as_agent_id reqp) (room_id room));
  match found with
  | Some agent => ret agent
  | None => fail AgentNotEnteredTheRoom
  end.

Definition handle (context : Context) (id : uuid) (reqp : RequestParams) : M ErrorKind Response :=
  room <~ find_room id Open;
  authz_time <~ authorize (room_audience room) (as_account_id reqp)
                  (authz_object_new ["classrooms"%string; uuid_to_string (room_classroom_id room)]) "read";
  register room reqp;;
  error BrokerRequestFailed (try_join (enter_room (room_id room) (as_agent_id reqp))
                                      (enter_broadcast_room (room_id room) (as_agent_id reqp)));;
  agent_with_ban <~ make_ready room reqp;
  let banned := default false (awb_banned agent_with_ban) in
  ret (Response.add_notification "room.enter" (room_topic (room_id room))
         (PRoomEnter (room_id room) (as_agent_id reqp) banned agent_with_ban)
         (Response.new OK PEmpty (Some authz_time))).

End Handler.
End RoomEnterHandler.

(** ** [room.locked_types] and the whiteboard access *)

Module RoomAccessHandlers.

(** [room.locked_types().iter().chain(payload.locked_types).collect()]. *)
Definition chain_flags {K} `{Countable K} (m m' : gmap K bool) : gmap K bool :=
  collect_flags (map_to_list m ++ map_to_list m').

Section Handlers.
Context `{Externals, EventCodec}.

Definition update_flags (query : RoomDb.UpdateQuery.t) : M ErrorKind Room :=
  get_conn;;
  transaction_app (query_app (RoomDb.UpdateQuery.execute query)).

Definition access_response (room : Room) (authz_time : Z) : Response :=
  Response.add_notification "room.update" (room_topic (room_id room)) (PRoom room)
    (Response.new OK (PRoom room) (Some authz_time)).

(** [LockedTypesHandler]. *)
Definition locked_types (context : Context) (id : uuid) (flags : gmap string bool) (reqp : RequestParams)
    : M ErrorKind Response :=
  room <~ find_room id Any;
  authz_time <~ authorize (room_audience room) (as_account_id reqp) (authz_object_room room) "update";
  room <~ update_flags (RoomDb.UpdateQuery.locked_types (chain_flags (room_locked_types room) flags)
                          (RoomDb.UpdateQuery.new (room_id room)));
  ret (access_response room authz_time).

(** [WhiteboardAccessHandler]. *)
Definition whiteboard_access (context : Context) (id : uuid) (flags : gmap account_id bool) (reqp : RequestParams)
    : M ErrorKind Response :=
  room <~ find_room id Any;
  if validate_whiteboard_access room then
    authz_time <~ authorize (room_audience room) (as_account_id reqp) (authz_object_room room) "update";
    room <~ update_flags (RoomDb.UpdateQuery.whiteboard_access (chain_flags (room_whiteboard_access room) flags)
                            (RoomDb.UpdateQuery.new (room_id room)));
    ret (access_response room authz_time)
  else fail WhiteboardAccessUpdateNotChecked.

End Handlers.
End RoomAccessHandlers.

(** ** [room.adjust] *)

Module RoomAdjustHandler.

Record AdjustRequest : Type := MkAdjustRequest {
  ar_id : uuid;
  ar_started_at : Z;
  ar_segments : Segments;
  ar_offset : Z
}.

Section Handler.
Context `{Externals, EventCodec}.

Definition adjust_result (r : result op_error AdjustOutput) : RoomAdjustResult :=
  match r with
  | Ok out =>
    AdjustSuccess (room_id (original_room out)) (room_id (modified_room out)) (modified_segments out)
      (cut_original_segments out)
  | Err _ => AdjustError RoomAdjustTaskFailed
  end.

(** The task: a panic ends it without a message. *)
Definition task (context : Context) (room : Room) (req : AdjustRequest) : M ErrorKind (option Notification) :=
  r <~ attempt (AdjustRoom.call room (ar_started_at req) (ar_segments req) (ar_offset req)
                  (min_segment_length (config context)));
  match r with
  | Err (OpPanic _) => ret None
  | _ =>
    notify_failure RoomAdjustTaskFailed r;;
    let result := adjust_result r in
    ret (Some (MkNotification "room.adjust" (audience_topic (room_audience room))
                 (PAdjust (ar_id req) (adjust_status result) (room_tags room) result)))
  end.

Definition handle (context : Context) (req : AdjustRequest) (reqp : RequestParams) : M ErrorKind Response :=
  room <~ find_room (ar_id req) Any;
  authz_time <~ authorize (room_audience room) (as_account_id reqp) (authz_object_room room) "update";
  notification <~ task context room req;
  ret (Response.add_async_task notification (Response.new ACCEPTED PEmpty (Some authz_time))).

End Handler.
End RoomAdjustHandler.

(** ** [room.dump_events] *)

Module DumpEvents.

Definition RETRIES : nat := 3.
Definition EVENTS_DUMP_BUCKET : string := "eventsdump".

Record S3Destination : Type := MkS3Destination { s3_bucket : string; s3_key : string }.

Section Operation.
Context `{Externals, EventCodec}.

Definition s3_destination (room : Room) : S3Destination :=
  MkS3Destination (EVENTS_DUMP_BUCKET ++ "." ++ ClassType_to_string (room_kind room) ++ "." ++ room_audience room)
    (uuid_to_string (room_id room) ++ ".json").

Definition load_room_events (room : Room) : M op_error (list Event) :=
  on_error OpSqlx acquire;;
  query_op (ListQuery.execute (ListQuery.room_id (room_id room) ListQuery.new)).

(** [s3_client.put_object(request)]. *)
Definition put_object (destination : S3Destination) (room : Room) (events : list Event) : M unit unit := once (fun n w =>
  let w' := trace (PutObject (s3_bucket destination) (s3_key destination) "application/json" room events) (advance w) in
  if e_storage n (w_tick w) then (Ok tt, w') else (Err tt, w')).

(** The loop: the first upload that succeeds ends it, a failed one is logged and
    sent to Sentry. *)
Fixpoint upload_loop (retries : nat) (destination : S3Destination) (room : Room) (events : list Event)
    : M op_error unit :=
  match retries with
  | O => ret tt
  | S retries =>
    result <~ attempt (put_object destination room events);
    match result with
    | Ok _ => ret tt
    | Err _ => notify_sentry S3UploadFailed;; upload_loop retries destination room events
    end
  end.

Definition upload_events (room : Room) (events : list Event) (destination : S3Destination) : M op_error string :=
  upload_loop RETRIES destination room events;;
  ret ("s3://" ++ s3_bucket destination ++ "/" ++ s3_key destination)%string.

Definition call (room : Room) : M op_error string :=
  let destination := s3_destination room in
  events <~ load_room_events room;
  upload_events room events destination.

(** The task of the handler. *)
Definition dump_result (room : Room) (r : result op_error string) : EventsDumpResult :=
  match r with
  | Ok s3_uri => DumpSuccess (room_id room) s3_uri
  | Err _ => DumpError EditionCommitTaskFailed
  end.

Definition task (room : Room) : M ErrorKind (option Notification) :=
  r <~ attempt (call room);
  match r with
  | Err (OpPanic _) => ret None
  | _ =>
    notify_failure EditionCommitTaskFailed r;;
    let result := dump_result room r in
    ret (Some (MkNotification "room.dump_events" (audience_topic (room_audience room))
                 (PDump (dump_status result) (room_tags room) result)))
  end.

Definition handle (context : Context) (id : uuid) (reqp : RequestParams) : M ErrorKind Response :=
  room <~ find_room id Any;
  authz_time <~ authorize (room_audience room) (as_account_id reqp) (authz_object_new ["classrooms"%string])
                  "dump_events";
  if s3_client context then
    notification <~ task room;
    ret (Response.add_async_task notification (Response.new ACCEPTED PEmpty (Some authz_time)))
  else fail NoS3Client.

End Operation.
End DumpEvents.

(** ** [system.vacuum] *)

Module Vacuum.
Section Operation.
Context `{Externals, EventCodec}.

Definition call (config : VacuumConfig) : M op_error unit :=
  on_error OpSqlx acquire;;
  query_op (VacuumQuery.execute (VacuumQuery.Mk (max_history_size config) (max_history_lifetime config)
                                   (max_deleted_lifetime config))).

(** The operation is spawned; its failure is logged and sent to Sentry. *)
Definition handle (context : Context) (reqp : RequestParams) : M ErrorKind Response :=
  authz_time <~ authorize (acc_audience (agent_account (ctx_agent_id context))) (as_account_id reqp)
                  (authz_object_new ["system"%string]) "update";
  r <~ attempt (E := op_error) (call (vacuum_config (config context)));
  match r with Ok _ | Err (OpPanic _) => ret tt | Err _ => sentry_send [TaskReport] end;;
  ret (Response.new ACCEPTED PEmpty (Some authz_time)).

End Operation.
End Vacuum.

(** ** Properties *)

Section EnterCorrect.
Context `{Externals, EventCodec}.

Lemma agent_insert_Ok agent room c db a db' :
  AgentQueries.insert agent room c db = (Ok a, db') ->
  (exists x, x ∈ db_agents db' /\ AgentQueries.is_agent agent room x = true) /\
  exists f, db' = with_agents f db.
Proof.
  unfold AgentQueries.insert, AgentQueries.insert_as. destruct (list_first _ _) as [x|] eqn:Ef.
  - intros [= _ <-]. split; [|by eexists]. apply list_first_Some in Ef as [Hx Hp].
    eexists. split; [apply list_elem_of_fmap; exists x; split; [reflexivity|done]|]. by rewrite Hp.
  - repeat (case_match; [done|]). case_match; [|done]. intros [= _ <-]. split; [|by eexists].
    eexists. split; [apply elem_of_app; right; left|]. unfold AgentQueries.is_agent. simpl.
    by rewrite !bool_decide_eq_true_2.
Qed.

Lemma agent_update_Ok agent room status c db a db' :
  AgentQueries.update agent room (Some status) c db = (Ok a, db') ->
  (forall x, x ∈ db_agents db' -> AgentQueries.is_agent agent room x = true -> ag_status x = status) /\
  db_events db' = db_events db /\ db_bans db' = db_bans db.
Proof.
  unfold AgentQueries.update. destruct (list_first _ _) as [x|] eqn:Ef; intros [= _ <-]; (split; [|done]).
  - intros y (z & -> & _)%list_elem_of_fmap. by destruct (AgentQueries.is_agent agent room z) eqn:E; rewrite ?E.
  - apply list_first_None in Ef. rewrite Forall_forall in Ef. intros y Hy Hp. by rewrite (Ef y Hy) in Hp.
Qed.

(** The agent found, and whether there is a ban of its account in its room. *)
Lemma find_with_ban_Ok agent room c db x :
  (AgentQueries.find_with_ban agent room c db).1 = Ok (Some x) ->
  awb_agent x ∈ db_agents db /\ AgentQueries.is_agent agent room (awb_agent x) = true /\
  (awb_banned x = Some true <-> exists b, b ∈ db_bans db /\ BanQueries.is_ban (agent_account agent) room b = true).
Proof.
  unfold AgentQueries.find_with_ban, select. simpl. intros [= Hx].
  apply head_Some_elem_of in Hx. apply list_elem_of_bind in Hx as (a & Hx & [Ha Hp]%elem_of_lfilter).
  unfold AgentQueries.with_bans in Hx.
  assert (Hb : forall b, b ∈ List.filter (fun b => bool_decide (ban_room_id b = ag_room_id a)
     && bool_decide (ban_account_id b = agent_account (ag_agent_id a))) (db_bans db) <->
     b ∈ db_bans db /\ BanQueries.is_ban (agent_account agent) room b = true).
  { intros b. rewrite elem_of_lfilter. apply and_iff_compat_l. unfold BanQueries.is_ban.
    unfold AgentQueries.is_agent in Hp. bool_prop. subst. by rewrite andb_comm. }
  destruct (List.filter _ _) as [|b0 l] eqn:El.
  - apply list_elem_of_singleton in Hx as ->. simpl. split_and!; [done|done|]. split; [done|].
    intros (b & Hin & Hbp). exfalso. apply (elem_of_nil b), Hb. done.
  - apply list_elem_of_fmap in Hx as (b & -> & Hbin). simpl. split_and!; [done|done|]. split; [|done].
    intros _. exists b. by apply Hb.
Qed.

Lemma subscribe_Ok id agent n w w' :
  error BrokerRequestFailed (try_join (enter_room id agent) (enter_broadcast_room id agent)) n w = (Ok tt, w') ->
  w_db w' = w_db w /\ w_trace w' = w_trace w ++ [room_events agent id].
Proof.
  intros E%error_Ok. unfold try_join, enter_room, enter_broadcast_room in E.
  rewrite bind_exec, attempt_exec, once_exec, bind_exec, attempt_exec in E. simpl in E.
  destruct (e_broker n (w_tick w)); simpl in E; [|done]. by injection E as <-.
Qed.

Lemma register_Ok room reqp n w w' :
  RoomEnterHandler.register room reqp n w = (Ok tt, w') ->
  w_trace w' = w_trace w /\ db_bans (w_db w') = db_bans (w_db w) /\
  exists row, db_events (w_db w') = db_events (w_db w) ++ [row] /\ er_kind row = "agent_enter"%string /\
    er_room_id row = room_id room /\ er_created_by row = as_agent_id reqp.
Proof.
  unfold RoomEnterHandler.register. intros E.
  apply bind_Ok in E as (u1 & w1 & [Hd1 Ht1]%conn_Ok & E).
  apply bind_Ok in E as (a & w2 & (k & [_ [f Hdb]]%agent_insert_Ok & Ht2)%query_app_Ok & E).
  apply bind_Ok in E as (t & w3 & [_ [Hd3 Ht3]]%now_Ok & E).
  apply error_Ok, run_op_Ok in E as (k3 & (opened_at & _ & new & Hdb' & Hnr & Hnk & Hnc & _)%insert_agent_action_Ok & Ht4).
  rewrite Hdb', Hd3, Hdb, Hd1. split; [congruence|]. split; [done|]. exists new. done.
Qed.

Lemma make_ready_Ok room reqp n w agent w' :
  RoomEnterHandler.make_ready room reqp n w = (Ok agent, w') ->
  w_trace w' = w_trace w /\ db_events (w_db w') = db_events (w_db w) /\
  awb_agent agent ∈ db_agents (w_db w') /\ ag_status (awb_agent agent) = Ready /\
  AgentQueries.is_agent (as_agent_id reqp) (room_id room) (awb_agent agent) = true /\
  (default false (awb_banned agent) = true <->
     exists b, b ∈ db_bans (w_db w') /\ BanQueries.is_ban (as_account_id reqp) (room_id room) b = true).
Proof.
  unfold RoomEnterHandler.make_ready. intros E.
  apply bind_Ok in E as (r1 & w1 & [_ [Hd1 Ht1]]%find_room_Ok & E).
  apply bind_Ok in E as (u2 & w2 & [Hd2 Ht2]%conn_Ok & E).
  apply bind_Ok in E as (a & w3 & (k3 & (Hst & Hev & Hban)%agent_update_Ok & Ht3)%query_app_Ok & E).
  apply bind_Ok in E as (found & w4 & (k4 & Hq & Ht4)%query_app_Ok & E).
  destruct found as [x|]; [|done]. injection E as -> <-.
  assert (w_db w4 = w_db w3) as Hd4 by (unfold AgentQueries.find_with_ban, select in Hq; by injection Hq as _ <-).
  assert ((AgentQueries.find_with_ban (as_agent_id reqp) (room_id room) (t_ctx (e_tick n k4)) (w_db w3)).1 = Ok (Some agent))
    as (Hin & Hp & Hb)%find_with_ban_Ok by by rewrite Hq.
  rewrite Hd4. split_and!; [congruence|congruence|done|by apply Hst|done|].
  rewrite <-Hb. destruct (awb_banned agent) as [[]|]; simpl; split; congruence.
Qed.

(** C21: what entering a room that succeeds has done.  The room was open and the
    caller allowed to read it; the broker was asked once to subscribe the agent to
    the room's events; the agent is in the room, ready, and its entering is
    recorded by one event.  The room is told, with whether the account is banned
    in this room. *)
Theorem room_enter_correct (context : Context) (id : uuid) (reqp : RequestParams) (n : env) (w w' : world)
    (r : Response) :
  RoomEnterHandler.handle context id reqp n w = (Ok r, w') ->
  exists room agent d banned,
    found_room n (w_db w) id Open room /\
    (exists j, e_authorize n j (room_audience room) (as_account_id reqp)
                 ["classrooms"%string; uuid_to_string (room_classroom_id room)] "read" = Ok d) /\
    w_trace w' = w_trace w ++ [Subscribe (as_agent_id reqp) ["rooms"; uuid_to_string id; "events"]%string "v1"] /\
    (awb_agent agent ∈ db_agents (w_db w')) /\ ag_status (awb_agent agent) = Ready /\
    AgentQueries.is_agent (as_agent_id reqp) id (awb_agent agent) = true /\
    (exists row, db_events (w_db w') = db_events (w_db w) ++ [row] /\ er_kind row = "agent_enter"%string /\
       er_room_id row = id /\ er_created_by row = as_agent_id reqp) /\
    notifications r = [MkNotification "room.enter" (room_topic id) (PRoomEnter id (as_agent_id reqp) banned agent)] /\
    (banned = true <->
       exists b, b ∈ db_bans (w_db w') /\ BanQueries.is_ban (as_account_id reqp) id b = true).
Proof.
  unfold RoomEnterHandler.handle. intros E.
  apply bind_Ok in E as (room & w1 & [Hroom [Hd1 Ht1]]%find_room_Ok & E).
  pose proof (found_room_id _ _ _ _ _ Hroom) as Hid.
  apply bind_Ok in E as (d & w2 & [Hauth [Hd2 Ht2]]%authorize_Ok & E).
  apply bind_Ok in E as ([] & w3 & (Ht3 & _ & row & Hev & Hk & Hr & Hc)%register_Ok & E).
  apply bind_Ok in E as ([] & w4 & [Hd4 Ht4]%subscribe_Ok & E).
  apply bind_Ok in E as (agent & w5 & (Ht5 & Hev5 & Hin & Hst & Hp & Hb)%make_ready_Ok & [= <- <-]).
  rewrite Hid in *. exists room, agent, d, (default false (awb_banned agent)).
  split_and!; try done.
  - rewrite Ht5, Ht4, Ht3, Ht2, Ht1. done.
  - exists row. split_and!; try done. rewrite Hev5, Hd4, Hev. congruence.
Qed.
End EnterCorrect.

Abbreviation sample_enter := (RoomEnterHandler.handle sample_context 1%N (Http sample_agent) sample_env sample_world).

Lemma sample_enter_run : exists r w', sample_enter = (Ok r, w').
Proof.
  assert (Hok : is_ok sample_enter.1 = true) by (vm_compute; reflexivity).
  destruct sample_enter as [[r|e] w']; [by do 2 eexists|discriminate Hok].
Qed.

Lemma room_enter_correct_witness :
  exists r w' a, sample_enter = (Ok r, w') /\ a ∈ db_agents (w_db w') /\ ag_status a = Ready /\
    w_trace w' = [Subscribe sample_agent ["rooms"; "1"; "events"]%string "v1"].
Proof.
  destruct sample_enter_run as (r & w' & Hrun).
  destruct (room_enter_correct sample_context 1%N (Http sample_agent) sample_env sample_world w' r Hrun)
    as (room & agent & d & banned & _ & _ & Ht & Hin & Hst & _).
  exists r, w', (awb_agent agent). split; [exact Hrun|]. split; [exact Hin|]. split; [exact Hst|exact Ht].
Defined.

(** *** [room.dump_events] *)

Section DumpCorrect.
Context `{Externals, EventCodec}.

Definition put_effect (destination : DumpEvents.S3Destination) (room : Room) (events : list Event) : effect :=
  PutObject (DumpEvents.s3_bucket destination) (DumpEvents.s3_key destination) "application/json" room events.

(** The failed attempts among [m], the last of which is at the tick [k]. *)
Definition failures (n : env) (k m : nat) : nat := if e_storage n k then pred m else m.

Lemma upload_loop_spec retries destination room events n w :
  exists w' m, DumpEvents.upload_loop retries destination room events n w = (Ok tt, w') /\
    w_db w' = w_db w /\ w_trace w' = w_trace w ++ repeat (put_effect destination room events) m /\
    w_reported w' = w_reported w ++ repeat (AppReport S3UploadFailed) (failures n (w_tick w + pred m) m) /\
    (m <= retries)%nat /\ (0 < retries -> 0 < m)%nat /\
    (forall i, (S i < m)%nat -> e_storage n (w_tick w + i) = false) /\
    (forall i, (m < retries)%nat -> m = S i -> e_storage n (w_tick w + i) = true).
Proof.
  revert w. induction retries as [|retries IH]; intros w; simpl.
  - exists w, 0%nat. unfold failures. rewrite !app_nil_r. split_and!; try done; try lia.
    destruct (e_storage _ _); simpl; by rewrite app_nil_r.
  - rewrite bind_exec, attempt_exec. unfold DumpEvents.put_object. rewrite once_exec. cbn [fst snd]. destruct (e_storage n (w_tick w)) eqn:Es.
    + exists (trace (put_effect destination room events) (advance w)), 1%nat. simpl.
      unfold failures. rewrite Nat.add_0_r, Es. simpl. rewrite app_nil_r.
      split_and!; try done; [lia|lia|lia|]. intros i _ [= <-]. by rewrite Nat.add_0_r.
    + fold (put_effect destination room events). simpl. rewrite bind_exec. unfold notify_sentry. rewrite sentry_exec.
      destruct (IH (add_reports (reports_of S3UploadFailed) (trace (put_effect destination room events) (advance w))))
        as (w' & m & -> & Hd & Ht & Hrep & Hle & Hpos & Hno & Hyes). simpl in Ht, Hrep, Hno, Hyes.
      exists w', (S m). simpl. rewrite Ht, Hrep, <-!app_assoc. split_and!; try done; [|lia|lia| |].
      * do 2 f_equal. unfold failures. destruct m as [|m]; simpl.
        { rewrite Nat.add_0_r, Es. destruct (e_storage n (S (w_tick w))); reflexivity. }
        rewrite Nat.add_succ_r. by destruct (e_storage n (S (w_tick w + m))).
      * intros [|i] Hi; [by rewrite Nat.add_0_r|]. rewrite <-Nat.add_succ_comm. apply Hno. lia.
      * intros i Hm [= ->]. destruct i as [|i]; [lia|]. rewrite <-Nat.add_succ_comm. apply Hyes; [lia|done].
Qed.

Lemma destination_name room :
  DumpEvents.s3_destination room = DumpEvents.MkS3Destination
    ("eventsdump." ++ match room_kind room with Webinar => "webinar" | P2P => "p2p" | Minigroup => "minigroup" end
       ++ "." ++ room_audience room)
    (uuid_to_string (room_id room) ++ ".json").
Proof. unfold DumpEvents.s3_destination. by destruct (room_kind room). Qed.

Lemma load_room_events_reports room n w r w' :
  DumpEvents.load_room_events room n w = (r, w') -> w_reported w' = w_reported w.
Proof.
  unfold DumpEvents.load_room_events, query_op. rewrite bind_exec, on_error_exec, acquire_exec.
  destruct (t_fault (e_tick n (w_tick w))); [by intros [= <- <-]|]. rewrite on_error_exec, run_exec. simpl.
  destruct (t_fault (e_tick n (S (w_tick w)))); [by intros [= <- <-]|].
  unfold ListQuery.execute, select. by destruct (map_rows try_from_raw _); intros [= <- <-].
Qed.

Lemma load_room_events_cases room n w r w' :
  DumpEvents.load_room_events room n w = (r, w') ->
  same_state w w' /\
  match r with
  | Ok events =>
    map_rows try_from_raw (ListQuery.rows (ListQuery.room_id (room_id room) ListQuery.new) (db_events (w_db w))) = Ok events
  | Err _ => True
  end.
Proof.
  unfold DumpEvents.load_room_events, query_op. rewrite bind_exec, on_error_exec, acquire_exec.
  destruct (t_fault (e_tick n (w_tick w))); [by intros [= <- <-]|]. rewrite on_error_exec, run_exec. simpl.
  destruct (t_fault (e_tick n (S (w_tick w)))); [by intros [= <- <-]|].
  unfold ListQuery.execute, select. by destruct (map_rows try_from_raw _); intros [= <- <-].
Qed.

End DumpCorrect.

(** A storage that always fails: the dump of room 1 succeeds. *)
Definition failing_storage : env :=
  Env (e_tick sample_env) (e_authorize sample_env) None (e_broker sample_env) (fun _ => false).

