(* ===== verification/Http.v ===== *)
(** * The endpoints of the HTTP interface

    The functions of [src/src/app/endpoint] that [src/src/app/http.rs] routes to:
    what the extractors of axum give (the agent of the token, the identifier of the
    path, the payload of the body or of the query string) is put together to the
    request of the handler.  One Module per file of [endpoint].  What an extractor
    refuses does not reach these functions. *)

From S2P Require Import Prelude Times Types Db EventDb SetState RoomDb AgentDb EditionDb Effects Errors Service EventEndpoint AgentEndpoint EditionEndpoint RoomEndpoint.

Module Events.

(** [CreateRequest { room_id, payload }]. *)
Definition create `{Externals, EventCodec} (context : Context) (agent : agent_id) (room_id : uuid)
    (payload : CreatePayload) : M ErrorKind Response :=
  CreateHandler.handle context (MkCreateRequest room_id payload) (Http agent).

Record ListPayload : Type := MkListPayload {
  lp_kind : option KindFilter;
  lp_set : option string;
  lp_label : option string;
  lp_attribute : option string;
  lp_last_occurred_at : option Z;
  lp_direction : Direction;
  lp_limit : option Z
}.

Definition list `{Externals, EventCodec} (context : Context) (agent : agent_id) (room_id : uuid)
    (payload : ListPayload) : M ErrorKind Response :=
  ListHandler.handle context
    (EventEndpoint.MkListRequest room_id (lp_kind payload) (lp_set payload) (lp_label payload) (lp_attribute payload)
       (lp_last_occurred_at payload) (lp_direction payload) (lp_limit payload)) (Http agent).

End Events.

Module State.

Record ReadPayload : Type := MkReadPayload {
  rp_sets : list string;
  rp_attribute : option string;
  rp_occurred_at : option Z;
  rp_original_occurred_at : option Z;
  rp_limit : option Z
}.

(** [serde_qs::from_str]. *)
Class QueryString : Type := qs_from_str : string -> option ReadPayload.

Definition read `{Externals, EventCodec, QueryString} (context : Context) (agent : agent_id) (room_id : uuid)
    (query : option string) : M ErrorKind Response :=
  payload <~ lift (ok_or (qs_from_str (default EmptyString query)) InvalidQueryString);
  ReadHandler.handle context
    (MkReadRequest room_id (rp_sets payload) (rp_attribute payload) (rp_occurred_at payload)
       (rp_original_occurred_at payload) (rp_limit payload)) (Http agent).

End State.

Module Agents.

Record ListPayload : Type := MkListPayload { lp_offset : option Z; lp_limit : option Z }.

Definition list `{Externals, EventCodec} (context : Context) (agent : agent_id) (room_id : uuid)
    (payload : ListPayload) : M ErrorKind Response :=
  AgentListHandler.handle context (AgentListHandler.MkListRequest room_id (lp_offset payload) (lp_limit payload))
    (Http agent).

Record UpdatePayload : Type := MkUpdatePayload {
  up_account_id : account_id;
  up_value : bool;
  up_reason : option string
}.

Definition update `{Externals, EventCodec} (context : Context) (agent : agent_id) (room_id : uuid)
    (payload : UpdatePayload) : M ErrorKind Response :=
  AgentUpdateHandler.handle context
    (AgentUpdateHandler.MkUpdateRequest room_id (up_account_id payload) (up_value payload) (up_reason payload))
    (Http agent).

End Agents.

Module Bans.

Definition list `{Externals, EventCodec} (context : Context) (agent : agent_id) (room_id : uuid)
    : M ErrorKind Response := BanListHandler.handle context room_id (Http agent).

End Bans.

Module Rooms.
Section Endpoints.
Context `{Externals, EventCodec} (context : Context) (agent : agent_id).

Definition create (request : RoomCreateHandler.CreateRequest) : M ErrorKind Response :=
  RoomCreateHandler.handle context request (Http agent).

Definition read (room_id : uuid) : M ErrorKind Response := RoomReadHandler.handle context room_id (Http agent).

Record UpdatePayload : Type := MkUpdatePayload {
  up_time : option BoundedDateTimeTuple;
  up_tags : option json;
  up_classroom_id : option uuid
}.

Definition update (room_id : uuid) (payload : UpdatePayload) : M ErrorKind Response :=
  RoomUpdateHandler.handle context
    (RoomUpdateHandler.MkUpdateRequest room_id (up_time payload) (up_tags payload) (up_classroom_id payload))
    (Http agent).

(** The label of the agent comes with the payload. *)
Definition enter (room_id : uuid) (agent_label : option string) : M ErrorKind Response :=
  agent_label <~ lift (ok_or agent_label InvalidPayload);
  RoomEnterHandler.handle context room_id (Http (AgentId (agent_account agent) agent_label)).

Definition locked_types (room_id : uuid) (locked_types : gmap string bool) : M ErrorKind Response :=
  RoomAccessHandlers.locked_types context room_id locked_types (Http agent).

Definition whiteboard_access (room_id : uuid) (whiteboard_access : gmap account_id bool) : M ErrorKind Response :=
  RoomAccessHandlers.whiteboard_access context room_id whiteboard_access (Http agent).

Record AdjustPayload : Type := MkAdjustPayload {
  ap_started_at : Z;
  ap_segments : Segments;
  ap_offset : Z
}.

Definition adjust (room_id : uuid) (payload : AdjustPayload) : M ErrorKind Response :=
  RoomAdjustHandler.handle context
    (RoomAdjustHandler.MkAdjustRequest room_id (ap_started_at payload) (ap_segments payload) (ap_offset payload))
    (Http agent).

Definition dump_events (room_id : uuid) : M ErrorKind Response := DumpEvents.handle context room_id (Http agent).

End Endpoints.
End Rooms.

Module Editions.
Section Endpoints.
Context `{Externals, EventCodec} (context : Context) (agent : agent_id).

Definition create (room_id : uuid) : M ErrorKind Response := EditionCreateHandler.handle context room_id (Http agent).

Record ListPayload : Type := MkListPayload { lp_last_created_at : option Z; lp_limit : option Z }.

Definition list (room_id : uuid) (payload : ListPayload) : M ErrorKind Response :=
  EditionListHandler.handle context
    (EditionListHandler.MkListRequest room_id (lp_last_created_at payload) (lp_limit payload)) (Http agent).

Definition delete (id : uuid) : M ErrorKind Response := EditionDeleteHandler.handle context id (Http agent).

Definition commit (id : uuid) (offset : Z) : M ErrorKind Response :=
  EditionCommitHandler.handle context (EditionCommitHandler.MkCommitRequest id offset) (Http agent).

End Endpoints.
End Editions.

Module Changes.
Section Endpoints.
Context `{Externals, EventCodec} (context : Context) (agent : agent_id).

Definition create (edition_id : uuid) (changeset : Changeset) : M ErrorKind Response :=
  ChangeCreateHandler.handle context (ChangeCreateHandler.MkCreateRequest edition_id changeset) (Http agent).

Record ListPayload : Type := MkListPayload { lp_last_created_at : option Z; lp_limit : option Z }.

Definition list (id : uuid) (payload : ListPayload) : M ErrorKind Response :=
  ChangeListHandler.handle context
    (ChangeListHandler.MkListRequest id (lp_last_created_at payload) (lp_limit payload)) (Http agent).

Definition delete (id : uuid) : M ErrorKind Response := ChangeDeleteHandler.handle context id (Http agent).

End Endpoints.
End Changes.
