(* ===== verification/Scenarios.v ===== *)
(** * Requests one after another

    What one request does to the next: a locked type and the creation of events,
    a ban and the ban callback of the authorization. *)

From Stdlib Require Import DecimalString DecimalN.
From S2P Require Import Prelude Times Types Db Sample EventDb SetState RoomDb EditionDb AgentDb Integrity Effects Errors Service EventEndpoint AgentEndpoint RoomEndpoint.

(** What [uuid] documents: an identifier is read back from its text. *)
Class UuidLaws `{Externals} : Prop := uuid_parse_to_string : forall id, uuid_parse (uuid_to_string id) = Some id.

(** The account is not allowed to update anything. *)
Definition no_update (n : env) (account : account_id) : Prop :=
  forall k audience object, exists e, e_authorize n k audience account object "update" = Err e.

(** ** Lemmas *)

Section Locked.
Context `{Externals, EventCodec}.

Lemma chain_flags_union {K} `{Countable K} (m m' : gmap K bool) : RoomAccessHandlers.chain_flags m m' = m' ∪ m.
Proof.
  unfold RoomAccessHandlers.chain_flags, collect_flags. rewrite foldl_app.
  pose proof (collect_flags_map m) as Hm. pose proof (collect_flags_map m') as Hm'. unfold collect_flags in Hm, Hm'.
  rewrite Hm, collect_flags_fold. rewrite collect_flags_fold, (right_id_L ∅ (∪)) in Hm'. by rewrite Hm'.
Qed.

(** After an update of the locked types every row of the room has them. *)
Lemma update_locked_rows id m c db room db' row found kind :
  RoomDb.UpdateQuery.execute (RoomDb.UpdateQuery.locked_types m (RoomDb.UpdateQuery.new id)) c db = (Ok room, db') ->
  row ∈ db_rooms db' -> rr_id row = id -> try_from_db_object row = Ok found -> m !! kind = Some true ->
  has_locked_type found kind = true.
Proof.
  unfold RoomDb.UpdateQuery.execute. simpl. destruct (list_first _ _) as [r0|]; [|done]. intros [= _ <-].
  intros (y & -> & Hy)%list_elem_of_fmap Hid Hfound Hm. case_bool_decide as Hyid; simpl in Hid; [|done].
  unfold try_from_db_object in Hfound.
  match type of Hfound with context [rr_locked_types ?r] =>
    assert (Hl : rr_locked_types r = locked_types_to_value (RoomDb.UpdateQuery.retain m)) by done end.
  rewrite Hl, locked_types_roundtrip in Hfound. cbn [ok_or result_bind] in Hfound.
  apply result_bind_Ok in Hfound as (wa & _ & [= <-]). unfold has_locked_type. simpl.
  apply bool_decide_eq_true. by apply retain_lookup.
Qed.

(** An event that needs the update of the room is refused without it. *)
Lemma create_refused context req reqp n w :
  (forall room, found_room n (w_db w) (cr_room_id req) Open room ->
     event_should_authz_room_update room (cp_kind (cr_payload req)) (as_account_id reqp) = true) ->
  no_update n (as_account_id reqp) ->
  exists e w', CreateHandler.handle context req reqp n w = (Err e, w') /\ same_state w w'.
Proof.
  intros Hroom Hno. unfold CreateHandler.handle.
  rewrite bind_exec. destruct (find_room (cr_room_id req) Open n w) as [[room|e] w1] eqn:E1.
  - apply find_room_Ok in E1 as [Hfound Hs1].
    rewrite bind_exec. destruct (CreateHandler.find_author room (cr_payload req) reqp n w1) as [[author|e] w2] eqn:E2;
      pose proof (quiet_Ok _ _ _ _ _ E2 (quiet_find_author _ _ _)) as Hs2;
      [|exists e, w2; split; [done|by etrans]].
    unfold CreateHandler.create_intent. rewrite Hroom by done.
    destruct (Hno (w_tick w2) (room_audience room) (authz_object room)) as [e He].
    rewrite bind_exec. unfold authorize, authz_object_new at 1. rewrite once_exec. simpl. rewrite He. do 2 eexists. split; [done|].
    etrans; [exact Hs1|]. etrans; [exact Hs2|done].
  - exists e, w1. split; [done|]. by apply (quiet_Ok _ _ _ _ _ E1), quiet_find_room.
Qed.
End Locked.

Section Banned.
Context `{Externals, EventCodec, !UuidLaws}.

(** Whether the account is banned in the room. *)
Definition banned_in (db : database) (account : account_id) (room : uuid) : bool :=
  existsb (BanQueries.is_ban account room) (db_bans db).

Lemma ban_insert_Ok account room reason c db b db' :
  BanQueries.insert account room reason c db = (Ok b, db') -> banned_in db' account room = true.
Proof.
  unfold BanQueries.insert, banned_in. destruct (list_first _ _) as [x|] eqn:Ef.
  - intros [= _ <-]. apply list_first_Some in Ef as [Hx Hp]. apply existsb_exists. exists x.
    by rewrite <-list_elem_of_In.
  - repeat (case_match; [done|]). case_match; [|done]. intros [= _ <-]. simpl. rewrite existsb_app. simpl.
    unfold BanQueries.is_ban at 2. simpl. rewrite !bool_decide_eq_true_2 by done. apply orb_true_r.
Qed.

Lemma ban_delete_Ok account room c db k db' :
  BanQueries.delete account room c db = (Ok k, db') -> banned_in db' account room = false.
Proof.
  unfold BanQueries.delete, banned_in. intros [= _ <-]. simpl. apply not_true_iff_false.
  intros (b & [_ Hb]%list_elem_of_In%elem_of_lfilter & Hb')%existsb_exists. by rewrite Hb' in Hb.
Qed.

(** The transaction leaves the ban as asked for, and the other tables' rooms. *)
Lemma write_ban_Ok room req reqp n w w' :
  AgentUpdateHandler.write_ban room req reqp n w = (Ok tt, w') ->
  banned_in (w_db w') (AgentUpdateHandler.ur_account_id req) (AgentUpdateHandler.ur_room_id req)
  = AgentUpdateHandler.ur_value req /\ w_trace w' = w_trace w.
Proof.
  unfold AgentUpdateHandler.write_ban, transaction_app. rewrite transaction_exec.
  destruct (acquire n w) as [[u|e1] w1] eqn:Ea; [|done].
  assert (same_state w w1) as [Hda Hta].
  { rewrite acquire_exec in Ea. destruct (t_fault _); simplify_eq. done. }
  match goal with |- context [match ?m n w1 with _ => _ end] => destruct (m n w1) as [[[]|e1] w2] eqn:E end; [|done].
  destruct (acquire n w2) as [[u'|e1] w3] eqn:Ea'; [|done]. intros [= <-].
  assert (same_state w2 w3) as [-> ->].
  { rewrite acquire_exec in Ea'. destruct (t_fault _); simplify_eq. done. }
  apply bind_Ok in E as ([] & w4 & E1 & E). apply bind_Ok in E as (t & w5 & [_ [Hd5 Ht5]]%now_Ok & E).
  apply error_Ok, run_op_Ok in E as (k & (opened_at & _ & row & Hdb & _)%insert_account_ban_event_Ok & Ht).
  assert (Hb : banned_in (w_db w2) (AgentUpdateHandler.ur_account_id req) (AgentUpdateHandler.ur_room_id req)
    = banned_in (w_db w4) (AgentUpdateHandler.ur_account_id req) (AgentUpdateHandler.ur_room_id req)).
  { unfold banned_in. by rewrite Hdb, Hd5. }
  rewrite Hb. destruct (AgentUpdateHandler.ur_value req);
    apply bind_Ok in E1 as (x & w6 & (k6 & Hq & Ht6)%query_app_Ok & [= <-]).
  - split; [by apply ban_insert_Ok in Hq|congruence].
  - split; [by apply ban_delete_Ok in Hq|congruence].
Qed.

(** The connection and the statement the callback makes next go through. *)
Definition callback_reads (n : env) (w : world) : bool :=
  is_none (t_fault (e_tick n (w_tick w))) && is_none (t_fault (e_tick n (S (w_tick w)))).

(** The callback reads the bans of the classroom's latest endless room. *)
Lemma db_ban_callback_spec {E} account classroom rest row n w :
  BanQueries.classroom_room classroom (w_db w) = Some row ->
  (db_ban_callback (E := E) account
     (authz_object_new ("classrooms"%string :: uuid_to_string classroom :: "events"%string :: rest)) n w).1
  = Ok (negb (bool_decide (rest = [])) && callback_reads n w && banned_in (w_db w) account (rr_id row)).
Proof.
  intros Hrow. unfold db_ban_callback, authz_object_new, banned_in, callback_reads. cbn [to_ban_key to_vec].
  destruct rest as [|x rest]; [done|]. rewrite !bool_decide_eq_true_2 by done. simpl.
  rewrite uuid_parse_to_string. rewrite bind_exec, attempt_exec, acquire_exec.
  destruct (t_fault (e_tick n (w_tick w))); [done|]. simpl. rewrite bind_exec, attempt_exec, run_exec. simpl.
  destruct (t_fault (e_tick n (S (w_tick w)))); [done|].
  unfold BanQueries.classroom_find, select. simpl. rewrite Hrow. unfold ret. simpl. do 2 f_equal.
  induction (db_bans (w_db w)) as [|b l IH]; simpl; [done|]. by destruct (BanQueries.is_ban _ _ b).
Qed.
End Banned.

(** ** Properties *)

Section Properties.
Context `{Externals, EventCodec}.

(** C18: a locked type is enforced.  Once a request that locks a type in a room has
    succeeded, a caller that is not allowed to update the room cannot create an
    event of the type in it, as long as the rooms are read from the primary or from
    a replica that has caught up on them: the request fails, and changes nothing. *)
Theorem locked_type_enforced (context : Context) (id : uuid) (flags : gmap string bool) (reqp : RequestParams)
    (n : env) (w w1 : world) (r : Response) (n' : env) (req : CreateRequest) (reqp' : RequestParams) :
  RoomAccessHandlers.locked_types context id flags reqp n w = (Ok r, w1) ->
  flags !! cp_kind (cr_payload req) = Some true -> cr_room_id req = id ->
  (forall k, db_rooms (served n' k (w_db w1)) = db_rooms (w_db w1)) -> no_update n' (as_account_id reqp') ->
  exists e w2, CreateHandler.handle context req reqp' n' w1 = (Err e, w2) /\ same_state w1 w2.
Proof.
  intros E Hflag Hid Hrep Hno. apply create_refused; [|done].
  intros found [(k & row & Hrow & Hrid & Hfound) _]. rewrite Hrep in Hrow. rewrite Hid in Hrid.
  unfold RoomAccessHandlers.locked_types in E.
  apply bind_Ok in E as (room & w2 & [Hroom _]%find_room_Ok & E). pose proof (found_room_id _ _ _ _ _ Hroom) as Hrm.
  apply bind_Ok in E as (d & w3 & _ & E). apply bind_Ok in E as (room' & w4 & E & [= _ <-]).
  unfold RoomAccessHandlers.update_flags in E. apply bind_Ok in E as (u & w5 & _ & E).
  apply transaction_Ok in E as (w6 & w7 & _ & Hd7 & (k7 & Hq & _)%query_app_Ok). rewrite Hrm in Hq.
  unfold event_should_authz_room_update. apply orb_true_iff. left.
  rewrite Hd7 in Hrow. apply (update_locked_rows _ _ _ _ _ _ _ _ _ Hq Hrow Hrid Hfound).
  rewrite chain_flags_union. by apply lookup_union_Some_l.
Qed.

(** C19: a ban is enforced, and lifted.  Once a request that bans an account in a
    room, or lifts the ban, has succeeded, and as long as the room is the latest
    endless one of its classroom, the ban callback answers for every object of the
    classroom's events exactly what was asked for, unless its connection or its
    statement fails: then it answers that the account is not banned.  The cache of
    the authorization was told the same, once, in the audience of the room and under
    the key the callback's objects of the room's classroom have. *)
Theorem ban_enforced `{!UuidLaws} (context : Context) (req : AgentUpdateHandler.UpdateRequest)
    (reqp : RequestParams) (n : env) (w w1 : world) (r : Response) (n' : env) (classroom : uuid) (row : room_row)
    (kind : string) (rest : list string) :
  AgentUpdateHandler.handle context req reqp n w = (Ok r, w1) ->
  BanQueries.classroom_room classroom (w_db w1) = Some row -> rr_id row = AgentUpdateHandler.ur_room_id req ->
  let object id := authz_object_new ("classrooms"%string :: uuid_to_string id :: "events"%string :: kind :: rest) in
  (db_ban_callback (E := ErrorKind) (AgentUpdateHandler.ur_account_id req) (object classroom) n' w1).1
  = Ok (callback_reads n' w1 && AgentUpdateHandler.ur_value req) /\
  exists room, found_room n (w_db w) (AgentUpdateHandler.ur_room_id req) Open room /\
    let key := ["classrooms"%string; uuid_to_string (room_classroom_id room); "events"%string] in
    to_ban_key (object (room_classroom_id room)) = Some key /\
    w_trace w1 = w_trace w ++
      [CacheBan (room_audience room) (AgentUpdateHandler.ur_account_id req) key (AgentUpdateHandler.ur_value req)
         (ban_duration (config context))].
Proof.
  intros E Hrow Hid object. unfold object. rewrite (db_ban_callback_spec _ _ (kind :: rest) row) by done. rewrite Hid. simpl.
  unfold AgentUpdateHandler.handle in E.
  apply bind_Ok in E as (room & w2 & [Hroom [_ Ht2]]%find_room_Ok & E).
  apply bind_Ok in E as (d & w3 & [_ [_ Ht3]]%authorize_Ok & E).
  apply bind_Ok in E as (u & w4 & [_ Ht4]%conn_Ok & E).
  apply bind_Ok in E as ([] & w5 & [Hban Ht5]%write_ban_Ok & E).
  unfold authz_ban in E. rewrite bind_exec, once_exec in E. injection E as _ <-. simpl. split; [by rewrite <-Hban|].
  exists room. split; [done|]. split; [done|].
  rewrite Ht5, Ht4, Ht3, Ht2. reflexivity.
Qed.
End Properties.

(** ** Samples *)

#[export] Instance sample_uuid_laws : UuidLaws.
Proof.
  intros id. simpl. rewrite NilZero.usu; [simpl; by rewrite DecimalN.Unsigned.of_to|].
  intros Hn. pose proof (DecimalN.Unsigned.of_to id) as Hi. rewrite Hn in Hi. subst. discriminate Hn.
Qed.

(** Everything is allowed but updates. *)
Definition no_update_env : env :=
  Env (e_tick sample_env)
    (fun _ _ _ _ action => if bool_decide (action = "update"%string) then Err Forbidden else Ok 0)
    None (fun _ => true) (fun _ => true).

Definition lock_message : gmap string bool := {["message"%string := true]}.

Abbreviation sample_lock := (RoomAccessHandlers.locked_types sample_context 1%N lock_message (Http sample_agent)
                               sample_env sample_world).

Lemma sample_lock_run : exists r w', sample_lock = (Ok r, w').
Proof.
  assert (Hok : is_ok sample_lock.1 = true) by (vm_compute; reflexivity).
  destruct sample_lock as [[r|e] w']; [by do 2 eexists|discriminate Hok].
Qed.

(** Locking messages in room 1. *)
Lemma locked_type_enforced_witness :
  exists r w1 e w2, sample_lock = (Ok r, w1) /\
    CreateHandler.handle sample_context sample_create_request (Http sample_agent) no_update_env w1 = (Err e, w2) /\
    same_state w1 w2.
Proof.
  destruct sample_lock_run as (r & w1 & Hrun).
  destruct (locked_type_enforced sample_context 1%N lock_message (Http sample_agent) sample_env sample_world w1 r
    no_update_env sample_create_request (Http sample_agent) Hrun) as (e & w2 & Hc & Hs);
    [vm_compute; reflexivity|reflexivity|intros k; reflexivity|intros k audience object; eexists; reflexivity|].
  exists r, w1, e, w2. split; [exact Hrun|]. split; [exact Hc|exact Hs].
Defined.

(** A replica that still holds the room without the lock lets the event through. *)
Example lagging_replica_creates :
  let lagging := Env (e_tick sample_env) (e_authorize no_update_env) (Some (fun _ _ => sample_db))
                   (fun _ => true) (fun _ => true) in
  is_ok (CreateHandler.handle sample_context sample_create_request (Http sample_agent) lagging sample_lock.2).1 = true.
Proof. vm_compute. reflexivity. Qed.

Definition sample_ban : AgentUpdateHandler.UpdateRequest :=
  AgentUpdateHandler.MkUpdateRequest 1%N (AccountId "other" "example.org") true None.

Abbreviation sample_ban_update := (AgentUpdateHandler.handle sample_context sample_ban (Http sample_agent)
                                     sample_env sample_world).

Lemma sample_ban_run :
  exists r w', sample_ban_update = (Ok r, w') /\ BanQueries.classroom_room 7%N (w_db w') = Some sample_room_row.
Proof.
  assert (Hok : is_ok sample_ban_update.1 = true) by (vm_compute; reflexivity).
  assert (Hroom : BanQueries.classroom_room 7%N (w_db sample_ban_update.2) = Some sample_room_row)
    by (vm_compute; reflexivity).
  destruct sample_ban_update as [[r|e] w']; [by do 2 eexists|discriminate Hok].
Qed.

(** Banning an account in room 1. *)
Lemma ban_enforced_witness :
  exists r w1, sample_ban_update = (Ok r, w1) /\
    (db_ban_callback (E := ErrorKind) (AccountId "other" "example.org")
       (authz_object_new ["classrooms"; "7"; "events"; "message"]%string) sample_env w1).1 = Ok true.
Proof.
  destruct sample_ban_run as (r & w1 & Hrun & Hroom).
  destruct (ban_enforced sample_context sample_ban (Http sample_agent) sample_env sample_world w1 r sample_env 7%N
    sample_room_row "message" [] Hrun Hroom eq_refl) as [Hcb _].
  exists r, w1. split; [exact Hrun|exact Hcb].
Defined.

(** The room gets a closing time: its bans are not seen by the callback any more. *)
Example ban_of_closing_room :
  let row := RoomRow 1%N "example.org" None (Included nanos_per_sec, Excluded (500 * nanos_per_sec)) None 0 false 7%N
               (JObject []) (JObject []) Minigroup in
  let w := World (with_rooms (fun _ => [row]) empty_database) 0 [] [] in
  let '(r, w1) := AgentUpdateHandler.handle sample_context sample_ban (Http sample_agent) sample_env w in
  is_ok r = true /\ length (db_bans (w_db w1)) = 1%nat /\
  (db_ban_callback (E := ErrorKind) (AccountId "other" "example.org")
     (authz_object_new ["classrooms"; "7"; "events"; "message"]%string) sample_env w1).1 = Ok false.
Proof. vm_compute. repeat split. Qed.
