(* ===== verification/Router.v ===== *)
(** * Routing of requests

    [src/src/app/endpoint/mod.rs], [src/src/app/message_handler.rs] and the route
    table of [src/src/app/http.rs]: the dispatch of a request to its handler, the
    decoding of its payload, and the messages that answer it.  The theorems of
    this file are about everything the service serves: requests, events of the
    broker, and the NATS stream. *)

From S2P Require Import Prelude Times Types Db Sample EventDb SetState RoomDb EditionDb AgentDb Integrity Effects AdjustRoom CommitEdition Errors Service EventEndpoint AgentEndpoint EditionEndpoint RoomEndpoint Http.
From S2P Require NatsConsumer.

(** ** Handlers *)

(** The types that implement [RequestHandler]. *)
Inductive RequestHandler : Type :=
  | AgentList | AgentUpdate | BanList
  | ChangeCreate | ChangeDelete | ChangeList
  | EditionCommit | EditionCreate | EditionList | EditionDelete
  | EventCreate | EventList
  | RoomAdjust | RoomCreate | RoomDumpEvents | RoomEnter | RoomLockedTypes | RoomRead | RoomUpdate
  | RoomWhiteboardAccess
  | StateRead
  | SystemVacuum.

#[export] Instance request_handler_eq_dec : EqDecision RequestHandler.
Proof. solve_decision. Defined.

(** [RequestHandler::Payload]. *)
Definition PayloadOf (h : RequestHandler) : Type :=
  match h with
  | AgentList => AgentListHandler.ListRequest
  | AgentUpdate => AgentUpdateHandler.UpdateRequest
  | BanList => uuid
  | ChangeCreate => ChangeCreateHandler.CreateRequest
  | ChangeDelete => uuid
  | ChangeList => ChangeListHandler.ListRequest
  | EditionCommit => EditionCommitHandler.CommitRequest
  | EditionCreate => uuid
  | EditionList => EditionListHandler.ListRequest
  | EditionDelete => uuid
  | EventCreate => EventEndpoint.CreateRequest
  | EventList => EventEndpoint.ListRequest
  | RoomAdjust => RoomAdjustHandler.AdjustRequest
  | RoomCreate => RoomCreateHandler.CreateRequest
  | RoomDumpEvents => uuid
  | RoomEnter => uuid
  | RoomLockedTypes => uuid * gmap string bool
  | RoomRead => uuid
  | RoomUpdate => RoomUpdateHandler.UpdateRequest
  | RoomWhiteboardAccess => uuid * gmap account_id bool
  | StateRead => EventEndpoint.ReadRequest
  | SystemVacuum => unit
  end.

(** [svc_agent] and [serde]: the payload a body decodes to, the query string of
    [state.read]. *)
Class PayloadCodec : Type := {
  convert_payload : forall h, string -> option (PayloadOf h);
  payload_query_string :: State.QueryString
}.

(** The types that implement [EventHandler], and the routes of events. *)
Inductive EventHandler : Type := DeleteEventHandler | BroadcastDeleteEventHandler.
Definition event_routes : list (string * EventHandler) :=
  [("subscription.delete", DeleteEventHandler); ("broadcast_subscription.delete", BroadcastDeleteEventHandler)]%string.

(** [RequestHandler::handle]. *)
Definition handle `{Externals, EventCodec} (context : Context) (h : RequestHandler)
    : PayloadOf h -> RequestParams -> M ErrorKind Response :=
  match h with
  | AgentList => AgentListHandler.handle context
  | AgentUpdate => AgentUpdateHandler.handle context
  | BanList => BanListHandler.handle context
  | ChangeCreate => ChangeCreateHandler.handle context
  | ChangeDelete => ChangeDeleteHandler.handle context
  | ChangeList => ChangeListHandler.handle context
  | EditionCommit => EditionCommitHandler.handle context
  | EditionCreate => EditionCreateHandler.handle context
  | EditionList => EditionListHandler.handle context
  | EditionDelete => EditionDeleteHandler.handle context
  | EventCreate => CreateHandler.handle context
  | EventList => ListHandler.handle context
  | RoomAdjust => RoomAdjustHandler.handle context
  | RoomCreate => RoomCreateHandler.handle context
  | RoomDumpEvents => DumpEvents.handle context
  | RoomEnter => RoomEnterHandler.handle context
  | RoomLockedTypes => fun p => RoomAccessHandlers.locked_types context p.1 p.2
  | RoomRead => RoomReadHandler.handle context
  | RoomUpdate => RoomUpdateHandler.handle context
  | RoomWhiteboardAccess => fun p => RoomAccessHandlers.whiteboard_access context p.1 p.2
  | StateRead => ReadHandler.handle context
  | SystemVacuum => fun _ => Vacuum.handle context
  end.

(** The routes: the method of a request. *)
Definition request_routes : list (string * RequestHandler) :=
  [("agent.list", AgentList); ("agent.update", AgentUpdate); ("ban.list", BanList);
   ("change.create", ChangeCreate); ("change.delete", ChangeDelete); ("change.list", ChangeList);
   ("edition.commit", EditionCommit); ("edition.create", EditionCreate); ("edition.list", EditionList);
   ("edition.delete", EditionDelete); ("event.create", EventCreate); ("event.list", EventList);
   ("room.adjust", RoomAdjust); ("room.create", RoomCreate); ("room.dump_events", RoomDumpEvents);
   ("room.enter", RoomEnter); ("room.locked_types", RoomLockedTypes); ("room.read", RoomRead);
   ("room.update", RoomUpdate); ("state.read", StateRead); ("system.vacuum", SystemVacuum)]%string.

(** The routes of the HTTP interface: the verb, the path and the handler. *)
Definition http_routes : list (string * string * RequestHandler) :=
  [("POST", "/rooms", RoomCreate); ("GET", "/rooms/:id", RoomRead); ("PATCH", "/rooms/:id", RoomUpdate);
   ("POST", "/rooms/:id/adjust", RoomAdjust); ("POST", "/rooms/:id/enter", RoomEnter);
   ("POST", "/rooms/:id/locked_types", RoomLockedTypes);
   ("POST", "/rooms/:id/whiteboard_access", RoomWhiteboardAccess);
   ("POST", "/rooms/:id/dump_events", RoomDumpEvents);
   ("GET", "/rooms/:id/events", EventList); ("POST", "/rooms/:id/events", EventCreate);
   ("GET", "/rooms/:id/state", StateRead);
   ("GET", "/rooms/:id/agents", AgentList); ("PATCH", "/rooms/:id/agents", AgentUpdate);
   ("GET", "/rooms/:id/editions", EditionList); ("POST", "/rooms/:id/editions", EditionCreate);
   ("GET", "/rooms/:id/bans", BanList); ("DELETE", "/editions/:id", EditionDelete);
   ("POST", "/editions/:id/commit", EditionCommit); ("GET", "/editions/:id/changes", ChangeList);
   ("POST", "/editions/:id/changes", ChangeCreate); ("DELETE", "/changes/:id", ChangeDelete)]%string.

(** What the extractors of the endpoint give: the identifier of the path, the
    payload of the body or of the query string.  The vacuum has no endpoint. *)
Definition HttpPayload (h : RequestHandler) : Type :=
  match h with
  | AgentList => uuid * Agents.ListPayload
  | AgentUpdate => uuid * Agents.UpdatePayload
  | BanList => uuid
  | ChangeCreate => uuid * Changeset
  | ChangeDelete => uuid
  | ChangeList => uuid * Changes.ListPayload
  | EditionCommit => uuid * Z
  | EditionCreate => uuid
  | EditionList => uuid * Editions.ListPayload
  | EditionDelete => uuid
  | EventCreate => uuid * CreatePayload
  | EventList => uuid * Events.ListPayload
  | RoomAdjust => uuid * Rooms.AdjustPayload
  | RoomCreate => RoomCreateHandler.CreateRequest
  | RoomDumpEvents => uuid
  | RoomEnter => uuid * option string
  | RoomLockedTypes => uuid * gmap string bool
  | RoomRead => uuid
  | RoomUpdate => uuid * Rooms.UpdatePayload
  | RoomWhiteboardAccess => uuid * gmap account_id bool
  | StateRead => uuid * option string
  | SystemVacuum => Empty_set
  end.

(** The endpoint of a handler. *)
Definition endpoint `{Externals, EventCodec, State.QueryString} (context : Context) (h : RequestHandler)
    (agent : agent_id) : HttpPayload h -> M ErrorKind Response :=
  match h with
  | AgentList => fun p => Agents.list context agent p.1 p.2
  | AgentUpdate => fun p => Agents.update context agent p.1 p.2
  | BanList => Bans.list context agent
  | ChangeCreate => fun p => Changes.create context agent p.1 p.2
  | ChangeDelete => Changes.delete context agent
  | ChangeList => fun p => Changes.list context agent p.1 p.2
  | EditionCommit => fun p => Editions.commit context agent p.1 p.2
  | EditionCreate => Editions.create context agent
  | EditionList => fun p => Editions.list context agent p.1 p.2
  | EditionDelete => Editions.delete context agent
  | EventCreate => fun p => Events.create context agent p.1 p.2
  | EventList => fun p => Events.list context agent p.1 p.2
  | RoomAdjust => fun p => Rooms.adjust context agent p.1 p.2
  | RoomCreate => Rooms.create context agent
  | RoomDumpEvents => Rooms.dump_events context agent
  | RoomEnter => fun p => Rooms.enter context agent p.1 p.2
  | RoomLockedTypes => fun p => Rooms.locked_types context agent p.1 p.2
  | RoomRead => Rooms.read context agent
  | RoomUpdate => fun p => Rooms.update context agent p.1 p.2
  | RoomWhiteboardAccess => fun p => Rooms.whiteboard_access context agent p.1 p.2
  | StateRead => fun p => State.read context agent p.1 p.2
  | SystemVacuum => fun p => match p with end
  end.

(** ** Messages *)

Inductive Message : Type :=
  | Broadcast (notification : Notification)
  | OutgoingResponse (status : Z) (payload : Payload)
  | ErrorResponse (status : Z) (kind : ErrorKind).

Definition error_response (err : ErrorKind) : list Message := [ErrorResponse (Errors.status err) err].

(** [AsyncTasks::into_stream]: a task that failed is left out. *)
Definition tasks_stream (tasks : list (option Notification)) : list Message := Broadcast <$> omap id tasks.

(** [Response::into_mqtt_messages]. *)
Definition into_mqtt_messages (r : Response) : list Message :=
  (Broadcast <$> notifications r)
  ++ (if resp_status r =? NO_CONTENT then [] else [OutgoingResponse (resp_status r) (resp_payload r)])
  ++ tasks_stream (async_tasks r).

Section Requests.
Context `{Externals, EventCodec, PayloadCodec}.

(** [RequestEnvelopeHandler::handle_envelope]. *)
Definition handle_envelope {E} (context : Context) (h : RequestHandler) (body : string) (reqp : agent_id)
    : M E (list Message) :=
  match convert_payload h body with
  | Some payload =>
    app_result <~ attempt (handle context h payload (MqttParams reqp));
    match app_result with
    | Ok r => ret (into_mqtt_messages r)
    | Err app_error => notify_sentry app_error;; ret (error_response app_error)
    end
  | None => ret (error_response InvalidPayload)
  end.

Definition route (method : string) : option RequestHandler :=
  snd <$> list_first (fun p => bool_decide (p.1 = method)) request_routes.

(** [route_request], [handle_request]: the messages to publish. *)
Definition handle_request {E} (context : Context) (method body : string) (reqp : agent_id) : M E (list Message) :=
  match route method with
  | Some h => handle_envelope context h body reqp
  | None => ret (error_response UnknownMethod)
  end.

(** [IntoResponse for Response]: the notifications are published, the answer is sent. *)
Definition into_response (r : Response) : list Message * (Z * Payload) :=
  ((Broadcast <$> notifications r) ++ tasks_stream (async_tasks r), (resp_status r, resp_payload r)).

(** An HTTP request. *)
Definition handle_http (context : Context) (h : RequestHandler) (payload : HttpPayload h) (agent : agent_id)
    : M ErrorKind (list Message * (Z * Payload)) :=
  r <~ endpoint context h agent payload;
  ret (into_response r).

(** [EventHandler::handle]. *)
Definition handle_event_payload (context : Context) (h : EventHandler) : DeleteEventPayload -> account_id ->
    M ErrorKind (list Notification) :=
  match h with
  | DeleteEventHandler => subscription_delete context
  | BroadcastDeleteEventHandler => broadcast_subscription_delete context
  end.

(** [EventEnvelopeHandler::handle_envelope]: a payload that cannot be read and a handler
    that fails give no message. *)
Definition event_envelope {E} (context : Context) (h : EventHandler) (payload : option DeleteEventPayload)
    (evp : account_id) : M E (list Message) :=
  match payload with
  | Some payload =>
    app_result <~ attempt (handle_event_payload context h payload evp);
    match app_result with
    | Ok l => ret (Broadcast <$> l)
    | Err app_error => notify_sentry app_error;; ret []
    end
  | None => ret []
  end.

Definition route_event {E} (context : Context) (label : string) (payload : option DeleteEventPayload)
    (evp : account_id) : M E (option (list Message)) :=
  match snd <$> list_first (fun p => bool_decide (p.1 = label)) event_routes with
  | Some h => messages <~ event_envelope context h payload evp; ret (Some messages)
  | None => ret None
  end.

(** [handle_event]: nothing for an event no handler expects. *)
Definition handle_event {E} (context : Context) (label : option string) (payload : option DeleteEventPayload)
    (evp : account_id) : M E (list Message) :=
  match label with
  | Some label => messages <~ route_event context label payload evp; ret (default [] messages)
  | None => ret []
  end.

(** [ResponseEnvelopeHandler::handle_envelope], which no handler is used with: a
    [ResponseHandler] is its payload's reader and its [handle]. *)
Definition response_envelope {P CD E} (convert_payload : string -> option P) (handle : P -> CD -> M ErrorKind (list Message))
    (response : string) (corr_data : CD) : M E (list Message) :=
  match convert_payload response with
  | Some payload =>
    app_result <~ attempt (handle payload corr_data);
    match app_result with
    | Ok l => ret l
    | Err app_error => notify_sentry app_error;; ret []
    end
  | None => ret []
  end.

End Requests.

(** Everything the service is asked to do. *)
Inductive Request `{PayloadCodec, NatsConsumer.NatsCrates} : Type :=
  | MqttRequest (method body : string) (reqp : agent_id)
  | HttpRequest (h : RequestHandler) (payload : HttpPayload h) (agent : agent_id)
  | MqttEvent (label : option string) (payload : option DeleteEventPayload) (evp : account_id)
  | NatsStream (cfg : NatsConsumer.Config) (messages : list NatsConsumer.turn).

(** What comes of it: the messages that are published, the answer of the HTTP
    interface, the log of the consumer. *)
Inductive Outcome `{NatsConsumer.NatsCrates} : Type :=
  | Publishes (messages : result ErrorKind (list Message))
  | Answers (answer : result ErrorKind (list Message * (Z * Payload)))
  | Consumes (reason : option NatsConsumer.CompletionReason) (log : list NatsConsumer.action).

(** The computation that serves a request.  The task a handler spawns is the last
    thing it does, and runs on in the session of the request. *)
Definition session `{Externals, EventCodec, PayloadCodec, NatsConsumer.NatsCrates} (context : Context) (r : Request)
    : M Empty_set Outcome :=
  match r with
  | MqttRequest method body reqp => r <~ attempt (handle_request context method body reqp); ret (Publishes r)
  | HttpRequest h payload agent => r <~ attempt (handle_http context h payload agent); ret (Answers r)
  | MqttEvent label payload evp => r <~ attempt (handle_event context label payload evp); ret (Publishes r)
  | NatsStream cfg messages => r <~ NatsConsumer.handle_stream cfg messages; ret (Consumes r.1 r.2)
  end.

Definition asks_vacuum `{PayloadCodec, NatsConsumer.NatsCrates} (r : Request) : bool :=
  match r with
  | MqttRequest method _ _ => bool_decide (method = "system.vacuum"%string)
  | _ => false
  end.

(** A request served alone. *)
Definition serve `{Externals, EventCodec, PayloadCodec, NatsConsumer.NatsCrates} (context : Context) (r : Request)
    (n : env) (w : world) : world := (total (session context r) n w).2.

Definition is_answer (m : Message) : bool := match m with Broadcast _ => false | _ => true end.

(** ** Lemmas *)

Section Lemmas.
Context `{Externals, EventCodec, PayloadCodec}.

(** An endpoint hands a request to the handler, or fails. *)
Lemma endpoint_cases context h agent (p : HttpPayload h) :
  h <> SystemVacuum /\
  ((exists p' agent', endpoint context h agent p = handle context h p' (Http agent')) \/
   exists e, endpoint context h agent p = fail e).
Proof.
  destruct h; (split; [done|]); simpl in p; try (left; eexists _, agent; reflexivity); [..|done].
  - destruct p as [id [label|]]; [|right; by eexists]. left. by eexists id, _.
  - unfold endpoint, State.read. destruct (State.qs_from_str _); [|right; by eexists]. left. by eexists _, agent.
Qed.

Lemma agent_action_steps now room action agent :
  forall c db, rtc lasting_step db (insert_agent_action now room action agent c db).2.
Proof.
  intros c db. unfold insert_agent_action. destruct (room_opening room); [|done].
  destruct (EventDb.InsertQuery.new _ _ _ _ _) as [q|] eqn:Eq; [|done]. apply new_event_kind in Eq.
  assert (rtc lasting_step db (EventDb.InsertQuery.execute q c db).2) as Hs by (apply event_insert_steps; by rewrite Eq). by destruct (EventDb.InsertQuery.execute q c db) as [[] ?].
Qed.

Lemma account_ban_steps now room account value reason agent :
  forall c db, rtc lasting_step db (insert_account_ban_event now room account value reason agent c db).2.
Proof.
  intros c db. unfold insert_account_ban_event. destruct (room_opening room); [|done].
  destruct (EventDb.InsertQuery.new _ _ _ _ _) as [q|] eqn:Eq; [|done]. apply new_event_kind in Eq.
  assert (rtc lasting_step db (EventDb.InsertQuery.execute q c db).2) as Hs by (apply event_insert_steps; by rewrite Eq). by destruct (EventDb.InsertQuery.execute q c db) as [[] ?].
Qed.

#[local] Hint Resolve agent_action_steps account_ban_steps adjust_steps CommitEdition.call_steps : effects.

Lemma create_event_steps room id payload t reqp : steps (CreateHandler.create_event room id payload t reqp).
Proof.
  unfold CreateHandler.create_event. case_match; [|by_handler].
  apply (bind_respects_with _ (fun q => EventDb.InsertQuery.iq_entity_type q = None)).
  - unfold CreateHandler.insert_query. destruct (EventDb.InsertQuery.new _ _ _ _ _) as [q|] eqn:Eq; [|done].
    apply new_event_kind in Eq. by destruct (cp_set payload), (cp_label payload), (cp_attribute payload), (cp_removed payload).
  - unfold CreateHandler.insert_query. by_handler.
  - intros q Hq. assert (query_steps (EventDb.InsertQuery.execute q)) by (apply event_insert_steps; by rewrite Hq).
    by_handler.
Qed.

Lemma read_sets_steps room req moment sets state : steps (ReadHandler.read_sets room req moment sets state).
Proof. revert state. induction sets as [|set sets IH]; intros state; simpl; by_handler; apply IH. Qed.

Lemma put_object_steps destination room events : steps (DumpEvents.put_object destination room events).
Proof. apply uses_once. intros n w. simpl. by destruct (e_storage _ _). Qed.

#[local] Hint Resolve put_object_steps : effects.

Lemma upload_loop_steps retries destination room events :
  steps (DumpEvents.upload_loop retries destination room events).
Proof. induction retries as [|retries IH]; simpl; by_handler. Qed.

Lemma enter_steps context id reqp : steps (RoomEnterHandler.handle context id reqp).
Proof.
  unfold RoomEnterHandler.handle, RoomEnterHandler.register, RoomEnterHandler.make_ready. by_handler.
Qed.

#[local] Hint Resolve create_event_steps read_sets_steps upload_loop_steps enter_steps : effects.

Lemma handle_lasting context h p reqp : h <> SystemVacuum -> steps (handle context h p reqp).
Proof.
  destruct h; try done; intros _; simpl.
  all: unfold AgentListHandler.handle, AgentUpdateHandler.handle, AgentUpdateHandler.write_ban,
    BanListHandler.handle, ChangeCreateHandler.handle, ChangeDeleteHandler.handle, ChangeListHandler.handle,
    EditionCommitHandler.handle, EditionCommitHandler.task, EditionCreateHandler.handle, EditionListHandler.handle,
    EditionDeleteHandler.handle, CreateHandler.handle, CreateHandler.find_author, ListHandler.handle,
    RoomAdjustHandler.handle, RoomAdjustHandler.task, RoomCreateHandler.handle, DumpEvents.handle, DumpEvents.task,
    DumpEvents.call, DumpEvents.load_room_events, DumpEvents.upload_events, RoomAccessHandlers.locked_types,
    RoomAccessHandlers.whiteboard_access, RoomAccessHandlers.update_flags, RoomReadHandler.handle,
    RoomUpdateHandler.handle, RoomUpdateHandler.new_time, ReadHandler.handle,
    find_edition, authorize_update, authorize_read.
  all: by_handler.
Qed.

Lemma handle_steps context h p reqp : any_steps (handle context h p reqp).
Proof.
  destruct (decide (h = SystemVacuum)) as [->|Hh]; [|by apply steps_any, handle_lasting].
  simpl. unfold Vacuum.handle, Vacuum.call. by_handler.
Qed.

Lemma subscription_steps context payload evp : steps (subscription_delete context payload evp).
Proof. unfold subscription_delete. by_handler. Qed.

Lemma broadcast_steps context payload evp : steps (broadcast_subscription_delete context payload evp).
Proof. unfold broadcast_subscription_delete. by_handler. Qed.

#[local] Hint Resolve handle_steps subscription_steps broadcast_steps : effects.

Lemma session_steps `{NatsConsumer.NatsCrates} context r : any_steps (session context r).
Proof.
  destruct r; simpl; (apply bind_respects; [|done]);
    [..|apply steps_any, NatsConsumer.handle_turns_steps]; apply attempt_respects.
  - unfold handle_request, handle_envelope. by_handler.
  - unfold handle_http. destruct (endpoint_cases context h agent payload) as [_ [(p & a & ->)|(e & ->)]]; by_handler.
  - apply steps_any. unfold handle_event, route_event, event_envelope, handle_event_payload. by_handler.
Qed.

Lemma route_elem method h : route method = Some h -> (method, h) ∈ request_routes.
Proof.
  unfold route. destruct (list_first _ _) as [[m h']|] eqn:E; simpl; [|done]. intros [= ->].
  apply list_first_Some in E as [Hin Hm]. simpl in Hm. by bool_prop; subst.
Qed.

(** Every request but the vacuum leaves the events there. *)
Lemma session_lasting `{NatsConsumer.NatsCrates} context r : asks_vacuum r = false -> steps (session context r).
Proof.
  destruct r as [method body reqp|h p agent| |]; simpl; intros Hv; (apply bind_respects; [|done]);
    [..|apply NatsConsumer.handle_turns_steps]; apply attempt_respects.
  - unfold handle_request, handle_envelope. destruct (route method) as [h|] eqn:Hr; [|done].
    assert (h <> SystemVacuum) as Hh.
    { intros ->. apply route_elem in Hr. apply bool_decide_eq_false in Hv.
      unfold request_routes in Hr. repeat (apply elem_of_cons in Hr as [Hr|Hr]; [congruence|]).
      by apply elem_of_nil in Hr. }
    pose proof (fun p => handle_lasting context h p (MqttParams reqp) Hh). by_handler.
  - unfold handle_http. destruct (endpoint_cases context h agent p) as [Hh [(p' & a & ->)|(e & ->)]]; [|by_handler].
    pose proof (handle_lasting context h p' (Http a) Hh). by_handler.
  - unfold handle_event, route_event, event_envelope, handle_event_payload. by_handler.
Qed.

Lemma handle_refused context h p reqp : refused (handle context h p reqp).
Proof.
  destruct h; simpl; intros.
  all: unfold AgentListHandler.handle, AgentUpdateHandler.handle,
    BanListHandler.handle, ChangeCreateHandler.handle, ChangeDeleteHandler.handle, ChangeListHandler.handle,
    EditionCommitHandler.handle, EditionCreateHandler.handle, EditionListHandler.handle,
    EditionDeleteHandler.handle, CreateHandler.handle, ListHandler.handle,
    RoomAdjustHandler.handle, RoomCreateHandler.handle, DumpEvents.handle,
    RoomAccessHandlers.locked_types, RoomAccessHandlers.whiteboard_access, RoomReadHandler.handle,
    RoomEnterHandler.handle, RoomUpdateHandler.handle, ReadHandler.handle, Vacuum.handle, authorize_update, authorize_read.
  all: by_refusal.
Qed.

Lemma endpoint_refused context h agent (p : HttpPayload h) : refused (endpoint context h agent p).
Proof. destruct (endpoint_cases context h agent p) as [_ [(p' & a & ->)|(e & ->)]]; [apply handle_refused|done]. Qed.

(** A handler answers with a success, and never without content. *)
Lemma handle_returns context h p reqp :
  returns (fun r => resp_status r ∈ [OK; CREATED; ACCEPTED]) (handle context h p reqp).
Proof.
  destruct h; simpl; intros.
  all: unfold AgentListHandler.handle, AgentUpdateHandler.handle,
    BanListHandler.handle, ChangeCreateHandler.handle, ChangeDeleteHandler.handle, ChangeListHandler.handle,
    EditionCommitHandler.handle, EditionCreateHandler.handle, EditionListHandler.handle,
    EditionDeleteHandler.handle, CreateHandler.handle, ListHandler.handle,
    RoomAdjustHandler.handle, RoomCreateHandler.handle, DumpEvents.handle,
    RoomAccessHandlers.locked_types, RoomAccessHandlers.whiteboard_access, RoomReadHandler.handle,
    RoomEnterHandler.handle, RoomUpdateHandler.handle, ReadHandler.handle, Vacuum.handle.
  all: unfold CreateHandler.create_response.
  all: by_returns; simpl; rewrite !elem_of_cons; auto.
Qed.

Lemma answered_status status : status ∈ [OK; CREATED; ACCEPTED] -> (status =? NO_CONTENT) = false.
Proof. rewrite !elem_of_cons. intros [->|[->|[->|Hs%elem_of_nil]]]; done. Qed.

Lemma handle_request_answer (context : Context) (method body : string) (reqp : agent_id) (n : env) (w : world) :
  exists messages w', handle_request (E := ErrorKind) context method body reqp n w = (Ok messages, w') /\
    ((exists e, messages = error_response e) \/
     exists before status payload after, messages = before ++ OutgoingResponse status payload :: after /\
       (status ∈ [OK; CREATED; ACCEPTED]) /\ (forall m, m ∈ before ++ after -> is_answer m = false)).
Proof.
  unfold handle_request, handle_envelope.
  destruct (route method) as [h|]; [|do 2 eexists; split; [reflexivity|eauto]].
  destruct (convert_payload h body) as [payload|]; [|do 2 eexists; split; [reflexivity|eauto]].
  rewrite bind_exec, attempt_exec. destruct (handle context h payload (MqttParams reqp) n w) as [[r|e] w'] eqn:Hr; do 2 eexists; (split; [reflexivity|]); [right|eauto].
  apply (returns_exec _ _ _ _ _ _ (handle_returns _ _ _ _)) in Hr. simpl in Hr.
  pose proof (answered_status _ Hr) as Hs.
  exists (Broadcast <$> notifications r), (resp_status r), (resp_payload r), (tasks_stream (async_tasks r)).
  split; [simpl; unfold into_mqtt_messages; by rewrite Hs|split; [done|]].
  - intros m [(x & -> & _)%list_elem_of_fmap|(x & -> & _)%list_elem_of_fmap]%elem_of_app; done.
Qed.
End Lemmas.

(** ** Properties *)

Section Properties.
Context `{Externals, EventCodec, PayloadCodec}.

(** Whatever the service is asked, by requests, events and NATS messages, valid or not, in any
    order, by anybody, and however its connections, its clock, the broker and the
    authorization service answer, the integrity of the database is kept. *)
Theorem requests_keep_integrity `{NatsConsumer.NatsCrates} (context : Context) (n : env) (w w' : world) :
  rtc (fun w w' => exists r, w' = serve context r n w) w w' -> integrity (w_db w) -> integrity (w_db w').
Proof.
  induction 1 as [|w1 w2 w3 (r & ->) _ IH]; [done|]. intros Hi. apply IH.
  unfold serve. pose proof (steps_keep_integrity _ n w1 (session_steps context r) Hi) as Hs. by rewrite total_exec in Hs.
Qed.

(** No handler acts before it is authorized: when the authorization service
    denies, every request, on either interface, is answered with an error, changes
    nothing in the database and asks nothing of the broker, the storage or the
    authorization cache. *)
Theorem denied_requests_do_nothing (context : Context) (n : env) (w : world) :
  denied_env n ->
  (forall h payload agent, exists e w', handle_http context h payload agent n w = (Err e, w') /\
     w_db w' = w_db w /\ w_trace w' = w_trace w) /\
  (forall method body reqp, exists e w',
     handle_request (E := ErrorKind) context method body reqp n w = (Ok (error_response e), w') /\
     w_db w' = w_db w /\ w_trace w' = w_trace w).
Proof.
  intros Hd. split.
  - intros h payload agent. destruct (refused_exec n _ w (endpoint_refused context h agent payload n Hd)) as ([e He] & Hdb & Ht).
    unfold handle_http. rewrite bind_exec. destruct (endpoint context h agent payload n w) as [r w']; simpl in *. subst. eauto.
  - intros method body reqp. unfold handle_request, handle_envelope.
    destruct (route method) as [h|]; [|by do 2 eexists].
    destruct (convert_payload h body) as [payload|]; [|by do 2 eexists].
    destruct (refused_exec n _ w (handle_refused context h payload (MqttParams reqp) n Hd)) as ([e He] & Hdb & Ht).
    rewrite bind_exec, attempt_exec. destruct (handle context h payload (MqttParams reqp) n w) as [r w']; simpl in *. subst. eauto.
Qed.

(** C26: every request is answered, exactly once: whatever its method and body and
    whatever happens to it, the messages it gives rise to have one answer among
    them; and when that is an error, nothing else is published. *)
Theorem every_request_answered (context : Context) (method body : string) (reqp : agent_id) (n : env) (w : world) :
  exists messages w', handle_request (E := ErrorKind) context method body reqp n w = (Ok messages, w') /\
    ((exists e, messages = error_response e) \/
     exists before status payload after, messages = before ++ OutgoingResponse status payload :: after /\
       (status ∈ [OK; CREATED; ACCEPTED]) /\ (forall m, m ∈ before ++ after -> is_answer m = false)).
Proof. apply handle_request_answer. Qed.
End Properties.

(** ** Samples *)

Definition sample_payloads : PayloadCodec := {| convert_payload _ _ := None; payload_query_string _ := None |}.
#[local] Existing Instance sample_payloads.
#[local] Existing Instance NatsConsumer.sample_nats.

(** Entering room 1, then a request of an unknown method, then NATS messages. *)
Lemma requests_keep_integrity_witness :
  exists w', rtc (fun w w' => exists r, w' = serve sample_context r sample_env w) sample_world w' /\
    length (db_agents (w_db w')) = 1%nat /\ integrity (w_db w').
Proof.
  assert (Hrtc : rtc (fun w w' => exists r, w' = serve sample_context r sample_env w) sample_world
    (serve sample_context (NatsStream NatsConsumer.sample_config NatsConsumer.sample_stream) sample_env
      (serve sample_context (MqttRequest "room.close" "" sample_agent) sample_env
         (serve sample_context (HttpRequest RoomEnter (1%N, Some "web"%string) sample_agent) sample_env sample_world)))).
  { do 2 (eapply rtc_l; [eexists; reflexivity|]). eapply rtc_once. eexists. reflexivity. }
  eexists. split; [exact Hrtc|]. split; [vm_compute; reflexivity|].
  refine (requests_keep_integrity sample_context sample_env sample_world _ Hrtc _). exact sample_db_integrity.
Defined.

Definition denying_env : env :=
  Env (e_tick sample_env) (fun _ _ _ _ _ => Err Forbidden) None (fun _ => true) (fun _ => true).

Lemma denied_requests_do_nothing_witness :
  exists e w', handle_http sample_context RoomEnter (1%N, Some "web"%string) sample_agent denying_env sample_world = (Err e, w') /\
    w_db w' = sample_db /\ w_trace w' = [].
Proof.
  refine (proj1 (denied_requests_do_nothing sample_context denying_env sample_world _) RoomEnter (1%N, Some "web"%string) sample_agent).
  intros k audience subject object action. exists Forbidden. reflexivity.
Defined.
