(* ===== verification/Metrics.v ===== *)
(** * Metrics

    [src/src/metrics.rs], and where the service counts: the loop and the end of
    [src/src/app/mod.rs], the handling of an envelope in
    [src/src/app/message_handler.rs] and the routing of [src/src/app/endpoint/mod.rs].
    Prometheus keeps one metric for each label; what it is, and how long a timer
    has run, does not matter here: a histogram is the number of its observations. *)

From Stdlib Require Import Ascii.
From S2P Require Import Prelude Times Types Db Sample Effects Errors Service Router.

(** ** [QueryKey] *)

Inductive QueryKey : Type :=
  | AdjustmentInsertQuery | AgentDeleteQuery | AgentFindWithBanQuery | AgentInsertQuery | AgentListQuery
  | AgentUpdateQuery | BanDeleteQuery | BanInsertQuery | BanListQuery | ChangeDeleteQuery
  | ChangeFindWithRoomQuery | ChangeInsertQuery | ChangeListQuery | EditionCloneEventsQuery
  | EditionCommitTxnCommit | EditionDeleteQuery | EditionFindWithRoomQuery | EditionInsertQuery
  | EditionListQuery | EventDeleteQuery | EventDumpQuery | EventInsertQuery | EventListQuery
  | EventOriginalEventQuery | EventVacuumQuery | RoomAdjustCloneEventsQuery | RoomFindQuery | RoomInsertQuery
  | RoomUpdateQuery | StateTotalCountQuery | StateQuery.

#[global] Instance QueryKey_eq_dec : EqDecision QueryKey.
Proof. solve_decision. Defined.

(** [all::<QueryKey>()]. *)
Definition all_queries : list QueryKey :=
  [AdjustmentInsertQuery; AgentDeleteQuery; AgentFindWithBanQuery; AgentInsertQuery; AgentListQuery;
   AgentUpdateQuery; BanDeleteQuery; BanInsertQuery; BanListQuery; ChangeDeleteQuery; ChangeFindWithRoomQuery;
   ChangeInsertQuery; ChangeListQuery; EditionCloneEventsQuery; EditionCommitTxnCommit; EditionDeleteQuery;
   EditionFindWithRoomQuery; EditionInsertQuery; EditionListQuery; EventDeleteQuery; EventDumpQuery;
   EventInsertQuery; EventListQuery; EventOriginalEventQuery; EventVacuumQuery; RoomAdjustCloneEventsQuery;
   RoomFindQuery; RoomInsertQuery; RoomUpdateQuery; StateTotalCountQuery; StateQuery].

(** The name of the variant. *)
Definition variant (key : QueryKey) : string :=
  match key with
  | AdjustmentInsertQuery => "AdjustmentInsertQuery" | AgentDeleteQuery => "AgentDeleteQuery"
  | AgentFindWithBanQuery => "AgentFindWithBanQuery" | AgentInsertQuery => "AgentInsertQuery"
  | AgentListQuery => "AgentListQuery" | AgentUpdateQuery => "AgentUpdateQuery"
  | BanDeleteQuery => "BanDeleteQuery" | BanInsertQuery => "BanInsertQuery" | BanListQuery => "BanListQuery"
  | ChangeDeleteQuery => "ChangeDeleteQuery" | ChangeFindWithRoomQuery => "ChangeFindWithRoomQuery"
  | ChangeInsertQuery => "ChangeInsertQuery" | ChangeListQuery => "ChangeListQuery"
  | EditionCloneEventsQuery => "EditionCloneEventsQuery" | EditionCommitTxnCommit => "EditionCommitTxnCommit"
  | EditionDeleteQuery => "EditionDeleteQuery" | EditionFindWithRoomQuery => "EditionFindWithRoomQuery"
  | EditionInsertQuery => "EditionInsertQuery" | EditionListQuery => "EditionListQuery"
  | EventDeleteQuery => "EventDeleteQuery" | EventDumpQuery => "EventDumpQuery"
  | EventInsertQuery => "EventInsertQuery" | EventListQuery => "EventListQuery"
  | EventOriginalEventQuery => "EventOriginalEventQuery" | EventVacuumQuery => "EventVacuumQuery"
  | RoomAdjustCloneEventsQuery => "RoomAdjustCloneEventsQuery" | RoomFindQuery => "RoomFindQuery"
  | RoomInsertQuery => "RoomInsertQuery" | RoomUpdateQuery => "RoomUpdateQuery"
  | StateTotalCountQuery => "StateTotalCountQuery" | StateQuery => "StateQuery"
  end%string.

Definition is_uppercase (c : ascii) : bool := (N.leb 65 (N_of_ascii c)) && (N.leb (N_of_ascii c) 90).
Definition to_lowercase (c : ascii) : ascii := if is_uppercase c then ascii_of_N (N_of_ascii c + 32) else c.

(** [rename_all = "snake_case"]: an underscore before every capital but a leading
    one, in small letters. *)
Fixpoint snake_case (leading : bool) (s : string) : string :=
  match s with
  | EmptyString => EmptyString
  | String c s =>
    let rest := String (to_lowercase c) (snake_case false s) in
    if is_uppercase c && negb leading then String "_" rest else rest
  end.

Definition query_label (key : QueryKey) : string := snake_case true (variant key).

(** ** [Metrics] *)

(** The counters with their labels, the gauge, the histograms that have been looked
    up by the method, and the observations of every histogram. *)
Record Metrics : Type := MkMetrics {
  request_duration : gmap string (option string);
  request_duration_vec : gmap string Z;
  authorization_time : Z;
  db_duration : gmap string Z;
  request_stats : gmap string Z;
  total_requests : Z;
  running_requests_total : Z;
  mqtt_reconnection : Z;
  mqtt_disconnect : Z;
  mqtt_connection_error : Z
}.

(** [all::<ErrorKind>()]. *)
Definition all_errors : list ErrorKind :=
  [AccessDenied; AgentNotEnteredTheRoom; AuthorizationFailed; BrokerRequestFailed; ChangeNotFound;
   DbConnAcquisitionFailed; DbQueryFailed; EditionCommitTaskFailed; EditionNotFound; InternalServerError;
   InvalidPayload; InvalidQueryString; InvalidRoomTime; InvalidStateSets; InvalidSubscriptionObject;
   MessageHandlingFailed; MqttClientNotConnected; NoS3Client; S3UploadFailed; StatsCollectionFailed;
   PublishFailed; RoomAdjustTaskFailed; RoomClosed; RoomNotFound; SerializationFailed;
   TransientEventCreationFailed; UnknownMethod; WhiteboardAccessUpdateNotChecked; PayloadSizeExceeded;
   InvalidEvent; NatsSubscriptionFailed; InternalNatsError; NatsMessageHandlingFailed; NatsPublishFailed].

Definition zeros (labels : list string) : gmap string Z := list_to_map ((fun label => (label, 0)) <$> labels).

(** The label of a result. *)
Definition ok_label : string := "ok".
Definition result_label {A} (r : result ErrorKind A) : string :=
  match r with Ok _ => ok_label | Err e => Errors.kind e end.

(** [Metrics::new]. *)
Definition new_metrics : Metrics :=
  MkMetrics ∅ ∅ 0 (zeros (query_label <$> all_queries)) (zeros (ok_label :: (Errors.kind <$> all_errors))) 0 0 0 0 0.

(** [IntCounter::inc] of the label's counter. *)
Definition inc (label : string) (m : gmap string Z) : gmap string Z := alter Z.succ label m.

(** [observe_app_ok], [observe_app_error], [observe_app_result]. *)
Definition observe_label (label : string) (m : Metrics) : Metrics :=
  MkMetrics (request_duration m) (request_duration_vec m) (authorization_time m) (db_duration m) (inc label (request_stats m))
    (total_requests m) (running_requests_total m) (mqtt_reconnection m) (mqtt_disconnect m) (mqtt_connection_error m).
Definition observe_app_ok : Metrics -> Metrics := observe_label ok_label.
Definition observe_app_error (err : ErrorKind) : Metrics -> Metrics := observe_label (Errors.kind err).
Definition observe_app_result {A} (r : result ErrorKind A) : Metrics -> Metrics :=
  match r with Ok _ => observe_app_ok | Err err => observe_app_error err end.

(** [StartedRequest::new] and its [drop]. *)
Definition add_running (d : Z) (m : Metrics) : Metrics :=
  MkMetrics (request_duration m) (request_duration_vec m) (authorization_time m) (db_duration m) (request_stats m)
    (total_requests m) (running_requests_total m + d) (mqtt_reconnection m) (mqtt_disconnect m)
    (mqtt_connection_error m).
Definition request_started : Metrics -> Metrics := add_running 1.
Definition drop_started : Metrics -> Metrics := add_running (-1).

(** A timer: what is run, and then the observation of how long it took. *)
Definition timed {A} (observe : Metrics -> Metrics) (func : Metrics -> A * Metrics) (m : Metrics) : A * Metrics :=
  let '(a, m) := func m in (a, observe m).

(** [measure_query]. *)
Definition observe_query (key : QueryKey) (m : Metrics) : Metrics :=
  MkMetrics (request_duration m) (request_duration_vec m) (authorization_time m)
    (inc (query_label key) (db_duration m)) (request_stats m) (total_requests m) (running_requests_total m)
    (mqtt_reconnection m) (mqtt_disconnect m) (mqtt_connection_error m).
Definition measure_query {A} (key : QueryKey) : (Metrics -> A * Metrics) -> Metrics -> A * Metrics :=
  timed (observe_query key).

(** [Authz::authorize]. *)
Definition observe_authorization (m : Metrics) : Metrics :=
  MkMetrics (request_duration m) (request_duration_vec m) (authorization_time m + 1) (db_duration m)
    (request_stats m) (total_requests m) (running_requests_total m) (mqtt_reconnection m) (mqtt_disconnect m)
    (mqtt_connection_error m).
Definition authorize_timed {A} : (Metrics -> A * Metrics) -> Metrics -> A * Metrics := timed observe_authorization.

Section StartRequest.
(** [HistogramVec::get_metric_with_label_values]: the histogram of a label, or an
    error that is logged. *)
Variable get_metric_with_label_values : string -> option string.

Definition with_duration (cache : gmap string (option string)) (m : Metrics) : Metrics :=
  MkMetrics cache (request_duration_vec m) (authorization_time m) (db_duration m) (request_stats m) (total_requests m)
    (running_requests_total m) (mqtt_reconnection m) (mqtt_disconnect m) (mqtt_connection_error m).

(** [start_request]: what has been looked up before is not looked up again, also
    when it was an error. *)
Definition start_request (request : string) (m : Metrics) : option string * Metrics :=
  match request_duration m !! request with
  | Some metric => (metric, m)
  | None =>
    let metric := get_metric_with_label_values request in
    (metric, with_duration (<[request := metric]> (request_duration m)) m)
  end.

(** The timer of a route of [request_routes] and [event_routes], from its start to
    the messages of the handler; [None]: there is no histogram. *)
Definition observe_request (metric : option string) (m : Metrics) : Metrics :=
  match metric with
  | Some label =>
    MkMetrics (request_duration m) (partial_alter (fun c => Some (Z.succ (default 0 c))) label (request_duration_vec m))
      (authorization_time m) (db_duration m) (request_stats m) (total_requests m) (running_requests_total m)
      (mqtt_reconnection m) (mqtt_disconnect m) (mqtt_connection_error m)
  | None => m
  end.
Definition timed_route {A} (p : string) (handle_envelope : Metrics -> A * Metrics) (m : Metrics) : A * Metrics :=
  let '(metric, m) := start_request p m in timed (observe_request metric) handle_envelope m.

(** The memory holds what a look-up would give. *)
Definition remembers (m : Metrics) : Prop :=
  forall request metric, request_duration m !! request = Some metric ->
    metric = get_metric_with_label_values request.

(** The memory is not seen: a request is timed by the histogram of its method. *)
Lemma start_request_spec request m :
  remembers m ->
  (start_request request m).1 = get_metric_with_label_values request /\ remembers (start_request request m).2.
Proof.
  intros Hm. unfold start_request. destruct (request_duration m !! request) as [metric|] eqn:E; simpl.
  - split; [by apply Hm|done].
  - split; [done|]. intros r x. simpl. rewrite lookup_insert_Some. intros [[<- <-]|[_ Hx]]; [done|by apply Hm].
Qed.

Lemma new_remembers : remembers new_metrics.
Proof. by intros r x. Qed.

(** The routes that run answer what their handlers answer, whatever is measured. *)
Lemma timed_route_answer {A} (p : string) (handle_envelope : Metrics -> A * Metrics) m :
  (timed_route p handle_envelope m).1 = (handle_envelope (start_request p m).2).1.
Proof.
  unfold timed_route, timed. destruct (start_request p m) as [metric m1]. simpl. by destruct (handle_envelope m1).
Qed.
End StartRequest.

(** ** The loop of messages *)

(** The notifications of the agent that are counted, and the others. *)
Inductive AgentNotification : Type := Message | Disconnect | Reconnection | ConnectionError | Uncounted.

#[global] Instance AgentNotification_eq_dec : EqDecision AgentNotification.
Proof. solve_decision. Defined.

(** The counter of the notification, in the task of [main_loop]. *)
Definition count_notification (nt : AgentNotification) (m : Metrics) : Metrics :=
  let add (x y : AgentNotification) (c : Z) := if bool_decide (x = y) then c + 1 else c in
  MkMetrics (request_duration m) (request_duration_vec m) (authorization_time m) (db_duration m) (request_stats m)
    (add nt Message (total_requests m)) (running_requests_total m) (add nt Reconnection (mqtt_reconnection m))
    (add nt Disconnect (mqtt_disconnect m)) (add nt ConnectionError (mqtt_connection_error m)).

(** How far a task is: it has not counted its notification, it has, it has also
    observed the result of the request. *)
Inductive progress : Type := Spawned | Counted | Observed.

#[global] Instance progress_eq_dec : EqDecision progress.
Proof. solve_decision. Defined.

(** The tasks that have not ended, and what has happened so far. *)
Record system : Type := System {
  metrics : Metrics;
  tasks : list (AgentNotification * progress);
  received : list AgentNotification;
  results : list (result ErrorKind unit)
}.

Definition initial : system := System new_metrics [] [] [].

(** A notification is received and its task spawned; a task counts its
    notification; the handler of a request has ended; a task ends, or panics: the
    guard is dropped in either case.  The tasks run at the same time. *)
Inductive step : system -> system -> Prop :=
  | step_receive nt m ts rs os :
    step (System m ts rs os) (System (request_started m) (ts ++ [(nt, Spawned)]) (rs ++ [nt]) os)
  | step_count nt ts1 ts2 m rs os :
    step (System m (ts1 ++ (nt, Spawned) :: ts2) rs os)
         (System (count_notification nt m) (ts1 ++ (nt, Counted) :: ts2) rs os)
  | step_observe r ts1 ts2 m rs os :
    step (System m (ts1 ++ (Message, Counted) :: ts2) rs os)
         (System (observe_app_result r m) (ts1 ++ (Message, Observed) :: ts2) rs (os ++ [r]))
  | step_end nt p ts1 ts2 m rs os :
    p <> Spawned ->
    step (System m (ts1 ++ (nt, p) :: ts2) rs os) (System (drop_started m) (ts1 ++ ts2) rs os).

Definition reachable : system -> Prop := rtc step initial.

(** ** The result of a request *)

Section Observed.
Context `{Externals, EventCodec, PayloadCodec}.

(** What the handling of an envelope observes: nothing when it cannot be read. *)
Definition observed (context : Context) (h : RequestHandler) (body : string) (reqp : agent_id) (n : env) (w : world)
    : option (result ErrorKind unit) :=
  match convert_payload h body with
  | Some payload =>
    Some (match (handle context h payload (MqttParams reqp) n w).1 with Ok _ => Ok tt | Err e => Err e end)
  | None => None
  end.
End Observed.

(** ** Lemmas *)

(** Each query has a histogram of its own, each result a counter of its own. *)
Lemma query_label_inj key key' : query_label key = query_label key' -> key = key'.
Proof. by destruct key, key'. Qed.

Lemma result_label_inj (r r' : result ErrorKind unit) : result_label r = result_label r' -> r = r'.
Proof.
  destruct r as [[]|k], r' as [[]|k']; simpl; [done| | |].
  - by destruct k'.
  - by destruct k.
  - by intros ->%kind_inj.
Qed.

Definition occurrences {A} `{EqDecision A} (x : A) (l : list A) : Z :=
  Z.of_nat (length (List.filter (fun y => bool_decide (y = x)) l)).

Lemma occurrences_app {A} `{EqDecision A} (x : A) l l' : occurrences x (l ++ l') = occurrences x l + occurrences x l'.
Proof. unfold occurrences. rewrite List.filter_app, length_app. lia. Qed.

Lemma occurrences_cons {A} `{EqDecision A} (x y : A) l :
  occurrences x (y :: l) = (if bool_decide (y = x) then 1 else 0) + occurrences x l.
Proof. unfold occurrences. simpl. case_bool_decide; simpl; lia. Qed.

Lemma occurrences_nil {A} `{EqDecision A} (x : A) : occurrences x [] = 0.
Proof. done. Qed.

Lemma result_label_zero (r : result ErrorKind unit) : request_stats new_metrics !! result_label r = Some 0.
Proof. destruct r as [u|[]]; vm_compute; reflexivity. Qed.

(** The counter of a notification. *)
Definition counter (nt : AgentNotification) (m : Metrics) : option Z :=
  match nt with
  | Message => Some (total_requests m)
  | Disconnect => Some (mqtt_disconnect m)
  | Reconnection => Some (mqtt_reconnection m)
  | ConnectionError => Some (mqtt_connection_error m)
  | Uncounted => None
  end.

Lemma counter_count nt nt' m :
  counter nt' (count_notification nt m) = Z.add (if bool_decide (nt = nt') then 1 else 0) <$> counter nt' m.
Proof. by destruct nt', nt; simpl; rewrite ?(Z.add_comm _ 1). Qed.

(** The tasks, the notifications and the results are what the metrics count. *)
Definition accounts (s : system) : Prop :=
  running_requests_total (metrics s) = Z.of_nat (length (tasks s)) /\
  (forall nt c, counter nt (metrics s) = Some c -> c + occurrences (nt, Spawned) (tasks s) = occurrences nt (received s)) /\
  (forall r, request_stats (metrics s) !! result_label r = Some (occurrences r (results s))) /\
  Z.of_nat (length (results s)) + occurrences (Message, Counted) (tasks s) <= total_requests (metrics s).

Lemma initial_accounts : accounts initial.
Proof.
  split; [done|]. split; [by intros [] c; simpl; intros [= <-]|]. split; [|done].
  intros r. apply result_label_zero.
Qed.

Ltac account :=
  simpl; rewrite ?length_app, ?occurrences_app, ?occurrences_cons, ?occurrences_nil; simpl; rewrite ?length_app;
  repeat case_bool_decide; simplify_eq; simpl; try lia.

Lemma observe_stats (r : result ErrorKind unit) m :
  request_stats (observe_app_result r m) = inc (result_label r) (request_stats m).
Proof. by destruct r. Qed.

Lemma observe_total (r : result ErrorKind unit) m : total_requests (observe_app_result r m) = total_requests m.
Proof. by destruct r. Qed.

Lemma step_accounts s s' : step s s' -> accounts s -> accounts s'.
Proof.
  intros Hstep (Hrun & Hcount & Hstats & Hbound).
  destruct Hstep as [nt m ts rs os|nt ts1 ts2 m rs os|r ts1 ts2 m rs os|nt p ts1 ts2 m rs os Hp];
    unfold accounts in *; simpl in *.
  - split; [account|]. split; [|split; [done|revert Hbound; account]]. intros nt' c Hc.
    pose proof (Hcount nt' c ltac:(by destruct nt')). account.
  - split; [by rewrite length_app in *|]. split; [|split; [done|revert Hbound; account]].
    intros nt' c Hc. rewrite counter_count in Hc. destruct (counter nt' m) as [c0|] eqn:E; [|done].
    injection Hc as <-. specialize (Hcount nt' c0 E). revert Hcount. account.
  - split; [rewrite length_app in *; by destruct r|]. split; [|split].
    + intros nt' c Hc. specialize (Hcount nt' c ltac:(destruct nt', r; exact Hc)). revert Hcount. account.
    + intros r'. rewrite observe_stats, occurrences_app, occurrences_cons, occurrences_nil. unfold inc.
      case_bool_decide as Heq.
      * subst r'. rewrite lookup_alter_eq, Hstats. done.
      * rewrite lookup_alter_ne by (intros ?%result_label_inj; done). rewrite Hstats. f_equal. lia.
    + rewrite observe_total. revert Hbound. account.
  - split; [revert Hrun; account|]. split; [|split; [done|revert Hbound; account]].
    intros nt' c Hc. specialize (Hcount nt' c ltac:(by destruct nt')). revert Hcount. account.
Qed.

(** C28: the metrics account for what the loop of messages has done, however its
    tasks interleave.  The gauge of running requests, which the service writes to
    the log at its end, is the number of tasks that have not ended; every
    notification received has been counted once, except for the tasks still to count
    theirs; the counter of each result, success or kind of error, is the number of
    requests whose handler has ended with it; and there are no more results than
    requests counted, less those still being handled. *)
Theorem metrics_account (s : system) :
  reachable s ->
  running_requests_total (metrics s) = Z.of_nat (length (tasks s)) /\
  (forall nt c, counter nt (metrics s) = Some c -> c + occurrences (nt, Spawned) (tasks s) = occurrences nt (received s)) /\
  (forall r, request_stats (metrics s) !! result_label r = Some (occurrences r (results s))) /\
  Z.of_nat (length (results s)) + occurrences (Message, Counted) (tasks s) <= total_requests (metrics s).
Proof.
  intros Hs. change (accounts s). pose proof initial_accounts as Hi. revert Hi.
  induction Hs as [s0|s1 s2 s3 H12 _ IH]; [done|]. intros H1. by apply IH, (step_accounts s1).
Qed.

(** Two messages and a lost connection; one request has failed, the other has not
    begun. *)
Definition sample_system : system := System
  (drop_started (observe_app_result (A := unit) (Err RoomClosed) (count_notification Message
    (request_started (request_started (count_notification Disconnect (request_started new_metrics)))))))
  [(Disconnect, Counted); (Message, Spawned)] [Disconnect; Message; Message] [Err RoomClosed].

Lemma sample_reachable : reachable sample_system.
Proof.
  unfold reachable, initial, sample_system.
  eapply rtc_l; [apply (step_receive Disconnect)|]. simpl.
  eapply rtc_l; [apply (step_count Disconnect [] [])|]. simpl.
  eapply rtc_l; [apply (step_receive Message)|]. simpl.
  eapply rtc_l; [apply (step_receive Message)|]. simpl.
  eapply rtc_l; [apply (step_count Message [(Disconnect, Counted)] [(Message, Spawned)])|]. simpl.
  eapply rtc_l; [apply (step_observe (Err RoomClosed) [(Disconnect, Counted)] [(Message, Spawned)])|]. simpl.
  eapply rtc_l; [by apply (step_end Message Observed [(Disconnect, Counted)] [(Message, Spawned)])|]. simpl.
  apply rtc_refl.
Qed.

Lemma metrics_account_witness :
  running_requests_total (metrics sample_system) = 2 /\
  request_stats (metrics sample_system) !! "room_closed"%string = Some 1.
Proof.
  destruct (metrics_account sample_system sample_reachable) as (Hrun & _ & Hstats & _).
  split; [exact Hrun|]. exact (Hstats (Err RoomClosed)).
Defined.

(** What is observed of a request is what its answer says; an envelope that cannot
    be read is answered but not observed. *)
Lemma observed_answer `{Externals, EventCodec, PayloadCodec} {E} (context : Context) (h : RequestHandler) (body : string)
    (reqp : agent_id) (n : env) (w w' : world) (messages : list Router.Message) :
  handle_envelope (E := E) context h body reqp n w = (Ok messages, w') ->
  match observed context h body reqp n w with
  | Some (Ok _) => exists r, messages = into_mqtt_messages r
  | Some (Err e) => messages = error_response e
  | None => messages = error_response InvalidPayload
  end.
Proof.
  unfold handle_envelope, observed. destruct (convert_payload h body) as [payload|]; [|by intros [= <- _]].
  rewrite bind_exec, attempt_exec. destruct (handle context h payload (MqttParams reqp) n w) as [[a|e] w2]; simpl.
  - intros [= <- _]. eauto.
  - unfold notify_sentry. rewrite bind_exec, sentry_exec. by intros [= <- _].
Qed.
