(* ===== verification/Transport.v ===== *)
(** * Messages in and out

    The two ends of the service around [Router]: the message handler of the MQTT
    interface ([src/src/app/message_handler.rs]), which publishes what a request or
    an event gives rise to and hands responses to the dispatcher; the middleware of
    the HTTP interface ([src/src/app/http.rs]), which publishes the notifications of
    a response; and the loop of [src/src/app/mod.rs] with the subscriptions of the
    agent.  What goes through is decided by the environment ([transport]); what is
    published and dispatched is collected in an [outbox], what is sent to Sentry in
    the world. *)

From S2P Require Import Prelude Times Types Db Sample Schema EventDb AgentDb Integrity Effects Errors Service AgentEndpoint RoomEndpoint Http Router.

(** ** The transport *)

(** [svc_agent]: whether the publication, or the subscription, of a number goes
    through, and whether a request waits for the response. *)
Record transport : Type := MkTransport {
  t_publishes : nat -> bool;
  t_dispatches : json -> bool;
  t_subscribes : nat -> bool
}.

Record outbox : Type := Outbox {
  attempts : nat;
  published : list Message;
  dispatched : list json
}.

Definition publish_message (t : transport) (message : Message) (ob : outbox) : result ErrorKind unit * outbox :=
  if t_publishes t (attempts ob)
  then (Ok tt, Outbox (S (attempts ob)) (published ob ++ [message]) (dispatched ob))
  else (Err PublishFailed, Outbox (S (attempts ob)) (published ob) (dispatched ob)).

(** [AppError::notify_sentry] outside the handlers. *)
Definition notified (k : ErrorKind) (w : world) : world := add_reports (reports_of k) w.

(** ** [MessageHandler] *)

Module MessageHandler.

(** The loop ends at the first message that is not published. *)
Fixpoint publish_outgoing_messages (t : transport) (messages : list Message) (ob : outbox)
    : result ErrorKind unit * outbox :=
  match messages with
  | [] => (Ok tt, ob)
  | message :: messages =>
    match publish_message t message ob with
    | (Ok _, ob') => publish_outgoing_messages t messages ob'
    | (Err e, ob') => (Err e, ob')
    end
  end.

Inductive IncomingMessage : Type :=
  | IncomingRequest (method body : string) (reqp : agent_id)
  | IncomingEvent (label : option string) (payload : option DeleteEventPayload) (evp : account_id)
  | IncomingResponse (payload : string).

Section Handle.
Context `{Externals, EventCodec, PayloadCodec, JsonParser}.

Definition handle_response (t : transport) (payload : string) (ob : outbox) : result ErrorKind unit * outbox :=
  match json_from_str payload with
  | None => (Err InvalidPayload, ob)
  | Some json_response =>
    if t_dispatches t json_response
    then (Ok tt, Outbox (attempts ob) (published ob) (dispatched ob ++ [json_response]))
    else (Err MessageHandlingFailed, ob)
  end.

(** The messages a request or an event gives rise to are published. *)
Definition publish (t : transport) (m : M ErrorKind (list Message)) (n : env) (w : world) (ob : outbox)
    : result ErrorKind unit * world * outbox :=
  match m n w with
  | (Ok messages, w') => let '(r, ob') := publish_outgoing_messages t messages ob in (r, w', ob')
  | (Err e, w') => (Err e, w', ob)
  end.

Definition handle_message (context : Context) (t : transport) (message : IncomingMessage) (n : env) (w : world)
    (ob : outbox) : result ErrorKind unit * world * outbox :=
  match message with
  | IncomingRequest method body reqp => publish t (handle_request context method body reqp) n w ob
  | IncomingEvent label payload evp => publish t (handle_event context label payload evp) n w ob
  | IncomingResponse payload => let '(r, ob') := handle_response t payload ob in (r, w, ob')
  end.

(** Whatever the error was, it is reported as [MessageHandlingFailed]. *)
Definition report_error (w : world) : world := notified MessageHandlingFailed w.

(** The message is an [Err] when the agent could not read it. *)
Definition handle (context : Context) (t : transport) (message : option IncomingMessage) (n : env) (w : world)
    (ob : outbox) : world * outbox :=
  match message with
  | Some msg =>
    let '(r, w', ob') := handle_message context t msg n w ob in
    (match r with Ok _ => w' | Err _ => report_error w' end, ob')
  | None => (report_error w, ob)
  end.
End Handle.

End MessageHandler.

(** ** [NotificationsMiddleware] *)

Module NotificationsMiddleware.

(** A message that is not published is logged; the others are published. *)
Fixpoint publish_all (t : transport) (messages : list Message) (ob : outbox) : outbox :=
  match messages with
  | [] => ob
  | message :: messages => publish_all t messages (publish_message t message ob).2
  end.

(** The answer of the HTTP interface: a status and a payload or an error. *)
Definition answer : Type := Z * (Payload + ErrorKind).

(** [IntoResponse for AppError]. *)
Definition into_response (e : ErrorKind) (w : world) : answer * world :=
  ((Errors.status e, inr e), notified e w).

(** The notifications are published before the answer is sent, the messages of
    the tasks as they complete. *)
Definition call `{Externals, EventCodec, PayloadCodec} (context : Context) (t : transport) (h : RequestHandler)
    (payload : HttpPayload h) (agent : agent_id) (n : env) (w : world) (ob : outbox) : answer * world * outbox :=
  match handle_http context h payload agent n w with
  | (Ok (messages, (status, payload)), w') => ((status, inl payload), w', publish_all t messages ob)
  | (Err e, w') => let '(a, w2) := into_response e w' in (a, w2, ob)
  end.

End NotificationsMiddleware.

(** ** [app::run] *)

Module App.

Definition API_VERSION : string := "v1".

(** The topics of the requests, those of any instance shared by the group. *)
Inductive subscription : Type :=
  | MulticastRequests (version : string) (group : string * account_id)
  | UnicastRequests.

Definition group (agent_id : agent_id) : string * account_id := ("loadbalancer"%string, agent_account agent_id).

(** The requests made through the agent, in order; its sends may fail. *)
Inductive agent_request : Type :=
  | SubscribeTo (topic : subscription)
  | UnsubscribeFrom (topic : subscription).
Record subscriptions : Type := Subscriptions { requests : nat; made : list agent_request }.

Definition send (t : transport) (r : agent_request) (s : subscriptions) : result string unit * subscriptions :=
  if t_subscribes t (requests s) then (Ok tt, Subscriptions (S (requests s)) (made s ++ [r]))
  else (Err "Error sending the request"%string, Subscriptions (S (requests s)) (made s)).

(** The second request is made when the first succeeds. *)
Definition both (t : transport) (f : subscription -> agent_request) (agent_id : agent_id) (s : subscriptions)
    : result string unit * subscriptions :=
  match send t (f (MulticastRequests API_VERSION (group agent_id))) s with
  | (Ok _, s') => send t (f UnicastRequests) s'
  | (Err e, s') => (Err e, s')
  end.

Definition subscribe (t : transport) : agent_id -> subscriptions -> result string unit * subscriptions :=
  both t SubscribeTo.
Definition unsubscribe (t : transport) : agent_id -> subscriptions -> result string unit * subscriptions :=
  both t UnsubscribeFrom.

(** A failure is sent to Sentry. *)
Definition resubscribe (t : transport) (agent_id : agent_id) (w : world) (s : subscriptions) : world * subscriptions :=
  match subscribe t agent_id s with
  | (Ok _, s') => (w, s')
  | (Err _, s') => (add_reports [TaskReport] w, s')
  end.

(** [AgentNotification], what only a counter or the log looks at apart. *)
Inductive AgentNotification : Type :=
  | Message (message : option MessageHandler.IncomingMessage)
  | Reconnection
  | OtherNotification.

Definition main_loop_step `{Externals, EventCodec, PayloadCodec, JsonParser} (context : Context) (t : transport)
    (notification : AgentNotification) (n : env) (st : world * outbox * subscriptions) : world * outbox * subscriptions :=
  let '(w, ob, s) := st in
  match notification with
  | Message message => let '(w', ob') := MessageHandler.handle context t message n w ob in (w', ob', s)
  | Reconnection => let '(w', s') := resubscribe t (ctx_agent_id context) w s in (w', ob, s')
  | OtherNotification => st
  end.

(** The tasks are spawned in the order of the notifications. *)
Fixpoint main_loop `{Externals, EventCodec, PayloadCodec, JsonParser} (context : Context) (t : transport)
    (notifications : list AgentNotification) (n : env) (st : world * outbox * subscriptions)
    : world * outbox * subscriptions :=
  match notifications with
  | [] => st
  | notification :: notifications => main_loop context t notifications n (main_loop_step context t notification n st)
  end.

End App.

(** ** Specification *)

(** What a request or an event comes to: the messages to publish, and the world
    when its handler is done.  An error of the handler of a request is its answer;
    one of an event is not answered; either is sent to Sentry under its own kind. *)
Definition settled `{Externals, EventCodec, PayloadCodec} (context : Context)
    (message : MessageHandler.IncomingMessage) (n : env) (w : world) : list Message * world :=
  match message with
  | MessageHandler.IncomingRequest method body reqp =>
    match route method with
    | None => ([ErrorResponse METHOD_NOT_ALLOWED UnknownMethod], w)
    | Some h =>
      match convert_payload h body with
      | None => ([ErrorResponse BAD_REQUEST InvalidPayload], w)
      | Some payload =>
        match handle context h payload (MqttParams reqp) n w with
        | (Ok r, w1) => (into_mqtt_messages r, w1)
        | (Err e, w1) =>
          ([ErrorResponse (Errors.status e) e], if is_notify_sentry e then add_reports [AppReport e] w1 else w1)
        end
      end
    end
  | MessageHandler.IncomingEvent (Some label) (Some payload) evp =>
    match snd <$> list_first (fun p => bool_decide (p.1 = label)) event_routes with
    | None => ([], w)
    | Some h =>
      match handle_event_payload context h payload evp n w with
      | (Ok l, w1) => (Broadcast <$> l, w1)
      | (Err e, w1) => ([], if is_notify_sentry e then add_reports [AppReport e] w1 else w1)
      end
    end
  | _ => ([], w)
  end.

(** The answers among messages. *)
Definition answers (messages : list Message) : nat := length (List.filter is_answer messages).
Definition is_request (x : App.AgentNotification) : bool :=
  match x with App.Message (Some (MessageHandler.IncomingRequest _ _ _)) => true | _ => false end.

(** What of a list of messages goes through, from the [k]th publication on. *)
Definition through (t : transport) (k : nat) (messages : list Message) : list Message :=
  snd <$> List.filter (fun p => t_publishes t p.1) (zip (seq k (length messages)) messages).

(** ** Lemmas *)

Section Lemmas.
Context `{Externals, EventCodec, PayloadCodec, JsonParser}.

Lemma answers_app l1 l2 : answers (l1 ++ l2) = (answers l1 + answers l2)%nat.
Proof. unfold answers. by rewrite List.filter_app, length_app. Qed.

Lemma answers_none l : (forall m, m ∈ l -> is_answer m = false) -> answers l = 0%nat.
Proof.
  unfold answers. induction l as [|m l IH]; intros Hl; simpl; [done|].
  rewrite (Hl m) by left. apply IH. intros x Hx. apply Hl. by right.
Qed.

Lemma answers_broadcast (l : list Notification) : answers (Broadcast <$> l) = 0%nat.
Proof. apply answers_none. by intros m (x & -> & _)%list_elem_of_fmap. Qed.

Lemma request_one_answer context method body reqp n w :
  exists messages w', handle_request (E := ErrorKind) context method body reqp n w = (Ok messages, w') /\
    answers messages = 1%nat.
Proof.
  destruct (handle_request_answer context method body reqp n w) as (messages & w' & -> & Hm).
  do 2 eexists. split; [reflexivity|].
  destruct Hm as [[e ->]|(before & status & payload & after & -> & _ & Hn)]; [done|].
  rewrite answers_app. change (OutgoingResponse status payload :: after) with ([OutgoingResponse status payload] ++ after).
  by rewrite answers_app, (answers_none before), (answers_none after) by (intros m Hm; apply Hn, elem_of_app; auto).
Qed.

Lemma publish_outgoing_spec t messages ob :
  let '(r, ob') := MessageHandler.publish_outgoing_messages t messages ob in
  dispatched ob' = dispatched ob /\
  match r with
  | Ok _ => published ob' = published ob ++ messages
  | Err e => e = PublishFailed /\ exists k, (k < length messages)%nat /\
      published ob' = published ob ++ take k messages /\ t_publishes t (attempts ob + k) = false /\
      attempts ob' = S (attempts ob + k)
  end.
Proof.
  revert ob. induction messages as [|m messages IH]; intros ob; simpl; [by rewrite app_nil_r|].
  unfold publish_message. destruct (t_publishes t (attempts ob)) eqn:E.
  - match goal with |- context [MessageHandler.publish_outgoing_messages t messages ?o] => specialize (IH o);
      destruct (MessageHandler.publish_outgoing_messages t messages o) as [[u|e] ob'] end;
      destruct IH as (Hd & Hp); simpl in *.
    + split; [done|]. by rewrite Hp, <-app_assoc.
    + destruct Hp as (-> & k & Hk & Hp & Ht & Ha). split_and!; [done|done|]. exists (S k).
      rewrite Hp, <-app_assoc, <-!Nat.add_succ_comm. split_and!; [lia|done|done|done].
  - simpl. split_and!; [done|done|]. exists 0%nat. rewrite app_nil_r, Nat.add_0_r. split_and!; [lia|done..].
Qed.

Lemma publish_outgoing_all t messages ob :
  (forall k, t_publishes t k = true) -> (MessageHandler.publish_outgoing_messages t messages ob).1 = Ok tt.
Proof.
  intros Ht. revert ob. induction messages as [|m messages IH]; intros ob; simpl; [done|].
  unfold publish_message. by rewrite Ht.
Qed.

Lemma publish_all_spec t messages ob :
  let ob' := NotificationsMiddleware.publish_all t messages ob in
  published ob' = published ob ++ through t (attempts ob) messages /\ dispatched ob' = dispatched ob.
Proof.
  revert ob. induction messages as [|m messages IH]; intros ob; [by rewrite app_nil_r|]. simpl.
  destruct (IH (publish_message t m ob).2) as (-> & ->). unfold publish_message, through. simpl.
  destruct (t_publishes t (attempts ob)); simpl; [by rewrite <-app_assoc|done].
Qed.

Lemma through_all t k messages : (forall k, t_publishes t k = true) -> through t k messages = messages.
Proof.
  intros Ht. unfold through. revert k. induction messages as [|m messages IH]; intros k; [done|]. simpl.
  rewrite Ht. simpl. f_equal. apply IH.
Qed.

Lemma handle_event_Ok context label payload evp n w :
  exists messages w', handle_event (E := ErrorKind) context label payload evp n w = (Ok messages, w') /\
    answers messages = 0%nat.
Proof.
  unfold handle_event, route_event. destruct label as [label|]; [|by do 2 eexists].
  destruct (snd <$> list_first _ event_routes) as [h|]; rewrite bind_exec; [|by do 2 eexists].
  rewrite bind_exec. unfold event_envelope. destruct payload as [payload|]; [|by do 2 eexists].
  rewrite bind_exec, attempt_exec. destruct (handle_event_payload context h payload evp n w) as [[l|err] w'];
    do 2 eexists; (split; [reflexivity|]); [|done]; apply answers_broadcast.
Qed.

Lemma published_all t messages ob :
  (forall k, t_publishes t k = true) ->
  exists ob', MessageHandler.publish_outgoing_messages t messages ob = (Ok tt, ob') /\
    published ob' = published ob ++ messages.
Proof.
  intros Ht. pose proof (publish_outgoing_all t messages ob Ht) as Ha. pose proof (publish_outgoing_spec t messages ob) as Hp.
  destruct (MessageHandler.publish_outgoing_messages t messages ob) as [r ob']. simpl in Ha. subst r.
  exists ob'. split; [done|]. apply Hp.
Qed.

Lemma request_settled context method body reqp n w :
  let '(messages, w1) := settled context (MessageHandler.IncomingRequest method body reqp) n w in
  handle_request (E := ErrorKind) context method body reqp n w = (Ok messages, w1).
Proof.
  unfold settled, handle_request, handle_envelope. destruct (route method) as [h|]; [|done].
  destruct (convert_payload h body) as [payload|]; [|done]. rewrite bind_exec, attempt_exec.
  destruct (handle context h payload (MqttParams reqp) n w) as [[r|e] w1]; simpl; [done|].
  unfold notify_sentry. by rewrite bind_exec, sentry_exec, ret_exec, add_reports_of.
Qed.

Lemma event_settled context label payload evp n w :
  let '(messages, w1) := settled context (MessageHandler.IncomingEvent label payload evp) n w in
  handle_event (E := ErrorKind) context label payload evp n w = (Ok messages, w1).
Proof.
  unfold settled, handle_event, route_event. destruct label as [label|]; [|done].
  destruct (snd <$> list_first _ event_routes) as [h|]; rewrite bind_exec; [|by destruct payload].
  rewrite bind_exec. unfold event_envelope. destruct payload as [payload|]; [|done].
  rewrite bind_exec, attempt_exec. destruct (handle_event_payload context h payload evp n w) as [[l|e] w1]; simpl; [done|].
  by rewrite ret_exec, add_reports_of.
Qed.

(** The messages are published, or fail to be from some number on. *)
Lemma published_or_failed t messages (w1 : world) ob :
  let '(r, ob') := MessageHandler.publish_outgoing_messages t messages ob in
  let w' := match r with Ok _ => w1 | Err _ => MessageHandler.report_error w1 end in
  dispatched ob' = dispatched ob /\
  ((published ob' = published ob ++ messages /\ w' = w1) \/
   exists k, (k < length messages)%nat /\ t_publishes t (attempts ob + k) = false /\
     published ob' = published ob ++ take k messages /\ w' = add_reports [AppReport MessageHandlingFailed] w1).
Proof.
  pose proof (publish_outgoing_spec t messages ob) as Hp.
  destruct (MessageHandler.publish_outgoing_messages t messages ob) as [[u|e] ob'];
    destruct Hp as (Hd & Hp); (split; [done|]); [by left|right]. destruct Hp as (-> & k & Hk & Hp & Ht & _). eauto 10.
Qed.

Lemma main_loop_step_answers context t x n w ob s :
  (forall k, t_publishes t k = true) ->
  let '(_, ob', _) := App.main_loop_step context t x n (w, ob, s) in
  answers (published ob') = (answers (published ob) + (if is_request x then 1 else 0))%nat.
Proof.
  intros Ht. destruct x as [[[method body reqp|label payload evp|payload]|]| |]; simpl; try (rewrite Nat.add_0_r); try done.
  - unfold MessageHandler.publish. destruct (request_one_answer context method body reqp n w) as (messages & w' & -> & Hm).
    destruct (published_all t messages ob Ht) as (ob' & -> & ->). by rewrite answers_app, Hm.
  - unfold MessageHandler.publish. destruct (handle_event_Ok context label payload evp n w) as (messages & w' & -> & Hm).
    destruct (published_all t messages ob Ht) as (ob' & -> & ->). rewrite answers_app, Hm. lia.
  - unfold MessageHandler.handle_response. destruct (json_from_str payload) as [response|]; [|done].
    by destruct (t_dispatches t response).
  - unfold App.resubscribe. by destruct (App.subscribe t (ctx_agent_id context) s) as [[u|e] s'].
Qed.
End Lemmas.

(** ** Properties *)

Section Properties.
Context `{Externals, EventCodec, PayloadCodec, JsonParser}.

(** C27: what the MQTT interface does with a message.  A request or an event is
    settled by its handler, whose error is sent to Sentry under its own kind when
    that is one that is sent, and what it gives rise to is published in order, up to
    the first message that does not go through; a response is dispatched.  Every
    message that could not be read, dispatched or published to its end is sent to
    Sentry as [MessageHandlingFailed]; beyond that and what its handler does, nothing
    is sent and nothing of the world changes. *)
Theorem mqtt_message_settled (context : Context) (t : transport) (message : option MessageHandler.IncomingMessage)
    (n : env) (w : world) (ob : outbox) :
  let '(w', ob') := MessageHandler.handle context t message n w ob in
  let failed w := add_reports [AppReport MessageHandlingFailed] w in
  match message with
  | None => w' = failed w /\ published ob' = published ob /\ dispatched ob' = dispatched ob
  | Some (MessageHandler.IncomingResponse payload) =>
    published ob' = published ob /\
    match json_from_str payload with
    | Some response => if t_dispatches t response
        then dispatched ob' = dispatched ob ++ [response] /\ w' = w
        else dispatched ob' = dispatched ob /\ w' = failed w
    | None => dispatched ob' = dispatched ob /\ w' = failed w
    end
  | Some msg =>
    let '(messages, w1) := settled context msg n w in dispatched ob' = dispatched ob /\
    ((published ob' = published ob ++ messages /\ w' = w1) \/
     exists k, (k < length messages)%nat /\ t_publishes t (attempts ob + k) = false /\
       published ob' = published ob ++ take k messages /\ w' = failed w1)
  end.
Proof.
  unfold MessageHandler.handle. destruct message as [[method body reqp|label payload evp|payload]|]; [..|done].
  - unfold MessageHandler.handle_message, MessageHandler.publish. pose proof (request_settled context method body reqp n w) as Hs.
    destruct (settled _ _ n w) as [messages w1]. rewrite Hs. pose proof (published_or_failed t messages w1 ob) as Hp.
    by destruct (MessageHandler.publish_outgoing_messages t messages ob).
  - unfold MessageHandler.handle_message, MessageHandler.publish. pose proof (event_settled context label payload evp n w) as Hs.
    destruct (settled _ _ n w) as [messages w1]. rewrite Hs. pose proof (published_or_failed t messages w1 ob) as Hp.
    by destruct (MessageHandler.publish_outgoing_messages t messages ob).
  - unfold MessageHandler.handle_message, MessageHandler.handle_response.
    destruct (json_from_str payload) as [response|]; [|done]. by destruct (t_dispatches t response).
Qed.

(** A publication that fails has no effect on the answer of an HTTP request:
    the answer and the database do not depend on the transport, and of the
    notifications exactly those that go through are published, in order, the
    others being skipped; a request that fails publishes none. *)
Theorem http_answer_independent (context : Context) (t : transport) (h : RequestHandler) (payload : HttpPayload h)
    (agent : agent_id) (n : env) (w : world) (ob : outbox) :
  let '(answer, w', ob') := NotificationsMiddleware.call context t h payload agent n w ob in
  match handle_http context h payload agent n w with
  | (Ok (messages, (status, body)), w1) =>
    answer = (status, inl body) /\ w' = w1 /\
    published ob' = published ob ++ through t (attempts ob) messages
  | (Err e, w1) => answer = (Errors.status e, inr e) /\ published ob' = published ob /\
      w' = if is_notify_sentry e then add_reports [AppReport e] w1 else w1
  end.
Proof.
  unfold NotificationsMiddleware.call.
  destruct (handle_http context h payload agent n w) as [[[messages [status body]]|e] w1].
  - by destruct (publish_all_spec t messages ob).
  - unfold NotificationsMiddleware.into_response, notified. by rewrite add_reports_of.
Qed.

(** The loop over the notifications of the agent answers every request of a
    client: when the publications go through, the answers published for the
    requests it has received are as many as the requests, whatever else arrived. *)
Theorem main_loop_answers (context : Context) (t : transport) (notifications : list App.AgentNotification)
    (n : env) (w : world) (ob : outbox) (s : App.subscriptions) :
  (forall k, t_publishes t k = true) ->
  let '(_, ob', _) := App.main_loop context t notifications n (w, ob, s) in
  answers (published ob') = (answers (published ob) + length (List.filter is_request notifications))%nat.
Proof.
  intros Ht. revert w ob s. induction notifications as [|x notifications IH]; intros w ob s; [simpl; lia|]. cbn [App.main_loop].
  pose proof (main_loop_step_answers context t x n w ob s Ht) as Hx.
  destruct (App.main_loop_step context t x n (w, ob, s)) as [[w1 ob1] s1]. specialize (IH w1 ob1 s1).
  destruct (App.main_loop context t notifications n (w1, ob1, s1)) as [[w2 ob2] s2].
  rewrite IH, Hx. simpl. destruct (is_request x); simpl; lia.
Qed.
End Properties.

(** ** Samples and witnesses *)

#[local] Existing Instance sample_payloads.
#[local] Instance transport_parser : JsonParser := fun s => if bool_decide (s = EmptyString) then None else Some (JString s).

Definition sample_transport : transport := MkTransport (fun _ => true) (fun _ => false) (fun _ => true).

(** Two requests of unknown methods, a response nobody waits for, an unreadable
    message. *)
Definition sample_notifications : list App.AgentNotification :=
  [App.Message (Some (MessageHandler.IncomingRequest "room.close" "{}" sample_agent));
   App.Message (Some (MessageHandler.IncomingResponse "{}")); App.Reconnection; App.Message None;
   App.Message (Some (MessageHandler.IncomingRequest "room.open" "{}" sample_agent))].

Example sample_reports :
  let '(w, ob, s) := App.main_loop sample_context sample_transport sample_notifications sample_env
    (sample_world, Outbox 0 [] [], App.Subscriptions 0 []) in
  w_reported w = [AppReport MessageHandlingFailed; AppReport MessageHandlingFailed] /\ length (published ob) = 2%nat /\
  length (App.made s) = 2%nat.
Proof. vm_compute. done. Qed.

Lemma main_loop_answers_witness :
  let '(_, ob, _) := App.main_loop sample_context sample_transport sample_notifications sample_env
    (sample_world, Outbox 0 [] [], App.Subscriptions 0 []) in answers (published ob) = 2%nat.
Proof.
  exact (main_loop_answers sample_context sample_transport sample_notifications sample_env sample_world
    (Outbox 0 [] []) (App.Subscriptions 0 []) (fun _ => eq_refl)).
Defined.
