(* ===== verification/Startup.v ===== *)
(** * Start and end of the service

    [src/src/main.rs] with [create_pool] of [src/src/db/mod.rs]: the variables of the
    process; the context of the handlers, built in [src/src/app/context.rs]; the
    credentials of the storage in [src/src/app/s3_client.rs]; and [run] of
    [src/src/app/mod.rs], from the configuration to the end of the tasks.

    The pools, clients and servers themselves belong to the crates: whether one can
    be had is an answer of the outside. *)

From S2P Require Import Prelude Numbers Times Types Db Sample Schema Effects Errors Service Router Transport.

(** ** Variables of the process *)

Module Variables.

(** [std::env::var]: nothing when the variable is not set, or is not Unicode. *)
Definition vars : Type := string -> option string.

(** [.expect("{name} must be specified")]. *)
Definition required (vars : vars) (name : string) : result failure string :=
  ok_or (vars name) (Panic (name ++ " must be specified")).

(** [.map(|val| val.parse::<ty>().expect(..))]. *)
Definition number (vars : vars) (bits : Z) (ty name : string) : result failure (option Z) :=
  match vars name with
  | None => Ok None
  | Some val =>
    match parse_unsigned bits val with
    | Some n => Ok (Some n)
    | None => Err (Panic ("Error converting " ++ name ++ " variable into " ++ ty))
    end
  end.

End Variables.
Import Variables.

(** A failure ends the start. *)
#[local] Notation "'let!' x ':=' m 'in' k" := (result_bind m (fun x => k))
  (at level 10, x name, m at level 100, k at level 200).

(** ** [create_pool] *)

Record PoolOptions : Type := MkPoolOptions {
  max_connections : Z;
  min_connections : Z;
  acquire_timeout : Z;
  max_lifetime : Z;
  pool_url : string
}.

(** [connects]: whether the database of an address can be reached. *)
Definition create_pool (connects : PoolOptions -> bool) (url : string) (size : Z) (idle_size : option Z)
    (timeout max_lifetime : Z) : result failure PoolOptions :=
  let options := MkPoolOptions size (default 1 idle_size) timeout max_lifetime url in
  if connects options then Ok options else Err (Panic "Failed to create sqlx database pool").

(** ** [main] *)

Record CacheOptions : Type := MkCacheOptions {
  cache_url : string;
  cache_size : Z;
  cache_idle_size : option Z;
  cache_timeout : Z;
  expiration_time : Z
}.

Definition databases (vars : vars) (connects : PoolOptions -> bool)
    : result failure (PoolOptions * option PoolOptions) :=
  let! url := required vars "DATABASE_URL" in
  let! size := number vars 32 "u32" "DATABASE_POOL_SIZE" in
  let! idle_size := number vars 32 "u32" "DATABASE_POOL_IDLE_SIZE" in
  let! timeout := number vars 64 "u64" "DATABASE_POOL_TIMEOUT" in
  let! max_lifetime := number vars 64 "u64" "DATABASE_POOL_MAX_LIFETIME" in
  let pool url := create_pool connects url (default 5 size) idle_size (default 5 timeout) (default 1800 max_lifetime) in
  let! db := pool url in
  match vars "READONLY_DATABASE_URL"%string with
  | None => Ok (db, None)
  | Some ro_url => let! ro_db := pool ro_url in Ok (db, Some ro_db)
  end.

(** The pool of Redis is opened when it is used. *)
Definition cache (vars : vars) : result failure (option CacheOptions) :=
  if bool_decide (vars "CACHE_ENABLED"%string = Some "1"%string) then
    let! url := required vars "CACHE_URL" in
    let! size := number vars 32 "u32" "CACHE_POOL_SIZE" in
    let! idle_size := number vars 32 "u32" "CACHE_POOL_IDLE_SIZE" in
    let! timeout := number vars 64 "u64" "CACHE_POOL_TIMEOUT" in
    let! expiration_time := number vars 64 "u64" "CACHE_EXPIRATION_TIME" in
    Ok (Some (MkCacheOptions url (default 5 size) idle_size (default 5 timeout) (default 300 expiration_time)))
  else Ok None.

(** What [main] hands to [run]. *)
Definition main (vars : vars) (connects : PoolOptions -> bool)
    : result failure (PoolOptions * option PoolOptions * option CacheOptions) :=
  let! dbs := databases vars connects in
  let! redis := cache vars in
  Ok (dbs.1, dbs.2, redis).

(** ** [s3_client.rs] *)

Module S3Client.

(** [get_aws_creds]: the key, the secret, the endpoint and the region, or nothing
    when one of them is not set. *)
Definition get_aws_creds (vars : vars) : option (string * string * string * string) :=
  key ← vars "AWS_ACCESS_KEY_ID"%string;
  secret ← vars "AWS_SECRET_ACCESS_KEY"%string;
  endpoint ← vars "AWS_ENDPOINT"%string;
  region ← vars "AWS_REGION"%string;
  Some (key, secret, endpoint, region).

(** [build_client]: the credentials, the region with its endpoint. *)
Record t : Type := Client { credentials : string * string; region_name : string; region_endpoint : string }.
Definition build_client (vars : vars) : option t :=
  '(key, secret, endpoint, region) ← get_aws_creds vars;
  Some (Client (key, secret) region endpoint).

(** [S3Client::new], with the channel to the task of the client. *)
Definition new (vars : vars) : option t := build_client vars.

End S3Client.

(** ** [context.rs] *)

(** [config.rs]: the configuration of the handlers, and what only [run] reads. *)
Record Config : Type := MkConfig {
  handlers_config : Service.Config;
  config_id : account_id;
  config_agent_label : string;
  has_sentry : bool;
  has_metrics : bool;
  has_nats : bool;
  has_nats_consumer : bool
}.

(** [AppContext], [AppContextBuilder]: the authorization, the client of the broker
    and the metrics are those of [run]. *)
Record AppContext : Type := MkAppContext {
  app_config : Config;
  main_db : PoolOptions;
  read_only_db : option PoolOptions;
  app_agent_id : agent_id;
  queue_counter : bool;
  redis_pool : option CacheOptions;
  app_s3_client : option S3Client.t
}.

Module AppContextBuilder.

Record t : Type := Builder {
  builder_config : Config;
  builder_db : PoolOptions;
  builder_ro_db : option PoolOptions;
  builder_agent_id : agent_id;
  builder_queue_counter : bool;
  builder_redis_pool : option CacheOptions
}.

Definition new (config : Config) (db : PoolOptions) : t :=
  Builder config db None (AgentId (config_id config) (config_agent_label config)) false None.

Definition ro_db (db : PoolOptions) (b : t) : t :=
  Builder (builder_config b) (builder_db b) (Some db) (builder_agent_id b) (builder_queue_counter b) (builder_redis_pool b).
Definition queue_counter (b : t) : t :=
  Builder (builder_config b) (builder_db b) (builder_ro_db b) (builder_agent_id b) true (builder_redis_pool b).
Definition redis_pool (pool : CacheOptions) (b : t) : t :=
  Builder (builder_config b) (builder_db b) (builder_ro_db b) (builder_agent_id b) (builder_queue_counter b) (Some pool).

Definition build (vars : vars) (b : t) : AppContext :=
  MkAppContext (builder_config b) (builder_db b) (builder_ro_db b) (builder_agent_id b) (builder_queue_counter b)
    (builder_redis_pool b) (S3Client.new vars).

End AppContextBuilder.

(** [GlobalContext::db], [GlobalContext::ro_db]: the pools of [get_conn] and
    [get_ro_conn]; without a replica it is read from the main database. *)
Definition db (c : AppContext) : PoolOptions := main_db c.
Definition ro_db (c : AppContext) : PoolOptions := default (main_db c) (read_only_db c).

(** What a message's context, [AppMessageContext], gives to the handlers. *)
Definition handlers_context (c : AppContext) : Context :=
  MkContext (handlers_config (app_config c)) (app_agent_id c) (bool_decide (is_Some (app_s3_client c))).

(** The context of [run]. *)
Definition build_context (vars : vars) (config : Config) (maindb : PoolOptions) (ro : option PoolOptions)
    (redis : option CacheOptions) : AppContext :=
  let builder := AppContextBuilder.new config maindb in
  let builder := match ro with Some db => AppContextBuilder.ro_db db builder | None => builder end in
  let builder := match redis with Some pool => AppContextBuilder.redis_pool pool builder | None => builder end in
  AppContextBuilder.build vars (AppContextBuilder.queue_counter builder).

(** ** [app::run] *)

(** What the start and the end do besides the subscriptions and the loop. *)
Inductive action : Type :=
  | LoadConfig | BuildToken | StartAgent | ConvertAuthz | InitSentry | RegisterMetrics | BuildBrokerClient
  | StartMetricsServer | StartHttpServer | ConnectNats | StartNatsConsumer | TakeSignals | StartMainLoop
  | AwaitSignalOrLoop | SignalShutdown | AwaitNatsConsumer | ShutdownMetricsServer | AwaitHttpServer
  | Sleep (seconds : Z) | LogRunningRequests.

#[global] Instance action_eq_dec : EqDecision action.
Proof. solve_decision. Defined.

(** The requests of the agent, and the actions in order. *)
Record running : Type := Running { subs : App.subscriptions; actions : list action }.

Section Run.
Variable t : transport.
(** Whether an action fails. *)
Variable fails : action -> bool.

Definition step : Type := running -> result failure unit * running.
Definition then_ (m k : step) : step :=
  fun s => match m s with (Ok _, s') => k s' | (Err e, s') => (Err e, s') end.
Definition done_ : step := fun s => (Ok tt, s).

Definition record (a : action) (s : running) : running := Running (subs s) (actions s ++ [a]).

(** An action whose failure ends [run], by [?] or by a panic. *)
Definition try_ (a : action) (e : failure) : step :=
  fun s => (if fails a then Err e else Ok tt, record a s).

(** An action that does not fail, or whose failure is logged or ignored. *)
Definition do_ (a : action) : step := fun s => (Ok tt, record a s).

Definition when (b : bool) (m : step) : step := if b then m else done_.

(** [subscribe(..)?], [unsubscribe(..)?]. *)
Definition request (f : App.subscriptions -> result string unit * App.subscriptions) : step :=
  fun s => let '(r, subs) := f (subs s) in
    (match r with Ok _ => Ok tt | Err e => Err (Bail e) end, Running subs (actions s)).

#[local] Notation "m >> k" := (then_ m k) (at level 100, k at level 200, right associativity).

(** The consumer of NATS is started when both its configurations are there. *)
Definition consumes (config : Config) : bool := has_nats config && has_nats_consumer config.

Definition agent_id_of (config : Config) : agent_id := AgentId (config_id config) (config_agent_label config).

Definition start (config : Config) : step :=
  try_ LoadConfig (Bail "Failed to load config") >>
  try_ BuildToken (Bail "Error creating an id token") >>
  try_ StartAgent (Bail "Failed to create an agent") >>
  try_ ConvertAuthz (Bail "Error converting authz config to clients") >>
  when (has_sentry config) (do_ InitSentry) >>
  request (App.subscribe t (agent_id_of config)) >>
  try_ RegisterMetrics (Bail "metrics") >>
  try_ BuildBrokerClient (Panic "Failed to create Http Broker Client") >>
  when (has_metrics config) (do_ StartMetricsServer) >>
  try_ StartHttpServer (Panic "error binding") >>
  when (consumes config) (try_ ConnectNats (Bail "nats client") >> do_ StartNatsConsumer) >>
  try_ TakeSignals (Bail "signals").

(** The main loop runs until a signal comes, and makes requests of its own when the
    agent has reconnected. *)
Definition serve (loop : App.subscriptions -> App.subscriptions) : step :=
  do_ StartMainLoop >>
  (fun s => do_ AwaitSignalOrLoop (Running (loop (subs s)) (actions s))).

Definition stop (config : Config) : step :=
  request (App.unsubscribe t (agent_id_of config)) >>
  do_ SignalShutdown >>
  when (consumes config) (do_ AwaitNatsConsumer) >>
  when (has_metrics config) (do_ ShutdownMetricsServer) >>
  do_ AwaitHttpServer >>
  do_ (Sleep 3) >>
  do_ LogRunningRequests.

Definition run (config : Config) (loop : App.subscriptions -> App.subscriptions) : step :=
  start config >> serve loop >> stop config.
End Run.

(** The loop of [Transport], over the notifications that come before the signal. *)
Definition main_loop `{Externals, EventCodec, PayloadCodec, JsonParser} (context : AppContext) (t : transport)
    (notifications : list App.AgentNotification) (n : env) (w : world) (ob : outbox) (s : App.subscriptions)
    : App.subscriptions :=
  (App.main_loop (handlers_context context) t notifications n (w, ob, s)).2.

(** ** Lemmas *)

(** *** [main] *)

(** The number of a variable, when it is one. *)
Definition read (vars : vars) (bits : Z) (name : string) : option Z := vars name ≫= parse_unsigned bits.

Lemma number_Ok vars bits ty name o :
  number vars bits ty name = Ok o -> o = read vars bits name /\ (vars name = None \/ is_Some o).
Proof.
  unfold number, read. destruct (vars name) as [val|] eqn:E; simpl; [|intros [= <-]; auto].
  destruct (parse_unsigned bits val); intros [= <-]; eauto.
Qed.

Lemma create_pool_Ok connects url size idle timeout lifetime db :
  create_pool connects url size idle timeout lifetime = Ok db ->
  db = MkPoolOptions size (default 1 idle) timeout lifetime url /\ connects db = true.
Proof. unfold create_pool. by destruct (connects _) eqn:E; [intros [= <-]|]. Qed.

(** Every failure of the start is a panic that names the variable or the pool. *)
Definition panics {A} (r : result failure A) : Prop := forall e, r = Err e -> exists msg, e = Panic msg.

Lemma panics_bind {A B} (m : result failure A) (f : A -> result failure B) :
  panics m -> (forall a, panics (f a)) -> panics (result_bind m f).
Proof. intros Hm Hf. destruct m as [a|e]; [apply Hf|]. intros e' [= <-]. by apply Hm. Qed.
Lemma panics_required vars name : panics (required vars name).
Proof. unfold panics, required. destruct (vars name); intros e [= <-]; eauto. Qed.
Lemma panics_number vars bits ty name : panics (number vars bits ty name).
Proof. unfold panics, number. repeat case_match; intros e [= <-]; eauto. Qed.
Lemma panics_create_pool connects url size idle timeout lifetime :
  panics (create_pool connects url size idle timeout lifetime).
Proof. unfold panics, create_pool. case_match; intros e [= <-]; eauto. Qed.
Lemma panics_Ok {A} (a : A) : panics (Ok a).
Proof. by intros e. Qed.

Create HintDb panics.
#[local] Hint Resolve panics_bind panics_required panics_number panics_create_pool panics_Ok : panics.

Lemma main_panics vars connects : panics (main vars connects).
Proof.
  unfold main, databases, cache. repeat (apply panics_bind; [|intros]); try case_bool_decide; repeat case_match;
    eauto 10 with panics.
Qed.

(** The pool of an address, with the variables' numbers and the defaults. *)
Definition pool_of (vars : vars) (url : string) : PoolOptions :=
  MkPoolOptions (default 5 (read vars 32 "DATABASE_POOL_SIZE")) (default 1 (read vars 32 "DATABASE_POOL_IDLE_SIZE"))
    (default 5 (read vars 64 "DATABASE_POOL_TIMEOUT")) (default 1800 (read vars 64 "DATABASE_POOL_MAX_LIFETIME")) url.

(** The service starts with the databases it has been given, the replica's pool
    as the main one's, and with a cache when it has been asked for; no number that
    is set is left to its default, since one that cannot be read is a panic; and
    nothing but a panic, of a variable or a pool, prevents the start. *)
Theorem main_correct (vars : vars) (connects : PoolOptions -> bool) :
  match main vars connects with
  | Ok (db, ro_db, redis) =>
    (exists url, vars "DATABASE_URL"%string = Some url /\ db = pool_of vars url /\ connects db = true) /\
    ro_db = pool_of vars <$> vars "READONLY_DATABASE_URL"%string /\
    (forall name, name ∈ ["DATABASE_POOL_SIZE"; "DATABASE_POOL_IDLE_SIZE"]%string ->
       vars name = None \/ is_Some (read vars 32 name)) /\
    (forall name, name ∈ ["DATABASE_POOL_TIMEOUT"; "DATABASE_POOL_MAX_LIFETIME"]%string ->
       vars name = None \/ is_Some (read vars 64 name)) /\
    (is_Some redis <-> vars "CACHE_ENABLED"%string = Some "1"%string)
  | Err e => exists msg, e = Panic msg
  end.
Proof.
  pose proof (main_panics vars connects) as Hpanics. destruct (main vars connects) as [[[db ro] redis]|e] eqn:E; [|by apply Hpanics].
  clear Hpanics. apply result_bind_Ok in E as ([db' ro'] & Hdbs & E). apply result_bind_Ok in E as (redis' & Hcache & E).
  injection E as -> -> ->. unfold databases in Hdbs.
  apply result_bind_Ok in Hdbs as (url & Hurl & Hdbs). apply result_bind_Ok in Hdbs as (size & (-> & Hsize)%number_Ok & Hdbs).
  apply result_bind_Ok in Hdbs as (idle & (-> & Hidle)%number_Ok & Hdbs).
  apply result_bind_Ok in Hdbs as (timeout & (-> & Htimeout)%number_Ok & Hdbs).
  apply result_bind_Ok in Hdbs as (lifetime & (-> & Hlifetime)%number_Ok & Hdbs).
  apply result_bind_Ok in Hdbs as (db0 & (-> & Hconnects)%create_pool_Ok & Hdbs).
  split; [|split; [|split; [|split]]].
  - exists url. unfold required in Hurl. destruct (vars "DATABASE_URL"%string); [|done]. injection Hurl as ->.
    destruct (vars "READONLY_DATABASE_URL"%string); [|by injection Hdbs as <- <-].
    by apply result_bind_Ok in Hdbs as (? & _ & [= <- <-]).
  - destruct (vars "READONLY_DATABASE_URL"%string) as [ro_url|]; [|by injection Hdbs as <- <-].
    by apply result_bind_Ok in Hdbs as (? & (-> & _)%create_pool_Ok & [= <- <-]).
  - intros name Hname. repeat (apply elem_of_cons in Hname as [->|Hname]; [done|]). by apply elem_of_nil in Hname.
  - intros name Hname. repeat (apply elem_of_cons in Hname as [->|Hname]; [done|]). by apply elem_of_nil in Hname.
  - unfold cache in Hcache. case_bool_decide as Henabled; [|injection Hcache as <-; split; [by intros []|done]].
    do 5 apply result_bind_Ok in Hcache as (? & _ & Hcache). injection Hcache as <-. by split; eauto.
Qed.

(** *** The context *)

(** The handlers get their configuration and the name of the service, and a client
    of the storage exactly when all its credentials are set; what they read goes to
    the replica if there is one. *)
Lemma build_context_correct (vars : vars) (config : Config) (db0 : PoolOptions) (ro : option PoolOptions)
    (redis : option CacheOptions) :
  let context := build_context vars config db0 ro redis in
  handlers_context context =
    MkContext (handlers_config config) (AgentId (config_id config) (config_agent_label config))
      (bool_decide (is_Some (S3Client.get_aws_creds vars))) /\
  db context = db0 /\ ro_db context = default db0 ro /\ redis_pool context = redis.
Proof.
  unfold build_context, handlers_context, S3Client.new, S3Client.build_client.
  destruct ro, redis; simpl; unfold S3Client.new, S3Client.build_client;
    destruct (S3Client.get_aws_creds vars) as [[[[]]]|]; by split_and!.
Qed.

Lemma aws_creds_all vars :
  is_Some (S3Client.get_aws_creds vars) <->
  forall name, name ∈ ["AWS_ACCESS_KEY_ID"; "AWS_SECRET_ACCESS_KEY"; "AWS_ENDPOINT"; "AWS_REGION"]%string ->
    is_Some (vars name).
Proof.
  unfold S3Client.get_aws_creds. split.
  - intros [x Hx] name Hname. repeat (apply bind_Some in Hx as (? & ? & Hx)).
    repeat (apply elem_of_cons in Hname as [->|Hname]; [eauto|]). by apply elem_of_nil in Hname.
  - intros H. destruct (H "AWS_ACCESS_KEY_ID"%string) as [? ->]; [set_solver|].
    destruct (H "AWS_SECRET_ACCESS_KEY"%string) as [? ->]; [set_solver|].
    destruct (H "AWS_ENDPOINT"%string) as [? ->]; [set_solver|].
    destruct (H "AWS_REGION"%string) as [? ->]; [set_solver|]. simpl. eauto.
Qed.

(** *** [run] *)

(** The actions of a complete run. *)
Definition complete (config : Config) : list action :=
  [LoadConfig; BuildToken; StartAgent; ConvertAuthz] ++ (if has_sentry config then [InitSentry] else []) ++
  [RegisterMetrics; BuildBrokerClient] ++ (if has_metrics config then [StartMetricsServer] else []) ++
  [StartHttpServer] ++ (if consumes config then [ConnectNats; StartNatsConsumer] else []) ++
  [TakeSignals; StartMainLoop; AwaitSignalOrLoop; SignalShutdown] ++
  (if consumes config then [AwaitNatsConsumer] else []) ++
  (if has_metrics config then [ShutdownMetricsServer] else []) ++ [AwaitHttpServer; Sleep 3; LogRunningRequests].

Section RunSpec.
Variable t : transport.
Variable fails : action -> bool.

(** A step follows a script: it does its actions in order and stops where it
    fails, and when nothing fails it does not. *)
Definition follows (m : step) (script : list action) : Prop := forall s,
  exists rest, actions s ++ script = actions (m s).2 ++ rest /\
    ((m s).1 = Ok tt -> rest = []) /\
    ((forall a, fails a = false) -> (forall k, t_subscribes t k = true) -> (m s).1 = Ok tt).

Lemma follows_then m k l l' : follows m l -> follows k l' -> follows (then_ m k) (l ++ l').
Proof.
  intros Hm Hk s. unfold then_. destruct (Hm s) as (rest & Hl & Hok & Hnone).
  destruct (m s) as [[[]|e] s'] eqn:E; simpl in *.
  - rewrite (Hok eq_refl), app_nil_r in Hl. destruct (Hk s') as (rest' & Hl' & ? & ?).
    exists rest'. split; [|done]. by rewrite app_assoc, Hl.
  - exists (rest ++ l'). split; [by rewrite !app_assoc, Hl|]. split; [done|]. intros H1 H2. by specialize (Hnone H1 H2).
Qed.

Lemma follows_try a e : follows (try_ fails a e) [a].
Proof. intros s. exists []. rewrite app_nil_r. split_and!; [done..|]. intros H _. unfold try_. by rewrite H. Qed.
Lemma follows_do a : follows (do_ a) [a].
Proof. intros s. exists []. by rewrite app_nil_r. Qed.
Lemma follows_when (b : bool) m l : follows m l -> follows (when b m) (if b then l else []).
Proof. intros Hm. destruct b; [done|]. intros s. exists []. by rewrite !app_nil_r. Qed.

Lemma both_goes_through f id s :
  (forall k, t_subscribes t k = true) -> exists s', App.both t f id s = (Ok tt, s').
Proof. intros H. unfold App.both, App.send. rewrite H. simpl. rewrite H. eauto. Qed.

Lemma follows_request f id : follows (request (App.both t f id)) [].
Proof.
  intros s. exists []. unfold request. destruct (App.both t f id (subs s)) as [r u] eqn:E. simpl.
  split_and!; [done..|]. intros _ Ht. destruct (both_goes_through f id (subs s) Ht) as [s' Hs'].
  rewrite Hs' in E. by injection E as <- _.
Qed.

Lemma follows_serve loop : follows (serve loop) [StartMainLoop; AwaitSignalOrLoop].
Proof. intros s. exists []. simpl. by rewrite app_nil_r, <-app_assoc. Qed.

Ltac follow :=
  lazymatch goal with
  | |- follows (then_ _ _) _ => apply follows_then; [follow|follow]
  | |- follows (when _ _) _ => apply follows_when; follow
  | |- follows (try_ _ _ _) _ => apply follows_try
  | |- follows (do_ _) _ => apply follows_do
  | |- follows (request _) _ => apply follows_request
  end.

Lemma follows_run config loop : follows (run t fails config loop) (complete config).
Proof.
  assert (Hstart : exists l, follows (start t fails config) l /\
                     exists l', follows (stop t config) l' /\
                     l ++ [StartMainLoop; AwaitSignalOrLoop] ++ l' = complete config).
  { eexists. split; [unfold start; follow|]. eexists. split; [unfold stop; follow|].
    unfold complete. by destruct (has_sentry config), (has_metrics config), (consumes config). }
  destruct Hstart as (l & Hl & l' & Hl' & <-). unfold run.
  apply follows_then; [done|]. apply follows_then; [apply follows_serve|done].
Qed.

End RunSpec.

(** The requests of a complete run: the two subscriptions, those of the loop, and
    their ends. *)
Lemma both_made t f id s u s' :
  App.both t f id s = (Ok u, s') ->
  App.made s' = App.made s ++ [f (App.MulticastRequests App.API_VERSION (App.group id)); f App.UnicastRequests].
Proof.
  unfold App.both, App.send. destruct (t_subscribes t (App.requests s)); [|done].
  simpl. destruct (t_subscribes t _); intros [= <- <-]. simpl. by rewrite <-app_assoc.
Qed.

(** [m] leaves the subscriptions as they are. *)
Definition quiet (m : step) : Prop := forall s, subs (m s).2 = subs s.

Lemma quiet_then m k : quiet m -> quiet k -> quiet (then_ m k).
Proof. intros Hm Hk s. unfold then_. specialize (Hm s). destruct (m s) as [[[]|e] s']; [by rewrite Hk|done]. Qed.
Lemma quiet_when (b : bool) m : quiet m -> quiet (when b m).
Proof. by destruct b. Qed.

Lemma then_Ok m k s s' : then_ m k s = (Ok tt, s') -> exists s1, m s = (Ok tt, s1) /\ k s1 = (Ok tt, s').
Proof. unfold then_. destruct (m s) as [[[]|e] s1]; [eauto|done]. Qed.

Lemma request_Ok f s s' : request f s = (Ok tt, s') -> f (subs s) = (Ok tt, subs s').
Proof. unfold request. destruct (f (subs s)) as [[[]|e] u]; [by intros [= <-]|done]. Qed.

Ltac quiet :=
  lazymatch goal with
  | |- quiet (then_ _ _) => apply quiet_then; [quiet|quiet]
  | |- quiet (when _ _) => apply quiet_when; quiet
  | |- _ => done
  end.

Lemma start_subs t fails config s s' :
  start t fails config s = (Ok tt, s') -> (App.subscribe t (agent_id_of config) (subs s)) = (Ok tt, subs s').
Proof.
  unfold start. intros Hs. do 5 (apply then_Ok in Hs as (? & ?%(f_equal (fun r => subs r.2)) & Hs)).
  apply then_Ok in Hs as (s6 & Hr%request_Ok & Hs). simpl in *.
  rewrite (quiet_when _ (do_ InitSentry)) in * by done. simplify_eq/=.
  assert (Hq : quiet (try_ fails RegisterMetrics (Bail "metrics"))) by done.
  revert Hs. match goal with |- ?k s6 = _ -> _ => assert (Hk : quiet k) by quiet; pose proof (Hk s6) as Hks end.
  intros Hs. rewrite Hs in Hks. simpl in Hks. by congruence.
Qed.

Lemma stop_subs t config s s' :
  stop t config s = (Ok tt, s') -> App.unsubscribe t (agent_id_of config) (subs s) = (Ok tt, subs s').
Proof.
  unfold stop. intros (s1 & Hr%request_Ok & Hs)%then_Ok. rewrite Hr. f_equal.
  revert Hs. match goal with |- ?k s1 = _ -> _ => assert (Hk : quiet k) by quiet; pose proof (Hk s1) as Hks end.
  intros Hs. by rewrite Hs in Hks.
Qed.

(** The service runs in order.  What it does is the beginning of one script, all of
    it unless something fails, and without failures it does end: everything is
    there before the first message, the stop is announced before a task is waited
    for, and the tasks waited for are those that have been started.  Between the
    subscriptions and their ends there are only the requests of the loop. *)
Theorem run_orderly (t : transport) (fails : action -> bool) (config : Config)
    (loop : App.subscriptions -> App.subscriptions) (s : running) :
  let '(r, s') := run t fails config loop s in
  (exists rest, actions s ++ complete config = actions s' ++ rest /\ (r = Ok tt -> rest = [])) /\
  ((forall a, fails a = false) -> (forall k, t_subscribes t k = true) -> r = Ok tt) /\
  (r = Ok tt -> exists subscribed, App.subscribe t (agent_id_of config) (subs s) = (Ok tt, subscribed) /\
     App.unsubscribe t (agent_id_of config) (loop subscribed) = (Ok tt, subs s')).
Proof.
  destruct (run t fails config loop s) as [r s'] eqn:E.
  destruct (follows_run t fails config loop s) as (rest & Hl & Hok & Hnone). rewrite E in *. simpl in *.
  split; [by exists rest|]. split; [done|]. intros ->. unfold run in E.
  apply then_Ok in E as (s1 & Hstart%start_subs & (s2 & Hserve & Hstop%stop_subs)%then_Ok).
  injection Hserve as <-. by exists (subs s1).
Qed.

(** The agent that cannot be told to unsubscribe: [run] ends at once, the consumer
    and the server are neither told nor waited for. *)
Example unsubscribing_fails :
  let config := MkConfig (Service.config sample_context) (AccountId "event" "svc.example.org") "alpha" false false true true in
  let t := MkTransport (fun _ => true) (fun _ => false) (fun k => bool_decide (k < 2)%nat) in
  let '(r, s') := run t (fun _ => false) config id (Running (App.Subscriptions 0 []) []) in
  r = Err (Bail "Error sending the request"%string) /\ (StartNatsConsumer ∈ actions s') /\
  (SignalShutdown ∉ actions s') /\ (AwaitNatsConsumer ∉ actions s').
Proof. split_and!; [done|by apply (bool_decide_unpack _); vm_compute..]. Qed.

(** A run whose loop is told of a reconnection subscribes again, and unsubscribes once. *)
#[local] Existing Instance sample_payloads.
#[local] Instance startup_parser : JsonParser := fun _ => None.

Example run_resubscribes :
  let config := MkConfig (Service.config sample_context) (AccountId "event" "svc.example.org") "alpha" true true true true in
  let context := build_context (fun _ => None) config (pool_of (fun _ => None) "postgres://localhost/event") None None in
  let loop := main_loop context sample_transport sample_notifications sample_env sample_world (Outbox 0 [] []) in
  let '(r, s') := run sample_transport (fun _ => false) config loop (Running (App.Subscriptions 0 []) []) in
  r = Ok tt /\ actions s' = complete config /\ length (App.made (subs s')) = 6%nat.
Proof. vm_compute. done. Qed.

(** Two variables and the defaults; a size that does not fit. *)
Definition sample_vars : vars := fun name =>
  if bool_decide (name = "DATABASE_URL"%string) then Some "postgres://localhost/event"%string
  else if bool_decide (name = "DATABASE_POOL_SIZE"%string) then Some "+10"%string else None.

Example sample_main :
  main sample_vars (fun _ => true) = Ok (MkPoolOptions 10 1 5 1800 "postgres://localhost/event", None, None).
Proof. vm_compute. done. Qed.

Example main_refuses :
  main (fun name => if bool_decide (name = "DATABASE_POOL_SIZE"%string) then Some "4294967296"%string
                    else sample_vars name) (fun _ => true) =
  Err (Panic "Error converting DATABASE_POOL_SIZE variable into u32").
Proof. vm_compute. done. Qed.
