(* ===== verification/Payloads.v ===== *)
(** * Payloads on the wire

    What [serde] derives for the requests of [src/src/app/endpoint]: the attributes
    of every payload ([rename], [default], [flatten], [with], [untagged], [tag] and
    [content]) as a function from a parsed document to the request of [Router].
    [serde_payloads] is an instance of [Router.PayloadCodec] made of them; [extract]
    is what the extractors of axum give the endpoints of [Http].

    The text itself is read by [serde_json] ([Schema.JsonParser]); a document keeps
    the members of an object in the order of the text, repeated names included. *)

From Stdlib Require Import Ascii.
From S2P Require Import Prelude Numbers Times Types Db Sample Schema EventDb SetState RoomDb EditionDb AgentDb Integrity Effects Errors Service EventEndpoint AgentEndpoint EditionEndpoint RoomEndpoint Http Router Transport Scenarios.

(** [svc_agent] and [chrono]: [AgentId::from_str], [NaiveDateTime::from_timestamp_opt],
    [Utc.timestamp_millis_opt], [DateTime::<Utc>::from_str]. *)
Class WireCrates : Type := {
  agent_from_str : string -> option agent_id;
  from_timestamp_opt : Z -> option Z;
  timestamp_millis_opt : Z -> option Z;
  datetime_from_str : string -> option Z
}.

(** ** [serde_json::Value] *)

(** [String]'s order, by bytes. *)
Definition key_leb (x y : string) : bool :=
  match String.compare x y with Gt => false | _ => true end.

(** The map of a [Value] is a [BTreeMap]: sorted, the last of equal names stays. *)
Fixpoint insert_member (k : string) (v : json) (m : list (string * json)) : list (string * json) :=
  match m with
  | [] => [(k, v)]
  | (k', v') :: m' =>
    if bool_decide (k = k') then (k, v) :: m'
    else if key_leb k k' then (k, v) :: m else (k', v') :: insert_member k v m'
  end.

Fixpoint value_of (v : json) : json :=
  match v with
  | JArray l => JArray (value_of <$> l)
  | JObject m => JObject (foldl (fun m p => insert_member p.1 p.2 m) [] ((fun p => (p.1, value_of p.2)) <$> m))
  | v => v
  end.

(** ** Fields *)

(** What a field of a struct is read from: a value, an object without its name, an
    array that has ended. *)
Inductive slot : Type := Value (v : json) | NoKey | NoElement.

Record reader (A : Type) : Type := Reader {
  read_value : json -> option A;
  on_missing : option A;
  on_end : option A
}.
Arguments Reader {A} _ _ _.
Arguments read_value {A} _ _.
Arguments on_missing {A} _.
Arguments on_end {A} _.

Definition get {A} (s : string -> slot) (name : string) (r : reader A) : option A :=
  match s name with
  | Value v => read_value r v
  | NoKey => on_missing r
  | NoElement => on_end r
  end.

(** A field that has to be there. *)
Definition required {A} (f : json -> option A) : reader A := Reader f None None.

(** [Option]: [null], or no name, is [None]. *)
Definition optional {A} (r : reader A) : reader (option A) :=
  Reader (fun v => match v with JNull => Some None | _ => Some <$> read_value r v end) (Some None) None.

(** [#[serde(default)]], [#[serde(default = ..)]]. *)
Definition defaults {A} (a : A) (r : reader A) : reader A := Reader (read_value r) (Some a) (Some a).

Definition r_bool : reader bool := required as_bool.
Definition r_string : reader string := required as_str.
Definition r_value : reader json := required (fun v => Some (value_of v)).
Definition r_i64 : reader Z := required (de c_i64).
Definition r_usize : reader Z := required (fun v => match v with JNumber (PosInt n) => Some n | _ => None end).
Definition r_vec {A} (r : reader A) : reader (list A) :=
  required (fun v => match v with JArray l => mapM (read_value r) l | _ => None end).
Definition r_unit_enum {A} `{UnitEnum A} : reader A := required (de c_enum).

(** [HashMap]: the last of equal keys stays. *)
Definition r_map {K V} `{Countable K} (key : string -> option K) (r : reader V) : reader (gmap K V) :=
  required (fun v => match v with
                     | JObject m =>
                       l ← mapM (fun p => k ← key p.1; a ← read_value r p.2; Some (k, a)) m;
                       Some (foldl (fun m p => <[p.1 := p.2]> m) ∅ l)
                     | _ => None
                     end).

(** ** Structs *)

Definition occurs_once (keys : list string) (name : string) : bool :=
  (length (List.filter (fun k => bool_decide (k = name)) keys) <=? 1)%nat.

(** The members of an object: a repeated field is an error, other names are
    skipped.  A struct with a flattened field is read from an object only. *)
Definition flat (names : list string) (v : json) : option (string -> slot) :=
  match v with
  | JObject m =>
    if forallb (occurs_once m.*1) names
    then Some (fun name => match json_get name v with Some x => Value x | None => NoKey end) else None
  | _ => None
  end.

Fixpoint position (name : string) (names : list string) : option nat :=
  match names with
  | [] => None
  | n :: names => if bool_decide (n = name) then Some O else S <$> position name names
  end.

(** Any other struct is also read from an array of its fields, in their order. *)
Definition struct (names : list string) (v : json) : option (string -> slot) :=
  match v with
  | JArray l =>
    if (length l <=? length names)%nat
    then Some (fun name => match position name names ≫= (l !!.) with Some x => Value x | None => NoElement end)
    else None
  | _ => flat names v
  end.

Section Payloads.
Context `{Externals, WireCrates}.

(** ** Values of the requests *)

Definition r_uuid : reader uuid := required (fun v => as_str v ≫= uuid_parse).
Definition r_account_id : reader account_id := required (fun v => as_str v ≫= account_from_str).
Definition r_agent_id : reader agent_id := required (fun v => as_str v ≫= agent_from_str).
Definition r_datetime : reader Z := required (fun v => as_str v ≫= datetime_from_str).

Definition ok {E A} (r : result E A) : option A := match r with Ok a => Some a | Err _ => None end.

(** [with = "crate::serde::ts_seconds_bound_tuple"]: elements after the second are
    an error of the array. *)
Definition bound_tuple (v : json) : option BoundedDateTimeTuple :=
  match v with
  | JArray l =>
    if (length l <=? 2)%nat
    then seq ← mapM (read_value (optional r_i64)) l; ok (TsSecondsBoundTuple.deserialize from_timestamp_opt seq)
    else None
  | _ => None
  end.
Definition r_bound_tuple : reader BoundedDateTimeTuple := required bound_tuple.

(** [default, with = "crate::serde::ts_seconds_option_bound_tuple"]. *)
Definition r_option_bound_tuple : reader (option BoundedDateTimeTuple) :=
  defaults None (required (fun v =>
    match v with
    | JNull => ok (TsSecondsOptionBoundTuple.deserialize from_timestamp_opt VisitNone)
    | JArray l =>
      if (length l <=? 2)%nat
      then seq ← mapM (read_value (optional r_i64)) l;
           ok (TsSecondsOptionBoundTuple.deserialize from_timestamp_opt (VisitSome seq))
      else None
    | _ => None
    end)).

(** [with = "chrono::serde::ts_milliseconds"]. *)
Definition r_milliseconds : reader Z := required (fun v => n ← read_value r_i64 v; timestamp_millis_opt n).

(** [with = "crate::db::adjustment::serde::segments"]: what the loop has left unread
    is an error of the array. *)
Definition offset_pair (v : json) : option (option Z * option Z) :=
  match v with
  | JArray [lt; rt] =>
    lt ← read_value (optional r_i64) lt; rt ← read_value (optional r_i64) rt; Some (lt, rt)
  | _ => None
  end.
Definition segments (v : json) : option Segments :=
  match v with
  | JArray l =>
    seq ← mapM offset_pair l;
    match MillisecondsBoundTuples.visit_seq [] seq with
    | Ok (elements, []) => Some elements
    | _ => None
    end
  | _ => None
  end.
Definition r_segments : reader Segments := required segments.

(** ** Events and states *)

(** [Direction]: in small letters; [ClassType] has no [rename_all] of [serde], only
    one of [sqlx]. *)
#[export, refine] Instance direction_enum : UnitEnum Direction := {|
  rename d := match d with Forward => "forward" | Backward => "backward" end%string;
  variants := [Forward; Backward]
|}.
Proof. by intros []. Defined.

#[export, refine] Instance class_type_enum : UnitEnum ClassType := {|
  rename k := match k with Webinar => "Webinar" | P2P => "P2P" | Minigroup => "Minigroup" end%string;
  variants := [Webinar; P2P; Minigroup]
|}.
Proof. by intros []. Defined.

Definition create_event_names : list string :=
  ["type"; "set"; "label"; "attribute"; "data"; "is_claim"; "is_persistent"; "removed"]%string.
Definition create_event (s : string -> slot) : option CreatePayload :=
  kind ← get s "type" r_string;
  set ← get s "set" (optional r_string);
  label ← get s "label" (optional r_string);
  attribute ← get s "attribute" (optional r_string);
  data ← get s "data" r_value;
  is_claim ← get s "is_claim" (defaults false r_bool);
  is_persistent ← get s "is_persistent" (defaults true r_bool);
  removed ← get s "removed" (defaults false r_bool);
  Some (MkCreatePayload kind set label attribute data is_claim is_persistent removed).

(** [ListTypesFilter]: untagged, a string or a list of strings. *)
Definition types_filter (v : json) : option KindFilter :=
  match v with
  | JString s => Some (Single s)
  | _ => Multiple <$> read_value (r_vec r_string) v
  end.

Definition list_events_names : list string :=
  ["type"; "set"; "label"; "attribute"; "last_occurred_at"; "direction"; "limit"]%string.
Definition list_events (s : string -> slot) : option Events.ListPayload :=
  kind ← get s "type" (optional (required types_filter));
  set ← get s "set" (optional r_string);
  label ← get s "label" (optional r_string);
  attribute ← get s "attribute" (optional r_string);
  last_occurred_at ← get s "last_occurred_at" (optional r_i64);
  direction ← get s "direction" (defaults Forward r_unit_enum);
  limit ← get s "limit" (optional r_usize);
  Some (Events.MkListPayload kind set label attribute last_occurred_at direction limit).

Definition read_state_names : list string :=
  ["sets"; "attribute"; "occurred_at"; "original_occurred_at"; "limit"]%string.
Definition read_state (s : string -> slot) : option State.ReadPayload :=
  sets ← get s "sets" (r_vec r_string);
  attribute ← get s "attribute" (optional r_string);
  occurred_at ← get s "occurred_at" (optional r_i64);
  original_occurred_at ← get s "original_occurred_at" (optional r_i64);
  limit ← get s "limit" (optional r_i64);
  Some (State.MkReadPayload sets attribute occurred_at original_occurred_at limit).

(** ** Agents *)

Definition list_agents_names : list string := ["offset"; "limit"]%string.
Definition list_agents (s : string -> slot) : option Agents.ListPayload :=
  offset ← get s "offset" (optional r_usize);
  limit ← get s "limit" (optional r_usize);
  Some (Agents.MkListPayload offset limit).

Definition update_agent_names : list string := ["account_id"; "value"; "reason"]%string.
Definition update_agent (s : string -> slot) : option Agents.UpdatePayload :=
  account_id ← get s "account_id" r_account_id;
  value ← get s "value" r_bool;
  reason ← get s "reason" (optional r_string);
  Some (Agents.MkUpdatePayload account_id value reason).

(** The payload of [subscription.delete] and [broadcast_subscription.delete]. *)
Definition delete_subscription (v : json) : option DeleteEventPayload :=
  s ← struct ["subject"; "object"]%string v;
  subject ← get s "subject" r_agent_id;
  object ← get s "object" (r_vec r_string);
  Some (MkDeleteEventPayload subject object).

(** ** Rooms *)

Definition create_room (v : json) : option RoomCreateHandler.CreateRequest :=
  s ← struct ["audience"; "time"; "tags"; "preserve_history"; "classroom_id"; "kind"]%string v;
  audience ← get s "audience" r_string;
  time ← get s "time" r_bound_tuple;
  tags ← get s "tags" (optional r_value);
  preserve_history ← get s "preserve_history" (optional r_bool);
  classroom_id ← get s "classroom_id" r_uuid;
  kind ← get s "kind" r_unit_enum;
  Some (RoomCreateHandler.MkCreateRequest audience time tags preserve_history classroom_id kind).

Definition update_room_names : list string := ["time"; "tags"; "classroom_id"]%string.
Definition update_room (s : string -> slot) : option Rooms.UpdatePayload :=
  time ← get s "time" r_option_bound_tuple;
  tags ← get s "tags" (optional r_value);
  classroom_id ← get s "classroom_id" (optional r_uuid);
  Some (Rooms.MkUpdatePayload time tags classroom_id).

(** [EnterPayload] of the HTTP interface. *)
Definition enter_room (s : string -> slot) : option (option string) :=
  get s "agent_label" (defaults None (optional r_string)).

Definition locked_types (s : string -> slot) : option (gmap string bool) :=
  get s "locked_types" (r_map Some r_bool).
Definition whiteboard_access (s : string -> slot) : option (gmap account_id bool) :=
  get s "whiteboard_access" (r_map account_from_str r_bool).

Definition adjust_room_names : list string := ["started_at"; "segments"; "offset"]%string.
Definition adjust_room (s : string -> slot) : option Rooms.AdjustPayload :=
  started_at ← get s "started_at" r_milliseconds;
  segments ← get s "segments" r_segments;
  offset ← get s "offset" r_i64;
  Some (Rooms.MkAdjustPayload started_at segments offset).

(** ** Editions and changes *)

Definition commit_edition_names : list string := ["offset"]%string.
Definition commit_edition (s : string -> slot) : option Z := get s "offset" (defaults 0 r_i64).

Definition addition_data (v : json) : option AdditionData :=
  s ← struct ["type"; "data"; "set"; "label"; "occurred_at"; "created_by"]%string v;
  kind ← get s "type" r_string;
  data ← get s "data" r_value;
  set ← get s "set" (optional r_string);
  label ← get s "label" (optional r_string);
  occurred_at ← get s "occurred_at" r_i64;
  created_by ← get s "created_by" r_agent_id;
  Some (MkAdditionData kind data set label occurred_at created_by).

Definition modification_data (v : json) : option ModificationData :=
  s ← struct ["event_id"; "type"; "data"; "set"; "label"; "occurred_at"; "created_by"]%string v;
  event_id ← get s "event_id" r_uuid;
  kind ← get s "type" (optional r_string);
  data ← get s "data" (optional r_value);
  set ← get s "set" (optional r_string);
  label ← get s "label" (optional r_string);
  occurred_at ← get s "occurred_at" (optional r_i64);
  created_by ← get s "created_by" (optional r_agent_id);
  Some (MkModificationData event_id kind data set label occurred_at created_by).

(** The fields besides the identifier are read, and not used. *)
Definition removal_data (v : json) : option uuid :=
  s ← struct ["event_id"; "type"; "set"; "occurred_at"]%string v;
  event_id ← get s "event_id" r_uuid;
  _ ← get s "type" (optional r_string);
  _ ← get s "set" (optional r_string);
  _ ← get s "occurred_at" (optional r_i64);
  Some event_id.

Definition bulk_removal_data (v : json) : option string :=
  s ← struct ["set"]%string v; get s "set" r_string.

(** [Changeset]: the tag names the variant; where the document has been buffered
    for [flatten], its number is taken as well. *)
Definition change_type (buffered : bool) (tag : json) : option ChangeType :=
  match tag with
  | JString "addition" => Some Addition
  | JString "modification" => Some Modification
  | JString "removal" => Some Removal
  | JString "bulk_removal" => Some BulkRemoval
  | JNumber (PosInt n) => if buffered then [Addition; Modification; Removal; BulkRemoval] !! Z.to_nat n else None
  | _ => None
  end%string.

Definition changeset_names : list string := ["type"; "event"]%string.
Definition changeset (buffered : bool) (s : string -> slot) : option Changeset :=
  kind ← get s "type" (required (change_type buffered));
  match kind with
  | Addition => AdditionSet <$> get s "event" (required addition_data)
  | Modification => ModificationSet <$> get s "event" (required modification_data)
  | Removal => RemovalSet <$> get s "event" (required removal_data)
  | BulkRemoval => BulkRemovalSet <$> get s "event" (required bulk_removal_data)
  end.

(** [ListPayload] of [edition/list.rs], and the one of [change/list.rs], whose limit
    is a [usize]. *)
Definition list_since_names : list string := ["last_created_at"; "limit"]%string.
Definition list_editions (s : string -> slot) : option Editions.ListPayload :=
  last_created_at ← get s "last_created_at" (optional r_datetime);
  limit ← get s "limit" (optional r_i64);
  Some (Editions.MkListPayload last_created_at limit).
Definition list_changes (s : string -> slot) : option Changes.ListPayload :=
  last_created_at ← get s "last_created_at" (optional r_datetime);
  limit ← get s "limit" (optional r_usize);
  Some (Changes.MkListPayload last_created_at limit).

(** ** Requests of the MQTT interface *)

(** A request whose payload is flattened into it. *)
Definition with_id {A} (id_name : string) (names : list string) (payload : (string -> slot) -> option A) (v : json)
    : option (uuid * A) :=
  s ← flat (id_name :: names) v;
  id ← get s id_name r_uuid;
  p ← payload s;
  Some (id, p).

(** A request of one identifier. *)
Definition only_id (id_name : string) (v : json) : option uuid :=
  s ← struct [id_name] v; get s id_name r_uuid.

(** The payload of a handler. *)
Definition decode (h : RequestHandler) (v : json) : option (PayloadOf h) :=
  match h with
  | AgentList =>
    '(id, p) ← with_id "room_id" list_agents_names list_agents v;
    Some (AgentListHandler.MkListRequest id (Agents.lp_offset p) (Agents.lp_limit p))
  | AgentUpdate =>
    '(id, p) ← with_id "room_id" update_agent_names update_agent v;
    Some (AgentUpdateHandler.MkUpdateRequest id (Agents.up_account_id p) (Agents.up_value p) (Agents.up_reason p))
  | BanList => only_id "room_id" v
  | ChangeCreate =>
    '(id, p) ← with_id "edition_id" changeset_names (changeset true) v;
    Some (ChangeCreateHandler.MkCreateRequest id p)
  | ChangeDelete => only_id "id" v
  | ChangeList =>
    '(id, p) ← with_id "id" list_since_names list_changes v;
    Some (ChangeListHandler.MkListRequest id (Changes.lp_last_created_at p) (Changes.lp_limit p))
  | EditionCommit =>
    '(id, p) ← with_id "id" commit_edition_names commit_edition v; Some (EditionCommitHandler.MkCommitRequest id p)
  | EditionCreate => only_id "room_id" v
  | EditionList =>
    '(id, p) ← with_id "room_id" list_since_names list_editions v;
    Some (EditionListHandler.MkListRequest id (Editions.lp_last_created_at p) (Editions.lp_limit p))
  | EditionDelete => only_id "id" v
  | EventCreate =>
    '(id, p) ← with_id "room_id" create_event_names create_event v; Some (MkCreateRequest id p)
  | EventList =>
    '(id, p) ← with_id "room_id" list_events_names list_events v;
    Some (EventEndpoint.MkListRequest id (Events.lp_kind p) (Events.lp_set p) (Events.lp_label p)
            (Events.lp_attribute p) (Events.lp_last_occurred_at p) (Events.lp_direction p) (Events.lp_limit p))
  | RoomAdjust =>
    '(id, p) ← with_id "id" adjust_room_names adjust_room v;
    Some (RoomAdjustHandler.MkAdjustRequest id (Rooms.ap_started_at p) (Rooms.ap_segments p) (Rooms.ap_offset p))
  | RoomCreate => create_room v
  | RoomDumpEvents => only_id "id" v
  | RoomEnter => only_id "id" v
  | RoomLockedTypes => with_id "id" ["locked_types"]%string locked_types v
  | RoomRead => only_id "id" v
  | RoomUpdate =>
    '(id, p) ← with_id "id" update_room_names update_room v;
    Some (RoomUpdateHandler.MkUpdateRequest id (Rooms.up_time p) (Rooms.up_tags p) (Rooms.up_classroom_id p))
  | RoomWhiteboardAccess => with_id "id" ["whiteboard_access"]%string whiteboard_access v
  | StateRead =>
    '(id, p) ← with_id "room_id" read_state_names read_state v;
    Some (MkReadRequest id (State.rp_sets p) (State.rp_attribute p) (State.rp_occurred_at p)
            (State.rp_original_occurred_at p) (State.rp_limit p))
  | SystemVacuum => _ ← struct [] v; Some tt
  end.

(** [BrokerResponsePayload]: untagged, the first variant that can be read. *)
Inductive BrokerResponsePayload : Type :=
  | BrokerErr (reason : string)
  | BrokerOk.
Definition broker_response (v : json) : option BrokerResponsePayload :=
  match s ← struct ["reason"]%string v; get s "reason" r_string with
  | Some reason => Some (BrokerErr reason)
  | None => _ ← struct [] v; Some BrokerOk
  end.

(** ** Requests of the HTTP interface *)

(** What a request carries: the identifier of the path, the body, the query string
    as text and, decoded, as pairs ([serde_urlencoded]). *)
Record HttpParts : Type := MkHttpParts {
  path_id : option uuid;
  body : option json;
  query : option string;
  query_pairs : list (string * string)
}.

(** [Query]: every value is text; a number is parsed. *)
Definition query_slots (names : list string) (pairs : list (string * string)) : option (string -> option string) :=
  if forallb (occurs_once pairs.*1) names
  then Some (fun name => snd <$> list_first (fun p => bool_decide (p.1 = name)) pairs) else None.

(** An [Option]: what is there has to be read. *)
Definition query_opt {A} (f : string -> option A) (o : option string) : option (option A) :=
  match o with Some s => Some <$> f s | None => Some None end.

Definition query_list_agents (pairs : list (string * string)) : option Agents.ListPayload :=
  q ← query_slots list_agents_names pairs;
  offset ← query_opt (parse_unsigned 64) (q "offset"%string);
  limit ← query_opt (parse_unsigned 64) (q "limit"%string);
  Some (Agents.MkListPayload offset limit).

(** Text is never a list of types. *)
Definition query_list_events (pairs : list (string * string)) : option Events.ListPayload :=
  q ← query_slots list_events_names pairs;
  last_occurred_at ← query_opt (parse_signed 64) (q "last_occurred_at"%string);
  direction ← query_opt variant_of (q "direction"%string);
  limit ← query_opt (parse_unsigned 64) (q "limit"%string);
  Some (Events.MkListPayload (Single <$> q "type"%string) (q "set"%string) (q "label"%string) (q "attribute"%string)
          last_occurred_at (default Forward direction) limit).

Definition query_list_editions (pairs : list (string * string)) : option Editions.ListPayload :=
  q ← query_slots list_since_names pairs;
  last_created_at ← query_opt datetime_from_str (q "last_created_at"%string);
  limit ← query_opt (parse_signed 64) (q "limit"%string);
  Some (Editions.MkListPayload last_created_at limit).

Definition query_list_changes (pairs : list (string * string)) : option Changes.ListPayload :=
  q ← query_slots list_since_names pairs;
  last_created_at ← query_opt datetime_from_str (q "last_created_at"%string);
  limit ← query_opt (parse_unsigned 64) (q "limit"%string);
  Some (Changes.MkListPayload last_created_at limit).

(** [Path] with [Json]. *)
Definition path_body {A} (names : list string) (payload : (string -> slot) -> option A) (parts : HttpParts)
    : option (uuid * A) :=
  id ← path_id parts; v ← body parts; s ← struct names v; p ← payload s; Some (id, p).

(** [Path] with [Query]. *)
Definition path_query {A} (payload : list (string * string) -> option A) (parts : HttpParts) : option (uuid * A) :=
  id ← path_id parts; p ← payload (query_pairs parts); Some (id, p).

(** The arguments of an endpoint; a request without them is refused. *)
Definition extract (h : RequestHandler) (parts : HttpParts) : option (HttpPayload h) :=
  match h with
  | AgentList => path_query query_list_agents parts
  | AgentUpdate => path_body update_agent_names update_agent parts
  | BanList => path_id parts
  | ChangeCreate => path_body changeset_names (changeset false) parts
  | ChangeDelete => path_id parts
  | ChangeList => path_query query_list_changes parts
  | EditionCommit => path_body commit_edition_names commit_edition parts
  | EditionCreate => path_id parts
  | EditionList => path_query query_list_editions parts
  | EditionDelete => path_id parts
  | EventCreate => path_body create_event_names create_event parts
  | EventList => path_query query_list_events parts
  | RoomAdjust => path_body adjust_room_names adjust_room parts
  | RoomCreate => v ← body parts; create_room v
  | RoomDumpEvents => path_id parts
  | RoomEnter => path_body ["agent_label"]%string enter_room parts
  | RoomLockedTypes => path_body ["locked_types"]%string locked_types parts
  | RoomRead => path_id parts
  | RoomUpdate => path_body update_room_names update_room parts
  | RoomWhiteboardAccess => path_body ["whiteboard_access"]%string whiteboard_access parts
  | StateRead => id ← path_id parts; Some (id, query parts)
  | SystemVacuum => None
  end.

End Payloads.

(** [IncomingRequest::convert_payload], with the query strings of [serde_qs]. *)
Definition serde_payloads `{Externals, WireCrates, JsonParser, qs : State.QueryString} : PayloadCodec :=
  {| convert_payload h text := json_from_str text ≫= decode h; payload_query_string := qs |}.

(** ** Lemmas *)

Lemma occurs_once_spec keys name :
  occurs_once keys name = true <-> (length (List.filter (fun k => bool_decide (k = name)) keys) <= 1)%nat.
Proof. apply Nat.leb_le. Qed.

Lemma forallb_Forall_true {A} (f : A -> bool) l : forallb f l = true <-> Forall (fun x => f x = true) l.
Proof. rewrite forallb_forall, Forall_forall. split; intros Hf x Hx; apply Hf; by apply list_elem_of_In. Qed.

(** The members of an object, by name. *)
Definition members (m : list (string * json)) (name : string) : slot :=
  match json_get name (JObject m) with Some x => Value x | None => NoKey end.

Lemma members_head name v m : members ((name, v) :: m) name = Value v.
Proof. unfold members, json_get. cbn [list_first]. by rewrite bool_decide_eq_true_2. Qed.
Lemma members_tail name name' v m : name <> name' -> members ((name, v) :: m) name' = members m name'.
Proof. intros Hn. unfold members, json_get. cbn [list_first]. by rewrite bool_decide_eq_false_2. Qed.

Lemma flat_Some names m s :
  flat names (JObject m) = Some s <-> Forall (fun name => occurs_once m.*1 name = true) names /\ s = members m.
Proof.
  unfold flat. destruct (forallb _ _) eqn:E.
  - rewrite forallb_Forall_true in E. split; [by intros [= <-]|by intros [_ ->]].
  - split; [done|]. intros [Ha _]. by rewrite <-forallb_Forall_true, E in Ha.
Qed.

(** A payload is read from the fields it names. *)
Definition same_on (names : list string) (s s' : string -> slot) : Prop := forall n, n ∈ names -> s n = s' n.
Class Reads {A} (names : list string) (payload : (string -> slot) -> option A) : Prop :=
  reads_only s s' : same_on names s s' -> payload s = payload s'.

Ltac reads :=
  intros s s' Hs; cbv beta delta [create_event list_events read_state list_agents update_agent update_room enter_room
    locked_types whiteboard_access adjust_room commit_edition changeset list_editions list_changes get];
  repeat match goal with |- context [s ?n] => rewrite (Hs n) by (apply (bool_decide_unpack _); vm_compute; done) end;
  done.

Section Reads.
Context `{Externals, WireCrates}.
#[export] Instance create_event_reads : Reads create_event_names create_event.
Proof. reads. Qed.
#[export] Instance update_agent_reads : Reads update_agent_names update_agent.
Proof. reads. Qed.
#[export] Instance update_room_reads : Reads update_room_names update_room.
Proof. reads. Qed.
#[export] Instance locked_types_reads : Reads ["locked_types"]%string locked_types.
Proof. reads. Qed.
#[export] Instance whiteboard_access_reads : Reads ["whiteboard_access"]%string whiteboard_access.
Proof. reads. Qed.
#[export] Instance adjust_room_reads : Reads adjust_room_names adjust_room.
Proof. reads. Qed.
#[export] Instance commit_edition_reads : Reads commit_edition_names commit_edition.
Proof. reads. Qed.
#[export] Instance changeset_reads buffered : Reads changeset_names (changeset buffered).
Proof. reads. Qed.

(** The tag of a buffered document may be more, not less. *)
Lemma changeset_buffered s c : changeset false s = Some c -> changeset true s = Some c.
Proof.
  unfold changeset. intros (k & Hk & Hc)%bind_Some. apply bind_Some. exists k. split; [|done].
  revert Hk. unfold get. destruct (s "type"%string) as [[]| |]; try done. by destruct n.
Qed.

(** An identifier in front of the members of a payload. *)
Lemma with_id_object `{!UuidLaws} {A} (id_name : string) (names : list string) (payload : (string -> slot) -> option A)
    `{!Reads names payload} (id : uuid) (m : list (string * json)) (s : string -> slot) (p : A) :
  id_name ∉ m.*1 -> id_name ∉ names -> flat names (JObject m) = Some s -> payload s = Some p ->
  with_id id_name names payload (JObject ((id_name, JString (uuid_to_string id)) :: m)) = Some (id, p).
Proof.
  intros Hm Hn [Ho ->]%flat_Some Hp. set (m' := (id_name, JString (uuid_to_string id)) :: m).
  assert (Hflat : flat (id_name :: names) (JObject m') = Some (members m')).
  { apply flat_Some. split; [|done]. constructor.
    - apply occurs_once_spec. simpl. rewrite bool_decide_eq_true_2 by done. simpl.
      rewrite lfilter_nil; [done|]. intros k Hk. apply bool_decide_eq_false. by intros ->.
    - apply Forall_forall. intros n Hin. rewrite Forall_forall in Ho. specialize (Ho n Hin).
      rewrite occurs_once_spec in *. simpl. rewrite bool_decide_eq_false_2; [done|congruence]. }
  apply bind_Some. exists (members m'). split; [done|]. apply bind_Some. exists id. split.
  { unfold get, m'. rewrite members_head. apply uuid_parse_to_string. }
  apply bind_Some. exists p. split; [|done]. rewrite <-Hp. apply reads_only. intros n Hin. apply members_tail. congruence.
Qed.
End Reads.

(** ** The two interfaces *)

(** The field with the identifier an HTTP request has in its path. *)
Definition id_name (h : RequestHandler) : string :=
  match h with
  | AgentList | AgentUpdate | BanList | EditionCreate | EditionList | EventCreate | EventList | StateRead => "room_id"
  | ChangeCreate => "edition_id"
  | _ => "id"
  end.

(** The requests whose payload is a document on both interfaces, or nothing but
    the identifier; those of lists and states have it in the query string. *)
Definition sends_document (h : RequestHandler) : bool :=
  match h with
  | AgentList | ChangeList | EditionList | EventList | StateRead | SystemVacuum => false
  | _ => true
  end.

(** The agent of the MQTT request: to enter a room by HTTP the label is in the
    body, without one the request is refused. *)
Definition mqtt_agent (h : RequestHandler) : HttpPayload h -> agent_id -> option agent_id :=
  match h with
  | RoomEnter => fun q agent => AgentId (agent_account agent) <$> q.2
  | _ => fun _ agent => Some agent
  end.

(** The members of an HTTP body as the document of an MQTT request. *)
Definition mqtt_document `{Externals} (h : RequestHandler) (id : uuid) (m : list (string * json)) : json :=
  match h with
  | RoomCreate => JObject m
  | _ => JObject ((id_name h, JString (uuid_to_string id)) :: m)
  end.

Lemma broadcasts_stay (l : list Notification) :
  List.filter (fun m => negb (is_answer m)) (Broadcast <$> l) = Broadcast <$> l.
Proof. induction l as [|x l IH]; [done|]. cbn. f_equal. exact IH. Qed.
Lemma broadcasts_answer (l : list Notification) : List.filter is_answer (Broadcast <$> l) = [].
Proof. by induction l. Qed.

Section Interfaces.
Context `{Externals, EventCodec, WireCrates, State.QueryString, !UuidLaws}.

Lemma path_with_id {A} name names (payload payload' : (string -> slot) -> option A) `{!Reads names payload'} id m q pairs p :
  name ∉ m.*1 -> bool_decide (name ∈ names) = false -> (forall s a, payload s = Some a -> payload' s = Some a) ->
  path_body names payload (MkHttpParts (Some id) (Some (JObject m)) q pairs) = Some p ->
  with_id name names payload' (JObject ((name, JString (uuid_to_string id)) :: m)) = Some p.
Proof.
  unfold path_body. simpl. intros Hm Hn%bool_decide_eq_false Hp (s & Hs & (a & Ha & [= <-])%bind_Some)%bind_Some.
  eapply with_id_object; eauto.
Qed.

Lemma only_id_object name id m :
  name ∉ m.*1 -> only_id name (JObject ((name, JString (uuid_to_string id)) :: m)) = Some id.
Proof.
  intros Hm. unfold only_id. apply bind_Some. exists (members ((name, JString (uuid_to_string id)) :: m)). split.
  - apply flat_Some. split; [|done]. constructor; [|constructor]. apply occurs_once_spec. simpl.
    rewrite bool_decide_eq_true_2 by done. simpl. rewrite lfilter_nil; [done|].
    intros k Hk. apply bool_decide_eq_false. by intros ->.
  - unfold get. rewrite members_head. apply uuid_parse_to_string.
Qed.

(** A request of the HTTP interface is the same request on the other one. *)
Lemma extract_decode (context : Context) (h : RequestHandler) (id : uuid) (m : list (string * json))
    (agent agent' : agent_id) (q : HttpPayload h) :
  sends_document h = true -> id_name h ∉ m.*1 ->
  extract h (MkHttpParts (Some id) (Some (JObject m)) None []) = Some q -> mqtt_agent h q agent = Some agent' ->
  exists p, decode h (mqtt_document h id m) = Some p /\
    endpoint context h agent q = handle context h p (MqttParams agent').
Proof.
  intros Hj Hm Hq Ha. destruct h; try discriminate Hj; unfold extract in Hq; unfold mqtt_agent in Ha;
    unfold mqtt_document, decode, id_name in *; try injection Ha as <-;
    try (destruct q as [qid [label|]]; [|discriminate Ha]; injection Ha as <-;
      apply bind_Some in Hq as (? & [= <-] & (? & _ & (? & _ & (? & _ & [= <- ->])%bind_Some)%bind_Some)%bind_Some);
      eexists; split; [by apply only_id_object|reflexivity]);
    try (injection Hq as <-; eexists; split; [by apply only_id_object|reflexivity]);
    try (exists q; done);
    match type of Hq with
    | path_body ?names (changeset false) _ = _ =>
      eapply path_with_id with (payload' := changeset true) in Hq; [|apply _|exact Hm|done|apply changeset_buffered]
    | path_body ?names ?payload _ = _ => eapply path_with_id with (payload' := payload) in Hq; [|apply _|exact Hm|done|done]
    end; destruct q as [qid p]; rewrite Hq; eexists; (split; [reflexivity|reflexivity]).
Qed.

(** What the middleware of the HTTP interface does with a request, and the message
    handler of the MQTT interface, both decoding with [serde]. *)
Context `{JsonParser}.
#[local] Existing Instance serde_payloads.

(** C9: a request has the same effect on both interfaces.  Take a request with an
    MQTT method and an HTTP endpoint that has a body, or only the identifier of the
    path (no query string), and a body the endpoint accepts that does not itself
    have a member with the name of the identifier.  Put together with the identifier
    it is a document the MQTT handler takes.  When both come from the same agent
    (to enter a room, the one with the label of the body) and the publications go
    through, they leave the same world: database, requests to other services and
    reports to Sentry; the HTTP interface publishes what the MQTT interface
    publishes but the answer, in the same order; and the one answer has the same
    status and the same payload or error. *)
Theorem interfaces_agree (context : Context) (t : transport) (h : RequestHandler) (method : string) (id : uuid)
    (m : list (string * json)) (text : string) (agent agent' : agent_id) (q : HttpPayload h) (n : env) (w : world)
    (ob : outbox) :
  (forall k, t_publishes t k = true) -> route method = Some h -> sends_document h = true -> id_name h ∉ m.*1 ->
  extract h (MkHttpParts (Some id) (Some (JObject m)) None []) = Some q -> mqtt_agent h q agent = Some agent' ->
  json_from_str text = Some (mqtt_document h id m) ->
  let '((status, body), w1, ob1) := NotificationsMiddleware.call context t h q agent n w ob in
  let '(w2, ob2) := MessageHandler.handle context t (Some (MessageHandler.IncomingRequest method text agent')) n w ob in
  w2 = w1 /\ exists messages,
    published ob2 = published ob ++ messages /\
    published ob1 = published ob ++ List.filter (fun m => negb (is_answer m)) messages /\
    List.filter is_answer messages =
      match body with inl payload => [OutgoingResponse status payload] | inr e => [ErrorResponse status e] end.
Proof.
  intros Ht Hr Hj Hm Hq Ha Htext. destruct (extract_decode context h id m agent agent' q Hj Hm Hq Ha) as (p & Hp & He).
  unfold MessageHandler.handle, MessageHandler.handle_message, MessageHandler.publish.
  pose proof (request_settled context method text agent' n w) as Hs. unfold settled in Hs. rewrite Hr in Hs.
  simpl convert_payload in Hs. rewrite Htext in Hs. simpl in Hs. rewrite Hp in Hs.
  unfold NotificationsMiddleware.call, handle_http. cbn [payload_query_string serde_payloads]. rewrite He, bind_exec.
  pose proof (fun r w1 => returns_exec _ _ n w r w1 (handle_returns context h p (MqttParams agent'))) as Hret.
  destruct (handle context h p (MqttParams agent') n w) as [[r|e] w']; rewrite Hs; cbn [lift ret].
  - rewrite ret_exec, (surjective_pairing (into_response r)), (surjective_pairing (into_response r).2).
    destruct (published_all t (into_mqtt_messages r) ob Ht) as (ob2 & -> & Hp2).
    destruct (publish_all_spec t (into_response r).1 ob) as [Hp1 _]. split; [done|].
    exists (into_mqtt_messages r). rewrite Hp2, Hp1, (through_all t _ _ Ht). split; [done|].
    specialize (Hret r w' eq_refl). cbn in Hret.
    assert ((resp_status r =? NO_CONTENT) = false) as Hn by by apply answered_status.
    unfold into_response, into_mqtt_messages, tasks_stream. rewrite Hn. cbn [fst].
    rewrite !lfilter_app, !broadcasts_stay, !broadcasts_answer. done.
  - destruct (published_all t [ErrorResponse (Errors.status e) e] ob Ht) as (ob2 & -> & Hp2).
    unfold NotificationsMiddleware.into_response, notified. rewrite add_reports_of. split; [done|]. exists [ErrorResponse (Errors.status e) e]. rewrite Hp2. split; [done|]. by rewrite app_nil_r.
Qed.
End Interfaces.

(** ** Samples and witnesses *)

#[export] Instance sample_wire : WireCrates := {|
  agent_from_str s := if bool_decide (s = "web.agent"%string) then Some sample_agent else None;
  from_timestamp_opt := from_timestamp_total;
  timestamp_millis_opt n := Some (n * 1000000);
  datetime_from_str _ := None
|}.

(** The lock of a type in room 1. *)
Definition lock_body : list (string * json) := [("locked_types", JObject [("message", JBool true)])]%string.
#[local] Instance lock_parser : JsonParser := fun _ => Some (mqtt_document RoomLockedTypes 1%N lock_body).
#[local] Instance no_query_string : State.QueryString := fun _ => None.

Definition sample_transport : transport := MkTransport (fun _ => true) (fun _ => true) (fun _ => true).

Lemma interfaces_agree_witness :
  let '((status, _), w1, _) := NotificationsMiddleware.call (H1 := serde_payloads) sample_context sample_transport
    RoomLockedTypes (1%N, lock_message) sample_agent sample_env sample_world (Outbox 0 [] []) in
  let '(w2, _) := MessageHandler.handle (H1 := serde_payloads) sample_context sample_transport
    (Some (MessageHandler.IncomingRequest "room.locked_types" "" sample_agent)) sample_env sample_world (Outbox 0 [] []) in
  status = OK /\ w2 = w1.
Proof.
  pose proof (interfaces_agree sample_context sample_transport RoomLockedTypes "room.locked_types" 1%N lock_body ""
    sample_agent sample_agent (1%N, lock_message) sample_env sample_world (Outbox 0 [] []) (fun _ => eq_refl) eq_refl
    eq_refl ltac:(by apply (bool_decide_unpack _); vm_compute) ltac:(vm_compute; reflexivity) eq_refl eq_refl) as Ha.
  destruct (NotificationsMiddleware.call _ _ _ _ _ _ _ _) as [[[status body] w1] ob1] eqn:E.
  assert (status = OK) as -> by (apply (f_equal (fun x => x.1.1.1)) in E; vm_compute in E; by symmetry).
  destruct (MessageHandler.handle _ _ _ _ _ _) as [w2 ob2]. split; [reflexivity|]. exact (proj1 Ha).
Defined.

(** The number of a variant is a tag only where the document is buffered. *)
Example changeset_by_number :
  let event := ("event", JObject [("set", JString "messages")])%string in
  let m := [("type"%string, JNumber (PosInt 3)); event] in
  decode ChangeCreate (mqtt_document ChangeCreate 1%N m)
    = Some (ChangeCreateHandler.MkCreateRequest 1%N (BulkRemovalSet "messages")) /\
  extract ChangeCreate (MkHttpParts (Some 1%N) (Some (JObject m)) None []) = None.
Proof. vm_compute. done. Qed.

(** A segment without an end is dropped when it is the last, and refuses the request
    when it is not. *)
Example open_segment :
  let pair lt rt := JArray [JNumber (PosInt lt); rt] in
  segments (JArray [pair 0 (JNumber (PosInt 9)); pair 10 JNull]) = Some [(Included 0, Excluded 9)] /\
  segments (JArray [pair 0 JNull; pair 1 (JNumber (PosInt 9))]) = None.
Proof. vm_compute. done. Qed.

(** The kinds of a room are the names of the variants. *)
Example kind_in_small_letters :
  let body kind := JObject [("audience", JString "example.org"); ("time", JArray [JNull; JNull]);
    ("classroom_id", JString "7"); ("kind", JString kind)]%string in
  create_room (body "webinar"%string) = None /\ is_Some (create_room (body "Webinar"%string)).
Proof. vm_compute. eauto. Qed.
