(* ===== verification/Answers.v ===== *)
(** * Answers on the wire

    What [serde] derives for the objects the service sends: the rooms, events,
    changes, editions and agents of [src/src/db], the notifications of
    [src/src/app/endpoint] and the ranges of [src/src/serde.rs], as documents with
    their members in the order they are written ([document]), and for the objects
    that derive [Deserialize] too, how they are read ([room_of], ...).  The theorem
    of this file says what of an object a reader gets back. *)

From S2P Require Import Prelude Numbers Times Types Db Sample Schema EventDb SetState RoomDb EditionDb AgentDb Integrity Effects Errors Service EventEndpoint AgentEndpoint EditionEndpoint RoomEndpoint Http Router Scenarios Payloads.

(** [svc_agent]: [AgentId]'s [Display]; [chrono]: the RFC 3339 text of a date,
    [Utc.timestamp_opt]; [svc_error]: the problem details of an error. *)
Class AnswerCrates : Type := {
  agent_to_string : agent_id -> string;
  datetime_to_string : Z -> string;
  timestamp_opt : Z -> option Z;
  svc_error_document : ErrorKind -> json
}.

(** ** Documents *)

(** A member of an object, or one that is skipped. *)
Definition member : Type := string * option json.

Definition object (members : list member) : json := JObject (omap present members).

(** [skip_serializing_if = "Option::is_none"]. *)
Definition unless_none {A} (w : A -> json) (o : option A) : option json := w <$> o.

Definition w_option {A} (w : A -> json) (o : option A) : json := match o with Some a => w a | None => JNull end.
Definition w_i64 (n : Z) : json := JNumber (if 0 <=? n then PosInt n else NegInt n).
Definition w_list {A} (w : A -> json) (l : list A) : json := JArray (w <$> l).
Definition w_enum {A} `{UnitEnum A} (a : A) : json := JString (rename a).

(** [chrono::serde::ts_seconds], [ts_milliseconds]: rounded down. *)
Definition timestamp_millis (dt : Z) : Z := dt / 1000000.
Definition w_seconds (dt : Z) : json := w_i64 (timestamp dt).
Definition w_milliseconds (dt : Z) : json := w_i64 (timestamp_millis dt).

(** [serde::time]: a range of seconds. *)
Definition w_time (time : BoundedDateTimeTuple) : json :=
  w_list (w_option w_i64) (TsSecondsBoundTuple.serialize time).

(** [serde::segments]: a list of ranges of milliseconds. *)
Definition w_segments (l : Segments) : json :=
  w_list (fun '(lt, rt) => JArray [w_option w_i64 lt; w_option w_i64 rt]) (MillisecondsBoundTuples.serialize l).

#[export, refine] Instance change_type_enum : UnitEnum ChangeType := {|
  rename k := match k with Addition => "addition" | Modification => "modification" | Removal => "removal"
                         | BulkRemoval => "bulk_removal" end%string;
  variants := [Addition; Modification; Removal; BulkRemoval]
|}.
Proof. by intros []. Defined.

#[export, refine] Instance status_enum : UnitEnum Status := {|
  rename s := match s with InProgress => "in_progress" | Ready => "ready" end%string;
  variants := [InProgress; Ready]
|}.
Proof. by intros []. Defined.

Section Answers.
Context `{Externals, WireCrates, AnswerCrates}.

Definition w_uuid (u : uuid) : json := JString (uuid_to_string u).
Definition w_account (a : account_id) : json := JString (account_to_string a).
Definition w_agent (a : agent_id) : json := JString (agent_to_string a).

(** ** Objects of the database *)

Definition room_members (r : Room) : list member :=
  [("id", Some (w_uuid (room_id r)));
   ("audience", Some (JString (room_audience r)));
   ("source_room_id", unless_none w_uuid (room_source_room_id r));
   ("time", Some (w_time (room_time r)));
   ("tags", unless_none id (room_tags r));
   ("created_at", Some (w_seconds (room_created_at r)));
   ("preserve_history", Some (JBool (room_preserve_history r)));
   ("classroom_id", Some (w_uuid (room_classroom_id r)));
   ("locked_types", Some (locked_types_to_value (room_locked_types r)));
   ("whiteboard_access", Some (whiteboard_access_to_value (room_whiteboard_access r)));
   ("kind", Some (w_enum (room_kind r)))]%string.

Definition event_members (e : Event) : list member :=
  [("id", Some (w_uuid (event_id e)));
   ("room_id", Some (w_uuid (event_room_id e)));
   ("type", Some (JString (event_kind e)));
   ("set", Some (JString (event_set e)));
   ("label", unless_none JString (event_label e));
   ("attribute", Some (w_option JString (event_attribute e)));
   ("data", Some (event_data e));
   ("occurred_at", Some (w_i64 (event_occurred_at e)));
   ("created_by", Some (w_agent (event_created_by e)));
   ("created_at", Some (w_milliseconds (event_created_at e)));
   ("deleted_at", unless_none w_milliseconds (event_deleted_at e));
   ("original_occurred_at", Some (w_i64 (event_original_occurred_at e)));
   ("original_created_by", Some (w_agent (event_original_created_by e)));
   ("removed", Some (JBool (event_removed e)))]%string.

Definition change_members (c : Change) : list member :=
  [("id", Some (w_uuid (change_id c)));
   ("edition_id", Some (w_uuid (change_edition_id c)));
   ("type", Some (w_enum (change_kind c)));
   ("event_id", Some (w_option w_uuid (change_event_id c)));
   ("event_type", unless_none JString (change_event_kind c));
   ("event_set", unless_none JString (change_event_set c));
   ("event_label", unless_none JString (change_event_label c));
   ("event_data", unless_none id (change_event_data c));
   ("event_occurred_at", unless_none w_i64 (change_event_occurred_at c));
   ("event_created_by", unless_none w_agent (change_event_created_by c));
   ("created_at", Some (w_seconds (change_created_at c)))]%string.

Definition edition_members (e : Edition) : list member :=
  [("id", Some (w_uuid (edition_id e)));
   ("source_room_id", Some (w_uuid (edition_source_room_id e)));
   ("created_by", Some (w_agent (edition_created_by e)));
   ("created_at", Some (w_seconds (edition_created_at e)))]%string.

(** The identifier and the status are not written. *)
Definition agent_members (a : AgentWithBan) : list member :=
  [("agent_id", Some (w_agent (ag_agent_id (awb_agent a))));
   ("room_id", Some (w_uuid (ag_room_id (awb_agent a))));
   ("created_at", Some (w_seconds (ag_created_at (awb_agent a))));
   ("banned", unless_none JBool (awb_banned a));
   ("reason", unless_none JString (awb_reason a))]%string.

Definition ban_members (b : RoomBan) : list member :=
  [("account_id", Some (w_account (ban_account_id b)));
   ("created_at", Some (JString (datetime_to_string (ban_created_at b))));
   ("reason", Some (w_option JString (ban_reason b)))]%string.

Definition room_document (r : Room) : json := object (room_members r).
Definition event_document (e : Event) : json := object (event_members e).
Definition change_document (c : Change) : json := object (change_members c).
Definition edition_document (e : Edition) : json := object (edition_members e).
Definition agent_document (a : AgentWithBan) : json := object (agent_members a).

(** ** Results of the tasks *)

(** Untagged: the members of the variant. *)
Definition adjust_members (r : RoomAdjustResult) : list member :=
  match r with
  | AdjustSuccess original modified modified_segments cut_original_segments =>
    [("original_room_id", Some (w_uuid original)); ("modified_room_id", Some (w_uuid modified));
     ("modified_segments", Some (w_segments modified_segments));
     ("cut_original_segments", Some (w_segments cut_original_segments))]
  | AdjustError error => [("error", Some (svc_error_document error))]
  end%string.

Definition commit_members (r : EditionCommitResult) : list member :=
  match r with
  | CommitSuccess source committed modified_segments =>
    [("source_room_id", Some (w_uuid source)); ("committed_room_id", Some (w_uuid committed));
     ("modified_segments", Some (w_segments modified_segments))]
  | CommitError error => [("error", Some (svc_error_document error))]
  end%string.

Definition dump_members (r : EventsDumpResult) : list member :=
  match r with
  | DumpSuccess room s3_uri => [("room_id", Some (w_uuid room)); ("s3_uri", Some (JString s3_uri))]
  | DumpError error => [("error", Some (svc_error_document error))]
  end%string.

(** ** State *)

Definition state_document (s : StateValue) : json :=
  match s with
  | HasNext b => JBool b
  | SingleEvent e => value_of (event_document e)
  | Collection l => value_of (w_list event_document l)
  end.

(** What [state.read] does with the serialized events of a set. *)
Definition set_value (serialized_set_state : json) : json :=
  match as_array serialized_set_state ≫= head with
  | Some event => if is_none (json_get "label" event) then event else serialized_set_state
  | None => serialized_set_state
  end.

(** ** Payloads of answers and notifications *)

(** [TenantClaimNotification]: the fields of a flattened object come where it is. *)
Definition claim_members (e : Event) (classroom_id : uuid) : list member :=
  event_members e ++ [("classroom_id"%string, Some (w_uuid classroom_id))].

(** [TenantBanNotification], [BanNotification]. *)
Definition tenant_ban_members (room : uuid) (account banned_by : account_id) (banned : bool) (reason : option string)
    (classroom_id : uuid) : list member :=
  [("room_id", Some (w_uuid room)); ("account_id", Some (w_account account));
   ("banned_by", Some (w_account banned_by)); ("banned", Some (JBool banned));
   ("reason", unless_none JString reason); ("classroom_id", Some (w_uuid classroom_id))]%string.
Definition ban_notification_members (account : account_id) (banned : bool) (reason : option string) : list member :=
  [("account_id", Some (w_account account)); ("banned", Some (JBool banned));
   ("reason", unless_none JString reason)]%string.

(** [RoomEnterEvent], [RoomLeaveEvent]. *)
Definition room_enter_members (id : uuid) (agent : agent_id) (banned : bool) (a : AgentWithBan) : list member :=
  [("id", Some (w_uuid id)); ("agent_id", Some (w_agent agent)); ("banned", Some (JBool banned));
   ("agent", Some (agent_document a))]%string.
Definition room_leave_members (id : uuid) (agent : agent_id) : list member :=
  [("id", Some (w_uuid id)); ("agent_id", Some (w_agent agent))]%string.

(** [RoomAdjustNotification], [EditionCommitNotification], with their results
    flattened, and [EventsDumpNotification]. *)
Definition adjust_notification_members (room : uuid) (status : string) (tags : option json) (result : RoomAdjustResult)
    : list member :=
  [("room_id", Some (w_uuid room)); ("status", Some (JString status)); ("tags", unless_none id tags)]%string
  ++ adjust_members result.
Definition commit_notification_members (status : string) (tags : option json) (result : EditionCommitResult)
    : list member :=
  [("status", Some (JString status)); ("tags", unless_none id tags)]%string ++ commit_members result.
Definition dump_notification_members (status : string) (tags : option json) (result : EventsDumpResult) : list member :=
  [("status", Some (JString status)); ("tags", unless_none id tags);
   ("result", Some (object (dump_members result)))]%string.

Definition document (p : Payload) : json :=
  match p with
  | PEmpty => JObject []
  | PEvent e => event_document e
  | PEvents l => w_list event_document l
  | PClaim e classroom_id => object (claim_members e classroom_id)
  | PState state => value_of (JObject ((fun p => (p.1, state_document p.2)) <$> map_to_list state))
  | PRoom r => room_document r
  | PAgents l => w_list agent_document l
  | PBans l => w_list (fun b => object (ban_members b)) l
  | PEdition e => edition_document e
  | PEditions l => w_list edition_document l
  | PChange c => change_document c
  | PChanges l => w_list change_document l
  | PTenantBan room account banned_by banned reason classroom_id =>
    object (tenant_ban_members room account banned_by banned reason classroom_id)
  | PBan account banned reason => object (ban_notification_members account banned reason)
  | PRoomEnter id agent banned a => object (room_enter_members id agent banned a)
  | PRoomLeave id agent => object (room_leave_members id agent)
  | PAdjust room status tags result => object (adjust_notification_members room status tags result)
  | PCommit status tags result => object (commit_notification_members status tags result)
  | PDump status tags result => object (dump_notification_members status tags result)
  end.

(** [Response::new] makes a [Value] of its payload; a notification is written as it is. *)
Definition answer (p : Payload) : json := value_of (document p).

(** What is put into the storage: [S3Content]. *)
Definition s3_content (room : Room) (events : list Event) : json :=
  object [("room", Some (room_document room)); ("events", Some (w_list event_document events))]%string.

(** ** Reading *)

(** [ts_seconds] reads as well. *)
Definition r_seconds : reader Z := required (fun v => n ← read_value r_i64 v; timestamp_opt n).

Definition room_names : list string :=
  ["id"; "audience"; "source_room_id"; "time"; "tags"; "created_at"; "preserve_history"; "classroom_id";
   "locked_types"; "whiteboard_access"; "kind"]%string.
Definition room_of (v : json) : option Room :=
  s ← struct room_names v;
  id ← get s "id" r_uuid;
  audience ← get s "audience" r_string;
  source_room_id ← get s "source_room_id" (optional r_uuid);
  time ← get s "time" r_bound_tuple;
  tags ← get s "tags" (optional r_value);
  created_at ← get s "created_at" r_seconds;
  preserve_history ← get s "preserve_history" r_bool;
  classroom_id ← get s "classroom_id" r_uuid;
  locked_types ← get s "locked_types" (defaults ∅ (r_map Some r_bool));
  whiteboard_access ← get s "whiteboard_access" (defaults ∅ (r_map account_from_str r_bool));
  kind ← get s "kind" r_unit_enum;
  Some (MkRoom id audience source_room_id time tags created_at preserve_history classroom_id locked_types
          whiteboard_access kind).

(** [deleted_at] is never read. *)
Definition event_names : list string :=
  ["id"; "room_id"; "type"; "set"; "label"; "attribute"; "data"; "occurred_at"; "created_by"; "created_at";
   "original_occurred_at"; "original_created_by"; "removed"]%string.
Definition event_of (v : json) : option Event :=
  s ← struct event_names v;
  id ← get s "id" r_uuid;
  room_id ← get s "room_id" r_uuid;
  kind ← get s "type" r_string;
  set ← get s "set" r_string;
  label ← get s "label" (optional r_string);
  attribute ← get s "attribute" (optional r_string);
  data ← get s "data" r_value;
  occurred_at ← get s "occurred_at" r_i64;
  created_by ← get s "created_by" r_agent_id;
  created_at ← get s "created_at" r_milliseconds;
  original_occurred_at ← get s "original_occurred_at" r_i64;
  original_created_by ← get s "original_created_by" r_agent_id;
  removed ← get s "removed" r_bool;
  Some (MkEvent id room_id kind set label attribute data occurred_at created_by created_at None
          original_occurred_at original_created_by removed).

Definition change_names : list string :=
  ["id"; "edition_id"; "type"; "event_id"; "event_type"; "event_set"; "event_label"; "event_data";
   "event_occurred_at"; "event_created_by"; "created_at"]%string.
Definition change_of (v : json) : option Change :=
  s ← struct change_names v;
  id ← get s "id" r_uuid;
  edition_id ← get s "edition_id" r_uuid;
  kind ← get s "type" r_unit_enum;
  event_id ← get s "event_id" (optional r_uuid);
  event_kind ← get s "event_type" (optional r_string);
  event_set ← get s "event_set" (optional r_string);
  event_label ← get s "event_label" (optional r_string);
  event_data ← get s "event_data" (optional r_value);
  event_occurred_at ← get s "event_occurred_at" (optional r_i64);
  event_created_by ← get s "event_created_by" (optional r_agent_id);
  created_at ← get s "created_at" r_seconds;
  Some (MkChange id edition_id kind event_id event_kind event_set event_label event_data event_occurred_at
          event_created_by created_at).

Definition edition_names : list string := ["id"; "source_room_id"; "created_by"; "created_at"]%string.
Definition edition_of (v : json) : option Edition :=
  s ← struct edition_names v;
  id ← get s "id" r_uuid;
  source_room_id ← get s "source_room_id" r_uuid;
  created_by ← get s "created_by" r_agent_id;
  created_at ← get s "created_at" r_seconds;
  Some (MkEdition id source_room_id created_by created_at).

(** The fields that are not written are read. *)
Definition agent_names : list string :=
  ["id"; "agent_id"; "room_id"; "status"; "created_at"; "banned"; "reason"]%string.
Definition agent_of (v : json) : option AgentWithBan :=
  s ← struct agent_names v;
  id ← get s "id" r_uuid;
  agent_id ← get s "agent_id" r_agent_id;
  room_id ← get s "room_id" r_uuid;
  status ← get s "status" r_unit_enum;
  created_at ← get s "created_at" r_seconds;
  banned ← get s "banned" (optional r_bool);
  reason ← get s "reason" (optional r_string);
  Some (MkAgentWithBan (MkAgent id agent_id room_id status created_at) banned reason).

End Answers.

(** ** What is kept *)

(** A date is written in whole seconds or milliseconds. *)
Definition whole_seconds (dt : Z) : Z := timestamp dt * nanos_per_sec.
Definition whole_milliseconds (dt : Z) : Z := timestamp_millis dt * 1000000.

(** A range is read as one that includes its beginning and not its end. *)
Definition kept_time (time : BoundedDateTimeTuple) : BoundedDateTimeTuple :=
  (match time.1 with
   | Included d => Included (whole_seconds d)
   | Excluded d => Included ((timestamp d + 1) * nanos_per_sec)
   | Unbounded => Unbounded
   end,
   match time.2 with
   | Included d => Excluded ((timestamp d - 1) * nanos_per_sec)
   | Excluded d => Excluded (whole_seconds d)
   | Unbounded => Unbounded
   end).

(** [Some(Value::Null)] is read as [None]. *)
Definition kept_value (o : option json) : option json :=
  match o with Some JNull => None | o => value_of <$> o end.

Definition kept_room (r : Room) : Room :=
  MkRoom (room_id r) (room_audience r) (room_source_room_id r) (kept_time (room_time r)) (kept_value (room_tags r))
    (whole_seconds (room_created_at r)) (room_preserve_history r) (room_classroom_id r) (room_locked_types r)
    (room_whiteboard_access r) (room_kind r).

Definition kept_event (e : Event) : Event :=
  MkEvent (event_id e) (event_room_id e) (event_kind e) (event_set e) (event_label e) (event_attribute e)
    (value_of (event_data e)) (event_occurred_at e) (event_created_by e) (whole_milliseconds (event_created_at e))
    None (event_original_occurred_at e) (event_original_created_by e) (event_removed e).

Definition kept_change (c : Change) : Change :=
  MkChange (change_id c) (change_edition_id c) (change_kind c) (change_event_id c) (change_event_kind c)
    (change_event_set c) (change_event_label c) (kept_value (change_event_data c)) (change_event_occurred_at c)
    (change_event_created_by c) (whole_seconds (change_created_at c)).

Definition kept_edition (e : Edition) : Edition :=
  MkEdition (edition_id e) (edition_source_room_id e) (edition_created_by e) (whole_seconds (edition_created_at e)).

(** chrono's dates span more than 250000 years on both sides of 1970. *)
Definition max_seconds : Z := 8000000000000.
Definition in_chrono (dt : Z) : Prop := Z.abs (timestamp dt) < max_seconds.
Definition bound_in_chrono (b : Bound Z) : Prop :=
  match b with Included d | Excluded d => in_chrono d | Unbounded => True end.

Class ChronoLaws `{WireCrates, AnswerCrates} : Prop := {
  from_timestamp_whole s : Z.abs s <= max_seconds -> from_timestamp_opt s = Some (s * nanos_per_sec);
  timestamp_whole_seconds s : Z.abs s <= max_seconds -> timestamp_opt s = Some (s * nanos_per_sec);
  timestamp_whole_millis n : Z.abs n <= max_seconds * 1000 -> timestamp_millis_opt n = Some (n * 1000000)
}.

Section Kept.
Context `{Externals, WireCrates, AnswerCrates}.

Definition agent_readable (a : agent_id) : Prop := agent_from_str (agent_to_string a) = Some a.

Definition room_readable (r : Room) : Prop :=
  in_chrono (room_created_at r) /\ bound_in_chrono (room_time r).1 /\ bound_in_chrono (room_time r).2 /\
  accounts_parse (room_whiteboard_access r).
Definition event_readable (e : Event) : Prop :=
  in_i64 (event_occurred_at e) /\ in_i64 (event_original_occurred_at e) /\ in_chrono (event_created_at e) /\
  agent_readable (event_created_by e) /\ agent_readable (event_original_created_by e).
Definition change_readable (c : Change) : Prop :=
  (forall t, change_event_occurred_at c = Some t -> in_i64 t) /\
  (forall a, change_event_created_by c = Some a -> agent_readable a) /\ in_chrono (change_created_at c).
Definition edition_readable (e : Edition) : Prop :=
  agent_readable (edition_created_by e) /\ in_chrono (edition_created_at e).
End Kept.

(** ** The map of a value *)

Definition key_lt (x y : string) : Prop := String.compare x y = Lt.
Definition keys_sorted (m : list (string * json)) : Prop := StronglySorted key_lt m.*1.

Lemma key_lt_trans x y z : key_lt x y -> key_lt y z -> key_lt x z.
Proof.
  unfold key_lt. revert y z. induction x as [|a x IH]; intros [|b y] [|c z]; try done. simpl. unfold Ascii.compare.
  destruct (N.compare_spec (Ascii.N_of_ascii a) (Ascii.N_of_ascii b)),
    (N.compare_spec (Ascii.N_of_ascii b) (Ascii.N_of_ascii c)),
    (N.compare_spec (Ascii.N_of_ascii a) (Ascii.N_of_ascii c)); try done; try lia. apply IH.
Qed.

Lemma key_lt_irrefl x : ~ key_lt x x.
Proof. unfold key_lt. pose proof (String.compare_antisym x x) as Ha. by destruct (String.compare x x). Qed.

Lemma key_leb_lt x y : x <> y -> if key_leb x y then key_lt x y else key_lt y x.
Proof.
  intros Hn. unfold key_leb, key_lt. pose proof (String.compare_antisym y x) as Ha.
  destruct (String.compare x y) eqn:E; simpl in Ha; [|done..]. by apply String.compare_eq_iff in E.
Qed.

Lemma insert_member_keys k v m x : x ∈ (insert_member k v m).*1 -> x = k \/ x ∈ m.*1.
Proof.
  induction m as [|[k' v'] m IH]; simpl; [rewrite list_elem_of_singleton; by left|].
  case_bool_decide; [subst|case_match]; simpl; rewrite !elem_of_cons; intuition.
Qed.

Lemma insert_member_sorted k v m : keys_sorted m -> keys_sorted (insert_member k v m).
Proof.
  unfold keys_sorted. induction m as [|[k' v'] m IH]; simpl; intros Hs; [repeat constructor|].
  apply StronglySorted_inv in Hs as [Hs Hall]. case_bool_decide as Hk; [subst; by constructor|].
  pose proof (key_leb_lt k k' Hk) as Hlt. case_match; simpl.
  - constructor; [by constructor|]. constructor; [done|]. eapply Forall_impl; [exact Hall|].
    intros x Hx. by eapply key_lt_trans.
  - constructor; [by apply IH|]. apply Forall_forall. intros x [->|Hx]%insert_member_keys; [done|].
    by rewrite Forall_forall in Hall; apply Hall.
Qed.

Lemma insert_member_last k v m :
  (forall x, x ∈ m.*1 -> key_lt x k) -> insert_member k v m = m ++ [(k, v)].
Proof.
  induction m as [|[k' v'] m IH]; simpl; intros Hm; [done|]. pose proof (Hm k' ltac:(left)) as Hk.
  rewrite bool_decide_eq_false_2 by (intros ->; by apply key_lt_irrefl in Hk).
  unfold key_leb. unfold key_lt in Hk. rewrite String.compare_antisym, Hk. simpl. f_equal. apply IH. intros x Hx. apply Hm. by right.
Qed.

(** Collecting members that are in order gives them. *)
Lemma collect_sorted m acc :
  keys_sorted (acc ++ m) -> foldl (fun m p => insert_member p.1 p.2 m) acc m = acc ++ m.
Proof.
  revert acc. induction m as [|[k v] m IH]; intros acc Hs; simpl; [by rewrite app_nil_r|].
  rewrite insert_member_last, IH.
  - by rewrite <-app_assoc.
  - by rewrite <-app_assoc.
  - intros x Hx. unfold keys_sorted in Hs. rewrite fmap_app in Hs. simpl in Hs.
    eapply StronglySorted_app_1_elem_of in Hs; [exact Hs|done|left].
Qed.

Lemma collect_is_sorted l m :
  keys_sorted m -> keys_sorted (foldl (fun m p => insert_member p.1 p.2 m) m l).
Proof. revert m. induction l as [|p l IH]; intros m Hs; [done|]. simpl. by apply IH, insert_member_sorted. Qed.

Lemma insert_member_values (P : json -> Prop) k v m :
  P v -> Forall P m.*2 -> Forall P (insert_member k v m).*2.
Proof.
  intros Hv. induction m as [|[k' v'] m IH]; simpl; intros Hm; [by repeat constructor|].
  apply Forall_cons in Hm as [Hv' Hm]. repeat case_match; simpl; repeat constructor; auto.
Qed.

Lemma collect_values (P : json -> Prop) l m :
  Forall P l.*2 -> Forall P m.*2 -> Forall P (foldl (fun m p => insert_member p.1 p.2 m) m l).*2.
Proof.
  revert m. induction l as [|p l IH]; intros m Hl Hm; [done|]. simpl in *. apply Forall_cons in Hl as [Hp Hl].
  apply IH; [done|]. by apply insert_member_values.
Qed.

(** A [Value] is what it is read as. *)
Lemma value_of_idem : forall v, value_of (value_of v) = value_of v.
Proof.
  fix IH 1. intros [|b|n|s|l|m]; [reflexivity..| |]; simpl; f_equal.
  - induction l as [|v l IHl]; [done|]. simpl. f_equal; [apply IH|exact IHl].
  - set (m' := foldl (fun m p => insert_member p.1 p.2 m) [] ((fun p => (p.1, value_of p.2)) <$> m)).
    assert (Hm : Forall (fun v => value_of v = v) m'.*2).
    { apply collect_values; [|constructor]. clear m'. induction m as [|[k v] m IHm]; [constructor|].
      constructor; [apply IH|exact IHm]. }
    replace ((fun p => (p.1, value_of p.2)) <$> m') with m'.
    + by apply (collect_sorted m' []), collect_is_sorted; constructor.
    + clear -Hm. induction m' as [|[k v] m' IHm]; [done|]. simpl in *. apply Forall_cons in Hm as [Hv Hm].
      f_equal; [by rewrite Hv|by apply IHm].
Qed.

Lemma json_get_cons name k v m :
  json_get name (JObject ((k, v) :: m)) = if bool_decide (k = name) then Some v else json_get name (JObject m).
Proof. unfold json_get. simpl. by case_bool_decide. Qed.

Lemma json_get_absent name (m : list (string * json)) : name ∉ m.*1 -> json_get name (JObject m) = None.
Proof.
  induction m as [|[k v] m IH]; [done|]. intros [Hn Hm]%not_elem_of_cons. rewrite json_get_cons, bool_decide_eq_false_2; auto.
Qed.

Lemma json_get_insert name k v m :
  json_get name (JObject (insert_member k v m)) = if bool_decide (k = name) then Some v else json_get name (JObject m).
Proof.
  induction m as [|[k' v'] m IH]; simpl insert_member; [apply json_get_cons|].
  destruct (decide (k = k')) as [->|Hk].
  { rewrite bool_decide_eq_true_2, !json_get_cons by done. by case_bool_decide. }
  rewrite (bool_decide_eq_false_2 (k = k')) by done. destruct (key_leb k k'); rewrite !json_get_cons; [done|]. rewrite IH. repeat case_bool_decide; congruence.
Qed.

Lemma json_get_collect name l acc :
  NoDup l.*1 ->
  json_get name (JObject (foldl (fun m p => insert_member p.1 p.2 m) acc l))
  = match json_get name (JObject l) with Some v => Some v | None => json_get name (JObject acc) end.
Proof.
  revert acc. induction l as [|[k v] l IH]; intros acc; [done|]. intros [Hk Hl]%NoDup_cons. simpl foldl.
  rewrite IH, json_get_cons, json_get_insert by done. case_bool_decide; [|done]. subst. by rewrite json_get_absent.
Qed.

(** The members of a value are those of the document. *)
Lemma json_get_value_of name (m : list (string * json)) :
  NoDup m.*1 -> json_get name (value_of (JObject m)) = value_of <$> json_get name (JObject m).
Proof.
  intros Hd. simpl value_of. rewrite json_get_collect.
  - clear Hd. induction m as [|[k v] m IH]; [done|]. simpl fmap. rewrite !json_get_cons. by case_bool_decide.
  - by rewrite <-list_fmap_compose.
Qed.

(** Names are collected once each, and none is lost. *)
Lemma insert_member_perm k v m : k ∉ m.*1 -> insert_member k v m ≡ₚ (k, v) :: m.
Proof.
  induction m as [|[k' v'] m IH]; [done|]. intros [Hk Hm]%not_elem_of_cons. simpl in *.
  rewrite bool_decide_eq_false_2 by done. case_match; [done|]. rewrite IH by done. apply Permutation_swap.
Qed.

Lemma collect_perm l acc :
  NoDup (acc ++ l).*1 -> foldl (fun m p => insert_member p.1 p.2 m) acc l ≡ₚ acc ++ l.
Proof.
  revert acc. induction l as [|[k v] l IH]; intros acc Hd; simpl; [by rewrite app_nil_r|].
  assert (Hk : k ∉ acc.*1).
  { rewrite fmap_app in Hd. simpl in Hd. apply NoDup_app in Hd as (_ & Hd & _). intros Hk. apply (Hd k Hk). by left. }
  rewrite IH; rewrite insert_member_perm by done; [simpl; by rewrite Permutation_middle|].
  by rewrite <-Permutation_middle in Hd.
Qed.

(** ** Lemmas *)

(** The member of an object that is written under a name. *)
Fixpoint find_member (name : string) (ms : list member) : option (option json) :=
  match ms with
  | [] => None
  | (n, o) :: ms => if String.eqb n name then Some o else find_member name ms
  end.
Definition read_member {A} (r : reader A) (o : option (option json)) : option A :=
  match o with Some (Some v) => read_value r v | _ => on_missing r end.

Lemma json_get_skipped name (ms : list member) :
  name ∉ ms.*1 -> list_first (fun p => bool_decide (p.1 = name)) (omap present ms) = None.
Proof.
  induction ms as [|[n [v|]] ms IH]; intros Hn; [done|..]; simpl; apply not_elem_of_cons in Hn as [Hne Hn].
  - rewrite bool_decide_eq_false_2 by (simpl in *; congruence). by apply IH.
  - by apply IH.
Qed.

Lemma members_object name (ms : list member) :
  NoDup ms.*1 -> members (omap present ms) name
  = match find_member name ms with Some (Some v) => Value v | _ => NoKey end.
Proof.
  unfold members, json_get. induction ms as [|[n o] ms IH]; intros Hd; [done|]. cbn [find_member].
  apply NoDup_cons in Hd as [Hn Hd]. destruct (String.eqb_spec n name) as [->|Hne].
  - destruct o; simpl; [by rewrite bool_decide_eq_true_2|]. by rewrite json_get_skipped.
  - destruct o; simpl; [|by apply IH]. rewrite bool_decide_eq_false_2 by done. by apply IH.
Qed.

Lemma occurs_once_nodup keys name : NoDup keys -> occurs_once keys name = true.
Proof.
  intros Hd. apply occurs_once_spec. induction Hd as [|k l Hk Hd IH]; [simpl; lia|]. simpl. case_bool_decide; [|exact IH].
  subst. simpl. rewrite lfilter_nil; [done|]. intros k' Hk'. apply bool_decide_eq_false. by intros ->.
Qed.

Lemma present_nodup (ms : list member) : NoDup ms.*1 -> NoDup (omap present ms).*1.
Proof.
  induction ms as [|[n [v|]] ms IH]; simpl; [constructor| |by intros [_ ?%IH]%NoDup_cons].
  intros [Hn Hd]%NoDup_cons. constructor; [|by apply IH]. contradict Hn. simpl in Hn.
  apply list_elem_of_fmap in Hn as ([k j] & -> & ([k' [j'|]] & Hin & Hp)%list_elem_of_omap); [|done].
  injection Hp as -> ->. by apply (list_elem_of_fmap_2 fst) in Hin.
Qed.

(** How a document comes to its reader: as it is written, or as a [Value].  What is
    a value stays, names are found, flags are kept. *)
Class Delivery (f : json -> json) : Prop := {
  delivered_value v : value_of (f v) = value_of v;
  delivered_plain v : value_of v = v -> f v = v;
  delivered_object names (ms : list member) :
    NoDup ms.*1 ->
    exists s, struct names (f (object ms)) = Some s /\
      forall A name (r : reader A), get s name r = read_member r (option_map f <$> find_member name ms);
  delivered_flags m : exists m', f (JObject m) = JObject m' /\ (NoDup m.*1 -> m' ≡ₚ (fun p => (p.1, f p.2)) <$> m)
}.

#[export] Instance as_written : Delivery id.
Proof.
  split; try done.
  - intros names ms Hd. exists (members (omap present ms)). split.
    + apply flat_Some. split; [|done]. apply Forall_forall. intros n _. by apply occurs_once_nodup, present_nodup.
    + intros A name r. unfold get. rewrite members_object by done. by destruct (find_member name ms) as [[]|].
  - intros m. exists m. split; [done|]. intros _. induction m as [|[k v] m IH]; [done|]. simpl. by rewrite <-IH.
Qed.

#[export] Instance as_value : Delivery value_of.
Proof.
  split; [apply value_of_idem|done|..].
  - intros names ms Hd. pose proof (present_nodup ms Hd) as Hp. eexists. split.
    + simpl value_of. apply flat_Some. split; [|reflexivity]. apply Forall_forall. intros n _. apply occurs_once_nodup.
      rewrite collect_perm; simpl; by rewrite <-list_fmap_compose.
    + intros A name r. unfold get, members.
      pose proof (json_get_value_of name (omap present ms) Hp) as Hv. simpl value_of in Hv. rewrite Hv.
      pose proof (members_object name ms Hd) as Hm. unfold members in Hm.
      unfold json_get in Hm |- *. destruct (list_first _ (omap present ms)), (find_member name ms) as [[]|]; simplify_eq/=; done.
  - intros m. simpl. eexists. split; [reflexivity|]. intros Hd. rewrite collect_perm; simpl; [done|]. by rewrite <-list_fmap_compose.
Qed.

(** A value that is written is read as [kept], however it is delivered. *)
Definition restores {A B} (r : reader B) (w : A -> json) (a : A) (kept : B) : Prop :=
  read_value r (w a) = Some kept /\ w a <> JNull.

Lemma read_some {A B} (r : reader B) (w : A -> json) (a : A) (b : B) :
  restores r w a b -> read_value (Payloads.optional r) (w a) = Some (Some b).
Proof. intros [Ha Hn]. simpl. destruct (w a) eqn:E; [done|..]; by rewrite Ha. Qed.

Lemma read_option {A} (r : reader A) w (o : option A) :
  (forall a, o = Some a -> restores r w a a) -> read_value (Payloads.optional r) (w_option w o) = Some o.
Proof. destruct o as [a|]; [|done]. intros Hr. by apply (read_some r w), Hr. Qed.

Lemma read_string s : read_value r_string (JString s) = Some s.
Proof. done. Qed.
Lemma read_bool b : read_value r_bool (JBool b) = Some b.
Proof. done. Qed.
Lemma restores_string s : restores r_string JString s s.
Proof. done. Qed.

Lemma read_i64 n : in_i64 n -> read_value r_i64 (w_i64 n) = Some n.
Proof.
  unfold in_i64, i64_max, w_i64. intros Hn. destruct (Z.leb_spec 0 n); simpl; [|done].
  rewrite (proj2 (Z.leb_le _ _)); [done|]. unfold i64_max. lia.
Qed.
Lemma restores_i64 n : in_i64 n -> restores r_i64 w_i64 n n.
Proof. intros Hn. split; [by apply read_i64|]. unfold w_i64. by destruct (0 <=? n). Qed.

Lemma read_enum {A} `{UnitEnum A} (a : A) : read_value r_unit_enum (w_enum a) = Some a.
Proof. apply variants_complete. Qed.

Lemma collect_flags_perm {K} `{Countable K} (l : list (K * bool)) m : l ≡ₚ map_to_list m -> collect_flags l = m.
Proof.
  intros Hp. unfold collect_flags. rewrite collect_flags_fold, (right_id_L ∅ (∪)).
  rewrite (list_to_map_proper _ (map_to_list m)), list_to_map_to_list; [done| |].
  - rewrite fmap_reverse, reverse_Permutation, Hp. apply NoDup_fst_map_to_list.
  - by rewrite reverse_Permutation.
Qed.

Section Delivered.
Context (f : json -> json) `{!Delivery f}.

(** A member whose value is plain. *)
Lemma read_plain {A} (r : reader A) v a :
  value_of v = v -> read_value r v = Some a -> read_value r (f v) = Some a.
Proof. intros Hv Hr. by rewrite delivered_plain. Qed.

Lemma delivered_null v : f v = JNull <-> v = JNull.
Proof.
  split; [|intros ->; by apply delivered_plain]. intros Hv. pose proof (delivered_value v) as Hf. rewrite Hv in Hf.
  by destruct v.
Qed.

Lemma read_skipped {A} (r : reader A) w (o : option A) :
  (forall a, value_of (w a) = w a) -> (forall a, o = Some a -> restores r w a a) ->
  read_member (Payloads.optional r) (option_map f <$> Some (unless_none w o)) = Some o.
Proof.
  destruct o as [a|]; [|done]. intros Hw Hr. simpl. rewrite delivered_plain by done. by apply (read_some r w), Hr.
Qed.

Lemma read_json v : read_value r_value (f v) = Some (value_of v).
Proof. simpl. by rewrite delivered_value. Qed.

Lemma read_kept_value (o : option json) :
  read_member (Payloads.optional r_value) (option_map f <$> Some (unless_none id o)) = Some (kept_value o).
Proof.
  destruct o as [v|]; [|done]. simpl. pose proof (delivered_null v) as Hn. pose proof (delivered_value v) as Hv.
  destruct (decide (v = JNull)) as [->|Hne]; [by rewrite (proj2 Hn)|].
  destruct (f v) eqn:E; [tauto|..]; rewrite Hv; by destruct v.
Qed.

Lemma read_flags {K} `{Countable K} (key : string -> option K) (name : K -> string) (m : gmap K bool) :
  (forall k, is_Some (m !! k) -> key (name k) = Some k) ->
  read_value (r_map key r_bool) (f (JObject ((fun '(k, v) => (name k, JBool v)) <$> map_to_list m))) = Some m.
Proof.
  intros Hk. set (flag := fun '(k, v) => (name k, JBool v)).
  destruct (delivered_flags (f := f) (flag <$> map_to_list m)) as (m' & -> & Hp).
  assert (Hl : forall k v, (k, v) ∈ map_to_list m -> key (name k) = Some k).
  { intros k v Hkv%elem_of_map_to_list. apply Hk. by exists v. }
  assert (Hm : m' ≡ₚ flag <$> map_to_list m).
  { rewrite Hp, <-list_fmap_compose.
    - apply Permutation_refl', list_fmap_ext. intros i [k v] _. simpl. by rewrite delivered_plain.
    - rewrite <-list_fmap_compose. apply NoDup_fmap_2_strong; [|apply NoDup_map_to_list].
      intros [k v] [k' v'] Hkv Hkv' Hn. simpl in Hn. pose proof (Hl _ _ Hkv) as Ha. pose proof (Hl _ _ Hkv') as Ha'.
      rewrite Hn in Ha. assert (k = k') as -> by congruence. apply elem_of_map_to_list in Hkv, Hkv'. congruence. }
  apply Permutation_map_inv in Hm as (l & -> & Hlm). cbn [read_value r_map required].
  enough (E : mapM (fun p => k ← key p.1; a ← read_value r_bool p.2; Some (k, a)) (map flag l) = Some l).
  { rewrite E. simpl. f_equal. rewrite <-(collect_flags_perm l m) by done. unfold collect_flags.
    generalize (∅ : gmap K bool). clear. induction l as [|[k v] l IH]; intros m'; [done|]. apply IH. }
  apply mapM_Some, Forall2_fmap_l, Forall_Forall2_diag, Forall_forall.
  intros [k v] Hkv. rewrite <-Hlm in Hkv. simpl. by rewrite (Hl k v).
Qed.

End Delivered.

(** Open the object; read its next field by a lemma on its value. *)
Ltac open_object :=
  match goal with |- context [struct ?names (?f (object ?ms))] =>
    destruct (delivered_object (f := f) names ms ltac:(cbn; by_evaluation)) as (s & -> & Hget); cbn [mbind option_bind]
  end.
Ltac open_field :=
  match goal with Hget : forall A name r, get _ name r = @?R A name r |- _ =>
    apply bind_Some; eexists; split; [rewrite Hget|]
  end.
Tactic Notation "next_field" open_constr(lem) := open_field; [eapply lem|].
Tactic Notation "next_plain" open_constr(lem) :=
  open_field; [match goal with |- read_member _ (option_map ?f <$> _) = _ => eapply (read_plain f); [reflexivity|eapply lem] end|].

Section Restored.
Context `{Externals, WireCrates, AnswerCrates, !UuidLaws, !ChronoLaws}.

Lemma read_uuid u : read_value r_uuid (w_uuid u) = Some u.
Proof. apply uuid_parse_to_string. Qed.
Lemma restores_uuid u : restores r_uuid w_uuid u u.
Proof. split; [apply read_uuid|done]. Qed.
Lemma restores_agent a : agent_readable a -> restores r_agent_id w_agent a a.
Proof. by split. Qed.

Lemma read_seconds dt : in_chrono dt -> read_value r_seconds (w_seconds dt) = Some (whole_seconds dt).
Proof.
  unfold in_chrono. intros Hd. cbn [read_value r_seconds required]. unfold w_seconds. rewrite read_i64.
  - simpl. apply timestamp_whole_seconds. lia.
  - unfold in_i64, i64_min, i64_max, max_seconds in *. lia.
Qed.

Lemma read_milliseconds dt : in_chrono dt -> read_value r_milliseconds (w_milliseconds dt) = Some (whole_milliseconds dt).
Proof.
  unfold in_chrono. intros Hd. cbn [read_value r_milliseconds required]. unfold w_milliseconds.
  assert (Hm : Z.abs (timestamp_millis dt) <= max_seconds * 1000).
  { revert Hd. unfold timestamp_millis, timestamp, nanos_per_sec, max_seconds. intros ?. Z.to_euclidean_division_equations. lia. }
  rewrite read_i64.
  - simpl. by apply timestamp_whole_millis.
  - unfold in_i64, i64_min, i64_max, max_seconds in *. lia.
Qed.

Lemma small_in_i64 s : Z.abs s <= max_seconds -> in_i64 s.
Proof. unfold in_i64, i64_min, i64_max, max_seconds. lia. Qed.

Lemma read_bound (o : option Z) :
  (forall s, o = Some s -> Z.abs s <= max_seconds) ->
  read_value (Payloads.optional r_i64) (w_option w_i64 o) = Some o.
Proof. intros Ho. apply read_option. intros s Hs. by apply restores_i64, small_in_i64, Ho. Qed.

Lemma read_time time :
  bound_in_chrono time.1 -> bound_in_chrono time.2 -> read_value r_bound_tuple (w_time time) = Some (kept_time time).
Proof.
  destruct time as [lt rt]. cbn [fst snd]. intros Hl Hr.
  assert (exists l r, TsSecondsBoundTuple.serialize (lt, rt) = [l; r] /\
    (forall s, l = Some s -> Z.abs s <= max_seconds) /\ (forall s, r = Some s -> Z.abs s <= max_seconds) /\
    kept_time (lt, rt) = (match l with Some s => Included (s * nanos_per_sec) | None => Unbounded end,
                          match r with Some s => Excluded (s * nanos_per_sec) | None => Unbounded end))
    as (l & r & Hs & Hml & Hmr & ->).
  { unfold TsSecondsBoundTuple.serialize, kept_time. do 2 eexists. split; [reflexivity|].
    destruct lt, rt; simpl in *; unfold in_chrono in *;
      rewrite ?wrap64_id by (apply small_in_i64; lia); (split_and!; [intros s [= <-]; lia|intros s [= <-]; lia|done]) ||
      (split_and!; [|intros s [= <-]; lia|done]; done) || (split_and!; [intros s [= <-]; lia|done|done]) || done. }
  unfold w_time. rewrite Hs. unfold r_bound_tuple, w_list. cbn [read_value required bound_tuple fmap list_fmap length Nat.leb mapM].
  rewrite !read_bound by done. cbn.
  destruct l as [s|], r as [s'|]; simpl; rewrite ?from_timestamp_whole by eauto; done.
Qed.

Lemma value_of_time time : value_of (w_time time) = w_time time.
Proof. by destruct time as [[] []]. Qed.
Lemma value_of_option {A} (w : A -> json) o : (forall a, value_of (w a) = w a) -> value_of (w_option w o) = w_option w o.
Proof. intros Hw. destruct o as [a|]; [apply Hw|done]. Qed.

Context (f : json -> json) `{!Delivery f}.

Lemma room_read_back r : room_readable r -> room_of (f (room_document r)) = Some (kept_room r).
Proof.
  intros (Hc & Hl & Hr & Ha). unfold room_of, room_document. open_object.
  next_plain read_uuid. next_plain read_string.
  next_field (read_skipped f); [done|intros; apply restores_uuid|].
  next_field (read_plain f); [apply value_of_time|by apply read_time|]. next_field (read_kept_value f).
  next_plain read_seconds; [done|]. next_plain read_bool. next_plain read_uuid.
  next_field (read_flags f Some _); [done|]. next_field (read_flags f account_from_str _); [done|].
  next_plain @read_enum. done.
Qed.

Lemma event_read_back e : event_readable e -> event_of (f (event_document e)) = Some (kept_event e).
Proof.
  intros (Ho & Hoo & Hc & Ha & Hoa). unfold event_of, event_document. open_object.
  do 2 next_plain read_uuid. do 2 next_plain read_string.
  next_field (read_skipped f); [done|intros; apply restores_string|].
  next_field (read_plain f); [by apply value_of_option|apply read_option; intros; apply restores_string|].
  next_field (read_json f). next_plain read_i64; [done|]. next_plain restores_agent; [done|].
  next_plain read_milliseconds; [done|]. next_plain read_i64; [done|]. next_plain restores_agent; [done|].
  next_plain read_bool. done.
Qed.

Lemma change_read_back c : change_readable c -> change_of (f (change_document c)) = Some (kept_change c).
Proof.
  intros (Ho & Ha & Hc). unfold change_of, change_document. open_object.
  do 2 next_plain read_uuid. next_plain @read_enum.
  next_field (read_plain f); [by apply value_of_option|apply read_option; intros; apply restores_uuid|].
  do 3 (next_field (read_skipped f); [done|intros; apply restores_string|]). next_field (read_kept_value f).
  next_field (read_skipped f); [done|intros t Ht; apply restores_i64; eauto|].
  next_field (read_skipped f); [done|intros a Ht; apply restores_agent; eauto|]. next_plain read_seconds; [done|]. done.
Qed.

Lemma edition_read_back e : edition_readable e -> edition_of (f (edition_document e)) = Some (kept_edition e).
Proof.
  intros (Ha & Hc). unfold edition_of, edition_document. open_object.
  do 2 next_plain read_uuid. next_plain restores_agent; [done|]. next_plain read_seconds; [done|]. done.
Qed.

(** An agent is never read back: its identifier and status are not written. *)
Lemma agent_not_read_back (a : AgentWithBan) : agent_of (f (agent_document a)) = None.
Proof. unfold agent_of, agent_document. open_object. rewrite (Hget _ "id"%string r_uuid). reflexivity. Qed.

End Restored.

(** What has been read loses nothing more. *)
Lemma whole_seconds_idem dt : whole_seconds (whole_seconds dt) = whole_seconds dt.
Proof. unfold whole_seconds. by rewrite timestamp_whole. Qed.
Lemma whole_milliseconds_idem dt : whole_milliseconds (whole_milliseconds dt) = whole_milliseconds dt.
Proof. unfold whole_milliseconds, timestamp_millis. by rewrite Z.div_mul. Qed.
Lemma kept_value_idem o : kept_value (kept_value o) = kept_value o.
Proof. destruct o as [[]|]; try done; unfold kept_value; cbn [fmap option_fmap option_map]; rewrite <-value_of_idem at 2; done. Qed.
Lemma kept_time_idem time : kept_time (kept_time time) = kept_time time.
Proof.
  destruct time as [[] []]; unfold kept_time, whole_seconds; simpl; by rewrite ?timestamp_whole.
Qed.

Section ReadBack.
Context `{Externals, WireCrates, AnswerCrates, !UuidLaws, !ChronoLaws}.

(** A payload is read as [kept] from a notification and from an answer. *)
Definition read_as {A} (parse : json -> option A) (p : Payload) (kept : A) : Prop :=
  parse (document p) = Some kept /\ parse (answer p) = Some kept.

(** C11: what the service sends can be read back.  A room, an event, a change or an
    edition is read from a notification and from an answer as the object it was
    written from, except for what its format does not carry: a date keeps its whole
    seconds (milliseconds for an event), a range is read as one that includes its
    beginning and not its end, a [null] tag or datum of a change is none, the
    deletion of an event is not read.  Nothing more is lost when what has been read
    is sent on. *)
Theorem answers_read_back (r : Room) (e : Event) (c : Change) (d : Edition) :
  room_readable r -> event_readable e -> change_readable c -> edition_readable d ->
  read_as room_of (PRoom r) (kept_room r) /\ kept_room (kept_room r) = kept_room r /\
  read_as event_of (PEvent e) (kept_event e) /\ kept_event (kept_event e) = kept_event e /\
  read_as change_of (PChange c) (kept_change c) /\ kept_change (kept_change c) = kept_change c /\
  read_as edition_of (PEdition d) (kept_edition d) /\ kept_edition (kept_edition d) = kept_edition d.
Proof.
  intros Hr He Hc Hd. split_and!.
  1, 3, 5, 7: unfold read_as, answer; simpl document; split.
  - by apply (room_read_back id).
  - by apply (room_read_back value_of).
  - by apply (event_read_back id).
  - by apply (event_read_back value_of).
  - by apply (change_read_back id).
  - by apply (change_read_back value_of).
  - by apply (edition_read_back id).
  - by apply (edition_read_back value_of).
  - unfold kept_room. simpl. by rewrite kept_time_idem, kept_value_idem, whole_seconds_idem.
  - unfold kept_event. simpl. by rewrite value_of_idem, whole_milliseconds_idem.
  - unfold kept_change. simpl. by rewrite kept_value_idem, whole_seconds_idem.
  - unfold kept_edition. simpl. by rewrite whole_seconds_idem.
Qed.

(** [state.read] looks for the label in the serialized event, the handler's model in
    the event itself. *)
Lemma state_value_document (events : list Event) :
  state_document (ReadHandler.state_value events) = set_value (value_of (w_list event_document events)).
Proof.
  unfold ReadHandler.state_value, set_value, w_list. destruct events as [|e events]; [done|].
  assert (Hl : is_none (json_get "label" (value_of (event_document e))) = is_none (event_label e)).
  { unfold event_document, object. rewrite json_get_value_of by (apply present_nodup; cbn; by_evaluation).
    pose proof (members_object "label" (event_members e) ltac:(cbn; by_evaluation)) as Hm. unfold members in Hm.
    simpl find_member in Hm. by destruct (json_get _ (JObject _)), (event_label e). }
  cbn [value_of as_array mbind option_bind head fmap list_fmap]. rewrite Hl. destruct (is_none (event_label e)); reflexivity.
Qed.

End ReadBack.

(** ** Samples and witnesses *)

#[export] Instance sample_answers : AnswerCrates := {|
  agent_to_string a := if bool_decide (a = sample_agent) then "web.agent"%string else ""%string;
  datetime_to_string _ := "1970-01-01T00:00:00Z"%string;
  timestamp_opt := from_timestamp_total;
  svc_error_document e := JObject [("type"%string, JString (kind e))]
|}.

#[export] Instance sample_chrono_laws : ChronoLaws.
Proof. by split. Qed.

(** A room from 1.5 s to 9.7 s, an event at 2.0000005 s that has been deleted, the
    change of its data into [null]. *)
Definition answered_room : Room :=
  MkRoom 1%N "example.org" None (Included 1500000000, Excluded 9700000000) (Some JNull) 1500000000 true 7%N
    {["message"%string := true]} ∅ Minigroup.
Definition answered_event : Event :=
  MkEvent 3%N 1%N "message" "messages" None (Some "pinned"%string) (JObject [("b"%string, JNull); ("a"%string, JNull)])
    (- 5) sample_agent 2000000500 (Some 3) (- 5) sample_agent false.
Definition answered_change : Change :=
  MkChange 4%N 5%N Modification (Some 3%N) None None None (Some JNull) (Some 7) (Some sample_agent) 3000000000.
Definition answered_edition : Edition := MkEdition 5%N 1%N sample_agent 3000000000.

Lemma answers_read_back_witness :
  room_of (answer (PRoom answered_room))
    = Some (MkRoom 1%N "example.org" None (Included 1000000000, Excluded 9000000000) None 1000000000 true 7%N
              {["message"%string := true]} ∅ Minigroup) /\
  event_of (document (PEvent answered_event))
    = Some (MkEvent 3%N 1%N "message" "messages" None (Some "pinned"%string)
              (JObject [("a"%string, JNull); ("b"%string, JNull)]) (- 5) sample_agent 2000000000 None (- 5) sample_agent false).
Proof.
  assert (Hr : room_readable answered_room).
  { split_and!; [vm_compute; done..|]. intros a [b Hb]. change ((∅ : gmap account_id bool) !! a = Some b) in Hb. by rewrite lookup_empty in Hb. }
  assert (He : event_readable answered_event) by (split_and!; vm_compute; done).
  assert (Hc : change_readable answered_change).
  { split_and!; [intros t [= <-]; vm_compute; done|intros a [= <-]; vm_compute; done|vm_compute; done]. }
  assert (Hd : edition_readable answered_edition) by (split; vm_compute; done).
  destruct (answers_read_back answered_room answered_event answered_change answered_edition Hr He Hc Hd)
    as ([_ ->] & _ & [-> _] & _). split; vm_compute; reflexivity.
Defined.

(** An inclusive end loses a second when it is written, and another when it is read. *)
Example inclusive_end_shrinks :
  read_value r_bound_tuple (w_time (Included 0, Included (9 * nanos_per_sec)))
  = Some (Included 0, Excluded (8 * nanos_per_sec)).
Proof. vm_compute. done. Qed.

(** The label of a state is what makes it a collection. *)
Example single_event_state :
  document (PState {["leader"%string := SingleEvent answered_event]})
  = JObject [("leader"%string, value_of (event_document answered_event))].
Proof. vm_compute. done. Qed.
