(* ===== verification/Storage.v ===== *)
(** * The client of the storage

    [src/src/app/s3_client.rs]: callers of [put_object] send their requests through a
    channel to the task of the client, which starts an upload for each and sends its
    result back through a channel of the call.  The state is what waits where; a step
    is one of the things that can happen next, in any order.

    Whether the channel takes one more message is the crate's ([accepts]); how an
    upload ends is the storage's. *)

From S2P Require Import Prelude Times Types Db Sample Schema Errors Service EventEndpoint RoomEndpoint Payloads Answers.

(** [PutObjectRequest], as [upload_events] fills it in. *)
Record PutObjectRequest : Type := MkPutObjectRequest {
  bucket : string;
  key : string;
  body : json;
  content_type : string
}.

Definition put_request `{Externals, AnswerCrates} (destination : DumpEvents.S3Destination) (room : Room)
    (events : list Event) : PutObjectRequest :=
  MkPutObjectRequest (DumpEvents.s3_bucket destination) (DumpEvents.s3_key destination) (s3_content room events)
    "application/json".

(** What a call can fail with. *)
Inductive PutError : Type := SendError | UploadFailed (reason : string).

(** A call and its request: the message with the sender of its channel. *)
Definition Message : Type := nat * PutObjectRequest.

Record S3Client : Type := MkS3Client {
  channel : list Message;
  uploads : list Message;
  (** the calls that wait for their response *)
  waiting : list nat;
  answered : list (nat * result PutError unit);
  (** the responses nobody was waiting for, which are logged *)
  unsent : list nat;
  calls : nat
}.

(** [new_with_client]. *)
Definition new_with_client : S3Client := MkS3Client [] [] [] [] [] O.

(** What can happen: a call, a turn of the task, the end of an upload, the end of a
    caller that is waiting. *)
Inductive event : Type :=
  | Put (request : PutObjectRequest)
  | Receive
  | UploadEnds (call : nat) (r : result string unit)
  | CallerGone (call : nat).

Definition without (call : nat) (l : list Message) : list Message :=
  List.filter (fun m => negb (Nat.eqb m.1 call)) l.

Section Client.
(** [Sender::try_send] of a clone: by the number of messages in the channel. *)
Context (accepts : nat -> bool).

(** [put_object]: a message that cannot be sent is an error at once. *)
Definition put_object (request : PutObjectRequest) (c : S3Client) : S3Client :=
  let call := calls c in
  if accepts (length (channel c))
  then MkS3Client (channel c ++ [(call, request)]) (uploads c) (call :: waiting c) (answered c) (unsent c) (S call)
  else MkS3Client (channel c) (uploads c) (waiting c) (answered c ++ [(call, Err SendError)]) (unsent c) (S call).

(** The loop of the task: the next message starts an upload. *)
Definition receive (c : S3Client) : option S3Client :=
  match channel c with
  | m :: channel => Some (MkS3Client channel (uploads c ++ [m]) (waiting c) (answered c) (unsent c) (calls c))
  | [] => None
  end.

(** [map_err]. *)
Definition response (r : result string unit) : result PutError unit :=
  match r with Ok _ => Ok tt | Err e => Err (UploadFailed e) end.

(** The task of an upload: its result goes to the caller, if there still is one. *)
Definition upload_ends (call : nat) (r : result string unit) (c : S3Client) : option S3Client :=
  if existsb (fun m : Message => Nat.eqb m.1 call) (uploads c) then
    let uploads := without call (uploads c) in
    Some (if existsb (Nat.eqb call) (waiting c)
          then MkS3Client (channel c) uploads (List.filter (fun w => negb (Nat.eqb w call)) (waiting c))
                 (answered c ++ [(call, response r)]) (unsent c) (calls c)
          else MkS3Client (channel c) uploads (waiting c) (answered c) (unsent c ++ [call]) (calls c))
  else None.

Definition caller_gone (call : nat) (c : S3Client) : S3Client :=
  MkS3Client (channel c) (uploads c) (List.filter (fun w => negb (Nat.eqb w call)) (waiting c)) (answered c) (unsent c)
    (calls c).

Definition step (e : event) (c : S3Client) : option S3Client :=
  match e with
  | Put request => Some (put_object request c)
  | Receive => receive c
  | UploadEnds call r => upload_ends call r c
  | CallerGone call => Some (caller_gone call c)
  end.

Fixpoint run (es : list event) (c : S3Client) : option S3Client :=
  match es with
  | [] => Some c
  | e :: es => step e c ≫= run es
  end.

Definition reachable (c : S3Client) : Prop := exists es, run es new_with_client = Some c.

(** ** Invariant *)

(** Where the calls are: in the channel, being uploaded, answered, or given up. *)
Definition places (c : S3Client) : list nat :=
  (channel c).*1 ++ (uploads c).*1 ++ (answered c).*1 ++ unsent c.

(** Every call is in one place, and who waits is in the channel or being uploaded. *)
Record accounted (c : S3Client) : Prop := {
  all_places : places c ≡ₚ seq 0 (calls c);
  waiting_served : forall call, call ∈ waiting c -> call ∈ (channel c).*1 \/ call ∈ (uploads c).*1
}.

Lemma places_nodup c : accounted c -> NoDup (places c).
Proof. intros [-> _]. apply NoDup_seq. Qed.

Lemma without_ids call l : (without call l).*1 = List.filter (fun n => negb (Nat.eqb n call)) l.*1.
Proof.
  unfold without. induction l as [|[n m] l IH]; [done|]. cbn [List.filter fmap list_fmap fst].
  destruct (negb (Nat.eqb n call)); cbn [fmap list_fmap fst]; by rewrite <-IH.
Qed.

Lemma without_perm call (l : list nat) :
  call ∈ l -> NoDup l -> l ≡ₚ call :: List.filter (fun n => negb (Nat.eqb n call)) l.
Proof.
  induction l as [|n l IH]; [by intros ?%elem_of_nil|]. intros Hc [Hn Hd]%NoDup_cons. simpl.
  destruct (Nat.eqb_spec n call) as [->|Hne]; simpl.
  - rewrite lfilter_all; [done|]. intros x Hx. apply negb_true_iff, Nat.eqb_neq. by intros ->.
  - apply elem_of_cons in Hc as [->|Hc]; [done|]. rewrite (IH Hc Hd) at 1. apply Permutation_swap.
Qed.

Lemma filter_elem call x (l : list nat) :
  x ∈ List.filter (fun n => negb (Nat.eqb n call)) l <-> x ∈ l /\ x <> call.
Proof. by rewrite elem_of_lfilter, negb_true_iff, Nat.eqb_neq. Qed.

Lemma step_accounted e c c' : step e c = Some c' -> accounted c -> accounted c'.
Proof.
  intros Hs Ha. pose proof (places_nodup c Ha) as Hd. destruct Ha as [Hp Hw]. unfold places in *.
  destruct e as [request| |call r|call]; simpl in Hs.
  - injection Hs as <-. unfold put_object. destruct (accepts _); split; cbn [channel uploads waiting answered unsent calls].
    + unfold places. cbn [channel uploads waiting answered unsent calls]. rewrite seq_S, <-Hp, fmap_app. simpl. solve_Permutation.
    + intros call [->|Hc]%elem_of_cons; [|apply Hw in Hc as [?|?]; [|by right]]; left; rewrite fmap_app, elem_of_app; [right; left|by left].
    + unfold places. cbn [channel uploads waiting answered unsent calls]. rewrite seq_S, <-Hp, fmap_app. simpl. solve_Permutation.
    + done.
  - unfold receive in Hs. destruct (channel c) as [|m ch] eqn:E; [done|]. injection Hs as <-. split; simpl.
    + unfold places. simpl. rewrite <-Hp, fmap_app. simpl. solve_Permutation.
    + intros call Hc. apply Hw in Hc as [Hc|Hc]; [|right; rewrite fmap_app, elem_of_app; by left].
      simpl in Hc. apply elem_of_cons in Hc as [->|Hc]; [right; rewrite fmap_app, elem_of_app; right; left|by left].
  - unfold upload_ends in Hs. destruct (existsb _ (uploads c)) eqn:E; [|done]. injection Hs as <-.
    apply existsb_exists in E as (m & Hm%list_elem_of_In & <-%Nat.eqb_eq).
    assert (Hin : m.1 ∈ (uploads c).*1) by by apply list_elem_of_fmap_2.
    assert (Hu : (uploads c).*1 ≡ₚ m.1 :: (without m.1 (uploads c)).*1).
    { rewrite without_ids. apply without_perm; [done|]. apply NoDup_app in Hd as (_ & _ & Hd). by apply NoDup_app in Hd as [Hd _]. }
    assert (Hkeep : forall x, x <> m.1 -> x ∈ (channel c).*1 \/ x ∈ (uploads c).*1 ->
      x ∈ (channel c).*1 \/ x ∈ (without m.1 (uploads c)).*1).
    { intros x Hx [?|Hc]; [by left|]. right. rewrite Hu in Hc. by apply elem_of_cons in Hc as [->|]. }
    destruct (existsb _ (waiting c)) eqn:Ew; split; cbn [channel uploads waiting answered unsent calls].
    + unfold places. cbn [channel uploads waiting answered unsent calls]. rewrite <-Hp, Hu, fmap_app. simpl. solve_Permutation.
    + intros x [Hx Hne]%filter_elem. by apply Hkeep, Hw.
    + unfold places. cbn [channel uploads waiting answered unsent calls]. rewrite <-Hp, Hu. simpl. solve_Permutation.
    + intros x Hx. apply Hkeep; [|by apply Hw]. intros ->. apply not_true_iff_false in Ew. apply Ew, existsb_exists.
      exists m.1. split; [by apply list_elem_of_In|apply Nat.eqb_refl].
  - injection Hs as <-. split; [done|]. simpl. intros x [Hx _]%filter_elem. by apply Hw.
Qed.

Lemma run_app es es' c : run (es ++ es') c = run es c ≫= run es'.
Proof. revert c. induction es as [|e es IH]; intros c; [done|]. simpl. destruct (step e c); simpl; auto. Qed.

(** Whatever happens, every call is in one place: it is answered once at most. *)
Theorem reachable_accounted (c : S3Client) : reachable c -> accounted c /\ NoDup (answered c).*1.
Proof.
  intros [es Hes]. assert (Ha : accounted c).
  { revert Hes. generalize new_with_client, (Build_accounted new_with_client (Permutation_refl _) (fun call Hc => or_introl Hc)).
    induction es as [|e es IH]; intros c' Hc'; simpl; [by intros [= <-]|].
    intros (c'' & Hs & Hr)%bind_Some. apply (IH c''); [|done]. by eapply step_accounted. }
  split; [done|]. apply places_nodup in Ha. unfold places in Ha. apply NoDup_app in Ha as (_ & _ & Ha).
  apply NoDup_app in Ha as (_ & _ & Ha). by apply NoDup_app in Ha as [Ha _].
Qed.

(** A call is answered with the result of its own upload, or that it was not sent. *)
Theorem own_answer (es : list event) (c : S3Client) (call : nat) (r : result PutError unit) :
  run es new_with_client = Some c -> (call, r) ∈ answered c ->
  r = Err SendError \/ exists up, UploadEnds call up ∈ es /\ r = response up.
Proof.
  revert c. induction es as [|e es IH] using rev_ind; intros c; [intros [= <-] []%elem_of_nil|].
  rewrite run_app. intros (c' & Hr & (c'' & Hs & [= <-])%bind_Some)%bind_Some Hin.
  assert (Hold : (call, r) ∈ answered c' -> r = Err SendError \/ exists up, UploadEnds call up ∈ es ++ [e] /\ r = response up).
  { intros [?|(up & ? & ?)]%(IH c' Hr); [by left|]. right. exists up. rewrite elem_of_app. auto. }
  destruct e as [request| |call' up|call']; simpl in Hs.
  - injection Hs as <-. unfold put_object in Hin. destruct (accepts _); simpl in Hin; [auto|].
    apply elem_of_app in Hin as [Hin|[= -> ->]%list_elem_of_singleton]; auto.
  - unfold receive in Hs. destruct (channel c'); simplify_eq/=. auto.
  - unfold upload_ends in Hs. destruct (existsb _ (uploads c')); [|done]. injection Hs as <-.
    destruct (existsb _ (waiting c')); simpl in Hin; [|auto].
    apply elem_of_app in Hin as [Hin|[= -> ->]%list_elem_of_singleton]; [auto|].
    right. exists up. rewrite elem_of_app, list_elem_of_singleton. auto.
  - injection Hs as <-. auto.
Qed.

(** Nothing waits in vain: from every state the task can go on to answer a caller with
    any result its upload may have. *)
Theorem waiting_answered (c : S3Client) (call : nat) (up : result string unit) :
  reachable c -> call ∈ waiting c ->
  exists es c', run es c = Some c' /\ (call, response up) ∈ answered c'.
Proof.
  intros [Ha _]%reachable_accounted Hc. remember (channel c) as ch eqn:Ech. revert c Ha Hc Ech.
  induction ch as [|m ch IH]; intros c Ha Hc Ech.
  - pose proof (waiting_served c Ha call Hc) as [Hin|Hin]; [rewrite <-Ech in Hin; by apply elem_of_nil in Hin|].
    exists [UploadEnds call up]. simpl. unfold upload_ends.
    apply list_elem_of_fmap in Hin as (m & -> & Hm).
    rewrite (proj2 (existsb_exists _ (uploads c))) by (exists m; split; [by apply list_elem_of_In|apply Nat.eqb_refl]).
    rewrite (proj2 (existsb_exists _ (waiting c))) by (exists m.1; split; [by apply list_elem_of_In|apply Nat.eqb_refl]).
    eexists. split; [reflexivity|]. simpl. rewrite elem_of_app, list_elem_of_singleton. auto.
  - assert (Hs : step Receive c = Some (MkS3Client ch (uploads c ++ [m]) (waiting c) (answered c) (unsent c) (calls c)))
      by (simpl; unfold receive; by rewrite <-Ech).
    pose proof (step_accounted _ _ _ Hs Ha) as Ha'. destruct (IH _ Ha' Hc eq_refl) as (es & c' & Hr & Hin).
    exists (Receive :: es), c'. split; [|done]. cbn [run]. by rewrite Hs.
Qed.

End Client.

(** ** Samples *)

Definition sample_request : PutObjectRequest := MkPutObjectRequest "eventsdump.webinar.example.org" "1.json" JNull "application/json".

(** A channel that takes one message: the third call is refused, the first caller
    gives up, the second is answered. *)
Example storage_run :
  let accepts n := (n <? 1)%nat in
  answered <$> run accepts [Put sample_request; Receive; Put sample_request; Put sample_request; Receive; CallerGone 0;
    UploadEnds 0 (Ok tt); UploadEnds 1 (Err "timeout"%string)] new_with_client
  = Some [(2%nat, Err SendError); (1%nat, Err (UploadFailed "timeout"))].
Proof. vm_compute. done. Qed.
