(* ===== verification/Broker.v ===== *)
(** * The client of the broker

    [HttpBrokerClient] of [src/src/app/broker_client.rs]: the request that subscribes
    an agent to the events of a room, and what is made of the broker's answer.
    [Service.enter_room] is what the handlers see of it.

    [reqwest] parses the URL and the values of headers; how a request ends is its
    answer ([reply]). *)

From S2P Require Import Prelude Times Types Db Sample Schema Effects Errors Service Payloads Answers.

(** [reqwest]: [Url::from_str], [Url::join]; whether a text can be the value of a
    header. *)
Class UrlCrates : Type := {
  Url : Type;
  url_from_str : string -> option Url;
  url_join : Url -> string -> Url;
  header_value : string -> bool
}.

(** How a request ends: without an answer, or with a status and a text. *)
Inductive reply : Type :=
  | NoReply (error : string)
  | Reply (status : Z) (text : string).

(** ** [SubscriptionRequest] *)

Module SubscriptionRequest.

Record t : Type := Mk { subject : agent_id; object : list string; version : string }.

Definition new (subject : agent_id) (object : list string) : t := Mk subject object "v1".

Section Room.
Context `{Externals, AnswerCrates}.

Definition room_events (subject : agent_id) (room_id : uuid) : t :=
  new subject ["rooms"%string; uuid_to_string room_id; "events"%string].

Definition members (r : t) : list member :=
  [("subject", Some (w_agent (subject r))); ("object", Some (w_list JString (object r)));
   ("version", Some (JString (version r)))]%string.
End Room.

End SubscriptionRequest.

(** ** [HttpBrokerClient] *)

Module HttpBrokerClient.

Section Client.
Context `{Externals, AnswerCrates, UrlCrates} (APP_VERSION : string).

Record t : Type := Mk { headers : list (string * string); timeout : option Z; host : Url }.

(** A text that cannot be the value of a header panics. *)
Definition header (name value : string) : result failure (string * string) :=
  if header_value value then Ok (name, value) else Err (Panic "InvalidHeaderValue").

Definition default_headers (token : string) : result failure (list (string * string)) :=
  result_bind (header "authorization" ("Bearer " ++ token)) (fun authorization =>
  result_bind (header "content-type" "application/json") (fun content_type =>
  result_bind (header "user-agent" ("event-" ++ APP_VERSION)) (fun user_agent =>
  Ok [authorization; content_type; user_agent]))).

(** The building of the client itself does not fail here. *)
Definition new (host token : string) (timeout : option Z) : result failure t :=
  result_bind (default_headers token) (fun headers =>
  result_bind (ok_or (url_from_str host) (Bail "relative URL without a base")) (fun host =>
  Ok (Mk headers timeout host))).

(** The request of [enter_room]. *)
Record Post : Type := MkPost { url : Url; post_headers : list (string * string); payload : json }.
Definition subscribe (c : t) (id : uuid) (subject : agent_id) : Post :=
  MkPost (url_join (host c) "/api/v1/subscriptions") (headers c)
    (Answers.object (SubscriptionRequest.members (SubscriptionRequest.room_events subject id))).

Definition enter_room (r : reply) : result string unit :=
  match r with
  | NoReply error => Err error
  | Reply status text => if status =? OK then Ok tt else Err ("HTTP request failed, payload = " ++ text)%string
  end.

(** No request at all. *)
Definition enter_broadcast_room (id : uuid) (subject : agent_id) : result string unit := Ok tt.

End Client.
End HttpBrokerClient.

(** ** Lemmas *)

Section Lemmas.
Context `{Externals, EventCodec, AnswerCrates, UrlCrates}.

(** The handlers' [enter_room], when the broker's answers are those of a client: it asks
    for the subscription of the client's request, and succeeds when the broker answers
    with [OK]. *)
Lemma enter_room_client (id : uuid) (subject : agent_id) (answer : nat -> reply) (n : env) (w : world) :
  (forall k, e_broker n k = is_ok (HttpBrokerClient.enter_room (answer k))) ->
  let r := SubscriptionRequest.room_events subject id in
  Service.enter_room id subject n w
  = (match HttpBrokerClient.enter_room (answer (w_tick w)) with Ok _ => Ok tt | Err _ => Err tt end,
     trace (Subscribe (SubscriptionRequest.subject r) (SubscriptionRequest.object r) (SubscriptionRequest.version r))
       (advance w)).
Proof.
  intros Hn r. unfold Service.enter_room. rewrite once_exec, Hn.
  by destruct (HttpBrokerClient.enter_room (answer (w_tick w))).
Qed.

Lemma enter_room_status (r : reply) :
  HttpBrokerClient.enter_room r = Ok tt <-> exists text, r = Reply OK text.
Proof.
  destruct r as [e|status text]; simpl; [split; [done|by intros []]|].
  destruct (Z.eqb_spec status OK) as [->|Hne]; (split; [|by intros [t [= ]]]); [eauto|done].
Qed.
End Lemmas.
