(* ===== verification/Sessions.v ===== *)
(** * Concurrent sessions

    The requests of the service at the same time: each is a session of a pool
    ([Concurrency]), new ones come at any time, and the statements of all of them
    interleave in any order; a transaction is one step.  What a request leaves to
    [tokio::spawn] runs on in its session. *)

From S2P Require Import Prelude Times Types Db Sample EventDb RoomDb EditionDb AgentDb Integrity Effects Concurrency AdjustRoom CommitEdition Errors Service EventEndpoint AgentEndpoint EditionEndpoint RoomEndpoint Http Router.
From S2P Require NatsConsumer.

(** ** The pool of the service *)

Section Pool.
Context `{Externals, EventCodec, PayloadCodec, NatsConsumer.NatsCrates}.

(** A session for any request; for one of those allowed. *)
Definition serves (context : Context) (allowed : Request -> Prop) (m : M Empty_set Outcome) : Prop :=
  exists r, allowed r /\ m = session context r.
Definition any_request (r : Request) : Prop := True.

(** The messages published for a session that is done. *)
Definition outcome_messages (o : Outcome) : list Message :=
  match o with
  | Publishes (Ok messages) => messages
  | Answers (Ok (messages, _)) => messages
  | _ => []
  end.

(** The message tells that the room has been adjusted. *)
Definition tells_adjusted (id : uuid) (m : Message) : bool :=
  match m with
  | Broadcast nt =>
    match n_payload nt with
    | PAdjust id' _ _ (AdjustSuccess _ _ _ _) => bool_decide (id' = id)
    | _ => false
    end
  | _ => false
  end.
Definition adjusted (id : uuid) (o : Outcome) : bool := existsb (tells_adjusted id) (outcome_messages o).

(** The database has an adjustment of the room. *)
Definition has_adjustment (id : uuid) (w : world) : bool :=
  existsb (fun a => bool_decide (adj_room_id a = id)) (db_adjustments (w_db w)).

(** The requests that ask for an authorization; the events of the broker and the
    messages of NATS do not. *)
Definition is_authorized_request (r : Request) : Prop :=
  match r with MqttRequest _ _ _ | HttpRequest _ _ _ => True | _ => False end.

Definition answers_error (o : Outcome) : Prop :=
  match o with
  | Publishes (Ok messages) => exists e, messages = error_response e
  | Answers (Err _) => True
  | _ => False
  end.

(** The requests in sessions of their own, which run in the given order. *)
Definition run_sessions (context : Context) (n : env) (w : world) (requests : list Request) (order : list nat)
    : pool Outcome := schedule n order (Pool (session context <$> requests) w).

Lemma run_sessions_steps context allowed n w requests order :
  Forall allowed requests ->
  rtc (pool_step (serves context allowed) n) (Pool [] w) (run_sessions context n w requests order).
Proof.
  intros Ha. etrans; [|apply schedule_steps]. apply (pool_starts (serves context allowed) n []).
  apply Forall_fmap. eapply Forall_impl; [exact Ha|]. intros r Hr. by exists r.
Qed.

End Pool.

(** ** What statements keep *)

Section Statements.
Context `{Externals, EventCodec}.

(** A statement adds to the adjustments, and keeps the events but those it is to
    delete. *)
Lemma run_statement_tables s c db :
  db_adjustments db ⊆ db_adjustments (run_statement s c db) /\
  (lasting s = true -> forall e, e ∈ db_events db -> er_kind e <> "stream"%string -> e ∈ db_events (run_statement s c db)).
Proof.
  destruct s as [q|q|q|news|r k|q|r a|i|q|i|a r|a r st|a r|a r x|a r|r t segs o]; simpl; try done.
  - unfold RoomDb.InsertQuery.execute. by repeat (case_match; simpl; try done).
  - unfold UpdateQuery.execute. by repeat (case_match; simpl; try done).
  - unfold EventDb.InsertQuery.execute.
    destruct (insert_event_cases (q_now c) (EventDb.InsertQuery.values (q_uuid c 0) q) db) as [(v & _ & ->)|(_ & ->)];
      simpl; [done|]. split; [done|]. intros _ e He _. rewrite elem_of_app. by left.
  - destruct (insert_events _ _ _) as [db'|] eqn:E; [|done]. apply insert_events_app in E as (rows & ->).
    split; [done|]. intros _ e He _. simpl. rewrite elem_of_app. by left.
  - split; [done|]. intros ->%bool_decide_eq_true e He Hk. apply elem_of_lfilter. split; [done|].
    unfold DeleteQuery.matches. rewrite (bool_decide_eq_false_2 (er_kind e = _)) by done. by rewrite andb_false_r.
  - unfold EditionQueries.insert. by repeat (case_match; simpl; try done).
  - unfold ChangeQueries.insert. by repeat (case_match; simpl; try done).
  - unfold AgentQueries.insert, AgentQueries.insert_as. by repeat (case_match; simpl; try done).
  - unfold AgentQueries.update. by repeat (case_match; simpl; try done).
  - unfold BanQueries.insert. by repeat (case_match; simpl; try done).
  - unfold AdjustmentQueries.insert. repeat (case_match; simpl; try done). split; [set_solver|done].
Qed.

Lemma statements_keep_adjustment id db db' :
  rtc statement_step db db' ->
  existsb (fun a => bool_decide (adj_room_id a = id)) (db_adjustments db) = true ->
  existsb (fun a => bool_decide (adj_room_id a = id)) (db_adjustments db') = true.
Proof.
  intros Hs. rewrite !existsb_exists. intros (a & Ha%list_elem_of_In & Hid). exists a. split; [|done].
  apply list_elem_of_In. induction Hs as [|db1 db2 db3 (s & c & ->) _ IH]; [done|].
  apply IH. by apply (run_statement_tables s c db1).
Qed.

(** The events of other services' entities are of the kind of the entity. *)
Definition entity_kinds (db : database) : Prop :=
  forall e, e ∈ db_events db -> entity_is_kind (er_entity_type e) (er_kind e) = true.

Lemma statement_entity_kinds s c db : lasting s = true -> entity_kinds db -> entity_kinds (run_statement s c db).
Proof.
  intros Hl Hk. destruct s as [q|q|q|news|r k|q|r a|i|q|i|a r|a r st|a r|a r x|a r|r t segs o]; simpl; try done.
  - unfold RoomDb.InsertQuery.execute. by repeat (case_match; simpl; try done).
  - unfold UpdateQuery.execute. by repeat (case_match; simpl; try done).
  - unfold EventDb.InsertQuery.execute.
    destruct (insert_event_cases (q_now c) (EventDb.InsertQuery.values (q_uuid c 0) q) db) as [(v & _ & ->)|(_ & ->)];
      simpl; [done|]. intros e [He| ->%list_elem_of_singleton]%elem_of_app; [by apply Hk|done].
  - destruct (insert_events _ _ _) as [db'|] eqn:E; [|done]. simpl in Hl. revert db Hk E.
    induction news as [|new news IH]; intros db Hk E; [by injection E as <-|]. simpl in *. bool_prop.
    destruct (insert_event_cases (q_now c) new db) as [(v & _ & Hi)|(_ & Hi)]; rewrite Hi in E; [done|].
    eapply IH; [done| |exact E]. intros e [He| ->%list_elem_of_singleton]%elem_of_app; [by apply Hk|done].
  - intros e [He _]%elem_of_lfilter. by apply Hk.
  - unfold EditionQueries.insert. by repeat (case_match; simpl; try done).
  - unfold ChangeQueries.insert. by repeat (case_match; simpl; try done).
  - unfold AgentQueries.insert, AgentQueries.insert_as. by repeat (case_match; simpl; try done).
  - unfold AgentQueries.update. by repeat (case_match; simpl; try done).
  - unfold BanQueries.insert. by repeat (case_match; simpl; try done).
  - unfold AdjustmentQueries.insert. by repeat (case_match; simpl; try done).
Qed.

(** The events but the cuts of the stream stay. *)
Definition events_stay (db db' : database) : Prop :=
  entity_kinds db -> entity_kinds db' /\
  forall e, e ∈ db_events db -> er_kind e <> "stream"%string -> e ∈ db_events db'.

#[export] Instance events_stay_preorder : PreOrder events_stay.
Proof.
  split; [done|]. intros db1 db2 db3 H12 H23 H1. destruct (H12 H1) as [H2 He12]. destruct (H23 H2) as [H3 He23]. auto.
Qed.

Lemma lasting_events_stay db db' : rtc lasting_step db db' -> events_stay db db'.
Proof.
  induction 1 as [|db1 db2 db3 (s & c & Hs & ->) _ IH]; [done|]. etrans; [|exact IH].
  intros Hk. split; [by apply statement_entity_kinds|]. by apply (run_statement_tables s c db1).
Qed.
End Statements.

(** ** Lemmas *)

Section Lemmas.
Context `{Externals, EventCodec, PayloadCodec, NatsConsumer.NatsCrates}.

Lemma serves_steps context allowed m : serves context allowed m -> any_steps m.
Proof. intros (r & _ & ->). apply session_steps. Qed.

Lemma serves_events_stay context m :
  serves context (fun r => asks_vacuum r = false) m -> uses (fun w w' => events_stay (w_db w) (w_db w')) m.
Proof.
  intros (r & Hr & ->). apply (uses_mono (fun w w' => rtc lasting_step (w_db w) (w_db w'))); [|by apply session_lasting].
  intros w w'. apply lasting_events_stay.
Qed.

(** *** What the consumer records *)

Section Consumer.
Context `{!NatsConsumer.DrawRefused} (n : env) (Hplain : NatsConsumer.plain_faults n).

Let R (w w' : world) : Prop := events_stay (w_db w) (w_db w').
Let kinds (w : world) : Prop := entity_kinds (w_db w).

(** The database has an event of the entity of the message, and will keep it. *)
Definition recorded (m : NatsConsumer.Message) (w : world) : Prop :=
  exists k, NatsConsumer.message_entity m = Some k /\
    (k.1 <> "stream"%string -> k ∈ NatsConsumer.entities (w_db w)).

Definition acks_recorded (log : list NatsConsumer.action) (w : world) : Prop :=
  kinds w /\ forall m sent, NatsConsumer.Ack m sent ∈ log -> recorded m w.

Lemma kinds_stable w w' : R w w' -> kinds w -> kinds w'.
Proof. intros Hw Hk. by apply Hw. Qed.

Lemma entities_stay k db db' :
  entity_kinds db -> events_stay db db' -> k.1 <> "stream"%string ->
  k ∈ NatsConsumer.entities db -> k ∈ NatsConsumer.entities db'.
Proof.
  intros Hk Hs Hn. destruct (Hs Hk) as [_ Hstay]. unfold NatsConsumer.entities.
  rewrite !elem_of_list_to_set, !list_elem_of_omap. intros (row & Hrow & Hkey). exists row. split; [|done].
  apply Hstay; [done|]. apply Hk in Hrow. unfold entity_key in Hkey. unfold entity_is_kind in Hrow.
  destruct (er_entity_type row) as [t|]; [|done]. apply bool_decide_eq_true in Hrow.
  destruct (er_entity_event_id row); [|done]. injection Hkey as <-. by rewrite <-Hrow.
Qed.

Lemma acks_stable log w w' : R w w' -> acks_recorded log w -> acks_recorded log w'.
Proof.
  intros Hw [Hk Hlog]. split; [by eapply kinds_stable|]. intros m sent Hin.
  destruct (Hlog m sent Hin) as (k & Hm & Hrec). exists k. split; [done|]. intros Hn.
  by eapply entities_stay, Hrec.
Qed.

Lemma handle_message_recorded m w :
  holds n (fun w w' => R w w' /\ kinds w') (fun r w => is_ok r = true -> recorded m w) (NatsConsumer.handle_message m) w.
Proof.
  unfold NatsConsumer.handle_message, NatsConsumer.parsed, NatsConsumer.context, NatsConsumer.get_conn.
  apply holds_bind. destruct (NatsConsumer.subject_from_str (NatsConsumer.subject m)) as [s|] eqn:Es; [|by simpl].
  apply holds_bind. destruct (NatsConsumer.event_from_slice (NatsConsumer.payload m)) as [e|] eqn:Ee; [|by simpl].
  apply holds_bind, holds_any. intros [u|?] w1; [|done].
  apply holds_bind, holds_any. intros [found|?] w2; [|done].
  apply holds_bind. destruct found as [room|]; [|by simpl].
  apply holds_bind. destruct (NatsConsumer.headers_try_from _) as [h|] eqn:Eh; [|by simpl].
  apply holds_bind. destruct (room_opening room) as [opened_at|]; [|by simpl].
  apply holds_bind, holds_any. intros [u'|?] w3; [|done].
  apply holds_bind, holds_on_error. destruct (NatsConsumer.insert_query s e room h opened_at) as [q|] eqn:Eq; [|by simpl].
  apply holds_bind, holds_attempt. intros w4 [_ Hk4]. simpl.
  assert (NatsConsumer.message_entity m = Some (NatsConsumer.entity_type s, NatsConsumer.sequence_id h)) as Hk.
  { unfold NatsConsumer.message_entity. by rewrite Es, Eh. }
  assert (forall w', (NatsConsumer.entity_type s, NatsConsumer.sequence_id h) ∈ NatsConsumer.entities (w_db w') ->
    recorded m w') as Hrec by (intros w' Hin; by eexists).
  destruct (t_fault (e_tick n (w_tick w4))) as [er|] eqn:F.
  { unfold NatsConsumer.settle. destruct er; simpl; try done. exfalso. by eapply Hplain. }
  destruct (NatsConsumer.insertion_cases s e room h opened_at q (t_ctx (e_tick n (w_tick w4))) (w_db w4) Eq)
    as [(row & ev & -> & Hv & Hrow)|(v & row & -> & Hv & Hkey)]; simpl.
  - intros _. apply Hrec. simpl. rewrite NatsConsumer.entities_app. simpl.
    pose proof (NatsConsumer.insert_query_fields _ _ _ _ _ _ Eq) as Hq. split_and_all.
    assert (entity_key row = Some (NatsConsumer.entity_type s, NatsConsumer.sequence_id h)) as ->.
    { rewrite Hrow. unfold entity_key. simpl.
      repeat match goal with E : EventDb.InsertQuery.iq_entity_type _ = _ |- _ => rewrite E; clear E
      | E : EventDb.InsertQuery.iq_entity_event_id _ = _ |- _ => rewrite E; clear E end. done. }
    simpl. set_solver.
  - case_bool_decide as Ev; simpl; [|done]. intros _. subst v. apply Hrec. simpl.
    apply NatsConsumer.uniq_entity_violation in Hv as (k' & Hk' & Hin). by rewrite Hkey in Hk'; injection Hk' as <-.
Qed.

Lemma turn_uses cfg s t : uses R (NatsConsumer.handle_turn cfg s t).
Proof. eapply uses_mono; [|apply NatsConsumer.handle_turn_steps]. intros w w'. apply lasting_events_stay. Qed.

Lemma turns_uses cfg turns s : uses R (NatsConsumer.handle_turns cfg turns s).
Proof. eapply uses_mono; [|apply NatsConsumer.handle_turns_steps]. intros w w'. apply lasting_events_stay. Qed.

Lemma handle_turn_recorded cfg s t w :
  kinds w ->
  holds n R (fun r w => match r with Ok step => acks_recorded step.2 w | Err _ => True end)
    (NatsConsumer.handle_turn cfg s t) w.
Proof.
  intros Hk. eapply (holds_mono n R (fun r w => (match r with
    | Ok step => forall m sent, NatsConsumer.Ack m sent ∈ step.2 -> recorded m w | Err _ => True end) /\ kinds w)).
  { intros [step|[]] w' [Hr Hk']. by split. }
  apply holds_and; [|by apply holds_stable; [apply kinds_stable|apply turn_uses|]].
  apply (holds_with_invariant n R kinds); [apply kinds_stable|apply turn_uses|done|]. clear Hk.
  unfold NatsConsumer.handle_turn.
  set (sl := match NatsConsumer.suspend s with Some interval => [NatsConsumer.Sleep interval] | None => [] end).
  assert (forall log w, (forall m sent, NatsConsumer.Ack m sent ∈ log -> recorded m w) ->
    forall m sent, NatsConsumer.Ack m sent ∈ sl ++ log -> recorded m w) as Hsl.
  { intros log w' Hlog m sent [Hin|Hin]%elem_of_app; [|by apply (Hlog m sent)].
    exfalso. unfold sl in Hin. destruct (NatsConsumer.suspend s); [|by apply elem_of_nil in Hin].
    by apply list_elem_of_singleton in Hin. }
  destruct t as [m sent| | |]; simpl.
  - apply holds_bind, holds_attempt. eapply holds_mono; [|apply (handle_message_recorded m w)].
    intros r w' Hr. simpl. destruct (NatsConsumer.handle_result cfg m sent (NatsConsumer.retry_count s) r) as [s' log] eqn:E.
    simpl. apply Hsl. intros m' sent' Hin. unfold NatsConsumer.handle_result in E.
    destruct r as [u|[|msg]]; injection E as _ <-; repeat (apply elem_of_cons in Hin as [[=]|Hin]);
      try (subst; by apply Hr); exfalso; unfold NatsConsumer.published in Hin; destruct sent;
      repeat (apply elem_of_cons in Hin as [[=]|Hin]); by apply elem_of_nil in Hin.
  - apply Hsl. intros m sent Hin. by apply list_elem_of_singleton in Hin.
  - rewrite <-(app_nil_r sl). apply Hsl. intros m sent Hin. by apply elem_of_nil in Hin.
  - rewrite <-(app_nil_r sl). apply Hsl. intros m sent Hin. by apply elem_of_nil in Hin.
Qed.

Lemma handle_turns_recorded cfg turns s w :
  kinds w ->
  holds n R (fun r w => match r with Ok end_ => acks_recorded end_.2 w | Err _ => True end)
    (NatsConsumer.handle_turns cfg turns s) w.
Proof.
  revert s w. induction turns as [|t turns IH]; intros s w Hk; [split; [done|by intros m sent Hin%elem_of_nil]|].
  apply holds_bind. eapply holds_mono; [|by apply handle_turn_recorded].
  intros [[[reason|s'] log]|[]] w' Hlog; simpl in *; [done|].
  apply holds_bind. eapply holds_mono; [|apply holds_and; [apply (IH s' w'); apply Hlog|
    apply (holds_stable n R (acks_recorded log)); [apply acks_stable|apply turns_uses|exact Hlog]]].
  intros [[reason log']|[]] w'' [[Hk' Hr] [_ Hl]]. split; [done|]. intros m sent [Hin|Hin]%elem_of_app; eauto.
Qed.
End Consumer.

(** *** One adjustment of a room *)

(** The result is not a success. *)
Ltac by_failure := let Ht := fresh in intros Ht; simpl in Ht; done.

Section Adjustment.
Context (n : env) (id : uuid).

Lemma insert_adjustment_exclusive started_at segments offset :
  exclusive n (has_adjustment id) (fun r => is_ok r = true)
    (query_op (AdjustmentQueries.insert id started_at segments offset)).
Proof.
  apply (exclusive_continue n _ (fun r => is_ok r = true)); [|by intros [a|e]]. intros w. simpl.
  destruct (t_fault _); [split; intros Hw; [|right]; done|].
  unfold AdjustmentQueries.insert. destruct (mapM _ segments) as [segs|]; [|split; intros Hw; [|right]; done].
  fold (has_adjustment id w). split; intros Hw; rewrite Hw; simpl; [done|].
  destruct (room_exists (w_db w) id); simpl; [|by right]. left. unfold has_adjustment. simpl.
  rewrite existsb_app. simpl. by rewrite bool_decide_eq_true_2, orb_true_r.
Qed.

Lemma adjust_exclusive room started_at segments offset min :
  room_id room = id ->
  exclusive n (has_adjustment id) (fun r => is_ok r = true) (AdjustRoom.call room started_at segments offset min).
Proof.
  intros Hid. unfold AdjustRoom.call.
  do 4 (apply (exclusive_bind _ _ (fun _ => True)); [by apply ends_any; intros [?|?]|done|]; intros ? _).
  rewrite Hid. apply (exclusive_continue n _ (fun r => is_ok r = true)); [apply insert_adjustment_exclusive|].
  intros [out|e] Hr; [by destruct Hr|done].
Qed.

Lemma find_room_id n' room_id' req :
  ends n' (fun r => match r with Ok room => room_id room = room_id' | Err _ => True end) (find_room room_id' req).
Proof.
  unfold find_room. apply (ends_continue n' _ _ (fun _ => True)); [by apply ends_any|]. intros [u|e] _; [|done].
  apply (ends_continue n' _ _ (fun r => match r with Ok (Some room) => room_id room = room_id' | _ => True end)).
  - unfold query_ro, error. apply (ends_continue n' _ _ (fun r => match r with Ok (Some room) => room_id room = room_id' | _ => True end));
      [|by intros [[room|]|e]].
    intros w. simpl. destruct (t_fault _); [done|]. unfold FindQuery.execute, select. simpl.
    destruct (list_first _ _) as [row|] eqn:Ef; [|done].
    apply list_first_Some in Ef as (_ & Hid). unfold FindQuery.matches in Hid. simpl in Hid. bool_prop.
    destruct (try_from_db_object row) as [room|] eqn:Er; [|done]. simpl. by rewrite (try_from_db_object_id row room).
  - intros [[room|]|e] Hroom; [|done..]. destruct req; [done|..];
      (apply (ends_continue n' _ _ (fun _ => True)); [by apply ends_any|]; intros [t|e] _; [by case_match|done]).
Qed.
End Adjustment.

(** No other request tells of an adjustment. *)

Definition silent_payload (p : Payload) : bool :=
  match p with PAdjust _ _ _ (AdjustSuccess _ _ _ _) => false | _ => true end.
Definition silent_notification (nt : Notification) : Prop := silent_payload (n_payload nt) = true.
Definition silent_task (o : option Notification) : Prop := match o with Some nt => silent_notification nt | None => True end.
Definition silent (r : Response) : Prop :=
  Forall silent_notification (notifications r) /\ Forall silent_task (async_tasks r).

Lemma commit_task_silent context edition room offset :
  returns silent_task (EditionCommitHandler.task context edition room offset).
Proof. unfold EditionCommitHandler.task. by by_returns. Qed.

Lemma dump_task_silent room : returns silent_task (DumpEvents.task room).
Proof. unfold DumpEvents.task. by by_returns. Qed.

Lemma handle_silent context h p reqp : h <> RoomAdjust -> returns silent (handle context h p reqp).
Proof.
  destruct h; try done; intros _; simpl.
  all: unfold AgentListHandler.handle, AgentUpdateHandler.handle,
    BanListHandler.handle, ChangeCreateHandler.handle, ChangeDeleteHandler.handle, ChangeListHandler.handle,
    EditionCommitHandler.handle, EditionCreateHandler.handle, EditionListHandler.handle,
    EditionDeleteHandler.handle, CreateHandler.handle, ListHandler.handle,
    RoomCreateHandler.handle, DumpEvents.handle,
    RoomAccessHandlers.locked_types, RoomAccessHandlers.whiteboard_access, RoomReadHandler.handle,
    RoomEnterHandler.handle, RoomUpdateHandler.handle, ReadHandler.handle, Vacuum.handle.
  all: unfold CreateHandler.create_response.
  all: repeat first [progress intros
    | apply (returns_bind_with _ _ _ _ (commit_task_silent _ _ _ _))
    | apply (returns_bind_with _ _ _ _ (dump_task_silent _))
    | apply returns_bind | apply returns_ret | apply returns_fail | case_match].
  all: unfold silent; simpl; repeat constructor; try done.
Qed.

(** The messages of a response. *)
Definition tells (id : uuid) {E} (r : result E Response) : Prop :=
  match r with
  | Ok r => existsb (tells_adjusted id) ((Broadcast <$> notifications r) ++ tasks_stream (async_tasks r)) = true
  | Err _ => False
  end.

Definition task_tells (id : uuid) {E} (r : result E (option Notification)) : Prop :=
  match r with Ok (Some nt) => tells_adjusted id (Broadcast nt) = true | _ => False end.

Lemma adjust_task_exclusive n id context room p :
  room_id room = RoomAdjustHandler.ar_id p ->
  exclusive n (has_adjustment id) (task_tells id) (RoomAdjustHandler.task context room p).
Proof.
  intros Hroom. unfold RoomAdjustHandler.task. destruct (decide (RoomAdjustHandler.ar_id p = id)) as [Hid|Hid].
  - apply (exclusive_continue n _ (fun r => match r with Ok (Ok _) => True | _ => False end)).
    + apply (exclusive_continue n _ (fun r => is_ok r = true)); [apply adjust_exclusive; congruence|].
      intros [out|e] Hr; [by destruct Hr|by intros []].
    + intros [[out|e]|e] Hr; [by destruct Hr| |by intros []].
      apply exclusive_ends. destruct e; first [by (simpl; by_failure)|apply ends_notify; simpl; by_failure].
  - apply exclusive_ends, (ends_continue n _ _ (fun _ => True)); [by apply ends_any|].
    intros [[out|e]|e] _; [|destruct e; first [by (simpl; by_failure)|apply ends_notify; simpl; by_failure]|by intros []].
    simpl. by rewrite bool_decide_eq_false_2.
Qed.

Lemma adjust_handle_exclusive n id context p reqp :
  exclusive n (has_adjustment id) (tells id) (RoomAdjustHandler.handle context p reqp).
Proof.
  unfold RoomAdjustHandler.handle.
  apply (exclusive_bind _ _ (fun room => room_id room = RoomAdjustHandler.ar_id p));
    [apply find_room_id|by intros e []|]. intros room Hroom.
  apply (exclusive_bind _ _ (fun _ => True)); [by apply ends_any; intros [?|?]|by intros e []|]. intros d _.
  apply (exclusive_continue n _ (task_tells id)); [by apply adjust_task_exclusive|].
  intros [[nt|]|e] Hr; [|by intros Ht; simpl in Ht..]. intros Ht. apply Hr. simpl in Ht. by rewrite orb_false_r in Ht.
Qed.

Lemma silent_tells id (r : Response) : silent r -> ~ tells id (E := ErrorKind) (Ok r).
Proof.
  intros [Hn Ht] (m & Hm%list_elem_of_In & Htell)%existsb_exists.
  assert (exists nt, m = Broadcast nt /\ silent_notification nt) as (nt & -> & Hs).
  { apply elem_of_app in Hm as [(nt & -> & Hin)%list_elem_of_fmap|(nt & -> & Hin)%list_elem_of_fmap].
    - exists nt. split; [done|]. by apply (proj1 (Forall_forall _ _) Hn).
    - exists nt. split; [done|]. apply list_elem_of_omap in Hin as (o & Ho & Hnt).
      apply (proj1 (Forall_forall _ _) Ht) in Ho. change (o = Some nt) in Hnt. by subst o. }
  unfold silent_notification, silent_payload in Hs. unfold tells_adjusted in Htell. by repeat case_match.
Qed.

Lemma returns_ends n {E A} (P : A -> Prop) (m : M E A) :
  returns P m -> ends n (fun r => match r with Ok a => P a | Err _ => True end) m.
Proof. induction m as [[a|e]|B use k IH]; simpl; auto. Qed.

Lemma handle_exclusive n id context h p reqp :
  exclusive n (has_adjustment id) (tells id) (handle context h p reqp).
Proof.
  destruct (decide (h = RoomAdjust)) as [->|Hh]; [apply adjust_handle_exclusive|].
  apply exclusive_ends. eapply ends_mono; [|apply returns_ends, handle_silent, Hh].
  intros [r|e] Hr; [by apply silent_tells|by_failure].
Qed.

Lemma endpoint_exclusive n id context h agent (p : HttpPayload h) :
  exclusive n (has_adjustment id) (tells id) (endpoint context h agent p).
Proof. destruct (endpoint_cases context h agent p) as [_ [(p' & a & ->)|(e & ->)]]; [apply handle_exclusive|by_failure]. Qed.

Lemma session_exclusive n id context r :
  exclusive n (has_adjustment id) (fun r => match r with Ok o => adjusted id o = true | Err _ => False end)
    (session context r).
Proof.
  destruct r as [method body reqp|h p agent|label p evp|cfg messages]; simpl.
  - apply (exclusive_continue n _ (fun r => match r with Ok (Ok ms) => existsb (tells_adjusted id) ms = true | _ => False end)).
    + apply (exclusive_continue n _ (fun r => match r with Ok ms => existsb (tells_adjusted id) ms = true | _ => False end)); [|intros [ms|e] Hms; [done|by_failure]].
      unfold handle_request, handle_envelope. destruct (route method) as [h|]; [|by_failure].
      destruct (convert_payload h body) as [p|]; [|by_failure].
      apply (exclusive_continue n _ (fun r => match r with Ok r => tells id r | _ => False end)).
      * apply (exclusive_continue n _ (tells id)); [apply handle_exclusive|intros [r|e] Hr; [done|by_failure]].
      * intros [[r|e]|e] Hr; [|apply exclusive_ends, ends_notify; by_failure|by_failure]. intros Hm. apply Hr. unfold into_mqtt_messages in Hm. simpl in *.
        rewrite !existsb_app in *. by destruct (resp_status r =? NO_CONTENT).
    + intros [[ms|e]|[]] Hr; [done|by_failure].
  - apply (exclusive_continue n _ (fun r => match r with Ok (Ok a) => existsb (tells_adjusted id) a.1 = true | _ => False end)).
    + apply (exclusive_continue n _ (fun r => match r with Ok a => existsb (tells_adjusted id) a.1 = true | _ => False end)); [|intros [a|e] Ha; [done|by_failure]].
      unfold handle_http. apply (exclusive_continue n _ (tells id)); [apply endpoint_exclusive|intros [r|e] Hr; [done|by_failure]].
    + intros [[[ms a]|e]|[]] Hr; [done|by_failure].
  - apply exclusive_ends, (ends_continue n _ _ (fun r => match r with Ok (Ok ms) => existsb (tells_adjusted id) ms = false | _ => True end)).
    + apply (ends_continue n _ _ (fun r => match r with Ok ms => existsb (tells_adjusted id) ms = false | _ => True end)); [|by intros [ms|e]].
      unfold handle_event, route_event. destruct label as [label|]; [|done].
      apply (ends_continue n _ _ (fun r : result ErrorKind (option (list Message)) =>
        match r with Ok (Some ms) => existsb (tells_adjusted id) ms = false | _ => True end)); [|by intros [[ms|]|e]].
      destruct (snd <$> list_first _ event_routes) as [h|]; [|done].
      apply (ends_continue n _ _ (fun r : result ErrorKind (list Message) =>
        match r with Ok ms => existsb (tells_adjusted id) ms = false | _ => True end)); [|by intros [ms|e]].
      unfold event_envelope. destruct p as [p|]; [|done].
      assert (forall m : M ErrorKind (list Notification), returns (Forall silent_notification) m ->
        ends n (fun r : result ErrorKind (list Message) => match r with Ok ms => existsb (tells_adjusted id) ms = false | Err _ => True end)
          (app_result <~ attempt m;
           match app_result with Ok l => ret (Broadcast <$> l) | Err e => notify_sentry e;; ret [] end)) as Hm.
      { intros m Hm. apply (ends_continue n _ _ (fun r => match r with Ok (Ok l) => Forall silent_notification l | _ => True end)).
        - apply (ends_continue n _ _ (fun r => match r with Ok l => Forall silent_notification l | Err _ => True end));
            [by apply returns_ends|by intros [l|e]].
        - intros [[l|e]|e] Hl; [|by apply ends_notify|done]. simpl. apply not_true_is_false. intros Ht.
          apply (silent_tells id (MkResponse l 0 None PEmpty [])); [by split|]. simpl. by rewrite app_nil_r. }
      apply Hm. destruct h; simpl.
      * unfold subscription_delete. by_returns; by repeat constructor.
      * unfold broadcast_subscription_delete. by_returns; by repeat constructor.
    + intros [[ms|e]|[]] Hr; [|by_failure]. simpl. unfold adjusted. simpl. by rewrite Hr.
  - apply exclusive_ends, (ends_continue n _ _ (fun _ => True)); [by apply ends_any|]. intros [o|[]] _. by_failure.
Qed.

Lemma session_refused context r n :
  denied_env n -> is_authorized_request r ->
  within n same_state (fun r => match r with Ok o => answers_error o | Err _ => True end) (session context r).
Proof.
  intros Hd Ha. destruct r as [method body reqp|h p agent| |]; simpl in Ha; try done; simpl.
  - apply (within_continue _ _ _ _ (fun r => match r with Ok (Ok ms) => exists e, ms = error_response e | _ => False end)).
    + apply (within_continue _ _ _ _ (fun r => match r with Ok ms => exists e, ms = error_response e | _ => False end));
        [|by intros [ms|e]].
      unfold handle_request, handle_envelope. destruct (route method) as [h|]; [|by eexists].
      destruct (convert_payload h body) as [p|]; [|by eexists].
      apply (within_continue _ _ _ _ (fun r => match r with Ok (Err _) => True | _ => False end)).
      * apply (within_continue _ _ _ _ (fun r => is_ok r = false)); [by apply handle_refused|by intros [r|e]].
      * intros [[r|e]|e] Hr; [done| |done]. by intros w; split; [|exists e].
    + by intros [[ms|e]|[]].
  - apply (within_continue _ _ _ _ (fun r => match r with Ok (Err _) => True | _ => False end)); [|by intros [[a|e]|[]]].
    apply (within_continue _ _ _ _ (fun r => is_ok r = false)); [|by intros [r|e]].
    unfold handle_http. apply (within_continue _ _ _ _ (fun r => is_ok r = false)); [by apply endpoint_refused|by intros [r|e]].
Qed.
End Lemmas.

(** ** Properties *)

Section Properties.
Context `{Externals, EventCodec, PayloadCodec, NatsConsumer.NatsCrates}.

(** C1: whatever the service is asked, by requests, events and NATS messages, valid
    or not, by anybody, at the same time and with the statements of the sessions
    interleaved in any order, and however its connections, its clock, the broker
    and the authorization service answer, the integrity of the database is kept at
    every moment. *)
Theorem sessions_keep_integrity (context : Context) (n : env) (w : world) (p : pool Outcome) :
  rtc (pool_step (serves context any_request) n) (Pool [] w) p ->
  integrity (w_db w) -> integrity (w_db (p_world p)).
Proof.
  intros Hr Hi. destruct (pool_keeps _ n _ _ _ Hr (serves_steps context any_request) (Forall_nil_2 _)) as [_ Hs].
  by apply (steps_integrity (w_db w)).
Qed.

(** Serving requests one after another is one of the interleavings. *)
Theorem served_in_turn (context : Context) (n : env) (w w' : world) :
  rtc (fun w w' => exists r, w' = serve context r n w) w w' ->
  exists l, rtc (pool_step (serves context any_request) n) (Pool [] w) (Pool l w').
Proof.
  intros Hr. assert (forall l, exists l', rtc (pool_step (serves context any_request) n) (Pool l w) (Pool l' w')) as Hl;
    [|apply (Hl [])].
  induction Hr as [w|w1 w2 w3 (r & ->) _ IH]; intros l; [by exists l|].
  destruct (IH (l ++ [Done (session context r n w1).1])) as [l' Hl']. exists l'.
  eapply rtc_l; [apply (pool_start _ _ (session context r)); by exists r|].
  etrans; [apply (pool_runs_alone _ n _ (length l) (session context r)), list_lookup_middle; done|].
  rewrite insert_app_r_alt, Nat.sub_diag by done. simpl. unfold serve in Hl'. by rewrite total_exec in Hl' |- *.
Qed.

(** C5: a room is adjusted once: however many adjustments of it are asked for, and
    whatever else is, at the same time, at most one of them tells of a success. *)
Theorem adjusted_once (context : Context) (n : env) (w : world) (p : pool Outcome) (id : uuid) (i j : nat)
    (o o' : Outcome) :
  rtc (pool_step (serves context any_request) n) (Pool [] w) p ->
  result_of p i = Some o -> adjusted id o = true -> result_of p j = Some o' -> adjusted id o' = true -> i = j.
Proof.
  unfold result_of. intros Hr Hi Ho Hj Ho'.
  destruct (sessions p !! i) as [[[a|]|]|] eqn:Ei; simplify_eq.
  destruct (sessions p !! j) as [[[a'|]|]|] eqn:Ej; simplify_eq.
  apply (at_most_one_in_pool _ n (has_adjustment id)
    (fun r => match r with Ok o => adjusted id o = true | Err _ => False end) _ _ Hr) with (r := Ok o) (r' := Ok o');
    [|constructor|done..].
  intros m (r & _ & ->). split; [apply session_exclusive|].
  eapply uses_mono; [|apply session_steps]. intros w1 w2. apply statements_keep_adjustment.
Qed.

(** C6: an acknowledged message is recorded for good: whatever other consumers and
    requests, the vacuum apart, run at the same time, once a stream is done the
    database has an event of the entity of each message it acknowledged, when the
    entity is not of the type ["stream"]: an adjustment deletes the cuts of its room,
    which are the events of the kind ["stream"], so nothing is said of these.  It
    takes three things: the database the sessions start with has, of other services'
    entities, only events of the kind the entity is of, which is how the consumer
    stores them; the driver tells of a lost connection as such, and not as an error
    of the database (a unique violation, say, that would be taken for a message
    stored before); and the payload the consumer stores is not read as a drawing,
    which is so for the schema of the drawings. *)
Theorem acknowledged_recorded `{!NatsConsumer.DrawRefused} (context : Context) (n : env) (w : world) (p : pool Outcome)
    (i : nat) (reason : option NatsConsumer.CompletionReason) (log : list NatsConsumer.action)
    (m : NatsConsumer.Message) (sent : bool) :
  NatsConsumer.plain_faults n -> entity_kinds (w_db w) ->
  rtc (pool_step (serves context (fun r => asks_vacuum r = false)) n) (Pool [] w) p ->
  result_of p i = Some (Consumes reason log) -> NatsConsumer.Ack m sent ∈ log ->
  exists k, NatsConsumer.message_entity m = Some k /\
    (k.1 <> "stream"%string -> k ∈ NatsConsumer.entities (w_db (p_world p))).
Proof.
  unfold result_of. intros Hn Hk Hr Hi Hm. destruct (sessions p !! i) as [[[a|]|]|] eqn:Ei; simplify_eq.
  destruct (holds_in_pool _ n (fun w w' => events_stay (w_db w) (w_db w')) (fun w => entity_kinds (w_db w))
    (fun (r : result Empty_set Outcome) w => match r with Ok (Consumes _ log) => acks_recorded log w | _ => True end) _ _ Hr)
    with (i := i) (r := Ok (E := Empty_set) (Consumes reason log)) as (w' & Hlog & Hw);
    [apply kinds_stable|done| |constructor|done|].
  - intros m' Hm'. split; [by eapply serves_events_stay|]. destruct Hm' as (r & _ & ->). intros w' Hk'.
    destruct r as [method body reqp|h pl agent|label pl evp|cfg messages]; simpl; apply holds_bind.
    1-3: apply holds_any; by intros [r|[]] w''.
    eapply holds_mono; [|by apply handle_turns_recorded]. by intros [[reason' log']|[]] w'' Hl.
  - destruct (acks_stable log w' (p_world p) Hw Hlog) as [_ Ha]. by apply (Ha m sent).
Qed.

(** C8: no request acts before it is authorized: when the authorization service
    denies, however many requests there are on both interfaces at the same time,
    nothing changes in the database, nothing is asked of the broker, the storage or
    the authorization cache, and each request is answered with an error. *)
Theorem denied_sessions_do_nothing (context : Context) (n : env) (w : world) (p : pool Outcome) :
  denied_env n -> rtc (pool_step (serves context is_authorized_request) n) (Pool [] w) p ->
  w_db (p_world p) = w_db w /\ w_trace (p_world p) = w_trace w /\
  forall i o, result_of p i = Some o -> answers_error o.
Proof.
  intros Hd Hr.
  destruct (pool_within _ n same_state (fun r => match r with Ok o => answers_error o | Err _ => True end) _ _ Hr)
    as [Hl [Hdb Ht]]; [|constructor|].
  - intros m (r & Ha & ->). by apply session_refused.
  - split_and!; [done|done|]. intros i o. unfold result_of.
    destruct (sessions p !! i) as [[[a|]|]|] eqn:Ei; try done. intros [= <-].
    exact (proj1 (Forall_lookup _ _) Hl i _ Ei).
Qed.
End Properties.

(** ** Samples and witnesses *)

#[local] Existing Instance sample_payloads.
#[local] Existing Instance NatsConsumer.sample_nats.
#[local] Existing Instance NatsConsumer.sample_draw_refused.

Definition no_restriction (l : list Request) : Forall any_request l := proj2 (Forall_forall _ _) (fun _ _ => I).

Definition lock (kind : string) (agent : agent_id) : Request := HttpRequest RoomLockedTypes (1%N, {[kind := true]}) agent.

(** Two requests at the same time: both have read the room when the first writes. *)
Definition lock_race : pool Outcome :=
  run_sessions sample_context sample_env sample_world [lock "message" sample_agent; lock "draw" sample_agent]
    [0; 0; 0; 1; 1; 1; 0; 0; 1; 1]%nat.

Definition answered_status (o : option Outcome) : option Z :=
  match o with Some (Answers (Ok (_, (status, _)))) => Some status | _ => None end.

(** Two locks at the same time, both answered with a success, of which the first is
    lost: the second writes all the flags it has read before.  One after the other
    both are kept. *)
Example concurrent_lock_lost :
  rtc (pool_step (serves sample_context any_request) sample_env) (Pool [] sample_world) lock_race /\
  answered_status (result_of lock_race 0) = Some OK /\ answered_status (result_of lock_race 1) = Some OK /\
  rr_locked_types <$> db_rooms (w_db (p_world lock_race)) = [JObject [("draw", JBool true)]]%string /\
  rr_locked_types <$> db_rooms (w_db (serve sample_context (lock "draw" sample_agent) sample_env
                      (serve sample_context (lock "message" sample_agent) sample_env sample_world)))
  = [JObject [("message", JBool true); ("draw", JBool true)]]%string.
Proof.
  split; [apply run_sessions_steps, no_restriction|]. split; [vm_compute; reflexivity|].
  split; [vm_compute; reflexivity|]. split; vm_compute; reflexivity.
Qed.

(** A student who may not update the room. *)
Definition student : agent_id := AgentId (AccountId "student" "example.org") "web".
Definition teacher_env : env :=
  Env (e_tick sample_env)
    (fun _ _ subject _ action =>
       if bool_decide (action = "update"%string /\ subject = agent_account student) then Err Forbidden else Ok 0)
    None (fun _ => true) (fun _ => true).

(** The student's message, begun before the teacher locks messages and stored after
    the lock is answered, is accepted; once the lock is there it is refused. *)
Example message_slips_past_lock :
  let message := HttpRequest EventCreate (1%N, cr_payload sample_create_request) student in
  let p := run_sessions sample_context teacher_env sample_world [message; lock "message" sample_agent]
             (repeat 0 3 ++ repeat 1 5 ++ repeat 0 10)%nat in
  answered_status (result_of p 1) = Some OK /\ answered_status (result_of p 0) = Some CREATED /\
  rr_locked_types <$> db_rooms (w_db (p_world p)) = [JObject [("message", JBool true)]]%string /\
  er_created_by <$> db_events (w_db (p_world p)) = [student] /\
  db_events (w_db (serve sample_context message teacher_env
                     (serve sample_context (lock "message" sample_agent) teacher_env sample_world))) = [].
Proof. vm_compute. done. Qed.

Lemma sessions_keep_integrity_witness :
  length (db_agents (w_db (p_world (run_sessions sample_context sample_env sample_world
    [HttpRequest RoomEnter (1%N, Some "web"%string) sample_agent; HttpRequest RoomEnter (1%N, Some "web"%string) student; lock "message" sample_agent]
    (concat (repeat [0; 1; 2] 12))%nat)))) = 2%nat /\
  integrity (w_db (p_world (run_sessions sample_context sample_env sample_world
    [HttpRequest RoomEnter (1%N, Some "web"%string) sample_agent; HttpRequest RoomEnter (1%N, Some "web"%string) student; lock "message" sample_agent]
    (concat (repeat [0; 1; 2] 12))%nat))).
Proof.
  split; [vm_compute; reflexivity|].
  refine (sessions_keep_integrity sample_context sample_env sample_world _ _ sample_db_integrity).
  apply run_sessions_steps, no_restriction.
Defined.

(** Two adjustments of room 1 at the same time. *)
Definition adjust_race : pool Outcome :=
  let adjust := HttpRequest RoomAdjust
    (1%N, Rooms.MkAdjustPayload (2 * nanos_per_sec) [(Included 0, Excluded 5000)] 0) sample_agent in
  run_sessions sample_context sample_env adjust_world [adjust; adjust] (concat (repeat [0; 1] 40))%nat.

Lemma adjusted_once_witness :
  exists o o', result_of adjust_race 0 = Some o /\ adjusted 1%N o = true /\
    result_of adjust_race 1 = Some o' /\ adjusted 1%N o' = false.
Proof.
  assert (Hr : rtc (pool_step (serves sample_context any_request) sample_env) (Pool [] adjust_world) adjust_race)
    by apply run_sessions_steps, no_restriction.
  assert (H0 : option_map (adjusted 1%N) (result_of adjust_race 0) = Some true) by (vm_compute; reflexivity).
  assert (H1 : is_Some (result_of adjust_race 1)) by (vm_compute; eexists; reflexivity).
  destruct (result_of adjust_race 0) as [o|] eqn:E0; [|discriminate H0]. injection H0 as H0.
  destruct H1 as [o' H1]. exists o, o'. split; [reflexivity|]. split; [exact H0|]. split; [exact H1|].
  apply not_true_is_false. intros Ho'.
  discriminate (adjusted_once sample_context sample_env adjust_world adjust_race 1%N 0 1 o o' Hr E0 H0 H1 Ho').
Defined.

(** Two consumers of the same messages at the same time. *)
Definition consumer_race : pool Outcome :=
  let stream := NatsStream NatsConsumer.sample_config NatsConsumer.sample_stream in
  run_sessions sample_context sample_env sample_world [stream; stream] (concat (repeat [0; 1] 30))%nat.

Lemma acknowledged_recorded_witness :
  exists k, NatsConsumer.message_entity (NatsConsumer.sample_message 5) = Some k /\
    (k.1 <> "stream"%string -> k ∈ NatsConsumer.entities (w_db (p_world consumer_race))).
Proof.
  assert (Hr : rtc (pool_step (serves sample_context (fun r => asks_vacuum r = false)) sample_env)
    (Pool [] sample_world) consumer_race).
  { apply run_sessions_steps. repeat constructor. }
  assert (Hi : exists log, result_of consumer_race 1 = Some (Consumes (Some NatsConsumer.Shutdown) log) /\
    NatsConsumer.Ack (NatsConsumer.sample_message 5) true ∈ log).
  { eexists. split; [vm_compute; reflexivity|]. apply elem_of_cons. left. reflexivity. }
  assert (Hk : entity_kinds (w_db sample_world)).
  { intros e He. unfold sample_world, sample_db in He. simpl in He. by apply elem_of_nil in He. }
  destruct Hi as (log & Hi & Hlog).
  refine (acknowledged_recorded sample_context sample_env sample_world consumer_race 1 (Some NatsConsumer.Shutdown) log
    (NatsConsumer.sample_message 5) true NatsConsumer.sample_plain_faults Hk Hr Hi Hlog).
Defined.

Lemma denied_sessions_do_nothing_witness :
  let p := run_sessions sample_context denying_env sample_world
    [HttpRequest RoomEnter (1%N, Some "web"%string) sample_agent; lock "message" sample_agent] [0; 1; 0; 1; 0; 1; 0; 1]%nat in
  w_db (p_world p) = sample_db /\ w_trace (p_world p) = [] /\
  forall i o, result_of p i = Some o -> answers_error o.
Proof.
  refine (denied_sessions_do_nothing sample_context denying_env sample_world _ _ _).
  - intros k audience subject object action. exists Forbidden. reflexivity.
  - apply run_sessions_steps. repeat constructor.
Defined.

Lemma served_in_turn_witness :
  exists l, rtc (pool_step (serves sample_context any_request) sample_env) (Pool [] sample_world)
    (Pool l (serve sample_context (lock "draw" sample_agent) sample_env
               (serve sample_context (lock "message" sample_agent) sample_env sample_world))).
Proof.
  apply (served_in_turn sample_context sample_env sample_world).
  do 2 (eapply rtc_l; [eexists; reflexivity|]). apply rtc_refl.
Defined.
