(* ===== verification/TestHelpers.v ===== *)
(** * The tests' helpers

    [src/src/test_helpers]: the factories of rows, the rooms and agents the tests
    start from, the agents, the authorization and the context of a test, and the
    handling of requests with the messages they give rise to.  A test is a
    computation of the monad of the handlers that fails where the Rust test
    panics.  It is run in an environment in which the connections hold and the
    clock goes on by a millisecond with each use, on an empty database.

    What a test takes from other crates is chosen here: [svc_authz] allows what the
    test has allowed, identifiers are printed in decimal and accounts as
    [label.audience], JSON is printed without insignificant whitespace. *)

From Stdlib Require Import DecimalString Ascii.
From S2P Require Sample.
From S2P Require Import Prelude Floats Times Types Db Schema CompactEvent EventDb RoomDb EditionDb AgentDb Effects Errors Service AgentEndpoint Router.

(** ** Tests *)

Abbreviation test A := (M string A).

Notation "' p <~ m ; k" := (bind m (fun p => k)) (at level 20, p pattern, m at level 100, k at level 200).

(** [Result::expect], [Result::expect_err], [Option::expect]. *)
Definition expect {E A} (msg : string) (m : M E A) : test A := on_error (fun _ => msg) m.
Definition expect_err {E A} (msg : string) (m : M E A) : test E :=
  r <~ attempt m;
  match r with Ok _ => fail msg | Err e => ret e end.
Definition expect_some {A} (msg : string) (o : option A) : test A := lift (ok_or o msg).

(** [assert!], [assert_eq!]. *)
Definition assert (b : bool) : test unit := if b then ret tt else fail "assertion failed"%string.
Definition assert_eq {A} `{EqDecision A} (x y : A) : test unit := assert (bool_decide (x = y)).

(** ** What the tests compare *)

(** [json!({ key: value, .. })]. *)
Definition obj (l : list (string * json)) : json := JObject l.
Definition text (s : string) : json := obj [("text", JString s)]%string.

(** ** The crates *)

Fixpoint join (sep : string) (l : list string) : string :=
  match l with
  | [] => EmptyString
  | [s] => s
  | s :: l => s ++ sep ++ join sep l
  end%string.

(** Text of a JSON value; [space] follows a comma and a colon.  The digits of a
    fraction do not matter here. *)
Definition print_number (x : number) : string :=
  match x with
  | PosInt n | NegInt n => NilZero.string_of_int (Z.to_int n)
  | Float _ => "0.0"
  end%string.
Definition quoted (s : string) : string := String "034"%char (s ++ String "034"%char EmptyString)%string.
Fixpoint print_json (space : string) (v : json) : string :=
  match v with
  | JNull => "null"
  | JBool b => if b then "true" else "false"
  | JNumber x => print_number x
  | JString s => quoted s
  | JArray l => "[" ++ join ("," ++ space) (print_json space <$> l) ++ "]"
  | JObject m =>
    "{" ++ join ("," ++ space) ((fun p => quoted p.1 ++ ":" ++ space ++ print_json space p.2) <$> m) ++ "}"
  end%string.

#[export] Instance test_externals : Externals := {|
  uuid_to_string := uuid_to_string (Externals := Sample.sample_externals);
  uuid_parse := uuid_parse (Externals := Sample.sample_externals);
  account_to_string := account_to_string (Externals := Sample.sample_externals);
  account_from_str := account_from_str (Externals := Sample.sample_externals);
  json_to_string := print_json EmptyString;
  jsonb_octets v := Z.of_nat (String.length (print_json " " v));
  text_leb := String.leb
|}.

#[export] Instance test_parser : JsonParser := fun s => Some (JString s).

(** JSON values as bytes, for the binary column. *)
#[local] Instance spec_float_countable : Countable SpecFloat.spec_float.
Proof.
  refine (inj_countable'
    (fun x : SpecFloat.spec_float => match x with
      | SpecFloat.S754_zero s => inl (inl s)
      | SpecFloat.S754_infinity s => inl (inr s)
      | SpecFloat.S754_nan => inr None
      | SpecFloat.S754_finite s m e => inr (Some (s, m, e))
      end)
    (fun x => match x with
      | inl (inl s) => SpecFloat.S754_zero s
      | inl (inr s) => SpecFloat.S754_infinity s
      | inr None => SpecFloat.S754_nan
      | inr (Some (s, m, e)) => SpecFloat.S754_finite s m e
      end) _).
  by intros [].
Defined.

#[local] Instance number_countable : Countable number.
Proof.
  refine (inj_countable'
    (fun x => match x with PosInt n => inl (inl n) | NegInt n => inl (inr n) | Float f => inr f end)
    (fun x => match x with inl (inl n) => PosInt n | inl (inr n) => NegInt n | inr f => Float f end) _).
  by intros [].
Defined.

Fixpoint json_tree (v : json) : gen_tree (option (bool + number + string)) :=
  match v with
  | JNull => GenLeaf None
  | JBool b => GenLeaf (Some (inl (inl b)))
  | JNumber n => GenLeaf (Some (inl (inr n)))
  | JString s => GenLeaf (Some (inr s))
  | JArray l => GenNode 0 (json_tree <$> l)
  | JObject m => GenNode 1 ((fun p => GenNode 2 [GenLeaf (Some (inr p.1)); json_tree p.2]) <$> m)
  end.
Fixpoint tree_json (t : gen_tree (option (bool + number + string))) : json :=
  match t with
  | GenLeaf None => JNull
  | GenLeaf (Some (inl (inl b))) => JBool b
  | GenLeaf (Some (inl (inr n))) => JNumber n
  | GenLeaf (Some (inr s)) => JString s
  | GenNode 0 l => JArray (tree_json <$> l)
  | GenNode _ l =>
    JObject (omap (fun t => match t with
                            | GenNode _ [GenLeaf (Some (inr key)); v] => Some (key, tree_json v)
                            | _ => None
                            end) l)
  end.

Fixpoint positive_bytes (p : positive) : bytes :=
  match p with
  | xH => []
  | xO p => Byte.x00 :: positive_bytes p
  | xI p => Byte.x01 :: positive_bytes p
  end.
Definition bytes_positive : bytes -> positive :=
  foldr (fun b p => match b with Byte.x00 => xO p | _ => xI p end) xH.

(** [postcard]: a figure is kept as its JSON. *)
#[export] Instance test_postcard : Postcard schema.CompactEvent := {|
  to_allocvec c := (fun v => positive_bytes (countable.encode (json_tree v))) <$> schema.into_json c;
  from_bytes b :=
    t ← countable.decode (bytes_positive b);
    match schema.from_json (tree_json t) with Ok c => Some c | Err _ => None end
|}.

(** ** Agents *)

Definition SVC_AUDIENCE : string := "dev.svc.example.org".
Definition USR_AUDIENCE : string := "dev.usr.example.org".

Module TestAgent.

Definition new (agent_label account_label audience : string) : agent_id :=
  AgentId (AccountId account_label audience) agent_label.

End TestAgent.

(** ** Authorization *)

(** What [svc_authz] is configured with: the answer to a request for an
    authorization, of the world it is made in. *)
Definition client_map : Type := world -> string -> account_id -> list string -> string -> result authz_error Z.

Module TestAuthz.

(** [LocalWhitelistRecord]: subject, object, action. *)
Record t : Type := Mk { records : list (account_id * list string * string); audience : string }.

Definition new : t := Mk [] USR_AUDIENCE.
Definition set_audience (audience : string) (a : t) : t := Mk (records a) audience.
Definition allow (subject : account_id) (object : list string) (action : string) (a : t) : t :=
  Mk (records a ++ [(subject, to_vec (authz_object_new object), action)]) (audience a).

(** What has been allowed is; of another audience, nothing is. *)
Definition into (a : t) : client_map := fun _ audience' subject object action =>
  if bool_decide (audience' = audience a) && bool_decide ((subject, object, action) ∈ records a)
  then Ok 0 else Err Forbidden.

End TestAuthz.

(** [test_db_ban_callback]. *)
Definition test_db_ban_callback (account_id : account_id) (intent : AuthzObject) (w : world) : bool :=
  match to_ban_key intent, to_vec intent with
  | Some _, _ :: classroom_id :: _ =>
    match uuid_parse classroom_id with
    | Some classroom_id =>
      match (BanQueries.classroom_find account_id classroom_id (QCtx 0 (fun _ => 0%N)) (w_db w)).1 with
      | Ok maybe_ban => negb (is_none maybe_ban)
      | Err _ => false
      end
    | None => false
    end
  | _, _ => false
  end.

Module DbBanTestAuthz.

Record t : Type := Mk {
  records : list (account_id * list string * string);
  f : account_id -> AuthzObject -> world -> bool
}.

Definition new (f : account_id -> AuthzObject -> world -> bool) : t := Mk [] f.
Definition allow (subject : account_id) (object : list string) (action : string) (a : t) : t :=
  Mk (records a ++ [(subject, to_vec (authz_object_new object), action)]) (f a).

(** What has been allowed is, unless the callback tells of a ban. *)
Definition into (a : t) : client_map := fun w audience subject object action =>
  if f a subject (authz_object_new object) w then Err Forbidden
  else TestAuthz.into (TestAuthz.Mk (records a) USR_AUDIENCE) w audience subject object action.

End DbBanTestAuthz.

(** ** The context *)

(** [build_config]. *)
Definition build_config (payload_size : option Z) : Config :=
  MkConfig (AccountId "mqtt-gateway" SVC_AUDIENCE) None vacuum_config_default (default 102400 payload_size)
    nanos_per_sec.

(** [TestContext]; the broker answers requests as the mock is told to. *)
Record TestContext : Type := MkTestContext {
  tc_context : Context;
  tc_authz : client_map;
  tc_expect_enter_room : bool
}.

Definition build_context (payload_size : option Z) (authz : client_map) : TestContext :=
  MkTestContext
    (MkContext (build_config payload_size) (AgentId (AccountId "event" SVC_AUDIENCE) "alpha") false) authz false.

Module TestContext.

Definition new (authz : TestAuthz.t) : TestContext := build_context None (TestAuthz.into authz).
Definition new_with_payload_size (authz : TestAuthz.t) (payload_size : Z) : TestContext :=
  build_context (Some payload_size) (TestAuthz.into authz).
Definition new_with_ban (authz : DbBanTestAuthz.t) : TestContext := build_context None (DbBanTestAuthz.into authz).

Definition set_s3 (c : TestContext) : TestContext :=
  MkTestContext (MkContext (config (tc_context c)) (ctx_agent_id (tc_context c)) true) (tc_authz c)
    (tc_expect_enter_room c).
(** [broker_client_mock().expect_enter_room()]. *)
Definition expect_enter_room (c : TestContext) : TestContext := MkTestContext (tc_context c) (tc_authz c) true.

End TestContext.

(** ** Messages *)

Inductive OutgoingEnvelopeProperties : Type :=
  | EventProperties (label : string)
  | ResponseProperties (status : Z).

(** The payload is read when the test asks for it; what [svc_agent] puts before the
    path of a topic is left out. *)
Record OutgoingEnvelope : Type := MkOutgoingEnvelope {
  oe_payload : Payload;
  oe_properties : OutgoingEnvelopeProperties;
  oe_topic : string
}.

(** [parse_messages]. *)
Definition parse_messages (messages : list Message) : list OutgoingEnvelope :=
  omap (fun m => match m with
    | Broadcast nt => Some (MkOutgoingEnvelope (n_payload nt) (EventProperties (n_label nt)) ("/" ++ n_path nt))
    | OutgoingResponse status payload => Some (MkOutgoingEnvelope payload (ResponseProperties status) EmptyString)
    | ErrorResponse _ _ => None
    end) messages.

(** What the service uses of the outside, in a test. *)
Definition in_context (c : TestContext) (n : env) (w : world) : env :=
  Env (e_tick n) (fun _ => tc_authz c w) None (fun _ => tc_expect_enter_room c) (fun _ => s3_client (tc_context c)).

Definition handle_request (c : TestContext) (h : RequestHandler) (agent : agent_id) (payload : PayloadOf h)
    : M ErrorKind (list OutgoingEnvelope) :=
  response <~ once (fun n w => handle (tc_context c) h payload (MqttParams agent) (in_context c n w) w);
  ret (parse_messages (into_mqtt_messages response)).

(** [handle_event] of [DeleteEventHandler]. *)
Definition handle_delete_event (c : TestContext) (agent : agent_id) (payload : DeleteEventPayload)
    : M ErrorKind (list OutgoingEnvelope) :=
  notifications <~ once (fun n w =>
    subscription_delete (tc_context c) payload (agent_account agent) (in_context c n w) w);
  ret (parse_messages (Broadcast <$> notifications)).

(** [DeserializeOwned], of the payloads the tests read. *)
Class Deserialize (P : Type) : Type := deserialize : Payload -> option P.

#[export] Instance payload_value : Deserialize Payload := Some.
#[export] Instance event_payload : Deserialize Event :=
  fun p => match p with PEvent e | PClaim e _ => Some e | _ => None end.
#[export] Instance events_payload : Deserialize (list Event) := fun p => match p with PEvents l => Some l | _ => None end.
#[export] Instance room_payload : Deserialize Room := fun p => match p with PRoom r => Some r | _ => None end.
#[export] Instance agents_payload : Deserialize (list AgentWithBan) :=
  fun p => match p with PAgents l => Some l | _ => None end.
#[export] Instance bans_payload : Deserialize (list RoomBan) := fun p => match p with PBans l => Some l | _ => None end.
#[export] Instance edition_payload : Deserialize Edition := fun p => match p with PEdition e => Some e | _ => None end.
#[export] Instance editions_payload : Deserialize (list Edition) :=
  fun p => match p with PEditions l => Some l | _ => None end.
#[export] Instance change_payload : Deserialize Change := fun p => match p with PChange c => Some c | _ => None end.
#[export] Instance changes_payload : Deserialize (list Change) :=
  fun p => match p with PChanges l => Some l | _ => None end.

Definition read_payload {P} `{Deserialize P} (payload : Payload) : test P :=
  expect_some "Failed to parse payload" (deserialize payload).

(** The payload, the label and the topic of the first event whose label satisfies
    [f]. *)
Fixpoint find_event_by_predicate {P} `{Deserialize P} (messages : list OutgoingEnvelope) (f : string -> bool)
    : test (option (P * string * string)) :=
  match messages with
  | [] => ret None
  | message :: messages =>
    match oe_properties message with
    | EventProperties label =>
      if f label then payload <~ read_payload (oe_payload message); ret (Some (payload, label, oe_topic message))
      else find_event_by_predicate messages f
    | ResponseProperties _ => find_event_by_predicate messages f
    end
  end.

Definition find_event {P} `{Deserialize P} (messages : list OutgoingEnvelope) : test (P * string * string) :=
  found <~ find_event_by_predicate messages (fun _ => true);
  expect_some "Event not found" found.

(** The payload and the status of the first response. *)
Fixpoint find_response {P} `{Deserialize P} (messages : list OutgoingEnvelope) : test (P * Z) :=
  match messages with
  | [] => fail "Response not found"%string
  | message :: messages =>
    match oe_properties message with
    | ResponseProperties status => payload <~ read_payload (oe_payload message); ret (payload, status)
    | EventProperties _ => find_response messages
    end
  end.

(** [str::ends_with]. *)
Definition ends_with (suffix s : string) : bool :=
  bool_decide (String.substring (String.length s - String.length suffix) (String.length suffix) s = suffix)
  && (String.length suffix <=? String.length s)%nat.

(** ** Factories *)

(** A method of a builder. *)
Notation "x |> f" := (f x) (at level 61, left associativity, only parsing).

Module Factory.

(** [Option::expect]. *)
Definition required {A} (msg : string) (o : option A) : test A := expect_some msg o.

Module Room.

Record t : Type := Mk {
  audience_ : option string;
  time_ : option BoundedDateTimeTuple;
  tags_ : option json;
  preserve_history_ : option bool;
  classroom_id_ : uuid;
  kind_ : ClassType
}.

Definition new (classroom_id : uuid) (kind : ClassType) : t := Mk None None None None classroom_id kind.
Definition audience (v : string) (f : t) : t :=
  Mk (Some v) (time_ f) (tags_ f) (preserve_history_ f) (classroom_id_ f) (kind_ f).
Definition time (v : BoundedDateTimeTuple) (f : t) : t :=
  Mk (audience_ f) (Some v) (tags_ f) (preserve_history_ f) (classroom_id_ f) (kind_ f).
Definition tags (v : json) (f : t) : t :=
  Mk (audience_ f) (time_ f) (Some v) (preserve_history_ f) (classroom_id_ f) (kind_ f).
Definition preserve_history (v : bool) (f : t) : t :=
  Mk (audience_ f) (time_ f) (tags_ f) (Some v) (classroom_id_ f) (kind_ f).
Definition validate_whiteboard_access (f : t) : t :=
  Mk (audience_ f) (time_ f) (tags_ f) (preserve_history_ f) (classroom_id_ f) Minigroup.

Definition insert (f : t) : test Room :=
  audience <~ required "Audience not set" (audience_ f);
  time <~ required "Time not set" (time_ f);
  let query := RoomDb.InsertQuery.new audience time (classroom_id_ f) (kind_ f) in
  let query := match tags_ f with Some tags => RoomDb.InsertQuery.tags tags query | None => query end in
  let query := match preserve_history_ f with
               | Some v => RoomDb.InsertQuery.preserve_history v query
               | None => query
               end in
  expect "Failed to insert room" (run (RoomDb.InsertQuery.execute query)).

End Room.

Module Agent.

Record t : Type := Mk { agent_id_ : option agent_id; room_id_ : option uuid; status_ : option Status }.

Definition new : t := Mk None None None.
Definition agent_id (v : agent_id) (f : t) : t := Mk (Some v) (room_id_ f) (status_ f).
Definition room_id (v : uuid) (f : t) : t := Mk (agent_id_ f) (Some v) (status_ f).
Definition status (v : Status) (f : t) : t := Mk (agent_id_ f) (room_id_ f) (Some v).

Definition insert (f : t) : test Agent :=
  agent_id <~ required "Agent ID not set" (agent_id_ f);
  room_id <~ required "Room ID not set" (room_id_ f);
  expect "Failed to insert agent"
    (run (match status_ f with
          | Some status => AgentQueries.insert_as status agent_id room_id
          | None => AgentQueries.insert agent_id room_id
          end)).

End Agent.

Module Event.

Record t : Type := Mk {
  room_id_ : option uuid;
  kind_ : option string;
  set_ : option string;
  label_ : option string;
  attribute_ : option string;
  data_ : option json;
  occurred_at_ : option Z;
  created_by_ : option agent_id;
  created_at_ : option Z;
  removed_ : bool
}.

Definition new : t := Mk None None None None None None None None None false.
Definition room_id (v : uuid) (f : t) : t :=
  Mk (Some v) (kind_ f) (set_ f) (label_ f) (attribute_ f) (data_ f) (occurred_at_ f) (created_by_ f) (created_at_ f) (removed_ f).
Definition kind (v : string) (f : t) : t :=
  Mk (room_id_ f) (Some v) (set_ f) (label_ f) (attribute_ f) (data_ f) (occurred_at_ f) (created_by_ f) (created_at_ f) (removed_ f).
Definition set (v : string) (f : t) : t :=
  Mk (room_id_ f) (kind_ f) (Some v) (label_ f) (attribute_ f) (data_ f) (occurred_at_ f) (created_by_ f) (created_at_ f) (removed_ f).
Definition label (v : string) (f : t) : t :=
  Mk (room_id_ f) (kind_ f) (set_ f) (Some v) (attribute_ f) (data_ f) (occurred_at_ f) (created_by_ f) (created_at_ f) (removed_ f).
Definition attribute (v : string) (f : t) : t :=
  Mk (room_id_ f) (kind_ f) (set_ f) (label_ f) (Some v) (data_ f) (occurred_at_ f) (created_by_ f) (created_at_ f) (removed_ f).
Definition data (v : json) (f : t) : t :=
  Mk (room_id_ f) (kind_ f) (set_ f) (label_ f) (attribute_ f) (Some v) (occurred_at_ f) (created_by_ f) (created_at_ f) (removed_ f).
Definition occurred_at (v : Z) (f : t) : t :=
  Mk (room_id_ f) (kind_ f) (set_ f) (label_ f) (attribute_ f) (data_ f) (Some v) (created_by_ f) (created_at_ f) (removed_ f).
Definition created_by (v : agent_id) (f : t) : t :=
  Mk (room_id_ f) (kind_ f) (set_ f) (label_ f) (attribute_ f) (data_ f) (occurred_at_ f) (Some v) (created_at_ f) (removed_ f).
Definition created_at (v : Z) (f : t) : t :=
  Mk (room_id_ f) (kind_ f) (set_ f) (label_ f) (attribute_ f) (data_ f) (occurred_at_ f) (created_by_ f) (Some v) (removed_ f).
Definition removed (v : bool) (f : t) : t :=
  Mk (room_id_ f) (kind_ f) (set_ f) (label_ f) (attribute_ f) (data_ f) (occurred_at_ f) (created_by_ f) (created_at_ f) v.

Definition insert (f : t) : test Event :=
  room_id <~ required "Room ID not set" (room_id_ f);
  kind <~ required "Kind not set" (kind_ f);
  data <~ required "Data not set" (data_ f);
  occurred_at <~ required "Occurrence date not set" (occurred_at_ f);
  created_by <~ required "Creator not set" (created_by_ f);
  query <~ expect "called `Result::unwrap()` on an `Err` value"
    (lift (EventDb.InsertQuery.new room_id kind data occurred_at created_by));
  let query := EventDb.InsertQuery.removed (removed_ f) query in
  let query := match set_ f with Some v => EventDb.InsertQuery.set v query | None => query end in
  let query := match label_ f with Some v => EventDb.InsertQuery.label v query | None => query end in
  let query := match attribute_ f with Some v => EventDb.InsertQuery.attribute v query | None => query end in
  let query := match created_at_ f with Some v => EventDb.InsertQuery.created_at v query | None => query end in
  expect "Failed to insert event" (run (EventDb.InsertQuery.execute query)).

End Event.

Module Edition.

Record t : Type := Mk { source_room_id : uuid; created_by : agent_id }.

Definition new (source_room_id : uuid) (created_by : agent_id) : t := Mk source_room_id created_by.
Definition insert (f : t) : test Edition :=
  expect "Failed to insert edition" (run (EditionQueries.insert (source_room_id f) (created_by f))).

End Edition.

Module Change.

Record t : Type := Mk {
  edition_id : uuid;
  kind : ChangeType;
  event_id_ : option uuid;
  event_data_ : option json;
  event_kind_ : option string;
  event_set_ : option string;
  event_label_ : option string;
  event_occurred_at_ : option Z;
  event_created_by_ : option agent_id
}.

Definition new (edition_id : uuid) (kind : ChangeType) : t := Mk edition_id kind None None None None None None None.
Definition event_id (v : uuid) (f : t) : t :=
  Mk (edition_id f) (kind f) (Some v) (event_data_ f) (event_kind_ f) (event_set_ f) (event_label_ f) (event_occurred_at_ f) (event_created_by_ f).
Definition event_data (v : json) (f : t) : t :=
  Mk (edition_id f) (kind f) (event_id_ f) (Some v) (event_kind_ f) (event_set_ f) (event_label_ f) (event_occurred_at_ f) (event_created_by_ f).
Definition event_kind (v : string) (f : t) : t :=
  Mk (edition_id f) (kind f) (event_id_ f) (event_data_ f) (Some v) (event_set_ f) (event_label_ f) (event_occurred_at_ f) (event_created_by_ f).
Definition event_set (v : string) (f : t) : t :=
  Mk (edition_id f) (kind f) (event_id_ f) (event_data_ f) (event_kind_ f) (Some v) (event_label_ f) (event_occurred_at_ f) (event_created_by_ f).
Definition event_label (v : string) (f : t) : t :=
  Mk (edition_id f) (kind f) (event_id_ f) (event_data_ f) (event_kind_ f) (event_set_ f) (Some v) (event_occurred_at_ f) (event_created_by_ f).
Definition event_occurred_at (v : Z) (f : t) : t :=
  Mk (edition_id f) (kind f) (event_id_ f) (event_data_ f) (event_kind_ f) (event_set_ f) (event_label_ f) (Some v) (event_created_by_ f).
Definition event_created_by (v : agent_id) (f : t) : t :=
  Mk (edition_id f) (kind f) (event_id_ f) (event_data_ f) (event_kind_ f) (event_set_ f) (event_label_ f) (event_occurred_at_ f) (Some v).

Definition insert (f : t) : test Change :=
  let query := ChangeQueries.insert_new (edition_id f) (kind f) in
  let query := match event_id_ f with Some v => ChangeQueries.event_id v query | None => query end in
  let query := match event_data_ f with Some v => ChangeQueries.event_data v query | None => query end in
  let query := match event_kind_ f with Some v => ChangeQueries.event_kind v query | None => query end in
  let query := ChangeQueries.event_set (event_set_ f) query in
  let query := ChangeQueries.event_label (event_label_ f) query in
  let query := match event_occurred_at_ f with Some v => ChangeQueries.event_occurred_at v query | None => query end in
  let query := match event_created_by_ f with Some v => ChangeQueries.event_created_by v query | None => query end in
  expect "Failed to insert edition" (run (ChangeQueries.insert query)).

End Change.

Module RoomBan.

Record t : Type := Mk { as_account_id : account_id; room_id : uuid; reason_ : option string }.

Definition new (as_account_id : account_id) (room_id : uuid) : t := Mk as_account_id room_id None.
Definition reason (v : string) (f : t) : t := Mk (as_account_id f) (room_id f) (Some v).
Definition insert (f : t) : test RoomBan :=
  expect "Failed to insert room_ban" (run (BanQueries.insert (as_account_id f) (room_id f) (reason_ f))).

End RoomBan.

End Factory.

(** ** Shared fixtures *)

Module SharedHelpers.

Definition seconds (n : Z) : Z := n * nanos_per_sec.
Definition hours (n : Z) : Z := seconds (n * 3600).

(** [Utc::now().trunc_subsecs(0)]. *)
Definition now_trunc : test Z := now <~ now; ret (now - now mod nanos_per_sec).

Definition webinar_tags : json := obj [("webinar_id", JString "123")]%string.

Definition insert_room : test Room :=
  now <~ now_trunc;
  id <~ new_v4;
  Factory.Room.insert
    (Factory.Room.new id Webinar
       |> Factory.Room.audience USR_AUDIENCE
       |> Factory.Room.time (Included now, Excluded (now + hours 1))
       |> Factory.Room.tags webinar_tags).

Definition insert_unbounded_room : test Room :=
  now <~ now_trunc;
  id <~ new_v4;
  Factory.Room.insert
    (Factory.Room.new id Webinar
       |> Factory.Room.audience USR_AUDIENCE
       |> Factory.Room.time (Included now, Unbounded)
       |> Factory.Room.tags webinar_tags).

Definition insert_closed_room : test Room :=
  now <~ now_trunc;
  id <~ new_v4;
  Factory.Room.insert
    (Factory.Room.new id Webinar
       |> Factory.Room.audience USR_AUDIENCE
       |> Factory.Room.time (Included (now - hours 10), Excluded (now - hours 8))
       |> Factory.Room.tags webinar_tags).

Definition insert_validating_whiteboard_access_room : test Room :=
  now <~ now_trunc;
  id <~ new_v4;
  Factory.Room.insert
    (Factory.Room.new id Webinar
       |> Factory.Room.audience USR_AUDIENCE
       |> Factory.Room.time (Included now, Excluded (now + hours 1))
       |> Factory.Room.tags webinar_tags
       |> Factory.Room.validate_whiteboard_access).

Definition insert_agent (agent : agent_id) (room_id : uuid) : test Agent :=
  Factory.Agent.insert
    (Factory.Agent.new
       |> Factory.Agent.agent_id agent
       |> Factory.Agent.room_id room_id
       |> Factory.Agent.status Ready).

Definition insert_edition (room : Room) (agent : agent_id) : test Edition :=
  Factory.Edition.insert (Factory.Edition.new (room_id room) agent).

End SharedHelpers.

(** ** What many tests do *)

Definition user : agent_id := TestAgent.new "web" "user123" USR_AUDIENCE.
Definition user_account : account_id := agent_account user.

(** A room with the agent online. *)
Definition room_with_agent (insert : test Room) (agent : agent_id) : test Room :=
  room <~ insert;
  SharedHelpers.insert_agent agent (room_id room);;
  ret room.

(** The object of a test: [classrooms], the classroom, the rest. *)
Definition classroom_object (room : Room) (rest : list string) : list string :=
  "classrooms"%string :: uuid_to_string (room_classroom_id room) :: rest.

Definition room_events_topic (room : Room) : string := ("/rooms/" ++ uuid_to_string (room_id room) ++ "/events")%string.

(** The inserted events, in order. *)
Fixpoint insert_events (factories : list Factory.Event.t) : test (list Event) :=
  match factories with
  | [] => ret []
  | factory :: factories =>
    event <~ Factory.Event.insert factory;
    events <~ insert_events factories;
    ret (event :: events)
  end.

(** [v\[i\]]. *)
Definition index {A} (l : list A) (i : nat) : test A := expect_some "index out of bounds" (l !! i).

(** What a user may do with the classroom of the room, and nothing else. *)
Definition may (agent : agent_id) (room : Room) (action : string) : TestContext :=
  TestContext.new (TestAuthz.new |> TestAuthz.allow (agent_account agent) (classroom_object room []) action).

(** Nothing is allowed. *)
Definition nothing_allowed : TestContext := TestContext.new TestAuthz.new.

(** The request is refused as not allowed. *)
Definition assert_forbidden {A} (msg : string) (m : M ErrorKind A) : test unit :=
  err <~ expect_err msg m;
  assert_eq (Errors.status err) FORBIDDEN.

(** The request fails with the status and the kind. *)
Definition assert_fails {A} (msg : string) (m : M ErrorKind A) (status : Z) (kind : string) : test unit :=
  err <~ expect_err msg m;
  assert_eq (Errors.status err) status;;
  assert_eq (Errors.kind err) kind.

(** A room whose classroom the agent may read. *)
Definition reader (room : Room) (agent : agent_id) : TestContext := may agent room "read".

(** ** Running a test *)

(** Every use of the outside succeeds, a millisecond after the one before. *)
Definition test_env : env := Env
  (fun k =>
     let now := SharedHelpers.seconds 1600000000 + Z.of_nat k * 1000000 in
     Tick now (QCtx now (fun i => (1000 * N.of_nat (S k) + N.of_nat i)%N)) None)
  (fun _ _ _ _ _ => Err AuthzFailed) None (fun _ => false) (fun _ => false).

Definition passes (t : test unit) : bool := is_ok (t test_env (World empty_database 0 [] [])).1.
