(* ===== verification/EventTests.v ===== *)
(** * The tests of the events

    The tests of [src/src/app/endpoint/event.rs]. *)

From S2P Require Import Prelude Floats Times Types Db Schema CompactEvent EventDb SetState RoomDb EditionDb AgentDb Effects Errors Service EventEndpoint Router Figures TestHelpers.
Import SharedHelpers.
#[local] Open Scope string_scope.

(** ** [event.create] *)

Definition create_request (room_id : uuid) (kind : string) (set label attribute : option string) (data : json)
    (is_claim is_persistent : bool) : CreateRequest :=
  MkCreateRequest room_id (MkCreatePayload kind set label attribute data is_claim is_persistent false).

(** A persistent message of a label. *)
Definition message_request (room_id : uuid) (label : string) (attribute : option string) (data : string) : CreateRequest :=
  create_request room_id "message" (Some "messages") (Some label) attribute (text data) false true.

(** The room, kind, set, label, attribute and data of an event. *)
Definition assert_event (event : Event) (room : Room) (kind set : string) (label attribute : option string)
    (data : json) : test unit :=
  assert_eq (event_room_id event) (room_id room);;
  assert_eq (event_kind event) kind;;
  assert_eq (event_set event) set;;
  assert_eq (event_label event) label;;
  assert_eq (event_attribute event) attribute;;
  assert_eq (event_data event) data.

Definition create_event : test unit :=
  let agent := user in
  room <~ room_with_agent insert_room agent;
  let object := classroom_object room ["pinned"; "message"; "authors"; account_to_string user_account] in
  let authz := TestAuthz.new |> TestAuthz.allow user_account object "create" in
  let context := TestContext.new authz in
  let payload := message_request (room_id room) "message-1" (Some "pinned") "hello" in
  messages <~ expect "Event creation failed" (handle_request context EventCreate agent payload);
  assert_eq (length messages) 2%nat;;
  '(event, status) <~ find_response (P := Event) messages;
  assert_eq status CREATED;;
  assert_event event room "message" "messages" (Some "message-1") (Some "pinned") (text "hello");;
  '(event, label, topic) <~ find_event (P := Event) messages;
  assert (ends_with (room_events_topic room) topic);;
  assert_eq label "event.create";;
  assert_event event room "message" "messages" (Some "message-1") (Some "pinned") (text "hello").

Definition exceed_payload_size : test unit :=
  let agent := user in
  room <~ room_with_agent insert_room agent;
  let object := classroom_object room ["pinned"; "message"; "authors"; account_to_string user_account] in
  let authz := TestAuthz.new |> TestAuthz.allow user_account object "create" in
  let context := TestContext.new_with_payload_size authz 10 in
  let payload := message_request (room_id room) "message-1" (Some "pinned") "hello" in
  expect_err "Event creation succeeded" (handle_request context EventCreate agent payload);;
  ret tt.

(** The message kind is locked for the room, by a query. *)
Definition lock_message (room : Room) : test unit :=
  let q := RoomDb.UpdateQuery.new (room_id room) |> RoomDb.UpdateQuery.locked_types {["message" := true]} in
  expect "Failed to lock type" (run (RoomDb.UpdateQuery.execute q));;
  ret tt.

Definition create_locked_event_as_user : test unit :=
  let agent := user in
  room <~ room_with_agent insert_room agent;
  let object := classroom_object room ["events"; "message"; "authors"; account_to_string user_account] in
  let authz := TestAuthz.new |> TestAuthz.allow user_account object "create" in
  let context := TestContext.new authz in
  let payload := message_request (room_id room) "message-1" None "hello" in
  expect "Event creation failed" (handle_request context EventCreate agent payload);;
  lock_message room;;
  let payload := message_request (room_id room) "message-2" None "locked chat hello" in
  expect_err "Event creation succeeded" (handle_request context EventCreate agent payload);;
  ret tt.

Definition create_locked_event_as_room_updater : test unit :=
  let agent := user in
  room <~ room_with_agent insert_room agent;
  let object := classroom_object room ["events"; "message"; "authors"; account_to_string user_account] in
  let authz := TestAuthz.new |> TestAuthz.allow user_account object "create" in
  let authz := authz |> TestAuthz.allow user_account (classroom_object room []) "update" in
  let context := TestContext.new authz in
  let payload := message_request (room_id room) "message-1" None "hello" in
  expect "Event creation failed" (handle_request context EventCreate agent payload);;
  lock_message room;;
  let payload := message_request (room_id room) "message-2" None "locked chat hello" in
  expect "Event creation failed" (handle_request context EventCreate agent payload);;
  ret tt.

Definition create_next_event : test unit :=
  let original_author := user in
  let agent := TestAgent.new "web" "moderator" USR_AUDIENCE in
  room <~ insert_room;
  Factory.Event.insert
    (Factory.Event.new
       |> Factory.Event.room_id (room_id room)
       |> Factory.Event.kind "message"
       |> Factory.Event.set "messages"
       |> Factory.Event.label "message-1"
       |> Factory.Event.data (text "original text")
       |> Factory.Event.occurred_at 1000000000
       |> Factory.Event.created_by original_author);;
  insert_agent agent (room_id room);;
  let account_id := account_to_string (agent_account original_author) in
  let object := classroom_object room ["events"; "message"; "authors"; account_id] in
  let authz := TestAuthz.new |> TestAuthz.allow (agent_account agent) object "create" in
  let context := TestContext.new authz in
  let payload := message_request (room_id room) "message-1" None "modified text" in
  messages <~ expect "Event creation failed" (handle_request context EventCreate agent payload);
  '(event, status) <~ find_response (P := Event) messages;
  assert_eq status CREATED;;
  assert_eq (event_created_by event) agent.

(** The messages of a claim: those to the tenant and to the room are both there. *)
Fixpoint claim_notifications (room : Room) (messages : list OutgoingEnvelope) (has_tenant has_room : bool)
    : test (bool * bool) :=
  match messages with
  | [] => ret (has_tenant, has_room)
  | message :: messages =>
    match oe_properties message with
    | EventProperties label =>
      let topic := oe_topic message in
      let has_tenant := has_tenant || ends_with ("/audiences/" ++ room_audience room ++ "/events") topic in
      let has_room := has_room || ends_with (room_events_topic room) topic in
      assert_eq label "event.create";;
      event <~ read_payload (P := Event) (oe_payload message);
      assert_eq (event_room_id event) (room_id room);;
      assert_eq (event_kind event) "block";;
      assert_eq (event_set event) "blocks";;
      assert_eq (event_label event) (Some "user-1");;
      assert_eq (event_data event) (obj [("blocked", JBool true)]);;
      claim_notifications room messages has_tenant has_room
    | ResponseProperties _ => claim_notifications room messages has_tenant has_room
    end
  end.

Definition create_claim : test unit :=
  let agent := user in
  room <~ room_with_agent insert_room agent;
  let object := classroom_object room ["claims"; "block"; "authors"; account_to_string user_account] in
  let authz := TestAuthz.new |> TestAuthz.allow user_account object "create" in
  let context := TestContext.new authz in
  let payload := create_request (room_id room) "block" (Some "blocks") (Some "user-1") None
                   (obj [("blocked", JBool true)]) true true in
  messages <~ expect "Event creation failed" (handle_request context EventCreate agent payload);
  assert_eq (length messages) 3%nat;;
  '(event, status) <~ find_response (P := Event) messages;
  assert_eq status CREATED;;
  assert_eq (event_room_id event) (room_id room);;
  assert_eq (event_kind event) "block";;
  assert_eq (event_set event) "blocks";;
  assert_eq (event_label event) (Some "user-1");;
  assert_eq (event_data event) (obj [("blocked", JBool true)]);;
  '(has_tenant_notification, has_room_notification) <~ claim_notifications room messages false false;
  assert_eq has_tenant_notification true;;
  assert_eq has_room_notification true.

Definition create_transient_event : test unit :=
  let agent := user in
  room <~ room_with_agent insert_room agent;
  let object := classroom_object room ["events"; "cursor"; "authors"; account_to_string user_account] in
  let authz := TestAuthz.new |> TestAuthz.allow user_account object "create" in
  let context := TestContext.new authz in
  let data := obj [("agent_id", JString "web.user123.dev.usr.example.org"); ("x", JNumber (PosInt 123));
                   ("y", JNumber (PosInt 456))] in
  let payload := create_request (room_id room) "cursor" None None None data false false in
  messages <~ expect "Event creation failed" (handle_request context EventCreate agent payload);
  assert_eq (length messages) 2%nat;;
  '(event, status) <~ find_response (P := Event) messages;
  assert_eq status CREATED;;
  assert_eq (event_room_id event) (room_id room);;
  assert_eq (event_kind event) "cursor";;
  assert_eq (event_set event) "cursor";;
  assert_eq (event_label event) None;;
  assert_eq (event_data event) data;;
  '(event, label, topic) <~ find_event (P := Event) messages;
  assert (ends_with (room_events_topic room) topic);;
  assert_eq label "event.create";;
  assert_eq (event_room_id event) (room_id room);;
  assert_eq (event_kind event) "cursor";;
  assert_eq (event_set event) "cursor";;
  assert_eq (event_label event) None;;
  assert_eq (event_data event) data.

Definition create_event_not_authorized : test unit :=
  let agent := user in
  room <~ room_with_agent insert_room agent;
  let context := TestContext.new TestAuthz.new in
  let payload := message_request (room_id room) "message-1" None "hello" in
  err <~ expect_err "Unexpected success on event creation" (handle_request context EventCreate agent payload);
  assert_eq (Errors.status err) FORBIDDEN.

Definition create_event_not_entered : test unit :=
  let agent := user in
  room <~ insert_room;
  let object := classroom_object room ["events"; "message"; "authors"; account_to_string user_account] in
  let authz := TestAuthz.new |> TestAuthz.allow user_account object "create" in
  let context := TestContext.new authz in
  let payload := message_request (room_id room) "message-1" None "hello" in
  messages <~ expect "Event creation failed" (handle_request context EventCreate agent payload);
  assert_eq (length messages) 2%nat.

Definition create_event_closed_room : test unit :=
  let agent := user in
  room <~ room_with_agent insert_closed_room agent;
  let object := classroom_object room ["events"; "message"; "authors"; account_to_string user_account] in
  let authz := TestAuthz.new |> TestAuthz.allow user_account object "create" in
  let context := TestContext.new authz in
  let payload := message_request (room_id room) "message-1" None "hello" in
  err <~ expect_err "Unexpected success on event creation" (handle_request context EventCreate agent payload);
  assert_eq (Errors.status err) NOT_FOUND;;
  assert_eq (Errors.kind err) "room_closed".

Definition create_event_missing_room : test unit :=
  let agent := user in
  let context := TestContext.new TestAuthz.new in
  id <~ new_v4;
  let payload := message_request id "message-1" None "hello" in
  err <~ expect_err "Unexpected success on event creation" (handle_request context EventCreate agent payload);
  assert_eq (Errors.status err) NOT_FOUND;;
  assert_eq (Errors.kind err) "room_not_found".

(** [CompactEvent::test_rect_event().into_json()]. *)
Definition rect_json : test json :=
  id <~ new_v4;
  expect_some "called `Result::unwrap()` on an `Err` value" (schema.into_json (test_rect_event id)).

Definition draw_request (room_id : uuid) (label : string) (data : json) : CreateRequest :=
  create_request room_id "draw" (Some "set") (Some label) None data false true.

Definition create_whiteboard_event_without_whiteboard_access : test unit :=
  let agent := user in
  room <~ room_with_agent insert_validating_whiteboard_access_room agent;
  let object := classroom_object room ["events"; "draw"; "authors"; account_to_string user_account] in
  let authz := TestAuthz.new |> TestAuthz.allow user_account object "create" in
  let context := TestContext.new authz in
  let payload := draw_request (room_id room) "label-1" (obj [("foo", JString "bar")]) in
  expect_err "Event creation succeeded" (handle_request context EventCreate agent payload);;
  let q := RoomDb.UpdateQuery.new (room_id room) |> RoomDb.UpdateQuery.whiteboard_access {[user_account := true]} in
  expect "Failed to update whiteboard access" (run (RoomDb.UpdateQuery.execute q));;
  data <~ rect_json;
  let payload := draw_request (room_id room) "label-2" data in
  expect "Failed to create event" (handle_request context EventCreate agent payload);;
  ret tt.

Definition create_whiteboard_event_as_room_updater : test unit :=
  let agent := user in
  room <~ room_with_agent insert_validating_whiteboard_access_room agent;
  let object := classroom_object room ["events"; "draw"; "authors"; account_to_string user_account] in
  let authz := TestAuthz.new |> TestAuthz.allow user_account object "create" in
  let context := TestContext.new authz in
  data <~ rect_json;
  let payload := draw_request (room_id room) "label-2" data in
  expect_err "Event creation succeeded" (handle_request context EventCreate agent payload);;
  let authz := authz |> TestAuthz.allow user_account (classroom_object room []) "update" in
  let context := TestContext.new authz in
  expect "Event creation failed" (handle_request context EventCreate agent payload);;
  ret tt.

(** ** [event.list] *)

Definition list_request (room_id : uuid) (kind : option KindFilter) (attribute : option string)
    (last_occurred_at limit : option Z) : ListRequest :=
  MkListRequest room_id kind None None attribute last_occurred_at Backward limit.

(** A message of the room without a label. *)
Definition message_event (room : Room) (kind : string) (number occurred_at : Z) : Factory.Event.t :=
  Factory.Event.new
    |> Factory.Event.room_id (room_id room)
    |> Factory.Event.kind kind
    |> Factory.Event.data (text ("message " ++ print_number (PosInt number)))
    |> Factory.Event.occurred_at occurred_at
    |> Factory.Event.created_by user.

Definition list_events : test unit :=
  let agent := user in
  room <~ insert_room;
  db_events <~ insert_events ((fun i => message_event room "message" i (i * 1000)) <$> [1; 2; 3]);
  let context := reader room agent in
  let payload := list_request (room_id room) None None None (Some 2) in
  messages <~ expect "Events listing failed (page 1)" (handle_request context EventList agent payload);
  '(events, status) <~ find_response (P := list Event) messages;
  assert_eq status OK;;
  assert_eq (length events) 2%nat;;
  event0 <~ index events 0;
  event1 <~ index events 1;
  db_event0 <~ index db_events 0;
  db_event1 <~ index db_events 1;
  db_event2 <~ index db_events 2;
  assert_eq (event_id event0) (event_id db_event2);;
  assert_eq (event_id event1) (event_id db_event1);;
  let payload := list_request (room_id room) None None (Some (event_occurred_at event1)) (Some 2) in
  messages <~ expect "Events listing failed (page 2)" (handle_request context EventList agent payload);
  '(events, status) <~ find_response (P := list Event) messages;
  assert_eq status OK;;
  assert_eq (length events) 1%nat;;
  event0 <~ index events 0;
  assert_eq (event_id event0) (event_id db_event0).

Definition list_events_filtered_by_kinds : test unit :=
  let agent := user in
  room <~ insert_room;
  insert_events ((fun p => message_event room p.2 p.1 (p.1 * 1000)) <$> [(0, "A"); (1, "B"); (2, "A"); (3, "C")]);;
  let context := reader room agent in
  let payload := list_request (room_id room) (Some (Single "B")) None None None in
  messages <~ expect "Events listing failed" (handle_request context EventList agent payload);
  '(events, status) <~ find_response (P := list Event) messages;
  assert_eq status OK;;
  assert_eq (length events) 1%nat;;
  let payload := list_request (room_id room) (Some (Multiple ["B"; "A"])) None None None in
  messages <~ expect "Events listing failed" (handle_request context EventList agent payload);
  '(events, status) <~ find_response (P := list Event) messages;
  assert_eq status OK;;
  assert_eq (length events) 3%nat.

Definition list_events_filter_by_attribute : test unit :=
  let agent := user in
  room <~ insert_room;
  insert_events ((fun p : Z * option string =>
    let factory := message_event room "message" p.1 (p.1 * 1000) in
    match p.2 with Some attribute => factory |> Factory.Event.attribute attribute | None => factory end)
    <$> [(0, None); (1, Some "pinned"); (2, Some "other")]);;
  let context := reader room agent in
  let payload := list_request (room_id room) None (Some "pinned") None None in
  messages <~ expect "Events listing failed" (handle_request context EventList agent payload);
  '(events, status) <~ find_response (P := list Event) messages;
  assert_eq status OK;;
  assert_eq (length events) 1%nat;;
  event0 <~ index events 0;
  assert_eq (event_attribute event0) (Some "pinned").

Definition list_events_not_authorized : test unit :=
  let agent := user in
  room <~ insert_room;
  let context := TestContext.new TestAuthz.new in
  let payload := list_request (room_id room) None None None (Some 2) in
  err <~ expect_err "Unexpected success on events listing" (handle_request context EventList agent payload);
  assert_eq (Errors.status err) FORBIDDEN.

Definition list_events_missing_room : test unit :=
  let agent := user in
  let context := TestContext.new TestAuthz.new in
  id <~ new_v4;
  let payload := list_request id None None None (Some 2) in
  err <~ expect_err "Unexpected success on events listing" (handle_request context EventList agent payload);
  assert_eq (Errors.status err) NOT_FOUND;;
  assert_eq (Errors.kind err) "room_not_found".

(** ** All of them *)

Definition tests : list (string * test unit) :=
  [("create_event", create_event); ("exceed_payload_size", exceed_payload_size);
   ("create_locked_event_as_user", create_locked_event_as_user);
   ("create_locked_event_as_room_updater", create_locked_event_as_room_updater);
   ("create_next_event", create_next_event); ("create_claim", create_claim);
   ("create_transient_event", create_transient_event);
   ("create_event_not_authorized", create_event_not_authorized);
   ("create_event_not_entered", create_event_not_entered);
   ("create_event_closed_room", create_event_closed_room);
   ("create_event_missing_room", create_event_missing_room);
   ("create_whiteboard_event_without_whiteboard_access", create_whiteboard_event_without_whiteboard_access);
   ("create_whiteboard_event_as_room_updater", create_whiteboard_event_as_room_updater);
   ("list_events", list_events); ("list_events_filtered_by_kinds", list_events_filtered_by_kinds);
   ("list_events_filter_by_attribute", list_events_filter_by_attribute);
   ("list_events_not_authorized", list_events_not_authorized);
   ("list_events_missing_room", list_events_missing_room)].
