(* ===== verification/RoomTests.v ===== *)
(** * The tests of the rooms

    The tests of [src/src/app/endpoint/room.rs]. *)

From S2P Require Import Prelude Floats Times Types Db Schema CompactEvent EventDb RoomDb EditionDb AgentDb Effects Errors Service RoomEndpoint Router TestHelpers.
Import SharedHelpers.
#[local] Open Scope string_scope.

(** ** [room.create] *)

(** [assert_eq!(room.time().map(|t| t.into()), Ok(time))]. *)
Definition assert_time (room : Room) (time : BoundedDateTimeTuple) : test unit :=
  room_time <~ expect "time" (lift (RoomDb.time room));
  assert_eq (RoomTimeImpl.into_tuple room_time) time.

Definition create_rooms (agent : agent_id) : TestContext :=
  TestContext.new (TestAuthz.new |> TestAuthz.allow (agent_account agent) ["classrooms"] "create").

(** A room is created with the time, in the classroom. *)
Definition creates_room (time_of : Z -> BoundedDateTimeTuple) (kind : ClassType) : test (uuid * Room * Room) :=
  let agent := user in
  let context := create_rooms agent in
  now <~ now_trunc;
  let time := time_of now in
  let tags := webinar_tags in
  cid <~ new_v4;
  let payload := RoomCreateHandler.MkCreateRequest USR_AUDIENCE time (Some tags) (Some false) cid kind in
  messages <~ expect "Room creation failed" (handle_request context RoomCreate agent payload);
  '(room, status) <~ find_response (P := Room) messages;
  assert_eq status CREATED;;
  assert_eq (room_audience room) USR_AUDIENCE;;
  assert_time room time;;
  assert_eq (room_tags room) (Some tags);;
  let answered := room in
  '(room, label, topic) <~ find_event (P := Room) messages;
  assert (ends_with ("/audiences/" ++ USR_AUDIENCE ++ "/events") topic);;
  assert_eq label "room.create";;
  assert_eq (room_audience room) USR_AUDIENCE;;
  assert_time room time;;
  assert_eq (room_tags room) (Some tags);;
  assert_eq (room_preserve_history room) false;;
  ret (cid, answered, room).

Definition an_hour_later (now : Z) : BoundedDateTimeTuple := (Included (now + hours 1), Excluded (now + hours 2)).
Definition unbounded_later (now : Z) : BoundedDateTimeTuple := (Included (now + hours 1), Unbounded).

Definition create_room : test unit := creates_room an_hour_later Minigroup;; ret tt.

Definition create_room_unbounded : test unit := creates_room unbounded_later P2P;; ret tt.

Definition create_room_unbounded_with_classroom_id : test unit :=
  '(cid, answered, notified) <~ creates_room unbounded_later Webinar;
  assert_eq (room_classroom_id answered) cid;;
  assert_eq (room_classroom_id notified) cid.

Definition create_room_not_authorized : test unit :=
  let agent := user in
  now <~ now_trunc;
  cid <~ new_v4;
  let payload := RoomCreateHandler.MkCreateRequest USR_AUDIENCE (an_hour_later now) None None cid Minigroup in
  assert_forbidden "Unexpected success on room creation" (handle_request nothing_allowed RoomCreate agent payload).

Definition create_room_invalid_time : test unit :=
  let agent := user in
  cid <~ new_v4;
  let payload := RoomCreateHandler.MkCreateRequest USR_AUDIENCE (Unbounded, Unbounded) None None cid Webinar in
  assert_fails "Unexpected success on room creation" (handle_request nothing_allowed RoomCreate agent payload)
    BAD_REQUEST "invalid_room_time".

(** ** [room.read] *)

Definition read_room : test unit :=
  room <~ insert_room;
  let agent := user in
  let context := may agent room "read" in
  messages <~ expect "Room reading failed" (handle_request context RoomRead agent (room_id room));
  '(resp_room, status) <~ find_response (P := Room) messages;
  assert_eq status OK;;
  assert_eq (room_audience resp_room) (room_audience room);;
  assert_eq (RoomDb.time resp_room) (RoomDb.time room);;
  assert_eq (room_tags resp_room) (room_tags room);;
  assert_eq (room_preserve_history resp_room) (room_preserve_history room).

Definition read_room_not_authorized : test unit :=
  let agent := user in
  room <~ insert_room;
  assert_forbidden "Unexpected success on room reading" (handle_request nothing_allowed RoomRead agent (room_id room)).

Definition read_room_missing : test unit :=
  let agent := user in
  id <~ new_v4;
  assert_fails "Unexpected success on room reading" (handle_request nothing_allowed RoomRead agent id)
    NOT_FOUND "room_not_found".

(** ** [room.update] *)

(** A room of the time. *)
Definition room_at (time : BoundedDateTimeTuple) : test Room :=
  id <~ new_v4;
  Factory.Room.insert
    (Factory.Room.new id Webinar
       |> Factory.Room.audience USR_AUDIENCE
       |> Factory.Room.time time).

(** The answer to the update of the room's time, by a user who may do it. *)
Definition update_time (room : Room) (time : BoundedDateTimeTuple) : M ErrorKind (list OutgoingEnvelope) :=
  let agent := user in
  let context := may agent room "update" in
  handle_request context RoomUpdate agent (RoomUpdateHandler.MkUpdateRequest (room_id room) (Some time) None None).

Definition update_room : test unit :=
  now <~ now_trunc;
  id <~ new_v4;
  room <~ Factory.Room.insert
    (Factory.Room.new id Webinar
       |> Factory.Room.audience USR_AUDIENCE
       |> Factory.Room.time (an_hour_later now)
       |> Factory.Room.tags webinar_tags);
  let agent := user in
  let context := may agent room "update" in
  let time := (Included (now + hours 2), Excluded (now + hours 3)) in
  let tags := obj [("webinar_id", JString "456789")] in
  let payload := RoomUpdateHandler.MkUpdateRequest (room_id room) (Some time) (Some tags) None in
  messages <~ expect "Room update failed" (handle_request context RoomUpdate agent payload);
  '(resp_room, status) <~ find_response (P := Room) messages;
  assert_eq status OK;;
  assert_eq (room_id resp_room) (room_id room);;
  assert_eq (room_audience resp_room) (room_audience room);;
  assert_time resp_room time;;
  assert_eq (room_tags resp_room) (Some tags).

Definition update_closed_at_in_open_room : test unit :=
  now <~ now_trunc;
  room <~ room_at (Included (now - hours 1), Excluded (now + hours 1));
  messages <~ expect "Room update failed" (update_time room (Included (now + hours 1), Excluded (now + hours 3)));
  '(resp_room, status) <~ find_response (P := Room) messages;
  assert_eq status OK;;
  assert_eq (room_id resp_room) (room_id room);;
  assert_eq (room_audience resp_room) (room_audience room);;
  assert_time resp_room (Included (now - hours 1), Excluded (now + hours 3)).

Definition update_closed_at_in_the_past_in_already_open_room : test unit :=
  now <~ now_trunc;
  room <~ room_at (Included (now - hours 2), Excluded (now + hours 2));
  messages <~ expect "Room update failed" (update_time room (Included (now - hours 2), Excluded (now - hours 1)));
  '(resp_room, status) <~ find_response (P := Room) messages;
  assert_eq status OK;;
  assert_eq (room_id resp_room) (room_id room);;
  assert_eq (room_audience resp_room) (room_audience room);;
  time <~ expect "time" (lift (RoomDb.time resp_room));
  assert_eq (rt_start time) (now - hours 2);;
  match rt_end time with
  | RtExcluded t => assert (Z.abs (Z.quot (t - now) nanos_per_sec) <? 2)%Z
  | RtUnbounded => fail "Expected Excluded bound"
  end;;
  found <~ find_event_by_predicate (P := Room) messages (fun label => bool_decide (label = "room.close"));
  '(ev_room, _, _) <~ expect_some "Failed to find room.close event" found;
  assert_eq (room_id ev_room) (room_id room).

Definition update_room_invalid_time : test unit :=
  now <~ now_trunc;
  room <~ room_at (an_hour_later now);
  assert_fails "Unexpected success on room update" (update_time room (Included (now + hours 1), Excluded (now - hours 2)))
    BAD_REQUEST "invalid_room_time".

Definition update_room_not_authorized : test unit :=
  let agent := user in
  room <~ insert_room;
  let payload := RoomUpdateHandler.MkUpdateRequest (room_id room) None None None in
  assert_forbidden "Unexpected success on room update" (handle_request nothing_allowed RoomUpdate agent payload).

Definition update_room_missing : test unit :=
  let agent := user in
  id <~ new_v4;
  let payload := RoomUpdateHandler.MkUpdateRequest id None None None in
  assert_fails "Unexpected success on room update" (handle_request nothing_allowed RoomUpdate agent payload)
    NOT_FOUND "room_not_found".

Definition update_room_closed : test unit :=
  let agent := user in
  room <~ insert_closed_room;
  now <~ now_trunc;
  let time := (Included (now - hours 2), Excluded (now - hours 1)) in
  let payload := RoomUpdateHandler.MkUpdateRequest (room_id room) (Some time) None None in
  assert_fails "Unexpected success on room update" (handle_request nothing_allowed RoomUpdate agent payload)
    NOT_FOUND "room_closed".

(** ** [room.enter] *)

Definition enter_room : test unit :=
  room <~ insert_room;
  let agent := user in
  let context := TestContext.expect_enter_room (may agent room "read") in
  messages <~ expect "Room entrance failed" (handle_request context RoomEnter agent (room_id room));
  assert_eq (length messages) 2%nat;;
  found <~ find_event_by_predicate (P := Payload) messages (fun label => bool_decide (label = "room.enter"));
  '(payload, _, _) <~ expect_some "called `Option::unwrap()` on a `None` value" found;
  match payload with
  | PRoomEnter id agent_id _ _ => assert_eq id (room_id room);; assert_eq agent_id agent
  | _ => fail "assertion failed"
  end;;
  find_response (P := Payload) messages;;
  ret tt.

Definition enter_room_not_authorized : test unit :=
  let agent := user in
  room <~ insert_room;
  assert_forbidden "Unexpected success on room entering" (handle_request nothing_allowed RoomEnter agent (room_id room)).

Definition enter_room_missing : test unit :=
  let agent := user in
  id <~ new_v4;
  assert_fails "Unexpected success on room entering" (handle_request nothing_allowed RoomEnter agent id)
    NOT_FOUND "room_not_found".

Definition enter_room_closed : test unit :=
  room <~ insert_closed_room;
  let agent := user in
  assert_fails "Unexpected success on room entering" (handle_request nothing_allowed RoomEnter agent (room_id room))
    NOT_FOUND "room_closed".

(** ** [room.adjust] *)

Definition adjust_room_not_authorized : test unit :=
  let agent := user in
  room <~ insert_room;
  started_at <~ now;
  let payload := RoomAdjustHandler.MkAdjustRequest (room_id room) started_at [] 0 in
  assert_forbidden "Unexpected success on room adjustment" (handle_request nothing_allowed RoomAdjust agent payload).

Definition adjust_room_missing : test unit :=
  let agent := user in
  id <~ new_v4;
  started_at <~ now;
  let payload := RoomAdjustHandler.MkAdjustRequest id started_at [] 0 in
  assert_fails "Unexpected success on room adjustment" (handle_request nothing_allowed RoomAdjust agent payload)
    NOT_FOUND "room_not_found".

(** ** [room.locked_types] *)

(** The response and the notification of a change of flags. *)
Definition assert_flags {K} `{Countable K} (flags_of : Room -> gmap K bool) (og_room : Room)
    (messages : list OutgoingEnvelope) (flags : list (K * option bool)) : test unit :=
  let assert_room room :=
    assert_eq (room_id og_room) (room_id room);;
    assert_eq (size (flags_of room)) 1%nat;;
    assert (forallb (fun p => bool_decide (flags_of room !! p.1 = p.2)) flags) in
  '(room, status) <~ find_response (P := Room) messages;
  assert_eq status OK;;
  assert_room room;;
  '(room, label, topic) <~ find_event (P := Room) messages;
  assert (ends_with (room_events_topic room) topic);;
  assert_eq label "room.update";;
  assert_room room.

Definition lock_types (context : TestContext) (agent : agent_id) (room : Room) (kind : string) (locked : bool)
    : M ErrorKind (list OutgoingEnvelope) :=
  handle_request context RoomLockedTypes agent (room_id room, {[kind := locked]}).

Definition lock_types_in_room : test unit :=
  let agent := user in
  room <~ room_with_agent insert_room agent;
  let context := may agent room "update" in
  messages <~ expect "Room types lock failed" (lock_types context agent room "message" true);
  assert_flags room_locked_types room messages [("message", Some true)].

Definition lock_multiple_types_in_room : test unit :=
  let agent := user in
  room <~ room_with_agent insert_room agent;
  let context := may agent room "update" in
  expect "Room types lock failed" (lock_types context agent room "message" true);;
  expect "Room types lock failed" (lock_types context agent room "document" true);;
  messages <~ expect "Room types lock failed" (lock_types context agent room "message" false);
  assert_flags room_locked_types room messages [("message", None); ("document", Some true)].

Definition lock_types_in_room_not_authorized : test unit :=
  let agent := user in
  room <~ room_with_agent insert_room agent;
  assert_forbidden "Unexpected success on lock types" (lock_types nothing_allowed agent room "message" true).

(** ** Access to the whiteboard *)

Definition give_access (context : TestContext) (agent : agent_id) (room : Room) (account : account_id) (access : bool)
    : M ErrorKind (list OutgoingEnvelope) :=
  handle_request context RoomWhiteboardAccess agent (room_id room, {[account := access]}).

Definition whiteboard_access : test unit :=
  let agent := user in
  room <~ room_with_agent insert_validating_whiteboard_access_room agent;
  let context := may agent room "update" in
  messages <~ expect "Room whiteboard access update failed" (give_access context agent room (agent_account agent) true);
  assert_flags room_whiteboard_access room messages [(agent_account agent, Some true)].

Definition whiteboard_access_for_multiple_accounts_in_room : test unit :=
  let teacher := TestAgent.new "web" "teacher" USR_AUDIENCE in
  let agent1 := TestAgent.new "web" "user123" USR_AUDIENCE in
  let agent2 := TestAgent.new "web" "user456" USR_AUDIENCE in
  room <~ room_with_agent insert_validating_whiteboard_access_room teacher;
  let context := may teacher room "update" in
  expect "Room whiteboard access update failed" (give_access context teacher room (agent_account agent1) true);;
  expect "Room whiteboard access update failed" (give_access context teacher room (agent_account agent2) true);;
  messages <~ expect "Room whiteboard access update failed"
    (give_access context teacher room (agent_account agent1) false);
  assert_flags room_whiteboard_access room messages
    [(agent_account agent1, None); (agent_account agent2, Some true)].

Definition whiteboard_access_in_room_not_authorized : test unit :=
  let agent := user in
  room <~ room_with_agent insert_validating_whiteboard_access_room agent;
  assert_forbidden "Unexpected success on whiteboard access update"
    (give_access nothing_allowed agent room (agent_account agent) true).

(** ** All of them *)

Definition tests : list (string * test unit) :=
  [("create_room", create_room); ("create_room_unbounded", create_room_unbounded);
   ("create_room_unbounded_with_classroom_id", create_room_unbounded_with_classroom_id);
   ("create_room_not_authorized", create_room_not_authorized);
   ("create_room_invalid_time", create_room_invalid_time);
   ("read_room", read_room); ("read_room_not_authorized", read_room_not_authorized);
   ("read_room_missing", read_room_missing); ("update_room", update_room);
   ("update_closed_at_in_open_room", update_closed_at_in_open_room);
   ("update_closed_at_in_the_past_in_already_open_room", update_closed_at_in_the_past_in_already_open_room);
   ("update_room_invalid_time", update_room_invalid_time);
   ("update_room_not_authorized", update_room_not_authorized);
   ("update_room_missing", update_room_missing); ("update_room_closed", update_room_closed);
   ("enter_room", enter_room); ("enter_room_not_authorized", enter_room_not_authorized);
   ("enter_room_missing", enter_room_missing); ("enter_room_closed", enter_room_closed);
   ("adjust_room_not_authorized", adjust_room_not_authorized); ("adjust_room_missing", adjust_room_missing);
   ("lock_types_in_room", lock_types_in_room); ("lock_multiple_types_in_room", lock_multiple_types_in_room);
   ("lock_types_in_room_not_authorized", lock_types_in_room_not_authorized);
   ("whiteboard_access", whiteboard_access);
   ("whiteboard_access_for_multiple_accounts_in_room", whiteboard_access_for_multiple_accounts_in_room);
   ("whiteboard_access_in_room_not_authorized", whiteboard_access_in_room_not_authorized)].
