(* ===== verification/StateTests.v ===== *)
(** * The tests of the states

    The tests of [src/src/app/endpoint/state.rs]. *)

From S2P Require Import Prelude Floats Times Types Db Schema CompactEvent EventDb SetState RoomDb EditionDb AgentDb Effects Errors Service EventEndpoint Router TestHelpers.
Import SharedHelpers.
#[local] Open Scope string_scope.

(** ** What the tests read of a state *)

(** The events of a set that is a collection, of a set that is an event. *)
Definition collection (key : string) (state : gmap string StateValue) : option (list Event) :=
  match state !! key with Some (Collection events) => Some events | _ => None end.
Definition single (key : string) (state : gmap string StateValue) : option Event :=
  match state !! key with Some (SingleEvent event) => Some event | _ => None end.

Record State : Type := MkState { messages : list Event; layout : Event }.

#[local] Instance state_payload : Deserialize State := fun p =>
  match p with
  | PState state =>
    match collection "messages" state, single "layout" state with
    | Some messages, Some layout => Some (MkState messages layout)
    | _, _ => None
    end
  | _ => None
  end.

Record CollectionState : Type := MkCollectionState { collection_messages : list Event; has_next : bool }.

#[local] Instance collection_state_payload : Deserialize CollectionState := fun p =>
  match p with
  | PState state =>
    match collection "messages" state, state !! "has_next" with
    | Some messages, Some (HasNext has_next) => Some (MkCollectionState messages has_next)
    | _, _ => None
    end
  | _ => None
  end.

Definition read_request (room_id : uuid) (sets : list string) (attribute : option string)
    (occurred_at original_occurred_at limit : option Z) : ReadRequest :=
  MkReadRequest room_id sets attribute occurred_at original_occurred_at limit.

(** The state of the set of messages, as the user reads it. *)
Definition read_messages (msg : string) (room : Room) (attribute : option string)
    (occurred_at original_occurred_at limit : option Z) : test CollectionState :=
  let agent := user in
  let payload := read_request (room_id room) ["messages"] attribute occurred_at original_occurred_at limit in
  messages <~ expect msg (handle_request (reader room agent) StateRead agent payload);
  '(state, status) <~ find_response (P := CollectionState) messages;
  assert_eq status OK;;
  ret state.

(** ** The tests *)

Definition read_state_multiple_sets : test unit :=
  let agent := user in
  room <~ insert_room;
  message_event <~ Factory.Event.insert
    (Factory.Event.new
       |> Factory.Event.room_id (room_id room)
       |> Factory.Event.kind "message"
       |> Factory.Event.set "messages"
       |> Factory.Event.label "message-1"
       |> Factory.Event.data (text "hello")
       |> Factory.Event.occurred_at 1000
       |> Factory.Event.created_by agent);
  layout_event <~ Factory.Event.insert
    (Factory.Event.new
       |> Factory.Event.room_id (room_id room)
       |> Factory.Event.kind "layout"
       |> Factory.Event.set "layout"
       |> Factory.Event.data (obj [("name", JString "presentation")])
       |> Factory.Event.occurred_at 2000
       |> Factory.Event.created_by agent);
  let payload := read_request (room_id room) ["messages"; "layout"] None None None None in
  answer <~ expect "State reading failed" (handle_request (reader room agent) StateRead agent payload);
  '(state, status) <~ find_response (P := State) answer;
  assert_eq status OK;;
  assert_eq (length (messages state)) 1%nat;;
  message <~ index (messages state) 0;
  assert_eq (event_id message) (event_id message_event);;
  assert_eq (event_id (layout state)) (event_id layout_event).

(** The version [i / 3 + 1] of the message [i % 3 + 1]. *)
Definition versioned_message (room : Room) (i : Z) : Factory.Event.t :=
  let number := print_number (PosInt (i mod 3 + 1)) in
  let version := print_number (PosInt (i / 3 + 1)) in
  Factory.Event.new
    |> Factory.Event.room_id (room_id room)
    |> Factory.Event.kind "message"
    |> Factory.Event.set "messages"
    |> Factory.Event.label ("message-" ++ number)
    |> Factory.Event.data (text ("message " ++ number ++ ", version " ++ version))
    |> Factory.Event.occurred_at (i * 1000)
    |> Factory.Event.created_by user.

Definition read_state_collection : test unit :=
  room <~ insert_room;
  db_events <~ insert_events (versioned_message room <$> [0; 1; 2; 3; 4; 5]);
  state <~ read_messages "State reading failed (page 1)" room None (Some 2001) None (Some 2);
  assert_eq (length (collection_messages state)) 2%nat;;
  message0 <~ index (collection_messages state) 0;
  message1 <~ index (collection_messages state) 1;
  db_event0 <~ index db_events 0;
  db_event1 <~ index db_events 1;
  db_event2 <~ index db_events 2;
  assert_eq (event_id message0) (event_id db_event2);;
  assert_eq (event_id message1) (event_id db_event1);;
  assert_eq (has_next state) true;;
  state <~ read_messages "State reading failed (page 2)" room None (Some 1)
             (Some (event_original_occurred_at message1)) (Some 2);
  assert_eq (length (collection_messages state)) 1%nat;;
  message0 <~ index (collection_messages state) 0;
  assert_eq (event_id message0) (event_id db_event0);;
  assert_eq (has_next state) false.

Definition read_state_collection_with_attribute_filter : test unit :=
  room <~ insert_room;
  insert_events ((fun i =>
    let factory := versioned_message room i in
    if (i mod 3 =? 0)%Z then factory |> Factory.Event.attribute "pinned" else factory) <$> [0; 1; 2; 3; 4; 5]);;
  state <~ read_messages "State reading failed" room (Some "pinned") None None None;
  assert_eq (length (collection_messages state)) 1%nat;;
  message0 <~ index (collection_messages state) 0;
  assert_eq (event_attribute message0) (Some "pinned").

(** The two tests have the same text. *)
Definition read_state_collection_with_occurred_at_filter : test unit := read_state_collection.

Definition read_state_pinned_messages : test unit :=
  room <~ insert_room;
  let base_message_factory :=
    Factory.Event.new
      |> Factory.Event.room_id (room_id room)
      |> Factory.Event.kind "message"
      |> Factory.Event.set "messages"
      |> Factory.Event.data (text "hello")
      |> Factory.Event.created_by user in
  Factory.Event.insert
    (base_message_factory |> Factory.Event.label "message-1" |> Factory.Event.occurred_at 1000);;
  let pinned_message_factory := base_message_factory |> Factory.Event.label "message-2" in
  Factory.Event.insert (pinned_message_factory |> Factory.Event.occurred_at 2000);;
  pinned_message <~ Factory.Event.insert
    (pinned_message_factory |> Factory.Event.occurred_at 3000 |> Factory.Event.attribute "pinned");
  let unpinned_message_factory := base_message_factory |> Factory.Event.label "message-3" in
  Factory.Event.insert (unpinned_message_factory |> Factory.Event.occurred_at 4000);;
  Factory.Event.insert
    (unpinned_message_factory |> Factory.Event.occurred_at 5000 |> Factory.Event.attribute "pinned");;
  Factory.Event.insert (unpinned_message_factory |> Factory.Event.occurred_at 6000);;
  state <~ read_messages "State reading failed" room (Some "pinned") None None None;
  assert_eq (length (collection_messages state)) 1%nat;;
  message0 <~ index (collection_messages state) 0;
  assert_eq (event_id message0) (event_id pinned_message).

Definition read_state_not_authorized : test unit :=
  let agent := user in
  room <~ insert_room;
  let payload := read_request (room_id room) ["messages"; "layout"] None None None None in
  assert_forbidden "Unexpected success reading state" (handle_request nothing_allowed StateRead agent payload).

Definition read_state_missing_room : test unit :=
  let agent := user in
  id <~ new_v4;
  let payload := read_request id ["messages"; "layout"] None None None None in
  assert_fails "Unexpected success reading state" (handle_request nothing_allowed StateRead agent payload)
    NOT_FOUND "room_not_found".

(** ** All of them *)

Definition tests : list (string * test unit) :=
  [("read_state_multiple_sets", read_state_multiple_sets); ("read_state_collection", read_state_collection);
   ("read_state_collection_with_attribute_filter", read_state_collection_with_attribute_filter);
   ("read_state_collection_with_occurred_at_filter", read_state_collection_with_occurred_at_filter);
   ("read_state_pinned_messages", read_state_pinned_messages);
   ("read_state_not_authorized", read_state_not_authorized);
   ("read_state_missing_room", read_state_missing_room)].
