(* ===== verification/AgentTests.v ===== *)
(** * The tests of agents, bans and subscriptions

    The tests of [src/src/app/endpoint/agent.rs], [src/src/app/endpoint/ban.rs],
    [src/src/app/endpoint/subscription.rs] and [src/src/app/endpoint/authz/mod.rs]. *)

From S2P Require Import Prelude Floats Times Types Db Schema CompactEvent EventDb RoomDb EditionDb AgentDb Effects Errors Service EventEndpoint AgentEndpoint Router TestHelpers.
Import SharedHelpers.
#[local] Open Scope string_scope.

Definition banned_user : agent_id := TestAgent.new "web" "user456" USR_AUDIENCE.

(** A room with the two agents online, of whom the second is banned. *)
Definition room_with_banned (agent banned_agent : agent_id) (reason : option string) : test Room :=
  room <~ room_with_agent insert_room agent;
  insert_agent banned_agent (room_id room);;
  expect "Failed to insert ban" (run (BanQueries.insert (agent_account banned_agent) (room_id room) reason));;
  ret room.

(** ** [agent.list] *)

Module AgentList.

Definition list_all (room_id : uuid) : AgentListHandler.ListRequest := AgentListHandler.MkListRequest room_id None None.

Definition list_agents : test unit :=
  let agent := user in
  let banned_agent := banned_user in
  room <~ room_with_banned agent banned_agent None;
  messages <~ expect "Agents listing failed"
    (handle_request (may agent room "read") AgentList agent (list_all (room_id room)));
  '(agents, status) <~ find_response (P := list AgentWithBan) messages;
  assert_eq status OK;;
  assert_eq (length agents) 2%nat;;
  agent1 <~ index agents 1;
  assert_eq (ag_agent_id (awb_agent agent1)) agent;;
  assert_eq (ag_room_id (awb_agent agent1)) (room_id room);;
  assert_eq (awb_banned agent1) (Some false);;
  agent0 <~ index agents 0;
  assert_eq (ag_agent_id (awb_agent agent0)) banned_agent;;
  assert_eq (ag_room_id (awb_agent agent0)) (room_id room);;
  assert_eq (awb_banned agent0) (Some true).

Definition list_agents_not_authorized : test unit :=
  let agent := user in
  room <~ insert_room;
  assert_forbidden "Unexpected success on agents listing"
    (handle_request nothing_allowed AgentList agent (list_all (room_id room))).

Definition list_agents_closed_room : test unit :=
  let agent := user in
  room <~ insert_closed_room;
  assert_fails "Unexpected success on agents listing"
    (handle_request (may agent room "read") AgentList agent (list_all (room_id room))) NOT_FOUND "room_closed".

Definition list_agents_missing_room : test unit :=
  let agent := user in
  id <~ new_v4;
  assert_fails "Unexpected success on agents listing" (handle_request nothing_allowed AgentList agent (list_all id))
    NOT_FOUND "room_not_found".

End AgentList.

(** ** [agent.update] *)

Module AgentUpdate.

(** A message of the user. *)
Definition message (room : Room) (data : string) : CreateRequest :=
  MkCreateRequest (room_id room)
    (MkCreatePayload "message" (Some "messages") (Some "message-1") None (text data) false true false).

(** [BanNotification], [TenantBanNotification]. *)
Record BanNotification : Type := MkBanNotification { bn_account_id : account_id; bn_banned : bool }.
#[local] Instance ban_notification_payload : Deserialize BanNotification := fun p =>
  match p with PBan account_id banned _ => Some (MkBanNotification account_id banned) | _ => None end.

Record TenantBanNotification : Type := MkTenantBanNotification {
  tb_room_id : uuid;
  tb_account_id : account_id;
  tb_banned_by : account_id;
  tb_banned : bool;
  tb_reason : option string
}.
#[local] Instance tenant_ban_notification_payload : Deserialize TenantBanNotification := fun p =>
  match p with
  | PTenantBan room_id account_id banned_by banned reason _ =>
    Some (MkTenantBanNotification room_id account_id banned_by banned reason)
  | _ => None
  end.

(** The notifications of a change of the ban of the user by the admin. *)
Definition assert_ban_notifications (messages : list OutgoingEnvelope) (room : Room) (user admin : agent_id)
    (banned : bool) : test TenantBanNotification :=
  found <~ find_event_by_predicate (P := BanNotification) messages
    (fun label => bool_decide (label = "agent.update"));
  '(ev_body, label, _) <~ expect_some "Failed to find agent.update event" found;
  assert_eq label "agent.update";;
  assert_eq (bn_account_id ev_body) (agent_account user);;
  assert_eq (bn_banned ev_body) banned;;
  found <~ find_event_by_predicate (P := TenantBanNotification) messages
    (fun label => bool_decide (label = "agent.ban"));
  '(ev_body, label, _) <~ expect_some "Failed to find agent.ban event" found;
  assert_eq label "agent.ban";;
  assert_eq (tb_account_id ev_body) (agent_account user);;
  assert_eq (tb_room_id ev_body) (room_id room);;
  assert_eq (tb_banned ev_body) banned;;
  assert_eq (tb_banned_by ev_body) (agent_account admin);;
  ret ev_body.

(** The admin changes the ban of the user. *)
Definition update_ban (context : TestContext) (room : Room) (admin user : agent_id) (value : bool)
    (reason : option string) : test (list OutgoingEnvelope) :=
  let payload := AgentUpdateHandler.MkUpdateRequest (room_id room) (agent_account user) value reason in
  messages <~ expect "Agent ban failed" (handle_request context AgentUpdate admin payload);
  '(_, status) <~ find_response (P := Payload) messages;
  assert_eq status OK;;
  ret messages.

(** The user posts a message. *)
Definition post (context : TestContext) (room : Room) (user : agent_id) (data : string) : test unit :=
  messages <~ expect "Event creation failed" (handle_request context EventCreate user (message room data));
  assert_eq (length messages) 2%nat;;
  '(_, status) <~ find_response (P := Event) messages;
  assert_eq status CREATED.

Definition find_ban (account : account_id) (room : Room) : test (option RoomBan) :=
  expect "Failed to query ban in db" (run (BanQueries.classroom_find account (room_classroom_id room))).

Definition ban_agent : test unit :=
  let user := TestAgent.new "web" "user" USR_AUDIENCE in
  let admin := TestAgent.new "web" "admin" USR_AUDIENCE in
  room <~ room_with_agent insert_unbounded_room user;
  insert_agent admin (room_id room);;
  let authz := DbBanTestAuthz.new test_db_ban_callback in
  let authz := authz |> DbBanTestAuthz.allow (agent_account admin)
    (classroom_object room ["claims"; "role"; "authors"; account_to_string (agent_account admin)]) "create" in
  let authz := authz |> DbBanTestAuthz.allow (agent_account user)
    (classroom_object room ["events"; "message"; "authors"; account_to_string (agent_account user)]) "create" in
  let context := TestContext.new_with_ban authz in
  post context room user "banmsg";;
  messages <~ update_ban context room admin user true (Some "some reason");
  ev_body <~ assert_ban_notifications messages room user admin true;
  found <~ find_ban (tb_account_id ev_body) room;
  db_ban <~ expect_some "Missing ban in db" found;
  assert_eq (ban_account_id db_ban) (agent_account user);;
  assert_eq (ban_room_id db_ban) (room_id room);;
  assert_eq (ban_reason db_ban) (Some "some reason");;
  update_ban context room admin user true None;;
  assert_forbidden "Unexpected success on event creation"
    (handle_request context EventCreate user (message room "hello"));;
  messages <~ update_ban context room admin user false None;
  ev_body <~ assert_ban_notifications messages room user admin false;
  assert_eq (tb_reason ev_body) None;;
  found <~ find_ban (tb_account_id ev_body) room;
  assert (is_none found);;
  post context room user "hello 2".

End AgentUpdate.

(** ** [ban.list] *)

Module BanList.

Definition list_bans : test unit :=
  let agent := user in
  let banned_agent := banned_user in
  room <~ room_with_banned agent banned_agent (Some "foobar");
  messages <~ expect "Bans listing failed" (handle_request (may agent room "update") BanList agent (room_id room));
  '(agents, status) <~ find_response (P := list RoomBan) messages;
  assert_eq status OK;;
  assert_eq (length agents) 1%nat;;
  agent0 <~ index agents 0;
  assert_eq (ban_account_id agent0) (agent_account banned_agent);;
  assert_eq (ban_reason agent0) (Some "foobar").

Definition list_bans_not_authorized : test unit :=
  let agent := user in
  room <~ insert_room;
  assert_forbidden "Unexpected success on agents listing"
    (handle_request (may agent room "read") BanList agent (room_id room)).

(** What is allowed is on an object that is not the room's. *)
Definition list_bans_closed_room : test unit :=
  let agent := user in
  room <~ insert_closed_room;
  let authz := TestAuthz.new
    |> TestAuthz.allow (agent_account agent) ["classrooms"; uuid_to_string (room_id room)] "update" in
  assert_fails "Unexpected success on agents listing"
    (handle_request (TestContext.new authz) BanList agent (room_id room)) NOT_FOUND "room_closed".

Definition list_bans_missing_room : test unit :=
  let agent := user in
  id <~ new_v4;
  assert_fails "Unexpected success on agents listing" (handle_request nothing_allowed BanList agent id)
    NOT_FOUND "room_not_found".

End BanList.

(** ** The end of a subscription *)

Module Subscription.

(** The broker tells that the agent's subscription to the room has ended. *)
Definition end_subscription (agent : agent_id) (room : Room) : test (list OutgoingEnvelope) :=
  let context := nothing_allowed in
  let payload := MkDeleteEventPayload agent ["rooms"; uuid_to_string (room_id room); "events"] in
  let broker := TestAgent.new "alpha" (acc_label (broker_id (config (tc_context context)))) SVC_AUDIENCE in
  expect "Subscription deletion failed" (handle_delete_event context broker payload).

(** [RoomLeaveEvent]. *)
#[local] Instance room_leave_payload : Deserialize (uuid * agent_id) := fun p =>
  match p with PRoomLeave id agent_id => Some (id, agent_id) | _ => None end.

Definition delete_subscription : test unit :=
  let agent := user in
  room <~ room_with_agent insert_room agent;
  messages <~ end_subscription agent room;
  '(payload, label, topic) <~ find_event (P := uuid * agent_id) messages;
  assert (ends_with (room_events_topic room) topic);;
  assert_eq label "room.leave";;
  assert_eq payload.1 (room_id room);;
  assert_eq payload.2 agent;;
  db_agents <~ expect "Failed to execute agent list query"
    (run (AgentQueries.list (Some agent) (Some (room_id room)) None));
  assert_eq (length db_agents) 0%nat.

Definition delete_subscription_missing_agent : test unit :=
  let agent := user in
  room <~ insert_room;
  messages <~ end_subscription agent room;
  assert_eq (length messages) 0%nat.

End Subscription.

(** ** Authorization *)

Module Authz.

Definition create_authz_obj : test unit :=
  assert_eq (to_ban_key (authz_object_new ["classrooms"])) None;;
  assert_eq
    (join "/" <$>
       to_ban_key (authz_object_new ["classrooms"; "123"; "events"; "whatever"; "authors"; "foobar.usr.foxford.ru"]))
    (Some "classrooms/123/events");;
  assert_eq (to_ban_key (authz_object_new ["classrooms"; "123"; "events"])) None.

Definition intent (classroom_id : uuid) : AuthzObject :=
  authz_object_new
    ["classrooms"; uuid_to_string classroom_id; "events"; "message"; "authors"; "account-id.audience"].

(** The agent is banned in the classroom; it is not in another one, and another
    agent is not. *)
Definition assert_banned (agent : agent_id) (classroom_id : uuid) : test unit :=
  let banned_obj := intent classroom_id in
  id <~ new_v4;
  let nonbanned_obj := intent id in
  x <~ db_ban_callback (agent_account agent) banned_obj;
  y <~ db_ban_callback (agent_account agent) nonbanned_obj;
  assert x;;
  assert (negb y);;
  let agent2 := TestAgent.new "web" "barbaz" USR_AUDIENCE in
  x <~ db_ban_callback (agent_account agent2) banned_obj;
  assert (negb x).

Definition ban_by_room_obj : test unit :=
  let agent := user in
  room <~ insert_unbounded_room;
  Factory.RoomBan.insert (Factory.RoomBan.new (agent_account agent) (room_id room));;
  assert_banned agent (room_classroom_id room).

Definition ban_by_classroom_obj : test unit :=
  let agent := user in
  classroom_id <~ new_v4;
  room <~ Factory.Room.insert
    (Factory.Room.new classroom_id Webinar
       |> Factory.Room.audience "foo.bar"
       |> Factory.Room.time (Unbounded, Unbounded));
  Factory.RoomBan.insert (Factory.RoomBan.new (agent_account agent) (room_id room));;
  assert_banned agent classroom_id.

End Authz.

(** ** All of them *)

Definition tests : list (string * test unit) :=
  [("list_agents", AgentList.list_agents);
   ("list_agents_not_authorized", AgentList.list_agents_not_authorized);
   ("list_agents_closed_room", AgentList.list_agents_closed_room);
   ("list_agents_missing_room", AgentList.list_agents_missing_room); ("ban_agent", AgentUpdate.ban_agent);
   ("list_bans", BanList.list_bans); ("list_bans_not_authorized", BanList.list_bans_not_authorized);
   ("list_bans_closed_room", BanList.list_bans_closed_room);
   ("list_bans_missing_room", BanList.list_bans_missing_room);
   ("delete_subscription", Subscription.delete_subscription);
   ("delete_subscription_missing_agent", Subscription.delete_subscription_missing_agent);
   ("create_authz_obj", Authz.create_authz_obj); ("ban_by_room_obj", Authz.ban_by_room_obj);
   ("ban_by_classroom_obj", Authz.ban_by_classroom_obj)].
