(* ===== verification/MaintenanceTests.v ===== *)
(** * The tests of dumps and of the vacuum

    The tests of [src/src/app/endpoint/room/dump_events.rs],
    [src/src/app/operations/dump_events_to_s3.rs], [src/src/app/operations/vacuum.rs]
    and [src/src/app/endpoint/system.rs]. *)

From S2P Require Import Prelude Floats Times Types Db Schema CompactEvent EventDb RoomDb EditionDb AgentDb Effects Errors Service RoomEndpoint Router TestHelpers.
Import SharedHelpers.
#[local] Open Scope string_scope.

(** ** [room.dump_events] *)

Module DumpTests.

Definition dump_events_not_authorized : test unit :=
  let agent := user in
  room <~ insert_room;
  assert_forbidden "Unexpected success on room dump"
    (handle_request nothing_allowed RoomDumpEvents agent (room_id room)).

Definition dump_events_room_missing : test unit :=
  let agent := user in
  id <~ new_v4;
  assert_fails "Unexpected success on room dump" (handle_request nothing_allowed RoomDumpEvents agent id)
    NOT_FOUND "room_not_found".

Definition dumper (agent : agent_id) : TestAuthz.t :=
  TestAuthz.new |> TestAuthz.allow (agent_account agent) ["classrooms"] "dump_events".

Definition dump_events_no_s3_client : test unit :=
  let agent := user in
  room <~ insert_room;
  assert_fails "Unexpected success on room dump"
    (handle_request (TestContext.new (dumper agent)) RoomDumpEvents agent (room_id room))
    NOT_IMPLEMENTED "no_s3_client".

(** [s3://eventsdump.{}.{}/{}.json]. *)
Definition s3_uri (room : Room) : string :=
  "s3://eventsdump." ++ ClassType_to_string (room_kind room) ++ "." ++ room_audience room ++ "/" ++
  uuid_to_string (room_id room) ++ ".json".

Definition dump_events : test unit :=
  let agent := user in
  room <~ insert_room;
  let context := TestContext.set_s3 (TestContext.new (dumper agent)) in
  messages <~ expect "Failed to dump room events" (handle_request context RoomDumpEvents agent (room_id room));
  assert_eq (length messages) 2%nat;;
  '(_, status) <~ find_response (P := Payload) messages;
  '(ev, label, _) <~ find_event (P := Payload) messages;
  assert_eq status ACCEPTED;;
  assert_eq label "room.dump_events";;
  match ev with
  | PDump _ _ (DumpSuccess id uri) => assert_eq id (room_id room);; assert_eq uri (s3_uri room)
  | _ => fail "assertion failed"
  end.

(** The operation itself. *)
Definition create_event (room : Room) (occurred_at : Z) (kind : string) (data : json) : test unit :=
  let created_by := AgentId (AccountId "test" USR_AUDIENCE) "test" in
  time <~ expect "Invalid room time" (lift (RoomDb.time room));
  query <~ expect "Failed to create insert query"
    (lift (EventDb.InsertQuery.new (room_id room) kind data occurred_at created_by));
  let query := query |> EventDb.InsertQuery.created_at (rt_start time + occurred_at)%Z in
  expect "Failed to insert event" (run (EventDb.InsertQuery.execute query));;
  ret tt.

Definition test_upload : test unit :=
  room <~ insert_room;
  create_event room 19000000000 "message" (obj [("message", JString "m9")]);;
  create_event room 20000000000 "stream" (obj [("cut", JString "stop")]);;
  create_event room 21000000000 "message" (obj [("message", JString "m11")]);;
  let context := TestContext.set_s3 nothing_allowed in
  uri <~ expect "No failure" (once (fun n w => DumpEvents.call room (in_context context n w) w));
  assert_eq uri (s3_uri room).

Definition s3_destination_test : test unit :=
  now <~ now_trunc;
  id <~ new_v4;
  room <~ Factory.Room.insert
    (Factory.Room.new id P2P
       |> Factory.Room.audience USR_AUDIENCE
       |> Factory.Room.time (Included now, Unbounded));
  assert_eq (DumpEvents.s3_bucket (DumpEvents.s3_destination room)) ("eventsdump.p2p." ++ room_audience room).

End DumpTests.

(** ** The vacuum *)

Module VacuumTests.

Definition insert_room (preserve_history : bool) : test Room :=
  now <~ now_trunc;
  id <~ new_v4;
  Factory.Room.insert
    (Factory.Room.new id Webinar
       |> Factory.Room.audience USR_AUDIENCE
       |> Factory.Room.time (Included now, Excluded (now + hours 1))
       |> Factory.Room.preserve_history preserve_history).

Definition minutes (n : Z) : Z := seconds (n * 60).

Definition build_event_factory (room : Room) (minutes_ago : Z) : test Factory.Event.t :=
  now <~ now;
  ret (Factory.Event.new
         |> Factory.Event.room_id (room_id room)
         |> Factory.Event.kind "test-draw"
         |> Factory.Event.set "page1"
         |> Factory.Event.label "drawing1"
         |> Factory.Event.occurred_at (10000000000000 - minutes_ago * 60000000000)
         |> Factory.Event.data (obj [])
         |> Factory.Event.created_at (now - minutes minutes_ago)
         |> Factory.Event.created_by user).

Definition insert_event (room : Room) (minutes_ago : Z) : test Event :=
  factory <~ build_event_factory room minutes_ago;
  Factory.Event.insert factory.

Definition insert_deleted_event (room : Room) (minutes_ago : Z) : test Event :=
  factory <~ build_event_factory room minutes_ago;
  Factory.Event.insert (factory |> Factory.Event.attribute "deleted").

Definition fetch_room_event_ids (room : Room) : test (list uuid) :=
  events <~ expect "Failed to list events" (run (ListQuery.execute (ListQuery.room_id (room_id room) ListQuery.new)));
  ret (event_id <$> events).

Definition contains (ids : list uuid) (event : Event) : bool := bool_decide (event_id event ∈ ids).

Definition vacuum_history : test unit :=
  let config := MkVacuumConfig 2 (seconds 3600) (seconds 1000000) in
  room1 <~ insert_room false;
  room2 <~ insert_room false;
  room3 <~ insert_room true;
  r1e1 <~ insert_event room1 70;
  r1e2 <~ insert_event room1 30;
  r2e1 <~ insert_event room2 3;
  r2e2 <~ insert_event room2 2;
  r2e3 <~ insert_event room2 1;
  r3e1 <~ insert_event room3 90;
  r3e2 <~ insert_event room3 3;
  r3e3 <~ insert_event room3 2;
  r3e4 <~ insert_event room3 1;
  expect "Vacuum failed" (Vacuum.call config);;
  r1_event_ids <~ fetch_room_event_ids room1;
  assert (negb (contains r1_event_ids r1e1));;
  assert (contains r1_event_ids r1e2);;
  r2_event_ids <~ fetch_room_event_ids room2;
  assert (negb (contains r2_event_ids r2e1));;
  assert (contains r2_event_ids r2e2);;
  assert (contains r2_event_ids r2e3);;
  r3_event_ids <~ fetch_room_event_ids room3;
  assert (forallb (contains r3_event_ids) [r3e1; r3e2; r3e3; r3e4]).

Definition vacuum_deleted : test unit :=
  let config := MkVacuumConfig 100 (seconds 1000000) (seconds 3600) in
  room1 <~ insert_room false;
  room2 <~ insert_room false;
  room3 <~ insert_room false;
  room4 <~ insert_room true;
  insert_event room1 75;;
  insert_deleted_event room1 70;;
  r2e1 <~ insert_event room2 55;
  r2e2 <~ insert_deleted_event room2 50;
  r3e1 <~ insert_event room3 100;
  r3e2 <~ insert_event room3 90;
  r3e3 <~ insert_event room3 10;
  r4e1 <~ insert_event room4 90;
  r4e2 <~ insert_deleted_event room4 80;
  expect "Vacuum failed" (Vacuum.call config);;
  r1_event_ids <~ fetch_room_event_ids room1;
  assert_eq (length r1_event_ids) 0%nat;;
  r2_event_ids <~ fetch_room_event_ids room2;
  assert (forallb (contains r2_event_ids) [r2e1; r2e2]);;
  r3_event_ids <~ fetch_room_event_ids room3;
  assert (forallb (contains r3_event_ids) [r3e1; r3e2; r3e3]);;
  r4_event_ids <~ fetch_room_event_ids room4;
  assert (forallb (contains r4_event_ids) [r4e1; r4e2]).

(** [system.vacuum]. *)
Definition vacuum : test unit :=
  let agent := TestAgent.new "alpha" "cron" SVC_AUDIENCE in
  let authz := TestAuthz.new |> TestAuthz.set_audience SVC_AUDIENCE in
  let authz := authz |> TestAuthz.allow (agent_account agent) ["system"] "update" in
  messages <~ expect "System vacuum failed" (handle_request (TestContext.new authz) SystemVacuum agent tt);
  '(payload, status) <~ find_response (P := Payload) messages;
  assert_eq status ACCEPTED;;
  match payload with PEmpty => ret tt | _ => fail "assertion failed" end.

Definition vacuum_unauthorized : test unit :=
  let agent := user in
  assert_fails "Unexpected success on system vacuum" (handle_request nothing_allowed SystemVacuum agent tt)
    FORBIDDEN "access_denied".

End VacuumTests.

(** ** All of them *)

Definition tests : list (string * test unit) :=
  [("dump_events_not_authorized", DumpTests.dump_events_not_authorized);
   ("dump_events_room_missing", DumpTests.dump_events_room_missing);
   ("dump_events_no_s3_client", DumpTests.dump_events_no_s3_client); ("dump_events", DumpTests.dump_events);
   ("test_upload", DumpTests.test_upload); ("s3_destination_test", DumpTests.s3_destination_test);
   ("vacuum_history", VacuumTests.vacuum_history); ("vacuum_deleted", VacuumTests.vacuum_deleted);
   ("vacuum", VacuumTests.vacuum); ("vacuum_unauthorized", VacuumTests.vacuum_unauthorized)].
