(* ===== verification/EditionTests.v ===== *)
(** * The tests of editions and changes

    The tests of [src/src/app/endpoint/edition/tests] and
    [src/src/app/endpoint/change/tests]. *)

From S2P Require Import Prelude Floats Times Types Db Schema CompactEvent EventDb RoomDb EditionDb AgentDb Effects Errors Service EditionEndpoint Router TestHelpers.
Import SharedHelpers.
#[local] Open Scope string_scope.

(** ** What many of them do *)

(** A room with an edition of the user. *)
Definition room_with_edition : test (Room * Edition) :=
  room <~ insert_room;
  edition <~ insert_edition room user;
  ret (room, edition).

(** The user's message number [i] of the room, in the set if there is one. *)
Definition numbered_message (room : Room) (set : option string) (i : Z) : Factory.Event.t :=
  let factory :=
    Factory.Event.new
      |> Factory.Event.room_id (room_id room)
      |> Factory.Event.kind "message"
      |> Factory.Event.data (text ("message " ++ print_number (PosInt i)))
      |> Factory.Event.occurred_at (i * 1000)
      |> Factory.Event.created_by user in
  match set with Some set => factory |> Factory.Event.set set | None => factory end.

Definition key_value : json := obj [("key", JString "value")].

(** ** [edition.create] *)

Module CreateEdition.

Definition create_edition : test unit :=
  let agent := user in
  room <~ insert_room;
  messages <~ expect "Failed to create edition"
    (handle_request (may agent room "update") EditionCreate agent (room_id room));
  '(edition, status) <~ find_response (P := Edition) messages;
  assert_eq status CREATED;;
  assert_eq (edition_source_room_id edition) (room_id room).

Definition create_edition_not_authorized : test unit :=
  let agent := user in
  room <~ insert_room;
  assert_forbidden "Unexpected success creating edition with no authorization"
    (handle_request nothing_allowed EditionCreate agent (room_id room)).

Definition create_edition_missing_room : test unit :=
  let agent := user in
  id <~ new_v4;
  assert_fails "Unexpected success creating edition for no room"
    (handle_request nothing_allowed EditionCreate agent id) NOT_FOUND "room_not_found".

End CreateEdition.

(** ** [edition.delete] *)

Module DeleteEdition.

Definition room_with_editions : test (Room * list Edition) :=
  room <~ insert_room;
  edition1 <~ insert_edition room user;
  edition2 <~ insert_edition room user;
  edition3 <~ insert_edition room user;
  ret (room, [edition1; edition2; edition3]).

Definition db_editions (room : Room) : test (list Edition) :=
  expect "Failed to fetch editions" (run (EditionQueries.list (EditionQueries.list_new (room_id room)))).

Definition delete_edition : test unit :=
  let agent := user in
  '(room, editions) <~ room_with_editions;
  edition0 <~ index editions 0;
  messages <~ expect "Failed to find deleted edition"
    (handle_request (may agent room "update") EditionDelete agent (edition_id edition0));
  '(resp_edition, status) <~ find_response (P := Edition) messages;
  assert_eq status OK;;
  assert_eq (edition_id resp_edition) (edition_id edition0);;
  db_editions <~ db_editions room;
  assert_eq (length db_editions) (length editions - 1)%nat.

Definition delete_edition_not_authorized : test unit :=
  let agent := user in
  '(room, editions) <~ room_with_editions;
  edition0 <~ index editions 0;
  assert_forbidden "Unexpected success without authorization on editions list"
    (handle_request nothing_allowed EditionDelete agent (edition_id edition0));;
  db_editions <~ db_editions room;
  assert_eq (length db_editions) (length editions).

Definition delete_editions_missing_room : test unit :=
  let agent := user in
  id <~ new_v4;
  assert_fails "Unexpected success listing editions for no room"
    (handle_request nothing_allowed EditionDelete agent id) NOT_FOUND "edition_not_found".

End DeleteEdition.

(** ** [edition.list] *)

Module ListEditions.

Definition list_all (room_id : uuid) : EditionListHandler.ListRequest :=
  EditionListHandler.MkListRequest room_id None None.

Definition list_editions : test unit :=
  let agent := user in
  '(room, edition) <~ room_with_edition;
  messages <~ expect "Failed to list editions"
    (handle_request (may agent room "update") EditionList agent (list_all (room_id room)));
  '(resp_editions, status) <~ find_response (P := list Edition) messages;
  assert_eq status OK;;
  assert_eq (length resp_editions) 1%nat;;
  resp_edition0 <~ index resp_editions 0;
  assert_eq (edition_id resp_edition0) (edition_id edition).

Definition list_editions_not_authorized : test unit :=
  let agent := user in
  '(room, _) <~ room_with_edition;
  assert_forbidden "Unexpected success without authorization on editions list"
    (handle_request nothing_allowed EditionList agent (list_all (room_id room))).

Definition list_editions_missing_room : test unit :=
  let agent := user in
  id <~ new_v4;
  assert_fails "Unexpected success listing editions for no room"
    (handle_request nothing_allowed EditionList agent (list_all id)) NOT_FOUND "room_not_found".

End ListEditions.

(** ** [edition.commit] *)

Module CommitEndpoint.

(** The change is made and the edition committed: the change, and the events of the
    room that comes of it. *)
Definition change_and_commit (room : Room) (edition : Edition) (changeset : Changeset)
    : test (Change * list Event) :=
  let agent := user in
  let context := may agent room "update" in
  let payload := ChangeCreateHandler.MkCreateRequest (edition_id edition) changeset in
  messages <~ expect "Failed to create change" (handle_request context ChangeCreate agent payload);
  '(change, status) <~ find_response (P := Change) messages;
  assert_eq status CREATED;;
  assert_eq (change_edition_id change) (edition_id edition);;
  assert_eq (change_kind change) (as_changetype changeset);;
  let payload := EditionCommitHandler.MkCommitRequest (edition_id edition) 0 in
  messages <~ expect "Failed to create edition" (handle_request context EditionCommit agent payload);
  '(_, status) <~ find_response (P := Payload) messages;
  assert_eq status ACCEPTED;;
  '(commit_notification, _, _) <~ find_event (P := Payload) messages;
  new_room_id <~ match commit_notification with
                 | PCommit _ _ (CommitSuccess _ committed_room_id _) => ret committed_room_id
                 | _ => fail "error in edition commit notification"
                 end;
  events <~ expect "Failed to fetch events" (run (ListQuery.execute (ListQuery.room_id new_room_id ListQuery.new)));
  ret (change, events).

(** A room of three messages, with an edition. *)
Definition room_of_messages : test (Room * Edition * list Event) :=
  '(room, edition) <~ room_with_edition;
  events <~ insert_events (numbered_message room (Some "set1") <$> [0; 1; 2]);
  ret (room, edition, events).

(** [for x in list { .. }]. *)
Fixpoint for_each {A} (f : A -> test unit) (l : list A) : test unit :=
  match l with
  | [] => ret tt
  | x :: l => f x;; for_each f l
  end.

Definition addition : test unit :=
  let agent := user in
  '(room, edition, original) <~ room_of_messages;
  let addition_event_data := text "modified message" in
  let changeset :=
    AdditionSet (MkAdditionData "added_kind" addition_event_data None (Some "added_label") 5000000 agent) in
  '(_, events) <~ change_and_commit room edition changeset;
  assert_eq (length events) 4%nat;;
  let original_at (ev : Event) :=
    list_first (fun e => bool_decide (event_occurred_at e = event_occurred_at ev)) original in
  for_each (fun ev =>
    match original_at ev with
    | Some event =>
      assert_eq (event_created_by ev) (event_created_by event);;
      assert_eq (event_data ev) (event_data event);;
      assert_eq (event_label ev) (event_label event);;
      assert_eq (event_kind ev) (event_kind event);;
      assert_eq (event_set ev) (event_set event)
    | None =>
      assert_eq (event_created_by ev) agent;;
      assert_eq (event_data ev) addition_event_data;;
      assert_eq (event_label ev) (Some "added_label");;
      assert_eq (event_kind ev) "added_kind";;
      assert_eq (event_occurred_at ev) 5000000
    end) events;;
  assert_eq (length (omap original_at events)) 3%nat.

Definition modification : test unit :=
  '(room, edition, original) <~ room_of_messages;
  modified_event <~ index original 1;
  let modified_event_data := text "modified message" in
  let changeset := ModificationSet
    (MkModificationData (event_id modified_event) None (Some modified_event_data) None (Some "new_label") None None) in
  '(_, events) <~ change_and_commit room edition changeset;
  assert_eq (length events) 3%nat;;
  for_each (fun ev =>
    if bool_decide (event_occurred_at ev = event_occurred_at modified_event) then
      assert_eq (event_data ev) modified_event_data;;
      assert_eq (event_label ev) (Some "new_label");;
      assert_eq (event_kind ev) (event_kind modified_event);;
      assert_eq (event_created_by ev) (event_created_by modified_event)
    else ret tt) events.

Definition removal : test unit :=
  '(room, edition, original) <~ room_of_messages;
  removed_event <~ index original 0;
  '(_, events) <~ change_and_commit room edition (RemovalSet (event_id removed_event));
  assert_eq (length events) 2%nat;;
  for_each (fun ev => assert (bool_decide (event_id ev ≠ event_id removed_event))) events.

Definition bulk_removal : test unit :=
  '(room, edition, _) <~ room_of_messages;
  insert_events (numbered_message room (Some "set2") <$> [0; 1; 2; 3; 4]);;
  '(change, events) <~ change_and_commit room edition (BulkRemovalSet "set2");
  assert_eq (change_event_set change) (Some "set2");;
  assert_eq (length events) 3%nat;;
  for_each (fun ev => assert_eq (event_set ev) "set1";; assert_eq (event_kind ev) "message") events.

End CommitEndpoint.

(** ** [change.create] *)

Module CreateChange.

Definition create_request (edition : Edition) (changeset : Changeset) : ChangeCreateHandler.CreateRequest :=
  ChangeCreateHandler.MkCreateRequest (edition_id edition) changeset.

(** The change that answers the request. *)
Definition create_change (room : Room) (edition : Edition) (changeset : Changeset) : test Change :=
  let agent := user in
  messages <~ expect "Failed to create change"
    (handle_request (may agent room "update") ChangeCreate agent (create_request edition changeset));
  '(change, status) <~ find_response (P := Change) messages;
  assert_eq status CREATED;;
  assert_eq (change_edition_id change) (edition_id edition);;
  ret change.

Definition something : Changeset := AdditionSet (MkAdditionData "something" key_value (Some "type") None 0 user).

Definition create_addition_change : test unit :=
  '(room, edition) <~ room_with_edition;
  change <~ create_change room edition something;
  assert_eq (change_kind change) Addition;;
  assert_eq (change_event_data change) (Some key_value).

Definition create_removal_change : test unit :=
  '(room, edition) <~ room_with_edition;
  events <~ insert_events (numbered_message room None <$> [1; 2; 3]);
  event0 <~ index events 0;
  change <~ create_change room edition (RemovalSet (event_id event0));
  assert_eq (change_kind change) Removal;;
  assert_eq (change_event_id change) (Some (event_id event0)).

Definition create_modification_change : test unit :=
  '(room, edition) <~ room_with_edition;
  events <~ insert_events (numbered_message room None <$> [1; 2; 3]);
  event0 <~ index events 0;
  change <~ create_change room edition (ModificationSet
    (MkModificationData (event_id event0) (Some "something") (Some key_value) (Some "type") None (Some 0) (Some user)));
  assert_eq (change_kind change) Modification;;
  assert_eq (change_event_id change) (Some (event_id event0));;
  assert_eq (change_event_data change) (Some key_value).

Definition create_change_with_improper_event_id : test unit :=
  let agent := user in
  '(room, edition) <~ room_with_edition;
  id <~ new_v4;
  assert_fails "Unexpected success creating change with wrong params"
    (handle_request (may agent room "update") ChangeCreate agent (create_request edition (RemovalSet id)))
    UNPROCESSABLE_ENTITY "database_query_failed".

Definition create_change_not_authorized : test unit :=
  let agent := user in
  '(_, edition) <~ room_with_edition;
  assert_forbidden "Unexpected success creating change with no authorization"
    (handle_request nothing_allowed ChangeCreate agent (create_request edition something)).

Definition create_change_missing_edition : test unit :=
  let agent := user in
  id <~ new_v4;
  assert_fails "Unexpected success creating change for no edition"
    (handle_request nothing_allowed ChangeCreate agent (ChangeCreateHandler.MkCreateRequest id something))
    NOT_FOUND "edition_not_found".

Definition create_bulk_removal_change : test unit :=
  '(room, edition) <~ room_with_edition;
  insert_events (numbered_message room (Some "set1") <$> [1; 2; 3]);;
  insert_events (numbered_message room (Some "set2") <$> [1]);;
  change <~ create_change room edition (BulkRemovalSet "set2");
  assert_eq (change_kind change) BulkRemoval;;
  assert_eq (change_event_set change) (Some "set2").

End CreateChange.

(** ** [change.delete] and [change.list] *)

Module Changes.

(** A modification of each event. *)
Fixpoint insert_changes (edition : Edition) (events : list Event) : test (list Change) :=
  match events with
  | [] => ret []
  | event :: events =>
    change <~ Factory.Change.insert
      (Factory.Change.new (edition_id edition) Modification
         |> Factory.Change.event_id (event_id event)
         |> Factory.Change.event_data key_value);
    changes <~ insert_changes edition events;
    ret (change :: changes)
  end.

(** The user's messages from 1 to [n], each with a change. *)
Definition edition_of_changes (n : nat) : test (Room * Edition * list Change) :=
  '(room, edition) <~ room_with_edition;
  events <~ insert_events ((fun i => numbered_message room None (Z.of_nat i)) <$> seq 1 n);
  changes <~ insert_changes edition events;
  ret (room, edition, changes).

Definition db_changes (edition : Edition) : test (list Change) :=
  expect "Couldn't load changes from db" (run (ChangeQueries.list (ChangeQueries.list_new (edition_id edition)))).

Definition delete_change : test unit :=
  let agent := user in
  '(room, edition, changes) <~ edition_of_changes 14;
  change0 <~ index changes 0;
  messages <~ expect "Failed to list editions"
    (handle_request (may agent room "update") ChangeDelete agent (change_id change0));
  '(_, status) <~ find_response (P := Change) messages;
  assert_eq status OK;;
  db_changes <~ db_changes edition;
  assert_eq (length db_changes) (length changes - 1)%nat.

Definition delete_change_not_authorized : test unit :=
  let agent := user in
  '(_, edition, changes) <~ edition_of_changes 14;
  change0 <~ index changes 0;
  assert_forbidden "Unexpected success deleting change without authorization"
    (handle_request nothing_allowed ChangeDelete agent (change_id change0));;
  db_changes <~ db_changes edition;
  assert_eq (length db_changes) (length changes).

Definition delete_change_with_wrong_uuid : test unit :=
  let agent := user in
  '(room, edition, changes) <~ edition_of_changes 14;
  id <~ new_v4;
  assert_fails "Failed to list changes" (handle_request (may agent room "update") ChangeDelete agent id)
    NOT_FOUND "change_not_found";;
  db_changes <~ db_changes edition;
  assert_eq (length db_changes) (length changes).

Definition list_all (edition_id : uuid) : ChangeListHandler.ListRequest :=
  ChangeListHandler.MkListRequest edition_id None None.

Definition list_changes : test unit :=
  let agent := user in
  '(room, edition, changes) <~ edition_of_changes 34;
  messages <~ expect "Failed to list changes"
    (handle_request (may agent room "update") ChangeList agent (list_all (edition_id edition)));
  '(response_changes, status) <~ find_response (P := list Change) messages;
  assert_eq status OK;;
  assert_eq (length response_changes) 25%nat;;
  response_change0 <~ index response_changes 0;
  assert (bool_decide (change_id response_change0 ∈ change_id <$> changes)).

Definition list_changes_not_authorized : test unit :=
  let agent := user in
  '(_, edition, _) <~ edition_of_changes 34;
  assert_forbidden "Unexpected success without authorization on changes list"
    (handle_request nothing_allowed ChangeList agent (list_all (edition_id edition))).

Definition list_changes_missing_edition : test unit :=
  let agent := user in
  id <~ new_v4;
  assert_fails "Unexpected success listing changes for no edition"
    (handle_request nothing_allowed ChangeList agent (list_all id)) NOT_FOUND "edition_not_found".

End Changes.

(** ** All of them *)

Definition tests : list (string * test unit) :=
  [("create_edition", CreateEdition.create_edition);
   ("create_edition_not_authorized", CreateEdition.create_edition_not_authorized);
   ("create_edition_missing_room", CreateEdition.create_edition_missing_room);
   ("delete_edition", DeleteEdition.delete_edition);
   ("delete_edition_not_authorized", DeleteEdition.delete_edition_not_authorized);
   ("delete_editions_missing_room", DeleteEdition.delete_editions_missing_room);
   ("list_editions", ListEditions.list_editions);
   ("list_editions_not_authorized", ListEditions.list_editions_not_authorized);
   ("list_editions_missing_room", ListEditions.list_editions_missing_room);
   ("addition", CommitEndpoint.addition); ("modification", CommitEndpoint.modification);
   ("removal", CommitEndpoint.removal); ("bulk_removal", CommitEndpoint.bulk_removal);
   ("create_addition_change", CreateChange.create_addition_change);
   ("create_removal_change", CreateChange.create_removal_change);
   ("create_modification_change", CreateChange.create_modification_change);
   ("create_change_with_improper_event_id", CreateChange.create_change_with_improper_event_id);
   ("create_change_not_authorized", CreateChange.create_change_not_authorized);
   ("create_change_missing_edition", CreateChange.create_change_missing_edition);
   ("create_bulk_removal_change", CreateChange.create_bulk_removal_change);
   ("delete_change", Changes.delete_change);
   ("delete_change_not_authorized", Changes.delete_change_not_authorized);
   ("delete_change_with_wrong_uuid", Changes.delete_change_with_wrong_uuid);
   ("list_changes", Changes.list_changes); ("list_changes_not_authorized", Changes.list_changes_not_authorized);
   ("list_changes_missing_edition", Changes.list_changes_missing_edition)].
