(* ===== verification/AdjustTests.v ===== *)
(** * The tests of the adjustment of a room

    The tests of [src/src/app/operations/adjust_room.rs]. *)

From S2P Require Import Prelude Intervals Floats Times Types Db Schema CompactEvent EventDb RoomDb EditionDb AgentDb Effects AdjustRoom Errors Service TestHelpers.
Import SharedHelpers.
#[local] Open Scope string_scope.

(** ** [TestCtx] *)

Definition AUDIENCE : string := "dev.svc.example.org".

Inductive TestCtxState : Type :=
  | Initialized
  | SegmentsSet (rtc_started_at : Z) (segments : Segments) (duration offset : Z)
  | Ran (rtc_started_at : Z) (segments : Segments) (duration offset : Z) (original_room modified_room : Room)
      (modified_segments cut_original_segments : Segments).

Record TestCtx : Type := MkTestCtx { room : Room; opened_at : Z; state : TestCtxState }.

(** Seconds and milliseconds. *)
Definition s (n : Z) : Z := seconds n.

(** What an event is asserted to be: when it occurred, its kind and its data. *)
Abbreviation expected := (Z * string * json)%type.

Definition message (occurred_at : Z) (text : string) : expected := (occurred_at, "message", obj [("message", JString text)]).
Definition stream (occurred_at : Z) (cut : string) : expected := (occurred_at, "stream", obj [("cut", JString cut)]).
Definition break (occurred_at : Z) (value : bool) : expected := (occurred_at, "break", obj [("value", JBool value)]).
Definition video_group (occurred_at : Z) (state : string) : expected :=
  (occurred_at, "video_group", obj [("video_group", JString state)]).

Section Ctx.
Context (ctx : TestCtx).

(** [create_event_f]. *)
Definition create_event_f (event : expected) (f : EventDb.InsertQuery.t -> EventDb.InsertQuery.t) : test unit :=
  let '(occurred_at, kind, data) := event in
  let created_by := AgentId (AccountId "test" AUDIENCE) "test" in
  time <~ expect "Invalid room time" (lift (RoomDb.time (room ctx)));
  q <~ expect "Failed to create insert query"
    (lift (EventDb.InsertQuery.new (room_id (room ctx)) kind data occurred_at created_by));
  let q := EventDb.InsertQuery.created_at (rt_start time + occurred_at)%Z q in
  expect "Failed to insert event" (run (EventDb.InsertQuery.execute (f q)));;
  ret tt.

Definition create_event (event : expected) : test unit := create_event_f event (fun q => q).

Definition create_event_with_attribute (event : expected) (attribute : option string) : test unit :=
  create_event_f event (fun q =>
    match attribute with Some p => EventDb.InsertQuery.attribute p q | None => q end).

Fixpoint create_events (events : list expected) : test unit :=
  match events with
  | [] => ret tt
  | event :: events => create_event event;; create_events events
  end.

(** [set_segments]; [offset] is in seconds. *)
Definition set_segments (segments : list (Z * Z)) (rtc_started_at offset : Z) : test TestCtx :=
  match state ctx with
  | Initialized =>
    let duration := foldl (fun acc r => acc + r.2 - r.1)%Z 0%Z segments in
    let segments := (fun r => (Included r.1, Excluded r.2)) <$> segments in
    ret (MkTestCtx (room ctx) (opened_at ctx)
           (SegmentsSet rtc_started_at segments (milliseconds duration) (seconds offset)))
  | _ => fail "assertion failed"
  end.

(** The state after the run. *)
Definition ran : test (Z * Z * Room * Room * Segments * Segments) :=
  match state ctx with
  | Ran rtc_started_at _ duration _ original_room modified_room modified_segments cut_original_segments =>
    ret (rtc_started_at, duration, original_room, modified_room, modified_segments, cut_original_segments)
  | _ => fail "Wrong state"
  end.

Definition get_modified_room : test Room := '(_, _, _, modified_room, _, _) <~ ran; ret modified_room.

Definition room_asserts : test unit :=
  '(started_at, duration, original_room, modified_room, _, _) <~ ran;
  let room := room ctx in
  assert_eq (room_source_room_id original_room) (Some (room_id room));;
  assert_eq (room_audience original_room) (room_audience room);;
  original_time <~ expect "time" (lift (RoomDb.time original_room));
  assert_eq (rt_start original_time) started_at;;
  assert_eq (rt_end original_time) (RtExcluded (started_at + duration)%Z);;
  assert_eq (room_tags original_room) (room_tags room);;
  assert_eq (room_classroom_id original_room) (room_classroom_id room);;
  assert_eq (room_source_room_id modified_room) (Some (room_id original_room));;
  assert_eq (room_audience modified_room) (room_audience original_room);;
  modified_time <~ expect "time" (lift (RoomDb.time modified_room));
  assert_eq modified_time original_time;;
  assert_eq (room_tags modified_room) (room_tags original_room);;
  assert_eq (room_classroom_id modified_room) (room_classroom_id room).

Definition assert_event (event : Event) (expected : expected) : bool :=
  let '(occurred_at, kind, data) := expected in
  bool_decide (event_kind event = kind) && bool_decide (event_data event = data)
  && bool_decide (event_occurred_at event = occurred_at).

Definition bounds (segments : list (Z * Z)) : Segments := (fun r => (Included r.1, Excluded r.2)) <$> segments.

Definition assert_modified_segments (segments_assert : list (Z * Z)) : test unit :=
  '(_, _, _, _, modified_segments, _) <~ ran;
  assert_eq modified_segments (bounds segments_assert).

Definition assert_cut_original_segments (segments_assert : list (Z * Z)) : test unit :=
  '(_, _, _, _, _, cut_original_segments) <~ ran;
  assert_eq cut_original_segments (bounds segments_assert).

(** The events of the modified room. *)
Definition modified_events (f : ListQuery.t -> ListQuery.t) : test (list Event) :=
  modified_room <~ get_modified_room;
  expect "Failed to fetch original room events"
    (run (ListQuery.execute (f (ListQuery.room_id (room_id modified_room) ListQuery.new)))).

Definition events_asserts (asserts : list expected) (segments_assert : list (Z * Z)) : test unit :=
  events <~ modified_events (fun q => q);
  assert_eq (length events) (length asserts);;
  assert (forallb (fun p => assert_event p.1 p.2) (zip events asserts));;
  assert_modified_segments segments_assert.

End Ctx.

Definition opened : Z := seconds 1582002673.

(** [TestCtx::new]. *)
Definition new_ctx (events : list expected) : test TestCtx :=
  id <~ new_v4;
  room <~ expect "Failed to insert room"
    (run (RoomDb.InsertQuery.execute (RoomDb.InsertQuery.new AUDIENCE (Included opened, Unbounded) id Minigroup)));
  let ctx := MkTestCtx room opened Initialized in
  create_events ctx events;;
  ret ctx.

(** [run]: the adjustment, and what it says of the rooms. *)
Definition run_ctx (ctx : TestCtx) : test TestCtx :=
  match state ctx with
  | SegmentsSet rtc_started_at segments duration offset =>
    out <~ expect "Room adjustment failed"
      (AdjustRoom.call (room ctx) rtc_started_at segments (num_milliseconds offset) (seconds 1));
    let ctx := MkTestCtx (room ctx) (opened_at ctx)
      (Ran rtc_started_at segments duration offset (original_room out) (modified_room out) (modified_segments out)
         (cut_original_segments out)) in
    room_asserts ctx;;
    ret ctx
  | _ => fail "Wrong state"
  end.

(** The room of the events, adjusted to the segments, which start [delay] seconds
    after the opening. *)
Definition adjusted (events : list expected) (segments : list (Z * Z)) (delay offset : Z) : test TestCtx :=
  ctx <~ new_ctx events;
  ctx <~ set_segments ctx segments (opened_at ctx + s delay)%Z offset;
  run_ctx ctx.

(** ** The tests *)

#[local] Open Scope Z_scope.

Definition adjust_room_test_1 : test unit :=
  ctx <~ adjusted [message (s 1) "m1"; message (s 12) "m2"] [(0, 20000)] 0 0;
  events_asserts ctx [message (s 1) "m1"; message (s 12) "m2"] [(0, 20000)].

Definition adjust_room_test_2 : test unit :=
  ctx <~ adjusted [message (s 1) "m1"; message (s 12) "m2"] [(0, 20000)] 0 3;
  events_asserts ctx [message (s 4) "m1"; message (s 15) "m2"] [(0, 20000)].

Definition adjust_room_test_3 : test unit :=
  ctx <~ adjusted [message (s 1) "m1"; message (s 21) "m2"] [(0, 20000)] 0 0;
  events_asserts ctx [message (s 1) "m1"; message (s 20) "m2"] [(0, 20000)].

Definition adjust_room_test_4 : test unit :=
  ctx <~ adjusted [message (s 1) "m1"; message (s 15) "m2"] [(0, 20000)] 10 0;
  events_asserts ctx [message 0 "m1"; message (s 5) "m2"] [(0, 20000)].

Definition adjust_room_test_5 : test unit :=
  ctx <~ adjusted [message (s 1) "m1"; message (s 15) "m2"; message (s 35) "m3"] [(0, 20000)] 10 3;
  events_asserts ctx [message (s 3) "m1"; message (s 8) "m2"; message (s 23) "m3"] [(0, 20000)].

Definition two_streams_events : list expected :=
  [message (s 1) "m1"; message (s 15) "m2"; message (s 22) "m3"; message (s 23) "m4"; message (s 28) "m5";
   message (s 36) "m6"].

Definition adjust_room_test_6 : test unit :=
  ctx <~ adjusted two_streams_events [(0, 20000); (26000, 34000)] 0 0;
  events_asserts ctx
    [message (s 1) "m1"; message (s 15) "m2"; message (s 20) "m3"; message (s 20 + 1) "m4"; message (s 22) "m5";
     message (s 28) "m6"] [(0, 28000)].

Definition adjust_room_test_7 : test unit :=
  ctx <~ adjusted two_streams_events [(0, 20000); (26000, 34000)] 0 3;
  events_asserts ctx
    [message (s 4) "m1"; message (s 18) "m2"; message (s 23) "m3"; message (s 23 + 1) "m4"; message (s 25) "m5";
     message (s 31) "m6"] [(0, 28000)].

Definition single_cut_events : list expected :=
  [message (s 1) "m1"; stream (s 10) "start"; message (s 12) "m2"; stream (s 13) "stop"; message (s 15) "m3"].

Definition adjust_room_test_8 : test unit :=
  ctx <~ adjusted single_cut_events [(0, 20000)] 0 0;
  events_asserts ctx [message (s 1) "m1"; message (s 10) "m2"; message (s 12) "m3"] [(0, 10000); (13000, 20000)].

Definition cut_before_events : list expected :=
  [stream (s 1) "start"; message (s 3) "m1"; message (s 6) "m1a"; stream (s 7) "stop"; message (s 9) "m2";
   message (s 12) "m3"; message (s 15) "m4"].

Definition adjust_room_test_9 : test unit :=
  ctx <~ adjusted cut_before_events [(0, 20000)] 10 0;
  events_asserts ctx
    [message 0 "m1"; message 1 "m1a"; message 2 "m2"; message (s 2) "m3"; message (s 5) "m4"] [(0, 20000)].

Definition adjust_room_test_10 : test unit :=
  ctx <~ adjusted cut_before_events [(0, 20000)] 10 3;
  events_asserts ctx
    [message (s 3) "m1"; message (s 3 + 1) "m1a"; message (s 3 + 2) "m2"; message (s 5) "m3"; message (s 8) "m4"]
    [(0, 20000)].

Definition two_cuts_events : list expected :=
  [stream (s 1) "start"; message (s 3) "m1"; stream (s 12) "stop"; message (s 13) "m2"; stream (s 14) "start";
   message (s 15) "m3"; stream (s 17) "stop"; message (s 19) "m4"].

Definition adjust_room_test_11 : test unit :=
  ctx <~ adjusted two_cuts_events [(0, 20000)] 10 0;
  events_asserts ctx [message 0 "m1"; message (s 1) "m2"; message (s 2) "m3"; message (s 4) "m4"]
    [(2000, 4000); (7000, 20000)].

Definition adjust_room_test_12 : test unit :=
  ctx <~ adjusted two_cuts_events [(0, 20000)] 10 3;
  events_asserts ctx [message (s 3) "m1"; message (s 4) "m2"; message (s 5) "m3"; message (s 7) "m4"]
    [(2000, 4000); (7000, 20000)].

Definition cut_over_gap_events : list expected :=
  [message (s 3) "m1"; stream (s 18) "start"; message (s 19) "m2"; message (s 22) "m3"; message (s 29) "m4";
   stream (s 31) "stop"; message (s 33) "m5"].

Definition adjust_room_test_14 : test unit :=
  ctx <~ adjusted cut_over_gap_events [(0, 20000); (28000, 34000)] 0 0;
  events_asserts ctx
    [message (s 3) "m1"; message (s 18) "m2"; message (s 18 + 1) "m3"; message (s 18 + 2) "m4"; message (s 20) "m5"]
    [(0, 18000); (23000, 26000)].

Definition adjust_room_test_15 : test unit :=
  ctx <~ adjusted cut_over_gap_events [(0, 20000); (28000, 34000)] 0 3;
  events_asserts ctx
    [message (s 6) "m1"; message (s 21) "m2"; message (s 21 + 1) "m3"; message (s 21 + 2) "m4"; message (s 23) "m5"]
    [(0, 18000); (23000, 26000)].

Definition adjust_room_test_16 : test unit :=
  ctx <~ adjusted
    [message (s 1) "m1"; stream (s 10) "start"; message (s 12) "m2"; stream (s 25) "stop"; message (s 27) "m3"]
    [(0, 20000)] 0 0;
  events_asserts ctx [message (s 1) "m1"; message (s 10) "m2"; message (s 10 + 1) "m3"] [(0, 10000)].

Definition adjust_room_test_my : test unit :=
  ctx <~ adjusted single_cut_events [(0, 10000); (13000, 20000)] 0 0;
  events_asserts ctx [message (s 1) "m1"; message (s 10) "m2"; message (s 12) "m3"] [(0, 10000); (10000, 17000)];;
  assert_cut_original_segments ctx [(0, 10000); (13000, 20000)].

Definition adjust_room_test_my2 : test unit :=
  ctx <~ adjusted [stream (s 21) "start"; stream (s 24) "stop"] [(0, 10000); (13000, 20000)] 10 0;
  events_asserts ctx [] [(0, 10000); (11000, 17000)];;
  assert_cut_original_segments ctx [(0, 10000); (14000, 20000)].

Definition adjust_room_test_pin : test unit :=
  ctx <~ new_ctx [message (s 1) "m1"];
  create_event_with_attribute ctx (message (s 2) "m1") (Some "pinned"%string);;
  ctx <~ set_segments ctx [(0, 10000)] (opened_at ctx) 0;
  ctx <~ run_ctx ctx;
  events_asserts ctx [message (s 1) "m1"; message (s 2) "m1"] [(0, 10000)];;
  assert_cut_original_segments ctx [(0, 10000)];;
  events <~ modified_events ctx (ListQuery.attribute "pinned");
  assert_eq (length events) 1%nat.

Definition adjust_room_test_removed : test unit :=
  ctx <~ new_ctx [];
  create_event_f ctx (message (s 1) "m1") (EventDb.InsertQuery.removed true);;
  ctx <~ set_segments ctx [(0, 10000)] (opened_at ctx) 0;
  ctx <~ run_ctx ctx;
  events_asserts ctx [message (s 1) "m1"] [(0, 10000)];;
  assert_cut_original_segments ctx [(0, 10000)];;
  events <~ modified_events ctx (fun q => q);
  assert_eq (length events) 1%nat;;
  event0 <~ index events 0;
  assert_eq (event_removed event0) true.

Definition adjust_room_test_break_event_as_stream_cut : test unit :=
  ctx <~ adjusted
    [message (s 1) "m0"; break (s 3) false; message (s 5) "m1"; break (s 10) true; message (s 12) "m2";
     break (s 13) false; message (s 15) "m3"] [(0, 10000); (13000, 20000)] 0 0;
  assert_modified_segments ctx [(3000, 10000); (10000, 17000)];;
  assert_cut_original_segments ctx [(3000, 10000); (13000, 20000)].

Definition adjust_room_test_video_group_event_as_stream_cut : test unit :=
  ctx <~ adjusted
    [message (s 1) "m1"; video_group (s 11) "created"; message (s 12) "m2"; video_group (s 13) "deleted";
     message (s 14) "m3"] [(0, 20000)] 0 0;
  assert_modified_segments ctx [(0, 11000); (13000, 20000)];;
  assert_cut_original_segments ctx [(0, 11000); (13000, 20000)].

Definition adjust_room_test_break_and_video_group_events_as_stream_cut : test unit :=
  ctx <~ adjusted
    [message (s 1) "m0"; break (s 3) false; message (s 5) "m1"; video_group (s 7) "created"; message (s 10) "m2";
     video_group (s 11) "updated"; message (s 12) "m3"; video_group (s 13) "deleted"; message (s 15) "m4"]
    [(0, 20000)] 0 0;
  assert_modified_segments ctx [(3000, 7000); (13000, 20000)];;
  assert_cut_original_segments ctx [(3000, 7000); (13000, 20000)].

(** ** All of them *)

Definition tests : list (string * test unit) :=
  [("adjust_room_test_1", adjust_room_test_1); ("adjust_room_test_2", adjust_room_test_2);
   ("adjust_room_test_3", adjust_room_test_3); ("adjust_room_test_4", adjust_room_test_4);
   ("adjust_room_test_5", adjust_room_test_5); ("adjust_room_test_6", adjust_room_test_6);
   ("adjust_room_test_7", adjust_room_test_7); ("adjust_room_test_8", adjust_room_test_8);
   ("adjust_room_test_9", adjust_room_test_9); ("adjust_room_test_10", adjust_room_test_10);
   ("adjust_room_test_11", adjust_room_test_11); ("adjust_room_test_12", adjust_room_test_12);
   ("adjust_room_test_14", adjust_room_test_14); ("adjust_room_test_15", adjust_room_test_15);
   ("adjust_room_test_16", adjust_room_test_16); ("adjust_room_test_my", adjust_room_test_my);
   ("adjust_room_test_my2", adjust_room_test_my2); ("adjust_room_test_pin", adjust_room_test_pin);
   ("adjust_room_test_removed", adjust_room_test_removed);
   ("adjust_room_test_break_event_as_stream_cut", adjust_room_test_break_event_as_stream_cut);
   ("adjust_room_test_video_group_event_as_stream_cut", adjust_room_test_video_group_event_as_stream_cut);
   ("adjust_room_test_break_and_video_group_events_as_stream_cut",
    adjust_room_test_break_and_video_group_events_as_stream_cut)]%string.
