(* ===== verification/CommitTests.v ===== *)
(** * The tests of the commit of an edition

    The tests of [src/src/app/operations/commit_edition.rs]. *)

From S2P Require Import Prelude Intervals Floats Times Types Db Schema CompactEvent EventDb RoomDb EditionDb AgentDb Effects AdjustRoom CommitEdition Errors Service TestHelpers.
Import SharedHelpers.
#[local] Open Scope string_scope.

Definition AUDIENCE : string := "dev.svc.example.org".

Definition message (text : string) : json := obj [("message", JString text)].
Definition cut_data (command : string) : json := obj [("cut", JString command)].

(** [create_event]. *)
Definition create_event (room : Room) (occurred_at : Z) (kind : string) (data : json) : test Event :=
  let created_by := AgentId (AccountId "test" AUDIENCE) "test" in
  time <~ expect "Invalid room time" (lift (RoomDb.time room));
  Factory.Event.insert
    (Factory.Event.new
       |> Factory.Event.room_id (room_id room)
       |> Factory.Event.kind kind
       |> Factory.Event.data data
       |> Factory.Event.occurred_at occurred_at
       |> Factory.Event.created_by created_by
       |> Factory.Event.created_at (rt_start time + occurred_at)%Z).

(** The events of the milliseconds, kinds and data. *)
Fixpoint create_events (room : Room) (events : list (Z * string * json)) : test (list Event) :=
  match events with
  | [] => ret []
  | (ms, kind, data) :: events =>
    event <~ create_event room (milliseconds ms) kind data;
    rest <~ create_events room events;
    ret (event :: rest)
  end.

(** An added cut event of the edition. *)
Definition add_cut (edition : Edition) (agent : agent_id) (command : string) (occurred_at : Z) : test Change :=
  Factory.Change.insert
    (Factory.Change.new (edition_id edition) Addition
       |> Factory.Change.event_data (cut_data command)
       |> Factory.Change.event_kind "stream"
       |> Factory.Change.event_set "stream"
       |> Factory.Change.event_occurred_at occurred_at
       |> Factory.Change.event_created_by agent).

(** The commit, what it says of the rooms, and the events of the destination. *)
Definition commit (edition : Edition) (room : Room) (segments_len : nat) : test (Room * list Event) :=
  '(destination, segments) <~ expect "edition commit failed" (CommitEdition.call edition room 0 (seconds 1));
  source_room_id <~ expect_some "called `Option::unwrap()` on a `None` value" (room_source_room_id destination);
  assert_eq source_room_id (room_id room);;
  assert_eq (room_audience room) (room_audience destination);;
  assert_eq (room_tags room) (room_tags destination);;
  assert_eq (length segments) segments_len;;
  events <~ expect "Failed to fetch events"
    (run (ListQuery.execute (ListQuery.room_id (room_id destination) ListQuery.new)));
  ret (destination, events).

(** When the event occurred, and the text of the field of its data. *)
Definition assert_event (events : list Event) (i : nat) (occurred_at : Z) (field text : string) : test unit :=
  event <~ index events i;
  assert_eq (event_occurred_at event) occurred_at;;
  assert_eq (json_get field (event_data event)) (Some (JString text)).

Definition commit_edition : test unit :=
  let agent := user in
  room <~ insert_room;
  events <~ create_events room
    [(1000, "message", message "m1"); (2000, "message", message "m2"); (2500, "message", message "passthrough");
     (3000, "stream", cut_data "start"); (4000, "message", message "m4"); (5000, "stream", cut_data "stop");
     (6000, "message", message "m5")]%Z;
  e1 <~ index events 0;
  e2 <~ index events 1;
  edition <~ insert_edition room agent;
  Factory.Change.insert
    (Factory.Change.new (edition_id edition) Addition
       |> Factory.Change.event_data (message "newmessage")
       |> Factory.Change.event_kind "something"
       |> Factory.Change.event_set "type"
       |> Factory.Change.event_label "mylabel"
       |> Factory.Change.event_occurred_at 3000000000
       |> Factory.Change.event_created_by (AgentId (AccountId "foo" USR_AUDIENCE) "barbaz"));;
  Factory.Change.insert
    (Factory.Change.new (edition_id edition) Modification
       |> Factory.Change.event_data (obj [("key", JString "value")])
       |> Factory.Change.event_label "randomlabel"
       |> Factory.Change.event_id (event_id e1));;
  Factory.Change.insert
    (Factory.Change.new (edition_id edition) Removal |> Factory.Change.event_id (event_id e2));;
  '(_, events) <~ commit edition room 2;
  assert_eq (length events) 5%nat;;
  assert_event events 0 1000000000 "key" "value";;
  assert_event events 1 2500000000 "message" "passthrough";;
  assert_event events 2 3000000000 "message" "newmessage";;
  event2 <~ index events 2;
  assert_eq (agent_label (event_created_by event2)) "barbaz";;
  assert_eq (acc_label (agent_account (event_created_by event2))) "foo";;
  assert_event events 3 3000000002 "message" "m4";;
  assert_event events 4 4000000000 "message" "m5".

(** A room of the classroom, of the time. *)
Definition classroom_room (classroom_id : uuid) (time : BoundedDateTimeTuple) : test Room :=
  Factory.Room.insert
    (Factory.Room.new classroom_id Webinar
       |> Factory.Room.audience USR_AUDIENCE
       |> Factory.Room.time time
       |> Factory.Room.tags webinar_tags).

Definition commit_edition_with_cut_changes : test unit :=
  let agent := user in
  classroom_id <~ new_v4;
  now <~ now_trunc;
  room <~ classroom_room classroom_id (Included now, Excluded (now + hours 1)%Z);
  create_events room
    [(2500, "message", message "passthrough"); (3500, "message", message "cut out");
     (4200, "stream", cut_data "start"); (4500, "message", message "some message");
     (4800, "stream", cut_data "stop")]%Z;;
  edition <~ insert_edition room agent;
  add_cut edition agent "start" 3000000000;;
  add_cut edition agent "stop" 4000000000;;
  '(destination, events) <~ commit edition room 3;
  assert_eq classroom_id (room_classroom_id destination);;
  assert_eq (length events) 3%nat;;
  assert_event events 0 2500000000 "message" "passthrough";;
  assert_event events 1 3000000001 "message" "cut out";;
  assert_event events 2 3200000001 "message" "some message".

Definition commit_edition_with_intersecting_gaps : test unit :=
  let agent := user in
  room <~ insert_room;
  create_events room
    [(2500, "message", message "passthrough"); (3000, "stream", cut_data "start");
     (3500, "message", message "cutted out"); (4000, "stream", cut_data "stop");
     (5000, "message", message "passthrough2")]%Z;;
  edition <~ insert_edition room agent;
  add_cut edition agent "start" 3200000000;;
  add_cut edition agent "stop" 4500000000;;
  '(_, events) <~ commit edition room 2;
  assert_eq (length events) 3%nat;;
  assert_event events 0 2500000000 "message" "passthrough";;
  assert_event events 1 3000000001 "message" "cutted out";;
  assert_event events 2 3500000000 "message" "passthrough2".

(** 2022-12-29 11:00:57.088 and 11:39:22.888. *)
Definition t1 : Z := (seconds 1672311657 + milliseconds 88)%Z.
Definition t2 : Z := (seconds 1672313962 + milliseconds 888)%Z.

Definition commit_edition_with_min_segment_length : test unit :=
  classroom_id <~ new_v4;
  let room_duration := (t2 - t1)%Z in
  room <~ classroom_room classroom_id (Included t1, Excluded t2);
  let agent := user in
  edition <~ insert_edition room agent;
  ch1 <~ add_cut edition agent "start" 2243994000000;
  ch2 <~ add_cut edition agent "stop" 2263628000000;
  ch3 <~ add_cut edition agent "start" 2273725000000;
  ch4 <~ add_cut edition agent "stop" 2305000000000;
  cut_gaps <~ expect "called `Result::unwrap()` on an `Err` value" (lift (collect_gaps [] [ch1; ch2; ch3; ch4]));
  inverted <~ expect "called `Result::unwrap()` on an `Err` value"
    (lift (invert_segments cut_gaps room_duration (seconds 1)));
  let modified_segments := (fun r : Z * Z =>
    (Included (Z.quot r.1 NANOSECONDS_IN_MILLISECOND), Excluded (Z.quot r.2 NANOSECONDS_IN_MILLISECOND)))
      <$> inverted in
  assert_eq modified_segments [(Included 0, Excluded 2243994); (Included 2263628, Excluded 2273725)]%Z.

(** ** All of them *)

Definition tests : list (string * test unit) :=
  [("commit_edition", commit_edition); ("commit_edition_with_cut_changes", commit_edition_with_cut_changes);
   ("commit_edition_with_intersecting_gaps", commit_edition_with_intersecting_gaps);
   ("commit_edition_with_min_segment_length", commit_edition_with_min_segment_length)].
