(* ===== verification/DbTests.v ===== *)
(** * The tests of the database and of the formats

    The tests of [src/src/db/event/set_state.rs], [src/src/db/room_ban.rs],
    [src/src/db/room_time.rs], [src/src/serde.rs] and
    [src/src/app/operations/adjust_room/intersect.rs]. *)

From S2P Require Import Prelude Intervals Floats Times Types Db Schema CompactEvent EventDb SetState RoomDb EditionDb AgentDb Effects Errors Service TestHelpers.
Import SharedHelpers.
#[local] Open Scope string_scope.

(** ** The state of a set *)

Module SetStateTests.

(** [format!("message-{}", Uuid::new_v4())]. *)
Definition new_label : test string := id <~ new_v4; ret ("message-" ++ uuid_to_string id).

Definition message_builder (room : Room) (label : string) (occurred_at : Z) (agent : agent_id) (removed : bool)
    : Factory.Event.t :=
  Factory.Event.new
    |> Factory.Event.room_id (room_id room)
    |> Factory.Event.kind "message"
    |> Factory.Event.set "messages"
    |> Factory.Event.label label
    |> Factory.Event.data (text "message")
    |> Factory.Event.occurred_at occurred_at
    |> Factory.Event.created_by agent
    |> Factory.Event.removed removed.

(** The query gives so many events; there are so many in all. *)
Definition assert_state (q : SetStateQuery.t) (n : nat) : test (list Event) :=
  r <~ expect "called `Result::unwrap()` on an `Err` value" (run (SetStateQuery.execute q));
  assert_eq (length r) n;;
  total <~ expect "called `Result::unwrap()` on an `Err` value" (run (SetStateQuery.total_count q));
  assert_eq total (Z.of_nat n);;
  ret r.

Definition query_with_removed_events : test unit :=
  let agent := user in
  room <~ insert_room;
  msg1_label <~ new_label;
  msg2_label <~ new_label;
  Factory.Event.insert (message_builder room msg1_label 1000 agent false);;
  Factory.Event.insert (message_builder room msg2_label 5000 agent false);;
  let q := SetStateQuery.new (room_id room) "messages" 100000 100 in
  assert_state q 2;;
  Factory.Event.insert (message_builder room msg1_label 10000 agent true);;
  Factory.Event.insert (message_builder room msg2_label 12000 agent true);;
  assert_state q 0;;
  ret tt.

Definition query_with_removed_pins : test unit :=
  let agent := user in
  room <~ insert_room;
  msg1_label <~ new_label;
  msg2_label <~ new_label;
  Factory.Event.insert (message_builder room msg1_label 1000 agent false);;
  Factory.Event.insert (message_builder room msg1_label 3000 agent false |> Factory.Event.attribute "pinned");;
  Factory.Event.insert (message_builder room msg2_label 7000 agent false);;
  Factory.Event.insert (message_builder room msg2_label 8000 agent false |> Factory.Event.attribute "pinned");;
  let q := SetStateQuery.new (room_id room) "messages" 100000 100 |> SetStateQuery.attribute "pinned" in
  assert_state q 2;;
  Factory.Event.insert (message_builder room msg1_label 12000 agent true);;
  r <~ assert_state q 1;
  r0 <~ index r 0;
  assert_eq (event_label r0) (Some msg2_label);;
  Factory.Event.insert (message_builder room msg1_label 15000 agent false);;
  r <~ assert_state q 1;
  r0 <~ index r 0;
  assert_eq (event_label r0) (Some msg2_label).

Definition query_with_duplicated_labels : test unit :=
  let agent := user in
  room <~ insert_room;
  msg_label <~ new_label;
  Factory.Event.insert (message_builder room msg_label 1000 agent false);;
  Factory.Event.insert (message_builder room msg_label 7000 agent false);;
  assert_state (SetStateQuery.new (room_id room) "messages" 100000 2) 1;;
  ret tt.

End SetStateTests.

(** ** Bans *)

Definition find_ban_multirooms : test unit :=
  let banned_agent := user in
  classroom_id <~ new_v4;
  let insert_room :=
    now <~ now;
    Factory.Room.insert
      (Factory.Room.new classroom_id Webinar
         |> Factory.Room.audience USR_AUDIENCE
         |> Factory.Room.time (Included now, Unbounded)) in
  insert_room;;
  room <~ insert_room;
  Factory.RoomBan.insert (Factory.RoomBan.new (agent_account banned_agent) (room_id room));;
  ban <~ expect "Ban query failed" (run (BanQueries.classroom_find (agent_account banned_agent) classroom_id));
  assert (negb (is_none ban)).

(** ** The time of a room *)

Module RoomTimeTests.

(** The hours before or after [now]; every update reads the clock. *)
Definition between (now a b : Z) : BoundedDateTimeTuple := (Included (now + hours a)%Z, Excluded (now + hours b)%Z).

Definition update (rt : RoomTime) (time : BoundedDateTimeTuple) : test (option RoomTime) :=
  now <~ now; ret (RoomTimeImpl.update now rt time).

Definition new_time (time : BoundedDateTimeTuple) : test RoomTime := expect_some "Cant fail" (RoomTimeImpl.new time).

Definition test_update_past_room : test unit :=
  now <~ now;
  rt <~ new_time (between now (-3) (-2));
  past <~ update rt (between now (-5) (-1));
  assert_eq past None;;
  present <~ update rt (between now (-5) 1);
  assert_eq present None;;
  future <~ update rt (between now 5 8);
  assert_eq future None.

Definition test_update_future_room : test unit :=
  now <~ now;
  rt <~ new_time (between now 3 4);
  past <~ update rt (between now (-5) (-1));
  assert (negb (is_none past));;
  present <~ update rt (between now (-5) 1);
  assert (negb (is_none present));;
  future <~ update rt (between now 5 8);
  assert (negb (is_none future)).

Definition test_update_present_room : test unit :=
  now <~ now;
  let old_start := Included (now + hours (-3))%Z in
  rt <~ new_time (between now (-3) 4);
  updated <~ update rt (between now (-5) (-1));
  rt1 <~ expect_some "Shouldnt fail" (RoomTimeImpl.into_tuple <$> updated);
  assert_eq rt1.1 old_start;;
  match rt1.2 with
  | Excluded end_ => assert (Z.abs (Z.quot (end_ - now) nanos_per_sec) <? 1)%Z
  | _ => fail "Invalid Bound"
  end;;
  updated <~ update rt (between now (-5) 8);
  rt2 <~ expect_some "Shouldnt fail" (RoomTimeImpl.into_tuple <$> updated);
  assert_eq rt2 (old_start, Excluded (now + hours 8)%Z);;
  updated <~ update rt (between now 5 8);
  rt3 <~ expect_some "Shouldnt fail" (RoomTimeImpl.into_tuple <$> updated);
  assert_eq rt3 (old_start, Excluded (now + hours 8)%Z).

End RoomTimeTests.

(** ** The formats of ranges *)

Module SerdeTests.

Definition segments : Segments := [(Included 0, Excluded 1000); (Included 2000, Excluded 3000)]%Z.
Definition serialized : list (option Z * option Z) := [(Some 0, Some 1000); (Some 2000, Some 3000)]%Z.

Definition serialize_milliseconds_bound_tuples : test unit :=
  assert_eq (MillisecondsBoundTuples.serialize segments) serialized.

Definition deserialize_milliseconds_bound_tuples : test unit :=
  data <~ expect "Failed to deserialize test data" (lift (MillisecondsBoundTuples.visit_seq [] serialized));
  assert_eq data (segments, []).

(** The same visitor reads the field in a flattened structure. *)
Definition ts_seconds_option_bound_tuple : test unit :=
  now <~ now_trunc;
  let deserialize d :=
    expect "called `Result::unwrap()` on an `Err` value"
      (lift (TsSecondsOptionBoundTuple.deserialize from_timestamp_total d)) in
  data <~ deserialize (VisitSome [Some (timestamp now); Some (timestamp now)]);
  '(start, end_) <~ expect_some "called `Option::unwrap()` on a `None` value" data;
  assert_eq start (Included now);;
  assert_eq end_ (Excluded now);;
  data <~ deserialize VisitNone;
  assert_eq data None;;
  data <~ deserialize VisitUnit;
  assert_eq data None.

Definition duration_seconds : test unit :=
  data <~ expect "called `Result::unwrap()` on an `Err` value" (lift (DurationSeconds.visit_u64 123));
  assert_eq data (seconds 123).

End SerdeTests.

(** ** Intersection of ranges *)

Definition assert_intersect (a b r : list range) : test unit := assert_eq (intersect a b) (Some r).

Definition test_intersect : test unit := assert_intersect [(0, 1)] [(0, 3)] [(0, 1)]%Z.
Definition test_intersect1 : test unit := assert_intersect [(0, 1)] [(2, 3)] []%Z.
Definition test_intersect2 : test unit := assert_intersect [(0, 3); (6, 8)] [(1, 7)] [(1, 3); (6, 7)]%Z.
Definition test_intersect4 : test unit := assert_intersect [(0, 3); (6, 8)] [] []%Z.
Definition test_intersect5 : test unit := assert_intersect [(0, 3); (6, 8)] [(7, 10)] [(7, 8)]%Z.

(** ** All of them *)

Definition tests : list (string * test unit) :=
  [("query_with_removed_events", SetStateTests.query_with_removed_events);
   ("query_with_removed_pins", SetStateTests.query_with_removed_pins);
   ("query_with_duplicated_labels", SetStateTests.query_with_duplicated_labels);
   ("find_ban_multirooms", find_ban_multirooms);
   ("test_update_past_room", RoomTimeTests.test_update_past_room);
   ("test_update_future_room", RoomTimeTests.test_update_future_room);
   ("test_update_present_room", RoomTimeTests.test_update_present_room);
   ("serialize_milliseconds_bound_tuples", SerdeTests.serialize_milliseconds_bound_tuples);
   ("deserialize_milliseconds_bound_tuples", SerdeTests.deserialize_milliseconds_bound_tuples);
   ("ts_seconds_option_bound_tuple", SerdeTests.ts_seconds_option_bound_tuple);
   ("duration_seconds", SerdeTests.duration_seconds);
   ("test_intersect", test_intersect); ("test_intersect1", test_intersect1);
   ("test_intersect2", test_intersect2); ("test_intersect4", test_intersect4);
   ("test_intersect5", test_intersect5)].
