(* ===== verification/PayloadTests.v ===== *)
(** * Tests of payloads

    The tests of the repository that parse JSON text: [parse_list_request] of
    [app/endpoint/event.rs], [test_parsing] of [app/endpoint/room.rs], and the tests
    of [app/broker_client.rs].  A text is given as the document it holds. *)

From Stdlib Require Import Ascii.
From S2P Require Import Prelude Times Types EventDb Sample Effects Service EventEndpoint Http Router Payloads TestHelpers.
#[local] Open Scope string_scope.

(** ** Identifiers in hexadecimal *)

Definition hex_digit (c : ascii) : option N :=
  let n := N_of_ascii c in
  if (48 <=? n)%N && (n <=? 57)%N then Some (n - 48)%N
  else if (97 <=? n)%N && (n <=? 102)%N then Some (n - 87)%N else None.

Fixpoint hex (acc : N) (s : string) : option N :=
  match s with
  | EmptyString => Some acc
  | String "-" s => hex acc s
  | String c s => d ← hex_digit c; hex (16 * acc + d)%N s
  end.

#[local] Instance hex_externals : Externals := {|
  uuid_to_string := uuid_to_string;
  uuid_parse s := if (String.length s =? 36)%nat then hex 0 s else None;
  account_to_string := account_to_string;
  account_from_str := account_from_str;
  json_to_string := json_to_string;
  jsonb_octets := jsonb_octets;
  text_leb := text_leb
|}.

(** ** [event.list] *)

Definition list_document (l : list (string * json)) : json :=
  JObject (("room_id", JString "c1e48d94-8c7e-49bc-af1c-fc77a63f72e6") :: l).

(** [serde_json::from_str(..).unwrap()], and what is asserted of its types. *)
Definition parses_to (v : json) (kind : option KindFilter) : bool :=
  match decode EventList v, kind with
  | Some x, None => match EventEndpoint.lr_kind x with None => true | _ => false end
  | Some x, Some (Single k) =>
    match EventEndpoint.lr_kind x with Some (Single k') => bool_decide (k = k') | _ => false end
  | Some x, Some (Multiple l) =>
    match EventEndpoint.lr_kind x with Some (Multiple l') => bool_decide (l = l') | _ => false end
  | None, _ => false
  end.

Definition parse_list_request : test unit :=
  assert (parses_to (list_document []) None);;
  assert (parses_to (list_document [("type", JArray [JString "a"; JString "c"; JString "x"])])
            (Some (Multiple ["a"; "c"; "x"])));;
  assert (parses_to (list_document [("type", JString "test")]) (Some (Single "test")));;
  assert (parses_to (list_document [("type", JArray [JString "test"])]) (Some (Multiple ["test"]))).

(** ** [room.enter] *)

Definition enter_document (l : list (string * json)) : json :=
  JObject (("id", JString "82f62913-c2ba-4b21-b24f-5ed499107c0a") :: l).

Definition test_parsing : test unit :=
  assert (bool_decide (is_Some (decode RoomEnter (enter_document []))));;
  assert (bool_decide (is_Some (decode RoomEnter (enter_document [("broadcast_subscription", JBool true)]))));;
  assert (bool_decide (is_Some (decode RoomEnter (enter_document [("broadcast_subscription", JBool false)])))).

(** ** The answers of the broker *)

Definition parse_err : test unit :=
  let reason := "Subject was not in vmq_subscriber_db" in
  assert match broker_response (JObject [("reason", JString reason)]) with
         | Some (BrokerErr r) => bool_decide (r = reason)
         | _ => false
         end.
Definition parse_ok : test unit :=
  assert match broker_response (JObject []) with Some _ => true | None => false end.

Definition tests : list (string * test unit) :=
  [("parse_list_request", parse_list_request); ("test_parsing", test_parsing); ("parse_err", parse_err);
   ("parse_ok", parse_ok)].
