(* ===== verification/Tests.v ===== *)
(** * The tests of the repository, on the model

    The tests of the figures as computations like the others, the list of all tests
    of the repository that the model can run, and the check that they pass. *)

From S2P Require Import Prelude Types CompactEvent Figures Effects Service TestHelpers.
From S2P Require EventTests RoomTests StateTests AgentTests MaintenanceTests EditionTests AdjustTests CommitTests DbTests PayloadTests.
#[local] Open Scope string_scope.

(** ** The tests of the figures *)

Module SchemaTests.

Definition test_roundtrip : test unit :=
  id <~ new_v4; assert (Figures.test_roundtrip id [sample_path_figure; sample_rect]).
Definition test_encode_decode_event : test unit := assert (Figures.test_encode_decode_event sample_rect).
Definition test_losing_precision_error : test unit := assert (Figures.test_losing_precision_error precise_figure).
Definition test_path_encode_decode : test unit := assert Figures.test_path_encode_decode.

Definition tests : list (string * test unit) :=
  [("test_roundtrip", test_roundtrip); ("test_encode_decode_event", test_encode_decode_event);
   ("test_losing_precision_error", test_losing_precision_error);
   ("test_path_encode_decode", test_path_encode_decode)].

End SchemaTests.

(** ** All of them *)

Definition tests : list (string * test unit) :=
  EventTests.tests ++ StateTests.tests ++ RoomTests.tests ++ AgentTests.tests ++ MaintenanceTests.tests
  ++ EditionTests.tests ++ AdjustTests.tests ++ CommitTests.tests ++ DbTests.tests ++ SchemaTests.tests
  ++ PayloadTests.tests.

(** The names of the tests that fail. *)
Definition failed (tests : list (string * test unit)) : list string :=
  omap (fun t => if passes t.2 then None else Some t.1) tests.

(** The tests pass.  The 152 tests of the repository, as the definitions of the
    files of the tests have them, are run by the definitions of this development,
    those of the database each from an empty one in the tests' environment: none
    ends with a failed assertion or a panic. *)
Example tests_pass : length tests = 152%nat /\ failed tests = [].
Proof. split; vm_compute; reflexivity. Qed.
